(** * MutualGuide: shallow embedding of the evaluation post-processing
      (main.py), the detector head (models/detector.py) and the RepVGG
      re-parameterisation (models/repvgg_backbone.py).

    Conventions.  Python integers are [Z]; lengths, shapes and array indices
    are [nat]; float scores are exact rationals [Q] (every finite float is a
    rational, and a score that passed [> thresh] is never a NaN); the float
    tensors of the RepVGG block are idealised as real numbers [R].  An
    operation that raises in Python returns [None] (or an explicit exception
    value) here. *)

From Stdlib Require Import String.
From Stdlib Require Import List ZArith QArith Lia Lra Bool Arith.
From Stdlib Require Import Permutation Sorted ArithRing.
From Stdlib Require Import Reals.
Import ListNotations.
Close Scope Q_scope.
Close Scope Z_scope.

(** ** Small option monad, used wherever the Python code can raise. *)

Definition obind {A B : Type} (o : option A) (k : A -> option B) : option B :=
  match o with
  | Some a => k a
  | None => None
  end.

Notation "x <- e ;; k" := (obind e (fun x => k))
  (at level 61, e at next level, right associativity).

Fixpoint omap {A B : Type} (f : A -> option B) (l : list A) : option (list B) :=
  match l with
  | [] => Some []
  | a :: l' =>
      b <- f a ;;
      bs <- omap f l' ;;
      Some (b :: bs)
  end.

(** ** main.py: the per-image post-processing of the evaluation loop *)

Module Main.

(** A 2-D numpy array of floats, with its shape [(length rows, ncols)]
    kept explicit so that an empty array still has a column count. *)
Record ndarray2 : Type := mk_ndarray2 { ncols : nat; rows : list (list Q) }.

Definition shape (a : ndarray2) : nat * nat := (length (rows a), ncols a).

(** [np.empty([r, c])] for [r = 0] (the only use in main.py). *)
Definition np_empty0 (c : nat) : ndarray2 := mk_ndarray2 c [].

(** Lines 181-182. *)
Definition thresh : Q := 5 # 1000.
Definition max_per_image : Z := 300.

Definition Qltb (x y : Q) : bool := negb (Qle_bool y x).

(** [a[:, k]]: IndexError when [k] is not a column. *)
Definition column (a : ndarray2) (k : nat) : option (list Q) :=
  if (k <? ncols a)%nat then Some (map (fun r => nth k r 0%Q) (rows a)) else None.

(** [a[:, -1]]. *)
Definition last_column (a : ndarray2) : option (list Q) :=
  if (0 <? ncols a)%nat then column a (ncols a - 1) else None.

(** [np.where(mask)[0]]: the positions at which the mask holds, ascending. *)
Fixpoint np_where_from (i : nat) (mask : list bool) : list nat :=
  match mask with
  | [] => []
  | b :: mask' => if b then i :: np_where_from (S i) mask' else np_where_from (S i) mask'
  end.

Definition np_where (mask : list bool) : list nat := np_where_from 0 mask.

(** [a[inds]] and [a[inds, :]] for a list of row numbers: IndexError on a
    row number that is out of range. *)
Definition take_rows (a : ndarray2) (inds : list nat) : option ndarray2 :=
  rs <- omap (fun i => nth_error (rows a) i) inds ;;
  Some (mk_ndarray2 (ncols a) rs).

(** [v[inds]] for a 1-D array. *)
Definition take (v : list Q) (inds : list nat) : option (list Q) :=
  omap (fun i => nth_error v i) inds.

(** [np.hstack((b, s[:, np.newaxis]))]: one more column; the row counts
    must agree. *)
Definition hstack_column (b : ndarray2) (s : list Q) : option ndarray2 :=
  if (length (rows b) =? length s)%nat
  then Some (mk_ndarray2 (ncols b + 1)
               (map (fun rs => fst rs ++ [snd rs]) (combine (rows b) s)))
  else None.

(** [np.hstack] of a Python list of 1-D arrays: ValueError on no array. *)
Definition np_hstack (vs : list (list Q)) : option (list Q) :=
  match vs with
  | [] => None
  | _ => Some (concat vs)
  end.

(** [np.sort]: ascending order. *)
Fixpoint insert_sorted (x : Q) (l : list Q) : list Q :=
  match l with
  | [] => [x]
  | y :: l' => if Qle_bool x y then x :: l else y :: insert_sorted x l'
  end.

Fixpoint np_sort (l : list Q) : list Q :=
  match l with
  | [] => []
  | x :: l' => insert_sorted x (np_sort l')
  end.

(** [v[i]] for a Python integer index: negative indices count from the end,
    IndexError outside [-len, len). *)
Definition py_index (v : list Q) (i : Z) : option Q :=
  let n := Z.of_nat (length v) in
  if (0 <=? i)%Z then nth_error v (Z.to_nat i)
  else if (0 <=? n + i)%Z then nth_error v (Z.to_nat (n + i))
  else None.

Section PerImage.

(** [utils.box.nms] is not part of the sources at hand: it maps the
    candidate array and the IoU threshold to the row numbers it keeps. *)
Variable nms : ndarray2 -> Q -> list nat.
(** [args.nms_thresh]. *)
Variable nms_thresh : Q.

(** Line 210: [inds = np.where(scores[:, j - 1] > thresh)[0]]. *)
Definition class_inds (scores : ndarray2) (j : nat) : option (list nat) :=
  sc <- column scores (j - 1) ;;
  Some (np_where (map (fun s => Qltb thresh s) sc)).

(** Lines 214-216: the candidate array [c_dets] handed to [nms]. *)
Definition class_candidates (boxes scores : ndarray2) (j : nat) (inds : list nat)
  : option ndarray2 :=
  c_bboxes <- take_rows boxes inds ;;
  sc <- column scores (j - 1) ;;
  c_scores <- take sc inds ;;
  hstack_column c_bboxes c_scores.

(** Lines 210-219: the body of the loop over the classes, for class [j];
    the result is the new [all_boxes[j][i]]. *)
Definition class_dets (boxes scores : ndarray2) (j : nat) : option ndarray2 :=
  inds <- class_inds scores j ;;
  if (length inds =? 0)%nat then Some (np_empty0 5)
  else
    c_dets <- class_candidates boxes scores j inds ;;
    let keep := nms c_dets nms_thresh in
    take_rows c_dets keep.

(** Lines 209-219: [for j in range(1, num_classes)]; the result lists
    [all_boxes[j][i]] for [j = 1 .. num_classes - 1]. *)
Definition image_dets (num_classes : nat) (boxes scores : ndarray2)
  : option (list ndarray2) :=
  omap (class_dets boxes scores) (seq 1 (num_classes - 1)).

End PerImage.

(** Lines 225-226 for one class: keep the rows whose last column is at least
    [image_thresh]. *)
Definition cap_class (image_thresh : Q) (a : ndarray2) : option ndarray2 :=
  sc <- last_column a ;;
  let keep := np_where (map (fun s => Qle_bool image_thresh s) sc) in
  take_rows a keep.

(** Lines 220-226, with the cap as a parameter; [dets] lists
    [all_boxes[j][i]] for [j = 1 .. num_classes - 1]. *)
Definition cap_with (cap : Z) (dets : list ndarray2) : option (list ndarray2) :=
  if (0 <? cap)%Z then
    cols <- omap last_column dets ;;
    image_scores <- np_hstack cols ;;
    if (cap <? Z.of_nat (length image_scores))%Z then
      image_thresh <- py_index (np_sort image_scores) (- cap) ;;
      omap (cap_class image_thresh) dets
    else Some dets
  else Some dets.

Definition image_cap (dets : list ndarray2) : option (list ndarray2) :=
  cap_with max_per_image dets.

(** The number of detections of an image, over all its classes. *)
Definition total_dets (dets : list ndarray2) : nat :=
  list_sum (map (fun a => length (rows a)) dets).

(** The score of a detection row of [a]: its last entry. *)
Definition row_score (a : ndarray2) (r : list Q) : Q := nth (ncols a - 1) r 0%Q.

(** All the scores of an image, class after class. *)
Definition all_scores (dets : list ndarray2) : list Q :=
  concat (map (fun a => map (row_score a) (rows a)) dets).

(** The rows of [a] whose score is at least [t]. *)
Definition rows_at_least (t : Q) (a : ndarray2) : ndarray2 :=
  mk_ndarray2 (ncols a) (filter (fun r => Qle_bool t (row_score a r)) (rows a)).

(** Lines 209-226: the post-processing of one image, from the boxes and
    the scores of its anchors to the final [all_boxes[j][i]],
    [j = 1 .. num_classes - 1]. *)
Definition image_post (nms : ndarray2 -> Q -> list nat) (nms_thresh : Q)
  (num_classes : nat) (boxes scores : ndarray2) : option (list ndarray2) :=
  dets <- image_dets nms nms_thresh num_classes boxes scores ;;
  image_cap dets.

(** *** The training utilities of main.py *)

(** Lines 57-61: the learning rate of an iteration; the floats are taken
    as real numbers.  [x / n] raises ZeroDivisionError for the integer
    [n = 0]. *)
Definition lr_floor : R := (1 / 1000000)%R.

Definition schedule (args_lr : R) (iteration warm_iter max_iter : Z) : option R :=
  if (iteration <=? warm_iter)%Z then
    if (warm_iter =? 0)%Z then None
    else Some (lr_floor + (args_lr - lr_floor) * IZR iteration / IZR warm_iter)%R
  else
    if (max_iter - warm_iter =? 0)%Z then None
    else Some (lr_floor
               + (args_lr - lr_floor) * (5 / 10)
                 * (1 + cos (IZR (iteration - warm_iter) * PI
                             / IZR (max_iter - warm_iter))))%R.

(** A trainable tensor of a model, by what [tencent_trick] reads of it. *)
Record parameter : Type := mk_parameter
  { p_shape : list nat; requires_grad : bool }.

(** A parameter group, a dict: its ['params'], and its ['lr'] and
    ['weight_decay'] when it has these keys. *)
Record param_group : Type := mk_param_group
  { group_params : list parameter;
    group_lr : option R;
    group_weight_decay : option R }.

Definition set_lr (lr : R) (g : param_group) : param_group :=
  mk_param_group (group_params g) (Some lr) (group_weight_decay g).

(** Lines 57-64: [adjust_learning_rate]; the result is the list of the
    parameter groups of the optimizer after the call, and the value
    returned ([epoch] is not read). *)
Definition adjust_learning_rate (args_lr : R) (param_groups : list param_group)
  (epoch iteration warm_iter max_iter : Z) : option (list param_group * R) :=
  lr <- schedule args_lr iteration warm_iter max_iter ;;
  Some (map (set_lr lr) param_groups, lr).

(** [s.endswith(suffix)]. *)
Definition endswith (s suffix : string) : bool :=
  (String.length suffix <=? String.length s)
  && String.eqb (substring (String.length s - String.length suffix)
                   (String.length suffix) s) suffix.

(** Lines 69-75: the loop of [tencent_trick] over
    [model.named_parameters()]. *)
Fixpoint tencent_loop (named : list (string * parameter))
  (decay no_decay : list parameter) : list parameter * list parameter :=
  match named with
  | [] => (decay, no_decay)
  | (name, param) :: named' =>
      if negb (requires_grad param) then tencent_loop named' decay no_decay
      else if (length (p_shape param) =? 1) || endswith name ".bias"
           then tencent_loop named' decay (no_decay ++ [param])
           else tencent_loop named' (decay ++ [param]) no_decay
  end.

(** Lines 67-76. *)
Definition tencent_trick (named : list (string * parameter)) : list param_group :=
  let '(decay, no_decay) := tencent_loop named [] [] in
  [mk_param_group no_decay None (Some 0%R); mk_param_group decay None None].

(** The exceptions of the training loop and of [load_dataset]. *)
Inductive train_exn : Type :=
| ZeroDivisionError
| StopIteration
| NameError
| IndexError
| KeyError
| NotImplementedError (dataset : string).

(** Lines 79-100, for the two numbers the training loop reads:
    [epoch_size] and [max_iter]; the lengths of the two data sets are given
    ([//] raises for a batch size of 0 and rounds down). *)
Definition load_dataset (dataset : string) (len_VOC len_COCO batch_size : Z)
  : train_exn + (Z * Z) :=
  if (dataset =? "VOC")%string then
    if (batch_size =? 0)%Z then inl ZeroDivisionError
    else let epoch_size := (len_VOC / batch_size)%Z in
         inr (epoch_size, (250 * epoch_size)%Z)
  else if (dataset =? "COCO")%string then
    if (batch_size =? 0)%Z then inl ZeroDivisionError
    else let epoch_size := (len_COCO / batch_size)%Z in
         inr (epoch_size, (140 * epoch_size)%Z)
  else inl (NotImplementedError dataset).

(** The variables of the training loop (lines 144-178): [epoch], the
    batches left in [batch_iterator] ([None] before it is bound) and the
    parameter groups of the optimizer; [lrs] records the learning rate of
    each iteration done.  The forward and backward passes, the step of the
    optimizer and the timer, which are calls into torch or into files that
    are not at hand, are taken to return. *)
Record loop_state : Type := mk_loop_state
  { epoch : Z;
    batch_iterator : option nat;
    param_groups : list param_group;
    lrs : list R }.

(** Lines 168-177: every 100 iterations a line is printed that reads
    [optimizer.param_groups[0]['lr']]: IndexError when the optimizer has no
    parameter group, KeyError when the first group has no ['lr']. *)
Definition printed_lr (iteration : Z) (groups : list param_group) : train_exn + unit :=
  if (iteration mod 100 =? 0)%Z then
    match groups with
    | [] => inl IndexError
    | g :: _ =>
        match group_lr g with
        | None => inl KeyError
        | Some _ => inr tt
        end
    end
  else inr tt.

(** Lines 147-177: one iteration.  [batches] is the number of batches the
    [DataLoader] of an epoch yields. *)
Definition iteration_step (args_lr : R) (epoch_size warm_iter max_iter : Z)
  (batches : nat) (st : loop_state) (iteration : Z) : train_exn + loop_state :=
  if (epoch_size =? 0)%Z then inl ZeroDivisionError
  else
    let st1 :=
      if (iteration mod epoch_size =? 0)%Z
      then mk_loop_state (epoch st + 1)%Z (Some batches) (param_groups st) (lrs st)
      else st in
    match adjust_learning_rate args_lr (param_groups st1) (epoch st1) iteration
            warm_iter max_iter with
    | None => inl ZeroDivisionError
    | Some (groups, lr) =>
        match batch_iterator st1 with
        | None => inl NameError
        | Some O => inl StopIteration
        | Some (S rest) =>
            match printed_lr iteration groups with
            | inl e => inl e
            | inr _ =>
                inr (mk_loop_state (epoch st1) (Some rest) groups (lrs st1 ++ [lr]))
            end
        end
    end.

Fixpoint iterations (args_lr : R) (epoch_size warm_iter max_iter : Z) (batches : nat)
  (its : list Z) (st : loop_state) : train_exn + loop_state :=
  match its with
  | [] => inr st
  | iteration :: its' =>
      match iteration_step args_lr epoch_size warm_iter max_iter batches st iteration with
      | inl e => inl e
      | inr st' => iterations args_lr epoch_size warm_iter max_iter batches its' st'
      end
  end.

(** Lines 144-146: [epoch = 0] and [for iteration in range(max_iter)]. *)
Definition training_loop (args_lr : R) (epoch_size warm_iter max_iter : Z)
  (batches : nat) (groups : list param_group) : train_exn + loop_state :=
  iterations args_lr epoch_size warm_iter max_iter batches
    (map Z.of_nat (seq 0 (Z.to_nat max_iter)))
    (mk_loop_state 0 None groups []).

End Main.

(** ** models/detector.py: the detection head *)

Module DetectorPy.

Open Scope string_scope.
Open Scope Z_scope.

(** The modules the constructor builds are classes of torch or of files of
    the repository that are not at hand (the backbones under
    [models/backbone], the necks under [models/neck]); a call of one of
    their constructors is recorded as an event, with its arguments. *)
Inductive event : Type :=
| NewBackbone (cls : string)
| NewNeck (cls : string) (fpn_level : Z) (channels : Z * Z) (fea_channel : Z)
| NewConv2d (in_channels out_channels kernel_size padding : Z).

(** The exceptions of [Detector.__init__]: its three [ValueError]s, with the
    value that is formatted into the message, and an exception that comes
    out of one of the constructors above. *)
Inductive exn : Type :=
| ValueError_size (size : Z)
| ValueError_backbone (backbone : string)
| ValueError_neck (neck : string)
| RaisedBy (e : event).

(** Which constructor calls return (the others raise). *)
Definition library : Type := event -> bool.

(** What torch does: [nn.Conv2d] cannot allocate a weight with a negative
    number of channels; the other constructors are taken to return. *)
Definition torch_library : library :=
  fun e =>
    match e with
    | NewConv2d i o _ _ => (0 <=? i) && (0 <=? o)
    | _ => true
    end.

(** Computations that may raise, logging the constructor calls they make. *)
Definition M (A : Type) : Type := list event -> (exn + A) * list event.

Definition ret {A : Type} (a : A) : M A := fun log => (inr a, log).

Definition raise {A : Type} (e : exn) : M A := fun log => (inl e, log).

Definition bind {A B : Type} (m : M A) (k : A -> M B) : M B :=
  fun log =>
    match m log with
    | (inl e, log') => (inl e, log')
    | (inr a, log') => k a log'
    end.

Notation "x <-- e ;;; k" := (bind e (fun x => k))
  (at level 61, e at next level, right associativity).

Definition construct (lib : library) (e : event) : M unit :=
  fun log => ((if lib e then inr tt else inl (RaisedBy e)), (log ++ [e])%list).

(** An [nn.Conv2d] layer, by its constructor arguments (its weights are
    drawn at random and play no role below). *)
Record Conv2d : Type := mk_Conv2d
  { in_channels : Z; out_channels : Z; kernel_size : Z; padding : Z }.

Definition new_Conv2d (lib : library) (i o k p : Z) : M Conv2d :=
  _ <-- construct lib (NewConv2d i o k p) ;;;
  ret (mk_Conv2d i o k p).

(** Lines 13-15: the loop of [multibox], [n] iterations left. *)
Fixpoint multibox_loop (lib : library) (n : nat) (fea_channel loc_channel cls_channel : Z)
  (loc_layers conf_layers : list Conv2d) : M (list Conv2d * list Conv2d) :=
  match n with
  | O => ret (loc_layers, conf_layers)
  | S n' =>
      l <-- new_Conv2d lib fea_channel loc_channel 3 1 ;;;
      c <-- new_Conv2d lib fea_channel cls_channel 3 1 ;;;
      multibox_loop lib n' fea_channel loc_channel cls_channel
        (loc_layers ++ [l])%list (conf_layers ++ [c])%list
  end.

(** Lines 9-16. *)
Definition multibox (lib : library) (fpn_level num_anchors num_classes fea_channel : Z)
  : M (list Conv2d * list Conv2d) :=
  let loc_channel := num_anchors * 4 in
  let cls_channel := num_anchors * num_classes in
  multibox_loop lib (Z.to_nat fpn_level) fea_channel loc_channel cls_channel [] [].

Record Detector : Type := mk_Detector
  { fpn_level : Z;
    num_classes : Z;
    num_anchors : Z;
    backbone : string;
    neck : string;
    loc : list Conv2d;
    conf : list Conv2d }.

(** Lines 33-54: the backbone, with [channels] and [fea_channel]. *)
Definition new_backbone (lib : library) (backbone : string) : M ((Z * Z) * Z) :=
  if (backbone =? "vgg16")%string then
    _ <-- construct lib (NewBackbone "VGGBackbone") ;;; ret ((512, 512), 256)
  else if (backbone =? "repvgg")%string then
    _ <-- construct lib (NewBackbone "REPVGGBackbone") ;;; ret ((384, 1408), 256)
  else if (backbone =? "resnet18")%string then
    _ <-- construct lib (NewBackbone "ResNetBackbone") ;;; ret ((256, 512), 256)
  else if (backbone =? "shufflenet")%string then
    _ <-- construct lib (NewBackbone "ShuffleNetBackbone") ;;; ret ((232, 464), 128)
  else raise (ValueError_backbone backbone).

(** Lines 57-67: the neck. *)
Definition new_neck (lib : library) (neck : string) (fpn_level : Z) (channels : Z * Z)
  (fea_channel : Z) : M unit :=
  if (neck =? "ssd")%string then
    construct lib (NewNeck "SSDNeck" fpn_level channels fea_channel)
  else if (neck =? "fpn")%string then
    construct lib (NewNeck "FPNNeck" fpn_level channels fea_channel)
  else if (neck =? "pafpn")%string then
    construct lib (NewNeck "PAFPNNeck" fpn_level channels fea_channel)
  else raise (ValueError_neck neck).

(** Lines 21-71: [Detector.__init__] (lines 73-86 only set the initial
    weights of the head). *)
Definition Detector_init (lib : library) (size num_classes : Z) (backbone neck : string)
  : M Detector :=
  if negb (size mod 64 =? 0) then raise (ValueError_size size)
  else
    let fpn_level := if size <? 512 then 4 else 5 in
    let self_num_classes := num_classes - 1 in
    let num_anchors := 6 in
    cf <-- new_backbone lib backbone ;;;
    let channels := fst cf in
    let fea_channel := snd cf in
    _ <-- new_neck lib neck fpn_level channels fea_channel ;;;
    heads <-- multibox lib fpn_level num_anchors self_num_classes fea_channel ;;;
    ret (mk_Detector fpn_level self_num_classes num_anchors backbone neck
           (fst heads) (snd heads)).

(** [Detector(size, num_classes, backbone, neck)]: the outcome and the
    constructor calls made, in order. *)
Definition new_Detector (lib : library) (size num_classes : Z) (backbone neck : string)
  : (exn + Detector) * list event :=
  Detector_init lib size num_classes backbone neck [].

Close Scope string_scope.
Close Scope Z_scope.

(** *** Tensors and [Detector.forward] *)

Section Forward.

Context {A : Type}.
(** The value read outside a tensor's storage (never read from a
    well-formed tensor). *)
Variable dflt : A.

(** A contiguous tensor: its shape and its storage in row-major order. *)
Record tensor : Type := mk_tensor { shape : list nat; data : list A }.

Definition numel (t : tensor) : nat := fold_right Nat.mul 1 (shape t).

Definition well_formed (t : tensor) : Prop := length (data t) = numel t.

(** [t.size(0)]. *)
Definition size0 (t : tensor) : nat := nth 0 (shape t) 0.

(** [t[n, c, h, w]] of a 4-D tensor of shape [(N, C, H, W)]. *)
Definition get4 (t : tensor) (n c h w : nat) : A :=
  match shape t with
  | [_; C; H; W] => nth (((n * C + c) * H + h) * W + w) (data t) dflt
  | _ => dflt
  end.

(** [t[n, i, k]] of a 3-D tensor of shape [(N, L, K)]. *)
Definition get3 (t : tensor) (n i k : nat) : A :=
  match shape t with
  | [_; L; K] => nth ((n * L + i) * K + k) (data t) dflt
  | _ => dflt
  end.

(** [t.permute(0, 2, 3, 1).contiguous()]: a 4-D tensor of shape
    [(N, C, H, W)] becomes one of shape [(N, H, W, C)], stored in that
    order. *)
Definition permute_0231 (t : tensor) : option tensor :=
  match shape t with
  | [N; C; H; W] =>
      Some (mk_tensor [N; H; W; C]
              (flat_map (fun n =>
                 flat_map (fun h =>
                   flat_map (fun w =>
                     map (fun c => get4 t n c h w) (seq 0 C))
                     (seq 0 W))
                   (seq 0 H))
                 (seq 0 N)))
  | _ => None
  end.

(** [t.view(n, -1)]: the same storage; the free dimension must come out
    as a whole number. *)
Definition view2 (t : tensor) (n : nat) : option tensor :=
  if (n =? 0) then None
  else if (numel t mod n =? 0) then Some (mk_tensor [n; numel t / n] (data t))
  else None.

(** [t.view(n, -1, k)]; a negative [k] is refused. *)
Definition view3 (t : tensor) (n : nat) (k : Z) : option tensor :=
  if (k <? 0)%Z then None
  else
    let k := Z.to_nat k in
    if (n * k =? 0) then None
    else if (numel t mod (n * k) =? 0)
         then Some (mk_tensor [n; numel t / (n * k); k] (data t))
         else None.

(** Row [n] of a 2-D tensor of shape [(N, L)]. *)
Definition row (t : tensor) (n : nat) : list A :=
  let L := nth 1 (shape t) 0 in
  firstn L (skipn (n * L) (data t)).

(** [torch.cat(ts, 1)] for 2-D tensors: no tensor, a tensor that is not
    2-D or a differing first dimension are refused. *)
Definition cat1 (ts : list tensor) : option tensor :=
  match ts with
  | [] => None
  | t0 :: _ =>
      let N := size0 t0 in
      if forallb (fun t => (length (shape t) =? 2) && (size0 t =? N)) ts
      then Some (mk_tensor [N; list_sum (map (fun t => nth 1 (shape t) 0) ts)]
                   (flat_map (fun n => flat_map (fun t => row t n) ts) (seq 0 N)))
      else None
  end.

(** [self.neck(self.backbone(x))]: the feature maps, one per level. *)
Variable features : tensor -> list tensor.
(** The forward pass of an [nn.Conv2d] layer (it raises on an input it
    does not accept). *)
Variable conv_forward : Conv2d -> tensor -> option tensor.

(** [zip(fea, self.loc, self.conf)]. *)
Definition zip3 {X Y Z' : Type} (xs : list X) (ys : list Y) (zs : list Z')
  : list (X * Y * Z') :=
  combine (combine xs ys) zs.

(** Lines 95-97: one level. *)
Definition head_level (xlc : tensor * Conv2d * Conv2d) : option (tensor * tensor) :=
  let '(x, l, c) := xlc in
  lx <- conv_forward l x ;;
  lo <- permute_0231 lx ;;
  cx <- conv_forward c x ;;
  co <- permute_0231 cx ;;
  Some (lo, co).

(** Lines 99-100: [torch.cat([o.view(o.size(0), -1) for o in os], 1)]. *)
Definition flatten_cat (os : list tensor) : option tensor :=
  flat <- omap (fun o => view2 o (size0 o)) os ;;
  cat1 flat.

(** Lines 88-101: [Detector.forward]. *)
Definition forward (self : Detector) (x : tensor) : option (tensor * tensor) :=
  let fea := features x in
  outs <- omap head_level (zip3 fea (loc self) (conf self)) ;;
  loc <- flatten_cat (map fst outs) ;;
  conf <- flatten_cat (map snd outs) ;;
  loc3 <- view3 loc (size0 loc) 4 ;;
  conf3 <- view3 conf (size0 conf) (num_classes self) ;;
  Some (loc3, conf3).

End Forward.

(** The anchor ordering the predictions follow.  [dims] lists the height
    and width of the feature map of each level, in the order of the levels;
    [cells] counts the cells of some levels; the anchor of level [l], row
    [r], column [c] and shape [s], with [a] shapes per cell, comes after
    all the anchors of the levels before [l], and after the anchors of the
    cells before it in row-major order. *)
Definition cells (dims : list (nat * nat)) : nat :=
  list_sum (map (fun hw => fst hw * snd hw) dims).

Definition anchor_index (dims : list (nat * nat)) (a l r c s : nat) : nat :=
  a * cells (firstn l dims) + (r * snd (nth l dims (0, 0)) + c) * a + s.

(** Modelled from the spec: the necks are not at hand; level [k] of the
    feature pyramid has the spatial stride [2^(3+k)] (level 0 stride 8, level
    1 stride 16, ...). *)
Definition level_stride (k : nat) : nat := 2 ^ (3 + k).

End DetectorPy.

(** ** models/repvgg_backbone.py: the RepVGG block and its conversion *)

Module RepVGG.

(** A numpy array or torch tensor of reals: its shape and its entries, read
    at a list of indices, one per axis.  A Python number is the array of
    shape [[]]. *)
Record ndarray : Type := mk_nd { shape : list nat; elt : list nat -> R }.

Definition scalar (c : R) : ndarray := mk_nd [] (fun _ => c).

Definition np_zeros (sh : list nat) : ndarray := mk_nd sh (fun _ => 0%R).

(** Broadcasting of two shapes, read from the last axis: two sizes agree
    when they are equal or one of them is 1. *)
Fixpoint broadcast_rev (a b : list nat) : option (list nat) :=
  match a, b with
  | [], _ => Some b
  | _, [] => Some a
  | x :: a', y :: b' =>
      r <- broadcast_rev a' b' ;;
      if x =? y then Some (x :: r)
      else if x =? 1 then Some (y :: r)
      else if y =? 1 then Some (x :: r)
      else None
  end.

Definition broadcast_shape (a b : list nat) : option (list nat) :=
  r <- broadcast_rev (rev a) (rev b) ;;
  Some (rev r).

(** Where an operand of shape [sh] is read for the entry [idx] of the
    result: at its own axes (the last ones), and at 0 along an axis of
    size 1. *)
Definition operand_index (sh idx : list nat) : list nat :=
  map (fun di => if fst di =? 1 then 0 else snd di)
      (combine sh (skipn (length idx - length sh) idx)).

(** An elementwise operation of numpy or torch: ValueError when the shapes
    do not broadcast. *)
Definition np_binop (f : R -> R -> R) (a b : ndarray) : option ndarray :=
  sh <- broadcast_shape (shape a) (shape b) ;;
  Some (mk_nd sh (fun idx =>
                    f (elt a (operand_index (shape a) idx))
                      (elt b (operand_index (shape b) idx)))).

Definition np_add : ndarray -> ndarray -> option ndarray := np_binop Rplus.
Definition np_sub : ndarray -> ndarray -> option ndarray := np_binop Rminus.
Definition np_mul : ndarray -> ndarray -> option ndarray := np_binop Rmult.
Definition np_div : ndarray -> ndarray -> option ndarray := np_binop Rdiv.

Definition np_sqrt (a : ndarray) : ndarray :=
  mk_nd (shape a) (fun idx => sqrt (elt a idx)).

(** An index within the bounds of a shape. *)
Fixpoint in_bounds (sh idx : list nat) : bool :=
  match sh, idx with
  | [], [] => true
  | d :: sh', i :: idx' => (i <? d) && in_bounds sh' idx'
  | _, _ => false
  end.

Definition index_eqb (i j : list nat) : bool :=
  if list_eq_dec Nat.eq_dec i j then true else false.

(** [a[i0, i1, ...] = v]: IndexError outside the bounds. *)
Definition set_item (a : ndarray) (idx : list nat) (v : R) : option ndarray :=
  if in_bounds (shape a) idx
  then Some (mk_nd (shape a) (fun j => if index_eqb j idx then v else elt a j))
  else None.

(** [np.tile(np.reshape(t, (-1, 1, 1, 1)), (1, k1, k2, k3))] for a 1-D [t]:
    the entry of [t] for the first axis, repeated along the three others. *)
Definition reshape_tile (t : ndarray) (k1 k2 k3 : nat) : option ndarray :=
  match shape t with
  | [L] => Some (mk_nd [L; k1; k2; k3] (fun idx => elt t [nth 0 idx 0]))
  | _ => None
  end.

(** The modules of torch the block is made of, by their arguments and
    their parameters. *)
Record Conv2d : Type := mk_Conv2d
  { conv_in : nat; conv_out : nat; conv_kernel : nat; conv_stride : nat;
    conv_padding : nat; conv_dilation : nat; conv_groups : nat;
    conv_weight : ndarray; conv_bias : option ndarray }.

Record BatchNorm2d : Type := mk_BatchNorm2d
  { num_features : nat;
    running_mean : ndarray; running_var : ndarray;
    bn_weight : ndarray; bn_bias : ndarray; bn_eps : R }.

(** [nn.Sequential] of a ['conv'] and a ['bn'] (lines 5-10). *)
Record ConvBN : Type := mk_ConvBN { conv : Conv2d; bn : BatchNorm2d }.

(** [sum_upto n f = f 0 + ... + f (n - 1)]. *)
Fixpoint sum_upto (n : nat) (f : nat -> R) : R :=
  match n with
  | O => 0%R
  | S m => (sum_upto m f + f m)%R
  end.

(** The input of a convolution with [p] rows and columns of zeros around
    it, read at row [i] and column [j] of the padded map. *)
Definition padded (x : ndarray) (H W p n c i j : nat) : R :=
  if (p <=? i) && (i <? p + H) && (p <=? j) && (j <? p + W)
  then elt x [n; c; i - p; j - p]
  else 0%R.

(** The size of the output of a convolution along one axis. *)
Definition conv_out_size (H k s p d : nat) : nat :=
  (H + 2 * p - d * (k - 1) - 1) / s + 1.

(** The convolution of [nn.Conv2d] ([padding_mode='zeros']) on a batch:
    [None] for what torch refuses (an input that is not 4-D or has another
    number of channels, a weight with fewer output channels than groups,
    groups that do not divide the channels, a weight or bias of another
    shape, a kernel larger than the padded input).  A batch of images
    without channels gives images without channels. *)
Definition conv_batched (m : Conv2d) (x : ndarray) : option ndarray :=
  match shape x, shape (conv_weight m) with
  | [N; C; H; W], [Co; Ig; kh; kw] =>
      let g := conv_groups m in
      let s := conv_stride m in
      let p := conv_padding m in
      let d := conv_dilation m in
      if (0 <? g) && (0 <? s) && (0 <? d)
         && (g <=? Co) && (C =? Ig * g) && (Co mod g =? 0)
         && (d * (kh - 1) + 1 <=? H + 2 * p) && (d * (kw - 1) + 1 <=? W + 2 * p)
         && (match conv_bias m with
             | Some b => if list_eq_dec Nat.eq_dec (shape b) [Co] then true else false
             | None => true
             end)
      then
        Some (mk_nd [N; (if C =? 0 then 0 else Co);
                     conv_out_size H kh s p d; conv_out_size W kw s p d]
                (fun idx =>
                   let n := nth 0 idx 0 in
                   let o := nth 1 idx 0 in
                   let i := nth 2 idx 0 in
                   let j := nth 3 idx 0 in
                   ((match conv_bias m with
                     | Some b => elt b [o]
                     | None => 0
                     end)
                    + sum_upto Ig (fun c =>
                        sum_upto kh (fun ki =>
                          sum_upto kw (fun kj =>
                            elt (conv_weight m) [o; c; ki; kj]
                            * padded x H W p n (o / (Co / g) * Ig + c)
                                     (i * s + ki * d) (j * s + kj * d)))))%R))
      else None
  | _, _ => None
  end.

(** [x.unsqueeze(0)], and [y.squeeze(0)] for a first axis of size 1. *)
Definition unsqueeze (x : ndarray) : ndarray :=
  mk_nd (1 :: shape x) (fun idx => elt x (tl idx)).

Definition squeeze (y : ndarray) : ndarray :=
  mk_nd (tl (shape y)) (fun idx => elt y (0 :: idx)).

(** The forward pass of [nn.Conv2d]: on a batch (a 4-D input), or on one
    image without the batch axis (a 3-D input), which is given that axis for
    the convolution. *)
Definition conv_forward (m : Conv2d) (x : ndarray) : option ndarray :=
  match shape x with
  | [_; _; _] =>
      y <- conv_batched m (unsqueeze x) ;;
      Some (squeeze y)
  | _ => conv_batched m x
  end.

(** The forward pass of [nn.BatchNorm2d] in eval mode, with the running
    statistics. *)
Definition bn_forward (m : BatchNorm2d) (x : ndarray) : option ndarray :=
  match shape x with
  | [N; C; H; W] =>
      if C =? num_features m
      then Some (mk_nd [N; C; H; W]
                   (fun idx =>
                      let c := nth 1 idx 0 in
                      ((elt x idx - elt (running_mean m) [c])
                       / sqrt (elt (running_var m) [c] + bn_eps m)
                       * elt (bn_weight m) [c]
                       + elt (bn_bias m) [c])%R))
      else None
  | _ => None
  end.

Definition convbn_forward (m : ConvBN) (x : ndarray) : option ndarray :=
  y <- conv_forward (conv m) x ;;
  bn_forward (bn m) y.

(** [nn.ReLU]. *)
Definition relu (x : ndarray) : ndarray :=
  mk_nd (shape x) (fun idx => Rmax 0 (elt x idx)).

(** The values of the parameters and buffers of a block: what the
    constructor draws or sets, and what training has made of it. *)
Record bn_values : Type := mk_bn_values
  { v_mean : list nat -> R; v_var : list nat -> R;
    v_gamma : list nat -> R; v_beta : list nat -> R; v_eps : R }.

Record block_values : Type := mk_block_values
  { v_reparam_weight : list nat -> R; v_reparam_bias : list nat -> R;
    v_identity : bn_values;
    v_dense_weight : list nat -> R; v_dense_bn : bn_values;
    v_1x1_weight : list nat -> R; v_1x1_bn : bn_values }.

(** [nn.Conv2d(...)]: ValueError unless the groups divide the channels. *)
Definition new_Conv2d (in_channels out_channels kernel_size stride padding dilation
                         groups : nat)
  (w : list nat -> R) (b : option (list nat -> R)) : option Conv2d :=
  if (0 <? groups) && (in_channels mod groups =? 0) && (out_channels mod groups =? 0)
  then Some (mk_Conv2d in_channels out_channels kernel_size stride padding dilation groups
               (mk_nd [out_channels; in_channels / groups; kernel_size; kernel_size] w)
               (option_map (mk_nd [out_channels]) b))
  else None.

(** [nn.BatchNorm2d(num_features=n)]. *)
Definition new_BatchNorm2d (n : nat) (v : bn_values) : BatchNorm2d :=
  mk_BatchNorm2d n (mk_nd [n] (v_mean v)) (mk_nd [n] (v_var v))
    (mk_nd [n] (v_gamma v)) (mk_nd [n] (v_beta v)) (v_eps v).

(** Lines 5-10: [conv_bn] (dilation 1, no bias). *)
Definition conv_bn (in_channels out_channels kernel_size stride padding groups : nat)
  (w : list nat -> R) (v : bn_values) : option ConvBN :=
  c <- new_Conv2d in_channels out_channels kernel_size stride padding 1 groups w None ;;
  Some (mk_ConvBN c (new_BatchNorm2d out_channels v)).

(** A block: in deploy form it has the attribute [rbr_reparam] only, in
    training form the three branches. *)
Inductive RepVGGBlock : Type :=
| Deploy (groups in_channels : nat) (rbr_reparam : Conv2d)
| Training (groups in_channels : nat) (rbr_identity : option BatchNorm2d)
    (rbr_dense rbr_1x1 : ConvBN).

(** Lines 14-35: [RepVGGBlock.__init__]; [None] for a failed assertion or
    an exception of a constructor. *)
Definition new_RepVGGBlock (in_channels out_channels kernel_size stride padding dilation
                              groups : nat) (deploy : bool) (v : block_values)
  : option RepVGGBlock :=
  if negb (kernel_size =? 3) then None
  else if negb (padding =? 1) then None
  else
    let padding_11 := padding - kernel_size / 2 in
    if deploy then
      c <- new_Conv2d in_channels out_channels kernel_size stride padding dilation groups
             (v_reparam_weight v) (Some (v_reparam_bias v)) ;;
      Some (Deploy groups in_channels c)
    else
      let rbr_identity :=
        if (out_channels =? in_channels) && (stride =? 1)
        then Some (new_BatchNorm2d in_channels (v_identity v))
        else None in
      rbr_dense <- conv_bn in_channels out_channels kernel_size stride padding groups
                     (v_dense_weight v) (v_dense_bn v) ;;
      rbr_1x1 <- conv_bn in_channels out_channels 1 stride padding_11 groups
                   (v_1x1_weight v) (v_1x1_bn v) ;;
      Some (Training groups in_channels rbr_identity rbr_dense rbr_1x1).

(** Lines 42-45: the output of the identity branch. *)
Definition identity_out (rbr_identity : option BatchNorm2d) (inputs : ndarray)
  : option ndarray :=
  match rbr_identity with
  | None => Some (scalar 0)
  | Some m => bn_forward m inputs
  end.

(** Lines 38-47 without the final [nonlinearity]: what [forward] hands to
    the ReLU. *)
Definition pre_activation (self : RepVGGBlock) (inputs : ndarray) : option ndarray :=
  match self with
  | Deploy _ _ rbr_reparam => conv_forward rbr_reparam inputs
  | Training _ _ rbr_identity rbr_dense rbr_1x1 =>
      id_out <- identity_out rbr_identity inputs ;;
      dense <- convbn_forward rbr_dense inputs ;;
      one <- convbn_forward rbr_1x1 inputs ;;
      s <- np_add dense one ;;
      np_add s id_out
  end.

(** Lines 38-47: [RepVGGBlock.forward]. *)
Definition forward (self : RepVGGBlock) (inputs : ndarray) : option ndarray :=
  y <- pre_activation self inputs ;;
  Some (relu y).

(** The argument of [_fuse_bn]: [None], an [nn.Sequential] or an
    [nn.BatchNorm2d]. *)
Inductive branch : Type :=
| NoBranch
| SeqBranch (m : ConvBN)
| BNBranch (m : BatchNorm2d).

(** Lines 62-64: the kernel of the identity, [in_channels] iterations of
    the loop done from [i]. *)
Fixpoint identity_loop (n i : nat) (kernel : ndarray) : option ndarray :=
  match n with
  | O => Some kernel
  | S n' =>
      k <- set_item kernel [i; i; 1; 1] 1%R ;;
      identity_loop n' (S i) k
  end.

Definition identity_kernel (in_channels : nat) : option ndarray :=
  identity_loop in_channels 0 (np_zeros [in_channels; in_channels; 3; 3]).

(** Lines 70-74: the scaling common to the two kinds of branch. *)
Definition fuse (kernel running_mean running_var gamma beta : ndarray) (eps : R)
  : option (ndarray * ndarray) :=
  sum <- np_add running_var (scalar eps) ;;
  let std := np_sqrt sum in
  t <- np_div gamma std ;;
  t4 <- reshape_tile t (nth 1 (shape kernel) 0) (nth 2 (shape kernel) 0)
          (nth 3 (shape kernel) 0) ;;
  k <- np_mul kernel t4 ;;
  mg <- np_mul running_mean gamma ;;
  mgs <- np_div mg std ;;
  b <- np_sub beta mgs ;;
  Some (k, b).

(** Lines 50-74: [_fuse_bn]. *)
Definition _fuse_bn (self_in_channels : nat) (br : branch) : option (ndarray * ndarray) :=
  match br with
  | NoBranch => Some (scalar 0, scalar 0)
  | SeqBranch m =>
      fuse (conv_weight (conv m)) (running_mean (bn m)) (running_var (bn m))
           (bn_weight (bn m)) (bn_bias (bn m)) (bn_eps (bn m))
  | BNBranch m =>
      kernel <- identity_kernel self_in_channels ;;
      fuse kernel (running_mean m) (running_var m) (bn_weight m) (bn_bias m) (bn_eps m)
  end.

(** Lines 76-81: [_pad_1x1_to_3x3], for an array ([kernel1x1] is never
    [None] where it is called): the entries go to the middle of a 3x3
    kernel of zeros; ValueError unless the last two axes have size 1. *)
Definition _pad_1x1_to_3x3 (kernel1x1 : ndarray) : option ndarray :=
  match shape kernel1x1 with
  | [Co; Ci; 1; 1] =>
      Some (mk_nd [Co; Ci; 3; 3]
              (fun idx =>
                 if (nth 2 idx 0 =? 1) && (nth 3 idx 0 =? 1)
                 then elt kernel1x1 [nth 0 idx 0; nth 1 idx 0; 0; 0]
                 else 0%R))
  | _ => None
  end.

Definition as_branch (m : option BatchNorm2d) : branch :=
  match m with
  | None => NoBranch
  | Some m => BNBranch m
  end.

(** Lines 83-87: [repvgg_convert]; a block in deploy form has none of the
    three attributes (AttributeError). *)
Definition repvgg_convert (self : RepVGGBlock) : option (ndarray * ndarray) :=
  match self with
  | Deploy _ _ _ => None
  | Training _ in_channels rbr_identity rbr_dense rbr_1x1 =>
      kb3 <- _fuse_bn in_channels (SeqBranch rbr_dense) ;;
      kb1 <- _fuse_bn in_channels (SeqBranch rbr_1x1) ;;
      kbi <- _fuse_bn in_channels (as_branch rbr_identity) ;;
      padded1 <- _pad_1x1_to_3x3 (fst kb1) ;;
      k31 <- np_add (fst kb3) padded1 ;;
      kernel <- np_add k31 (fst kbi) ;;
      b31 <- np_add (snd kb3) (snd kb1) ;;
      bias <- np_add b31 (snd kbi) ;;
      Some (kernel, bias)
  end.

(** Lines 157-160 for one block: the deploy-form block built with the same
    arguments, its weight and bias replaced by the converted ones
    ([param.data = ...] checks no shape). *)
Definition with_weights (m : Conv2d) (kernel bias : ndarray) : Conv2d :=
  mk_Conv2d (conv_in m) (conv_out m) (conv_kernel m) (conv_stride m) (conv_padding m)
    (conv_dilation m) (conv_groups m) kernel (Some bias).

Definition load_converted (deploy_block : RepVGGBlock) (kernel bias : ndarray)
  : RepVGGBlock :=
  match deploy_block with
  | Deploy g i c => Deploy g i (with_weights c kernel bias)
  | b => b
  end.

(** *** [REPVGGBackbone] *)

(** [int(c * w)] for a float [w] and a power of two [c]: the product is
    exact, and [int] drops the fraction (towards zero). *)
Definition int_of (q : Q) : Z := Z.quot (Qnum q) (Zpos (Qden q)).

Definition scaled (c : Z) (w : Q) : Z := int_of (Qmult (inject_Z c) w).

(** A number of channels or of groups handed to torch: a negative one is
    refused when the parameters are allocated. *)
Definition as_count (z : Z) : option nat :=
  if (z <? 0)%Z then None else Some (Z.to_nat z).

(** What the constructor of the backbone keeps in [self] and reads in
    [_make_stage]: [deploy], [override_groups_map] (a dict, read with [in]
    and [get] only) and, standing for the values that the constructor of the
    block with index [i] gives its parameters and buffers (drawn at random,
    or set), [values i]. *)
Record backbone_self : Type := mk_backbone_self
  { self_deploy : bool;
    self_override_groups_map : Z -> option Z;
    self_values : Z -> block_values }.

(** Lines 124-126 and 103: one [RepVGGBlock(in_channels, out_channels,
    kernel_size=3, stride, padding=1, groups, deploy)]. *)
Definition new_block (self : backbone_self) (idx in_planes planes : Z) (stride : nat)
  (groups : Z) : option RepVGGBlock :=
  i <- as_count in_planes ;;
  o <- as_count planes ;;
  g <- as_count groups ;;
  new_RepVGGBlock i o 3 stride 1 1 g (self_deploy self) (self_values self idx).

(** [self.override_groups_map.get(self.cur_layer_idx, 1)]. *)
Definition cur_groups (self : backbone_self) (cur_layer_idx : Z) : Z :=
  match self_override_groups_map self cur_layer_idx with
  | Some g => g
  | None => 1%Z
  end.

(** Lines 123-128: the loop of [_make_stage] over the strides left, on the
    state [(self.in_planes, self.cur_layer_idx)]. *)
Fixpoint make_stage_loop (self : backbone_self) (planes : Z) (strides : list nat)
  (st : Z * Z) (blocks : list RepVGGBlock) : option (list RepVGGBlock * (Z * Z)) :=
  match strides with
  | [] => Some (blocks, st)
  | stride :: strides' =>
      b <- new_block self (snd st) (fst st) planes stride (cur_groups self (snd st)) ;;
      make_stage_loop self planes strides' (planes, (snd st + 1)%Z) (blocks ++ [b])
  end.

(** Lines 120-129: [_make_stage]; [[1] * n] is empty for [n <= 0]. *)
Definition _make_stage (self : backbone_self) (planes num_blocks : Z) (stride : nat)
  (st : Z * Z) : option (list RepVGGBlock * (Z * Z)) :=
  let strides := stride :: repeat 1 (Z.to_nat (num_blocks - 1)) in
  make_stage_loop self planes strides st [].

Record REPVGGBackbone : Type := mk_REPVGGBackbone
  { stage0 : RepVGGBlock;
    stage1 : list RepVGGBlock; stage2 : list RepVGGBlock;
    stage3 : list RepVGGBlock; stage4 : list RepVGGBlock;
    cur_layer_idx : Z }.

(** Lines 92-108: the blocks [REPVGGBackbone.__init__] builds, before it
    loads the pretrained weights; [None] for a failed assertion, an index
    out of range or an exception of a constructor. *)
Definition new_REPVGGBackbone (num_blocks : list Z) (width_multiplier : list Q)
  (self : backbone_self) : option REPVGGBackbone :=
  if negb (length width_multiplier =? 4) then None
  else
    match self_override_groups_map self 0%Z with
    | Some _ => None
    | None =>
        w0 <- nth_error width_multiplier 0 ;;
        let in_planes := Z.min 64 (scaled 64 w0) in
        s0 <- new_block self 0 3 in_planes 1 1 ;;
        n0 <- nth_error num_blocks 0 ;;
        s1 <- _make_stage self (scaled 64 w0) n0 2 (in_planes, 1%Z) ;;
        w1 <- nth_error width_multiplier 1 ;;
        n1 <- nth_error num_blocks 1 ;;
        s2 <- _make_stage self (scaled 128 w1) n1 2 (snd s1) ;;
        w2 <- nth_error width_multiplier 2 ;;
        n2 <- nth_error num_blocks 2 ;;
        s3 <- _make_stage self (scaled 256 w2) n2 2 (snd s2) ;;
        w3 <- nth_error width_multiplier 3 ;;
        n3 <- nth_error num_blocks 3 ;;
        s4 <- _make_stage self (scaled 512 w3) n3 2 (snd s3) ;;
        Some (mk_REPVGGBackbone s0 (fst s1) (fst s2) (fst s3) (fst s4) (snd (snd s4)))
    end.

(** *** The pretrained weights *)

(** A state dict, with its keys in order. *)
Definition state_dict : Type := list (string * ndarray).

(** [d.pop(key)]: KeyError for a key that is not in the dict. *)
Fixpoint pop (key : string) (d : state_dict) : option state_dict :=
  match d with
  | [] => None
  | (k, a) :: d' =>
      if String.eqb key k then Some d'
      else r <- pop key d' ;; Some ((k, a) :: r)
  end.

(** What torch does here: [torch_load] is the dict that [torch.load]
    returns for the path of line 115, [None] when it raises (as it does
    without such a file); [load_state_dict self d] stands for
    [self.load_state_dict(d, strict=True)], which raises (here [None]) for a
    missing key, an unexpected key or an array of another shape, and
    otherwise copies the arrays into the parameters and buffers of the
    blocks: the result gives, for the block with index [i], the values
    copied. *)
Record torch : Type := mk_torch
  { torch_load : option state_dict;
    load_state_dict : REPVGGBackbone -> state_dict -> option (Z -> block_values) }.

(** Lines 113-118: [load_pre_trained_weights], up to the values that
    [load_state_dict] copies. *)
Definition load_pre_trained_weights (t : torch) (self : REPVGGBackbone)
  : option (Z -> block_values) :=
  pretrained_dict <- torch_load t ;;
  d1 <- pop "linear.weight"%string pretrained_dict ;;
  d2 <- pop "linear.bias"%string d1 ;;
  load_state_dict t self d2.

(** An array, a batch normalisation and a convolution after new values
    have been copied into them: shapes and arguments stay ([eps] is no
    entry of a state dict). *)
Definition set_entries (a : ndarray) (f : list nat -> R) : ndarray :=
  mk_nd (shape a) f.

Definition load_bn (v : bn_values) (m : BatchNorm2d) : BatchNorm2d :=
  mk_BatchNorm2d (num_features m)
    (set_entries (running_mean m) (v_mean v)) (set_entries (running_var m) (v_var v))
    (set_entries (bn_weight m) (v_gamma v)) (set_entries (bn_bias m) (v_beta v))
    (bn_eps m).

Definition load_conv (w b : list nat -> R) (m : Conv2d) : Conv2d :=
  mk_Conv2d (conv_in m) (conv_out m) (conv_kernel m) (conv_stride m) (conv_padding m)
    (conv_dilation m) (conv_groups m) (set_entries (conv_weight m) w)
    (option_map (fun a => set_entries a b) (conv_bias m)).

Definition load_convbn (w : list nat -> R) (v : bn_values) (m : ConvBN) : ConvBN :=
  mk_ConvBN (load_conv w (fun _ => 0%R) (conv m)) (load_bn v (bn m)).

Definition load_block_values (v : block_values) (b : RepVGGBlock) : RepVGGBlock :=
  match b with
  | Deploy g i c => Deploy g i (load_conv (v_reparam_weight v) (v_reparam_bias v) c)
  | Training g i rbr_identity rbr_dense rbr_1x1 =>
      Training g i (option_map (load_bn (v_identity v)) rbr_identity)
        (load_convbn (v_dense_weight v) (v_dense_bn v) rbr_dense)
        (load_convbn (v_1x1_weight v) (v_1x1_bn v) rbr_1x1)
  end.

(** The blocks of a stage, the first of which has the index [idx]. *)
Fixpoint load_blocks (vals : Z -> block_values) (idx : Z) (bs : list RepVGGBlock)
  : list RepVGGBlock :=
  match bs with
  | [] => []
  | b :: bs' => load_block_values (vals idx) b :: load_blocks vals (idx + 1)%Z bs'
  end.

Definition load_values (vals : Z -> block_values) (self : REPVGGBackbone)
  : REPVGGBackbone :=
  let i2 := (1 + Z.of_nat (length (stage1 self)))%Z in
  let i3 := (i2 + Z.of_nat (length (stage2 self)))%Z in
  let i4 := (i3 + Z.of_nat (length (stage3 self)))%Z in
  mk_REPVGGBackbone (load_block_values (vals 0%Z) (stage0 self))
    (load_blocks vals 1 (stage1 self)) (load_blocks vals i2 (stage2 self))
    (load_blocks vals i3 (stage3 self)) (load_blocks vals i4 (stage4 self))
    (cur_layer_idx self).

(** Lines 91-111: [REPVGGBackbone.__init__] ([pretrained] is [True] by
    default). *)
Definition REPVGGBackbone_init (t : torch) (num_blocks : list Z)
  (width_multiplier : list Q) (self : backbone_self) (pretrained : bool)
  : option REPVGGBackbone :=
  bb <- new_REPVGGBackbone num_blocks width_multiplier self ;;
  if pretrained then
    vals <- load_pre_trained_weights t bb ;;
    Some (load_values vals bb)
  else Some bb.

(** The default arguments of the constructor (line 91). *)
Definition default_num_blocks : list Z := [2; 4; 14; 1]%Z.
Definition default_width_multiplier : list Q := [3 # 2; 3 # 2; 3 # 2; 11 # 4]%Q.
Definition no_override : Z -> option Z := fun _ => None.

(** [nn.Sequential] of the blocks of a stage. *)
Fixpoint sequential (blocks : list RepVGGBlock) (x : ndarray) : option ndarray :=
  match blocks with
  | [] => Some x
  | b :: blocks' =>
      y <- forward b x ;;
      sequential blocks' y
  end.

(** Lines 131-137: [REPVGGBackbone.forward]. *)
Definition backbone_forward (self : REPVGGBackbone) (x : ndarray)
  : option (ndarray * ndarray) :=
  x0 <- forward (stage0 self) x ;;
  x1 <- sequential (stage1 self) x0 ;;
  x2 <- sequential (stage2 self) x1 ;;
  out1 <- sequential (stage3 self) x2 ;;
  out2 <- sequential (stage4 self) out1 ;;
  Some (out1, out2).

(** The 3x3 convolution of a block, which carries the arguments the block
    was built with, and whether the block has the identity branch. *)
Definition block_conv (b : RepVGGBlock) : Conv2d :=
  match b with
  | Deploy _ _ rbr_reparam => rbr_reparam
  | Training _ _ _ rbr_dense _ => conv rbr_dense
  end.

Definition has_identity (b : RepVGGBlock) : bool :=
  match b with
  | Training _ _ (Some _) _ _ => true
  | _ => false
  end.

(** *** [repvgg_model_convert], for a backbone *)

(** The blocks of a backbone with their names in [named_modules()],
    ['stage0'] and ['stage{k}.{i}'], in the order of registration; the
    pair [(k, i)] stands for the name (and [(0, 0)] for ['stage0']). *)
Definition indexed (k : nat) (blocks : list RepVGGBlock)
  : list ((nat * nat) * RepVGGBlock) :=
  combine (map (pair k) (seq 0 (length blocks))) blocks.

Definition named_blocks (model : REPVGGBackbone) : list ((nat * nat) * RepVGGBlock) :=
  ((0, 0), stage0 model)
  :: indexed 1 (stage1 model) ++ indexed 2 (stage2 model)
     ++ indexed 3 (stage3 model) ++ indexed 4 (stage4 model).

Definition name_eqb (a b : nat * nat) : bool :=
  (fst a =? fst b) && (snd a =? snd b).

(** [converted_weights[name + '.rbr_reparam.weight']] and
    [converted_weights[name + '.rbr_reparam.bias']], kept as one entry per
    name: KeyError for a name that is no key. *)
Fixpoint lookup (name : nat * nat) (d : list ((nat * nat) * (ndarray * ndarray)))
  : option (ndarray * ndarray) :=
  match d with
  | [] => None
  | (n, kb) :: d' => if name_eqb name n then Some kb else lookup name d'
  end.

(** Lines 144-154: the modules that have the method [repvgg_convert] are
    the blocks (the backbone has no [nn.Linear]); each is converted, in
    order. *)
Definition convert_all (model : REPVGGBackbone)
  : option (list ((nat * nat) * (ndarray * ndarray))) :=
  omap (fun nb => kb <- repvgg_convert (snd nb) ;; Some (fst nb, kb))
       (named_blocks model).

(** Lines 158-160 for the parameters of one block of the deploy model: a
    block in deploy form has the two parameters [rbr_reparam.weight] and
    [rbr_reparam.bias]; the parameters of a block in training form have
    names that are no keys. *)
Definition load_block (converted_weights : list ((nat * nat) * (ndarray * ndarray)))
  (nb : (nat * nat) * RepVGGBlock) : option RepVGGBlock :=
  match snd nb with
  | Deploy _ _ _ =>
      kb <- lookup (fst nb) converted_weights ;;
      Some (load_converted (snd nb) (fst kb) (snd kb))
  | Training _ _ _ _ _ => None
  end.

(** Lines 143-165: [repvgg_model_convert(model, build_func)] for a
    backbone, without [save_path]; the conversion to float32 of line 160 is
    not modelled, the entries being real numbers. *)
Definition repvgg_model_convert (model : REPVGGBackbone)
  (build_func : bool -> option REPVGGBackbone) : option REPVGGBackbone :=
  converted_weights <- convert_all model ;;
  deploy_model <- build_func true ;;
  s0 <- load_block converted_weights ((0, 0), stage0 deploy_model) ;;
  s1 <- omap (load_block converted_weights) (indexed 1 (stage1 deploy_model)) ;;
  s2 <- omap (load_block converted_weights) (indexed 2 (stage2 deploy_model)) ;;
  s3 <- omap (load_block converted_weights) (indexed 3 (stage3 deploy_model)) ;;
  s4 <- omap (load_block converted_weights) (indexed 4 (stage4 deploy_model)) ;;
  Some (mk_REPVGGBackbone s0 s1 s2 s3 s4 (cur_layer_idx deploy_model)).

End RepVGG.

(** ** Sample inputs, used to run the definitions above *)

(** A list of scores in ascending order. *)
Definition ascending : list Q -> Prop := StronglySorted Qle.

(** An image with one class and 301 detections of equal score. *)
Definition tied_dets : list Main.ndarray2 :=
  [Main.mk_ndarray2 5 (repeat [0; 0; 1; 1; 1 # 2]%Q 301)].

(** An image with one class and 301 detections of pairwise distinct score,
    [1/1000 .. 301/1000]. *)
Definition ranked_dets : list Main.ndarray2 :=
  [Main.mk_ndarray2 5
     (map (fun i => [0; 0; 1; 1; Z.of_nat i # 1000]%Q) (seq 1 301))].

(** Three anchors and two classes; [nms_keep_all] stands for an [nms] that
    suppresses nothing. *)
Definition sample_boxes : Main.ndarray2 :=
  Main.mk_ndarray2 4 [[0; 0; 1; 1]; [1; 1; 2; 2]; [2; 2; 3; 3]]%Q.

Definition sample_scores : Main.ndarray2 :=
  Main.mk_ndarray2 2 [[9 # 10; 1 # 1000]; [1 # 1000; 5 # 1000]; [1 # 2; 6 # 1000]]%Q.

Definition nms_keep_all (a : Main.ndarray2) (_ : Q) : list nat :=
  seq 0 (length (Main.rows a)).

(** A run on small feature maps: the detector for size 320 and 3 classes,
    one image, feature maps of [2 x 2], [1 x 1], [1 x 1] and [1 x 1] cells of
    256 channels, and convolutions whose output holds, at each place, the
    position of that place in the storage. *)
Definition sample_build : (DetectorPy.exn + DetectorPy.Detector) * list DetectorPy.event :=
  DetectorPy.new_Detector DetectorPy.torch_library 320 3 "repvgg" "pafpn".

Definition sample_detector : DetectorPy.Detector :=
  match fst sample_build with
  | inr d => d
  | inl _ => DetectorPy.mk_Detector 0 0 0 "" "" [] []
  end.

Definition sample_dims : list (nat * nat) := [(2, 2); (1, 1); (1, 1); (1, 1)].

Definition sample_features (_ : @DetectorPy.tensor nat) : list (@DetectorPy.tensor nat) :=
  map (fun hw => DetectorPy.mk_tensor [1; 256; fst hw; snd hw]
                   (repeat 0 (256 * (fst hw * snd hw))))
      sample_dims.

Definition sample_image : @DetectorPy.tensor nat :=
  DetectorPy.mk_tensor [1; 3; 0; 0] [].

Definition iota_conv (l : DetectorPy.Conv2d) (t : @DetectorPy.tensor nat)
  : option (@DetectorPy.tensor nat) :=
  match DetectorPy.shape t with
  | [n; c; h; w] =>
      if (Z.of_nat c =? DetectorPy.in_channels l)%Z
      then let o := Z.to_nat (DetectorPy.out_channels l) in
           Some (DetectorPy.mk_tensor [n; o; h; w] (seq 0 (n * (o * (h * w)))))
      else None
  | _ => None
  end.

Definition unit_bn : RepVGG.bn_values :=
  RepVGG.mk_bn_values (fun _ => 0%R) (fun _ => 1%R) (fun _ => 1%R) (fun _ => 0%R) 0%R.

(** Values of the parameters of a block: every weight 1, every batch
    normalisation with mean 0, variance 1, weight 1 and bias 0. *)
Definition unit_values : RepVGG.block_values :=
  RepVGG.mk_block_values (fun _ => 0%R) (fun _ => 0%R) unit_bn
    (fun _ => 1%R) unit_bn (fun _ => 1%R) unit_bn.

(** One image of 4 channels and 5 x 5 pixels, every entry 1. *)
Definition unit_input : RepVGG.ndarray := RepVGG.mk_nd [1; 4; 5; 5] (fun _ => 1%R).

(** An [override_groups_map] with the one key 2: groups 2 for the block
    with index 2, the second block of the first stage. *)
Definition groups_of_block_2 : Z -> option Z :=
  fun i => if (i =? 2)%Z then Some 2%Z else None.

(** A small backbone: one block per stage and width multipliers that give
    the stages 4 channels each. *)
Definition small_num_blocks : list Z := [1; 1; 1; 1]%Z.
Definition small_width_multiplier : list Q := [1 # 16; 1 # 32; 1 # 64; 1 # 128]%Q.

(** One image of 3 channels and 5 x 5 pixels, every entry 1. *)
Definition small_image : RepVGG.ndarray := RepVGG.mk_nd [1; 3; 5; 5] (fun _ => 1%R).

(** A machine without the file of pretrained weights: [torch.load]
    raises, and nothing is loaded. *)
Definition no_pretrained_file : RepVGG.torch :=
  RepVGG.mk_torch None (fun _ _ => None).

(** The named parameters of one head layer, a weight and a bias. *)
Definition sample_parameters : list (string * Main.parameter) :=
  [("loc.0.weight"%string, Main.mk_parameter [24; 256; 3; 3] true);
   ("loc.0.bias"%string, Main.mk_parameter [24] true)].

(** * Properties *)

(** ** List facts shared by the proofs below *)

Section ListFacts.

Context {A : Type}.

Lemma omap_nth_error_where_from (pre l : list A) (p : A -> bool) :
  omap (fun i => nth_error (pre ++ l) i)
       (Main.np_where_from (length pre) (map p l))
  = Some (filter p l).
Proof.
  revert pre.
  induction l as [|x l IH]; intros pre; simpl; [reflexivity|].
  assert (Hshift : pre ++ x :: l = (pre ++ [x]) ++ l)
    by (rewrite <- app_assoc; reflexivity).
  assert (Hlen : S (length pre) = length (pre ++ [x]))
    by (rewrite length_app; simpl; lia).
  destruct (p x); simpl.
  - rewrite nth_error_app2 by lia.
    rewrite Nat.sub_diag; simpl.
    rewrite Hshift, Hlen, IH; reflexivity.
  - rewrite Hshift, Hlen, IH; reflexivity.
Qed.

Lemma omap_nth_error_where (l : list A) (p : A -> bool) :
  omap (fun i => nth_error l i) (Main.np_where (map p l)) = Some (filter p l).
Proof. exact (omap_nth_error_where_from [] l p). Qed.

Lemma filter_perm (p : A -> bool) (l l' : list A) :
  Permutation l l' -> Permutation (filter p l) (filter p l').
Proof.
  induction 1 as [|x l l' _ IH|x y l|l l' l'' _ IH1 _ IH2]; simpl.
  - constructor.
  - destruct (p x); [apply perm_skip|]; exact IH.
  - destruct (p x), (p y); try reflexivity. apply perm_swap.
  - etransitivity; eassumption.
Qed.

Lemma filter_perm_length (p : A -> bool) (l l' : list A) :
  Permutation l l' -> length (filter p l) = length (filter p l').
Proof. intros H. apply Permutation_length, filter_perm, H. Qed.

Lemma app_eq_length_inv (l1 l2 r1 r2 : list A) :
  l1 ++ r1 = l2 ++ r2 -> length l1 = length l2 -> l1 = l2 /\ r1 = r2.
Proof.
  revert l2.
  induction l1 as [|x l1 IH]; intros [|y l2]; simpl; intros He Hl;
    try discriminate.
  - split; [reflexivity | exact He].
  - injection He as Hx He. injection Hl as Hl.
    destruct (IH l2 He Hl) as [H1 H2]. subst. split; reflexivity.
Qed.

Lemma filter_concat (p : A -> bool) (ls : list (list A)) :
  filter p (concat ls) = concat (map (filter p) ls).
Proof.
  induction ls as [|l ls IH]; simpl; [reflexivity|].
  rewrite filter_app, IH; reflexivity.
Qed.

Lemma filter_all (p : A -> bool) (l : list A) :
  Forall (fun x => p x = true) l -> filter p l = l.
Proof.
  induction 1 as [|x l Hx _ IH]; simpl; [reflexivity|].
  rewrite Hx, IH; reflexivity.
Qed.

Lemma filter_none (p : A -> bool) (l : list A) :
  Forall (fun x => p x = false) l -> filter p l = [].
Proof.
  induction 1 as [|x l Hx _ IH]; simpl; [reflexivity|].
  rewrite Hx, IH; reflexivity.
Qed.

Lemma omap_total {B : Type} (f : A -> option B) (g : A -> B) (l : list A) :
  Forall (fun a => f a = Some (g a)) l -> omap f l = Some (map g l).
Proof.
  induction 1 as [|x l Hx _ IH]; simpl; [reflexivity|].
  rewrite Hx, IH; reflexivity.
Qed.

End ListFacts.

Lemma filter_map_comm {A B : Type} (f : A -> B) (p : B -> bool) (l : list A) :
  filter p (map f l) = map f (filter (fun a => p (f a)) l).
Proof.
  induction l as [|x l IH]; simpl; [reflexivity|].
  destruct (p (f x)); simpl; rewrite IH; reflexivity.
Qed.

(** ** np.sort: the result is ascending and a rearrangement of the input *)

Lemma Qle_bool_false (x y : Q) : Qle_bool x y = false -> (y <= x)%Q.
Proof.
  intros H. apply Qlt_le_weak, Qnot_le_lt. intros Hle.
  apply Qle_bool_iff in Hle. congruence.
Qed.

Lemma insert_sorted_perm (x : Q) (l : list Q) :
  Permutation (x :: l) (Main.insert_sorted x l).
Proof.
  induction l as [|y l IH]; simpl; [reflexivity|].
  destruct (Qle_bool x y); [reflexivity|].
  rewrite perm_swap. apply perm_skip, IH.
Qed.

Lemma np_sort_perm (l : list Q) : Permutation l (Main.np_sort l).
Proof.
  induction l as [|x l IH]; simpl; [reflexivity|].
  rewrite <- insert_sorted_perm. apply perm_skip, IH.
Qed.

Lemma insert_sorted_ascending (x : Q) (l : list Q) :
  ascending l -> ascending (Main.insert_sorted x l).
Proof.
  unfold ascending.
  induction 1 as [|y l Hl IH Hy]; simpl.
  - constructor; constructor.
  - destruct (Qle_bool x y) eqn:E.
    + apply Qle_bool_iff in E.
      constructor; [constructor; assumption|].
      constructor; [assumption|].
      eapply Forall_impl; [|exact Hy].
      intros z Hz. eapply Qle_trans; eassumption.
    + apply Qle_bool_false in E.
      constructor; [exact IH|].
      eapply Permutation_Forall; [apply insert_sorted_perm|].
      constructor; assumption.
  Qed.

Lemma np_sort_ascending (l : list Q) : ascending (Main.np_sort l).
Proof.
  induction l as [|x l IH]; simpl.
  - constructor.
  - apply insert_sorted_ascending, IH.
Qed.

Lemma np_sort_length (l : list Q) : length (Main.np_sort l) = length l.
Proof. symmetry. apply Permutation_length, np_sort_perm. Qed.

(** ** The element at a position of an ascending list, and the elements
       at or above it *)

Lemma ascending_split (lo hi : list Q) (t : Q) :
  ascending (lo ++ t :: hi) ->
  Forall (fun x => (x <= t)%Q) lo /\ Forall (fun x => (t <= x)%Q) hi.
Proof.
  unfold ascending.
  induction lo as [|y lo IH]; simpl; intros H.
  - apply StronglySorted_inv in H. split; [constructor | tauto].
  - apply StronglySorted_inv in H. destruct H as [Hs Hall].
    destruct (IH Hs) as [Hlo Hhi]. split; [|exact Hhi].
    constructor; [|exact Hlo].
    rewrite Forall_forall in Hall. apply Hall.
    apply in_or_app. right. left. reflexivity.
Qed.

Lemma count_ge_split (lo hi : list Q) (t : Q) :
  ascending (lo ++ t :: hi) ->
  S (length hi) <= length (filter (Qle_bool t) (lo ++ t :: hi)).
Proof.
  intros H. destruct (ascending_split _ _ _ H) as [_ Hhi].
  rewrite filter_app, length_app. simpl.
  replace (Qle_bool t t) with true
    by (symmetry; apply Qle_bool_iff, Qle_refl).
  simpl. rewrite (filter_all (Qle_bool t) hi).
  - lia.
  - eapply Forall_impl; [|exact Hhi]. intros x Hx. apply Qle_bool_iff, Hx.
Qed.

Lemma count_gt_split (lo hi : list Q) (t : Q) :
  ascending (lo ++ t :: hi) ->
  length (filter (Main.Qltb t) (lo ++ t :: hi)) <= length hi.
Proof.
  intros H. destruct (ascending_split _ _ _ H) as [Hlo _].
  rewrite filter_app, length_app. simpl.
  rewrite (filter_none (Main.Qltb t) lo).
  - unfold Main.Qltb at 1.
    replace (Qle_bool t t) with true
      by (symmetry; apply Qle_bool_iff, Qle_refl).
    simpl. apply filter_length_le.
  - eapply Forall_impl; [|exact Hlo]. intros x Hx.
    unfold Main.Qltb. apply Qle_bool_iff in Hx. rewrite Hx. reflexivity.
Qed.

Lemma filter_ge_no_tie (lo hi : list Q) (t : Q) :
  ascending (lo ++ t :: hi) ->
  Forall (fun x => (x < t)%Q) lo ->
  filter (Qle_bool t) (lo ++ t :: hi) = t :: hi.
Proof.
  intros H Hlt. destruct (ascending_split _ _ _ H) as [_ Hhi].
  rewrite filter_app. simpl.
  rewrite (filter_none (Qle_bool t) lo).
  - replace (Qle_bool t t) with true
      by (symmetry; apply Qle_bool_iff, Qle_refl).
    simpl. f_equal. apply filter_all.
    eapply Forall_impl; [|exact Hhi]. intros x Hx. apply Qle_bool_iff, Hx.
  - eapply Forall_impl; [|exact Hlt]. intros x Hx.
    destruct (Qle_bool t x) eqn:E; [|reflexivity].
    apply Qle_bool_iff in E. exfalso. exact (Qlt_not_le _ _ Hx E).
Qed.

(** The list read at a negative Python index [-c], cut there. *)
Lemma py_index_neg_split (v : list Q) (c : Z) :
  (0 < c)%Z -> (c <= Z.of_nat (length v))%Z ->
  exists lo t hi,
    v = lo ++ t :: hi /\ Main.py_index v (- c) = Some t /\
    length lo = length v - Z.to_nat c /\ S (length hi) = Z.to_nat c.
Proof.
  intros Hpos Hle. unfold Main.py_index.
  destruct (0 <=? - c)%Z eqn:E1; [apply Z.leb_le in E1; lia|].
  destruct (0 <=? Z.of_nat (length v) + - c)%Z eqn:E2;
    [|apply Z.leb_gt in E2; lia].
  destruct (nth_error v (Z.to_nat (Z.of_nat (length v) + - c))) as [t|] eqn:En.
  - destruct (nth_error_split _ _ En) as (lo & hi & Hv & Hlo).
    exists lo, t, hi. repeat split; try assumption.
    + lia.
    + apply (f_equal (@length Q)) in Hv. rewrite length_app in Hv.
      simpl in Hv. lia.
  - apply nth_error_None in En. lia.
Qed.

(** ** main.py, lines 220-226: the cap on the detections of an image *)

Section Cap.

Import Main.

Lemma last_column_scores (a : ndarray2) :
  0 < ncols a -> last_column a = Some (map (row_score a) (rows a)).
Proof.
  intros H. unfold last_column, column.
  destruct (0 <? ncols a) eqn:E; [|apply Nat.ltb_ge in E; lia].
  destruct (ncols a - 1 <? ncols a) eqn:E'; [|apply Nat.ltb_ge in E'; lia].
  reflexivity.
Qed.

Lemma cap_class_filter (t : Q) (a : ndarray2) :
  0 < ncols a -> cap_class t a = Some (rows_at_least t a).
Proof.
  intros H. unfold cap_class. rewrite (last_column_scores a H). simpl.
  unfold take_rows. rewrite map_map.
  rewrite (omap_nth_error_where (rows a) (fun r => Qle_bool t (row_score a r))).
  reflexivity.
Qed.

Lemma total_dets_scores (dets : list ndarray2) :
  length (all_scores dets) = total_dets dets.
Proof.
  unfold all_scores, total_dets.
  induction dets as [|a dets IH]; simpl; [reflexivity|].
  rewrite length_app, length_map, IH. reflexivity.
Qed.

Lemma all_scores_at_least (t : Q) (dets : list ndarray2) :
  all_scores (map (rows_at_least t) dets) = filter (Qle_bool t) (all_scores dets).
Proof.
  unfold all_scores.
  induction dets as [|a dets IH]; simpl; [reflexivity|].
  rewrite filter_app, IH. f_equal.
  rewrite filter_map_comm. reflexivity.
Qed.

Lemma hstack_scores (dets : list ndarray2) :
  dets <> [] ->
  np_hstack (map (fun a => map (row_score a) (rows a)) dets)
  = Some (all_scores dets).
Proof. destruct dets; [congruence | reflexivity]. Qed.

Variable cap : Z.
Variable dets : list ndarray2.
Hypothesis cap_pos : (0 < cap)%Z.
Hypothesis some_class : dets <> [].
Hypothesis has_cols : Forall (fun a => 0 < ncols a) dets.

Lemma cap_with_under :
  (Z.of_nat (total_dets dets) <= cap)%Z -> cap_with cap dets = Some dets.
Proof.
  intros Hle. unfold cap_with.
  destruct (0 <? cap)%Z eqn:E; [|apply Z.ltb_ge in E; lia].
  rewrite (omap_total last_column (fun a => map (row_score a) (rows a)))
    by (eapply Forall_impl; [|exact has_cols]; apply last_column_scores).
  simpl obind. rewrite hstack_scores by exact some_class.
  simpl obind. rewrite total_dets_scores.
  destruct (cap <? Z.of_nat (total_dets dets))%Z eqn:E2;
    [apply Z.ltb_lt in E2; lia | reflexivity].
Qed.

Hypothesis too_many : (cap < Z.of_nat (total_dets dets))%Z.

(** Over the cap, the code reads the threshold at index [-cap] of the
    sorted scores and keeps, class by class, the rows at or above it. *)
Lemma cap_with_over :
  exists lo t hi,
    np_sort (all_scores dets) = lo ++ t :: hi /\
    S (length hi) = Z.to_nat cap /\
    py_index (np_sort (all_scores dets)) (- cap) = Some t /\
    cap_with cap dets = Some (map (rows_at_least t) dets).
Proof.
  destruct (py_index_neg_split (np_sort (all_scores dets)) cap cap_pos)
    as (lo & t & hi & Hs & Hidx & _ & Hhi).
  { rewrite np_sort_length, total_dets_scores. lia. }
  exists lo, t, hi. repeat split; try assumption.
  unfold cap_with.
  destruct (0 <? cap)%Z eqn:E; [|apply Z.ltb_ge in E; lia].
  rewrite (omap_total last_column (fun a => map (row_score a) (rows a)))
    by (eapply Forall_impl; [|exact has_cols]; apply last_column_scores).
  simpl obind. rewrite hstack_scores by exact some_class.
  simpl obind. rewrite total_dets_scores.
  destruct (cap <? Z.of_nat (total_dets dets))%Z eqn:E2;
    [|apply Z.ltb_ge in E2; lia].
  rewrite Hidx. simpl obind.
  apply omap_total.
  eapply Forall_impl; [|exact has_cols]. intros b Hb.
  apply cap_class_filter, Hb.
Qed.

End Cap.

Lemma tied_dets_cap : Main.image_cap tied_dets = Some tied_dets.
Proof. vm_compute. reflexivity. Qed.

Lemma tied_dets_total : Main.total_dets tied_dets = 301.
Proof. vm_compute. reflexivity. Qed.

(** The threshold of the cap is the [cap]-th highest score: at least [cap]
    scores are at or above it, fewer than [cap] are strictly above it. *)
Lemma cap_threshold_rank (cap : Z) (scores lo hi : list Q) (t : Q) :
  Main.np_sort scores = lo ++ t :: hi ->
  S (length hi) = Z.to_nat cap ->
  Z.to_nat cap <= length (filter (Qle_bool t) scores) /\
  length (filter (Main.Qltb t) scores) < Z.to_nat cap.
Proof.
  intros Hs Hhi.
  pose proof (np_sort_ascending scores) as Hasc. rewrite Hs in Hasc.
  rewrite (filter_perm_length (Qle_bool t) _ _ (np_sort_perm scores)).
  rewrite (filter_perm_length (Main.Qltb t) _ _ (np_sort_perm scores)).
  rewrite Hs. split.
  - rewrite <- Hhi. apply count_ge_split, Hasc.
  - pose proof (count_gt_split lo hi t Hasc). lia.
Qed.

(** C9. Over the cap, the post-processing keeps, class by class, exactly the
    detections whose score is at least the [max_per_image]-th highest score
    of the image (the score [t] read at index [-max_per_image] of the sorted
    scores: at least [max_per_image] scores are at or above it and fewer
    than [max_per_image] strictly above it); detections that tie at that
    score are all kept, and there is an image whose capped output has more
    than [max_per_image] detections. *)
Theorem cap_keeps_ties :
  (forall dets : list Main.ndarray2,
      dets <> [] ->
      Forall (fun a => 0 < Main.ncols a) dets ->
      (Main.max_per_image < Z.of_nat (Main.total_dets dets))%Z ->
      exists t : Q,
        Main.py_index (Main.np_sort (Main.all_scores dets)) (- Main.max_per_image)
        = Some t /\
        Z.to_nat Main.max_per_image
        <= length (filter (Qle_bool t) (Main.all_scores dets)) /\
        length (filter (Main.Qltb t) (Main.all_scores dets))
        < Z.to_nat Main.max_per_image /\
        Main.image_cap dets = Some (map (Main.rows_at_least t) dets))
  /\
  (exists dets out : list Main.ndarray2,
      Main.image_cap dets = Some out /\
      (Main.max_per_image < Z.of_nat (Main.total_dets out))%Z).
Proof.
  split.
  - intros dets Hne Hcols Hmany.
    destruct (cap_with_over Main.max_per_image dets) as (lo & t & hi & Hs & Hhi & Hidx & Hcap);
      try assumption; [reflexivity|].
    exists t.
    destruct (cap_threshold_rank _ _ _ _ _ Hs Hhi) as [Hge Hgt].
    repeat split; assumption.
  - exists tied_dets, tied_dets. split; [exact tied_dets_cap|].
    rewrite tied_dets_total. reflexivity.
Qed.

Lemma cap_keeps_ties_witness :
  exists t : Q,
    Main.image_cap tied_dets = Some (map (Main.rows_at_least t) tied_dets).
Proof.
  destruct (proj1 cap_keeps_ties tied_dets) as (t & _ & _ & _ & H).
  - discriminate.
  - repeat constructor.
  - rewrite tied_dets_total. reflexivity.
  - exists t. exact H.
Defined.

(** C2, as stated, fails: the image [tied_dets] has 301 detections, more
    than [max_per_image], and its capped output still has 301 of them, not
    300. *)
Lemma cap_not_exactly_300 :
  (Main.max_per_image < Z.of_nat (Main.total_dets tied_dets))%Z /\
  exists out : list Main.ndarray2,
    Main.image_cap tied_dets = Some out /\
    Main.total_dets out <> Z.to_nat Main.max_per_image.
Proof.
  split.
  - rewrite tied_dets_total. reflexivity.
  - exists tied_dets. split; [exact tied_dets_cap|].
    rewrite tied_dets_total. discriminate.
Qed.

(** When the score read one place below the threshold is strictly smaller,
    everything below the cut is. *)
Lemma below_cut_smaller (v lo hi : list Q) (t u : Q) (c : Z) :
  ascending v ->
  v = lo ++ t :: hi ->
  S (length hi) = Z.to_nat c ->
  (0 < c)%Z ->
  Main.py_index v (- c - 1) = Some u ->
  (u < t)%Q ->
  Forall (fun x => (x < t)%Q) lo.
Proof.
  intros Hasc Hv Hhi Hc Hidx Hlt.
  assert (Hn : (c + 1 <= Z.of_nat (length v))%Z).
  { unfold Main.py_index in Hidx.
    destruct (0 <=? - c - 1)%Z eqn:E1; [apply Z.leb_le in E1; lia|].
    destruct (0 <=? Z.of_nat (length v) + (- c - 1))%Z eqn:E2;
      [apply Z.leb_le in E2; lia | discriminate]. }
  destruct (py_index_neg_split v (c + 1)) as (lo2 & u' & hi2 & Hs2 & Hidx2 & Hlo2 & Hhi2);
    [lia | exact Hn |].
  replace (- (c + 1))%Z with (- c - 1)%Z in Hidx2 by lia.
  rewrite Hidx2 in Hidx. injection Hidx as ->.
  assert (Hcut : lo2 ++ [u] = lo /\ hi2 = t :: hi).
  { apply app_eq_length_inv.
    - rewrite <- app_assoc. simpl. rewrite <- Hs2. exact Hv.
    - apply (f_equal (@length Q)) in Hv. rewrite length_app in Hv. simpl in Hv.
      rewrite length_app. simpl. lia. }
  destruct Hcut as [Hlo ->].
  rewrite <- Hlo. apply Forall_app. split.
  - rewrite Hs2 in Hasc. apply ascending_split in Hasc.
    eapply Forall_impl; [|exact (proj1 Hasc)].
    intros x Hx. exact (Qle_lt_trans _ _ _ Hx Hlt).
  - constructor; [assumption | constructor].
Qed.

(** C2, amended. Over the cap, the post-processing reads the
    [max_per_image]-th highest score [t] of the image and keeps the
    detections at or above it: at least [max_per_image] of them; and when
    the next score down is strictly smaller (no tie at the threshold), exactly
    [max_per_image] of them, whose scores are the [max_per_image] highest. *)
Theorem cap_top_scores (dets : list Main.ndarray2) :
  dets <> [] ->
  Forall (fun a => 0 < Main.ncols a) dets ->
  (Main.max_per_image < Z.of_nat (Main.total_dets dets))%Z ->
  exists (t : Q) (out : list Main.ndarray2),
    Main.py_index (Main.np_sort (Main.all_scores dets)) (- Main.max_per_image)
    = Some t /\
    Main.image_cap dets = Some out /\
    Main.all_scores out = filter (Qle_bool t) (Main.all_scores dets) /\
    Z.to_nat Main.max_per_image <= Main.total_dets out /\
    (forall u : Q,
        Main.py_index (Main.np_sort (Main.all_scores dets))
                      (- Main.max_per_image - 1) = Some u ->
        (u < t)%Q ->
        Main.total_dets out = Z.to_nat Main.max_per_image /\
        Permutation (Main.all_scores out)
          (skipn (Main.total_dets dets - Z.to_nat Main.max_per_image)
                 (Main.np_sort (Main.all_scores dets)))).
Proof.
  intros Hne Hcols Hmany.
  destruct (cap_with_over Main.max_per_image dets)
    as (lo & t & hi & Hs & Hhi & Hidx & Hcap); try assumption; [reflexivity|].
  exists t, (map (Main.rows_at_least t) dets).
  pose proof (all_scores_at_least t dets) as Hout.
  destruct (cap_threshold_rank _ _ _ _ _ Hs Hhi) as [Hge _].
  pose proof (np_sort_ascending (Main.all_scores dets)) as Hasc.
  pose proof (np_sort_length (Main.all_scores dets)) as Hlen.
  rewrite total_dets_scores in Hlen.
  assert (Hno_tie : forall u : Q,
             Main.py_index (Main.np_sort (Main.all_scores dets))
                           (- Main.max_per_image - 1) = Some u ->
             (u < t)%Q ->
             filter (Qle_bool t) (Main.np_sort (Main.all_scores dets)) = t :: hi).
  { intros u Hu Hlt. rewrite Hs. apply filter_ge_no_tie.
    - rewrite <- Hs. exact Hasc.
    - eapply (below_cut_smaller _ lo hi t u Main.max_per_image); eauto.
      reflexivity. }
  repeat split; try assumption.
  - rewrite <- total_dets_scores, Hout. exact Hge.
  - rewrite <- total_dets_scores, Hout.
    rewrite (filter_perm_length _ _ _ (np_sort_perm (Main.all_scores dets))).
    rewrite (Hno_tie u H H0). exact Hhi.
  - rewrite Hout.
    rewrite (filter_perm _ _ _ (np_sort_perm (Main.all_scores dets))).
    rewrite (Hno_tie u H H0).
    assert (Hll : Main.total_dets dets - Z.to_nat Main.max_per_image = length lo).
    { rewrite Hs, length_app in Hlen. simpl in Hlen. lia. }
    rewrite Hll, Hs, skipn_app, skipn_all, Nat.sub_diag. reflexivity.
Qed.

Lemma cap_top_scores_witness :
  exists out : list Main.ndarray2,
    Main.image_cap ranked_dets = Some out /\ Main.total_dets out = 300.
Proof.
  destruct (cap_top_scores ranked_dets) as (t & out & Hidx & Hcap & _ & _ & Hexact).
  - discriminate.
  - repeat constructor.
  - vm_compute. reflexivity.
  - exists out. split; [exact Hcap|].
    vm_compute in Hidx. injection Hidx as <-.
    apply (Hexact (1 # 1000)%Q).
    + vm_compute. reflexivity.
    + reflexivity.
Defined.

(** ** main.py, lines 209-219: thresholding the scores of one class *)

Section Threshold.

Import Main.

Lemma omap_length {A B : Type} (f : A -> option B) (l : list A) (r : list B) :
  omap f l = Some r -> length r = length l.
Proof.
  revert r. induction l as [|a l IH]; simpl; intros r H.
  - injection H as <-. reflexivity.
  - destruct (f a); simpl in H; [|discriminate].
    destruct (omap f l); simpl in H; [|discriminate].
    injection H as <-. simpl. rewrite (IH l0); reflexivity.
Qed.

Lemma omap_nth_error_mask_from {A : Type} (pre l : list A) (h : Q -> bool) (sc : list Q) :
  length l = length sc ->
  omap (fun i => nth_error (pre ++ l) i) (np_where_from (length pre) (map h sc))
  = Some (map fst (filter (fun p => h (snd p)) (combine l sc))).
Proof.
  revert pre sc.
  induction l as [|x l IH]; intros pre [|s sc] Hlen; simpl in *;
    try discriminate; [reflexivity|].
  injection Hlen as Hlen.
  assert (Hshift : pre ++ x :: l = (pre ++ [x]) ++ l)
    by (rewrite <- app_assoc; reflexivity).
  assert (Hpre : S (length pre) = length (pre ++ [x]))
    by (rewrite length_app; simpl; lia).
  destruct (h s); simpl.
  - rewrite nth_error_app2 by lia.
    rewrite Nat.sub_diag; simpl.
    rewrite Hshift, Hpre, IH by exact Hlen. reflexivity.
  - rewrite Hshift, Hpre, IH by exact Hlen. reflexivity.
Qed.

Lemma omap_nth_error_mask {A : Type} (l : list A) (h : Q -> bool) (sc : list Q) :
  length l = length sc ->
  omap (fun i => nth_error l i) (np_where (map h sc))
  = Some (map fst (filter (fun p => h (snd p)) (combine l sc))).
Proof. exact (omap_nth_error_mask_from [] l h sc). Qed.

Lemma filter_snd_combine {A : Type} (l : list A) (h : Q -> bool) (sc : list Q) :
  length l = length sc ->
  filter h sc = map snd (filter (fun p => h (snd p)) (combine l sc)).
Proof.
  revert sc.
  induction l as [|x l IH]; intros [|s sc] Hlen; simpl in *;
    try discriminate; [reflexivity|].
  injection Hlen as Hlen.
  destruct (h s); simpl; rewrite (IH sc Hlen); reflexivity.
Qed.

Lemma combine_fst_snd {A B : Type} (X : list (A * B)) :
  combine (map fst X) (map snd X) = X.
Proof.
  induction X as [|[a b] X IH]; simpl; [reflexivity|].
  rewrite IH. reflexivity.
Qed.

Lemma Qltb_lt (x y : Q) : Qltb x y = true <-> (x < y)%Q.
Proof.
  unfold Qltb. split; intros H.
  - apply Qnot_le_lt. intros Hle. apply Qle_bool_iff in Hle.
    rewrite Hle in H. discriminate.
  - destruct (Qle_bool y x) eqn:E; [|reflexivity].
    apply Qle_bool_iff in E. exfalso. exact (Qlt_not_le _ _ H E).
Qed.

Lemma combine_map_r {A B C : Type} (g : B -> C) (l : list A) (l2 : list B) :
  combine l (map g l2) = map (fun p => (fst p, g (snd p))) (combine l l2).
Proof.
  revert l2. induction l as [|x l IH]; intros [|y l2]; simpl; try reflexivity.
  rewrite IH. reflexivity.
Qed.

Variable nms : ndarray2 -> Q -> list nat.
Variable nms_thresh : Q.
Variables boxes scores : ndarray2.
Variable j : nat.
Hypothesis class_range : 1 <= j <= ncols scores.
Hypothesis same_anchors : length (rows boxes) = length (rows scores).

Let score (r : list Q) : Q := nth (j - 1) r 0%Q.
Let sc : list Q := map score (rows scores).
Let X : list (list Q * Q) :=
  filter (fun p => Qltb thresh (snd p)) (combine (rows boxes) sc).

Lemma class_column : column scores (j - 1) = Some sc.
Proof.
  unfold column. destruct (j - 1 <? ncols scores) eqn:E; [reflexivity|].
  apply Nat.ltb_ge in E. lia.
Qed.

Lemma class_inds_above :
  class_inds scores j = Some (np_where (map (Qltb thresh) sc)) /\
  length (np_where (map (Qltb thresh) sc)) = length X.
Proof.
  unfold class_inds. rewrite class_column. split; [reflexivity|].
  pose proof (omap_nth_error_where sc (Qltb thresh)) as H.
  apply omap_length in H. rewrite <- H.
  unfold X. rewrite (filter_snd_combine (rows boxes)), length_map.
  - reflexivity.
  - unfold sc. rewrite length_map. exact same_anchors.
Qed.

Lemma class_candidates_above :
  class_candidates boxes scores j (np_where (map (Qltb thresh) sc))
  = Some (mk_ndarray2 (ncols boxes + 1) (map (fun p => fst p ++ [snd p]) X)).
Proof.
  assert (Hlen : length (rows boxes) = length sc)
    by (unfold sc; rewrite length_map; exact same_anchors).
  unfold class_candidates, take_rows.
  rewrite (omap_nth_error_mask (rows boxes) (Qltb thresh) sc Hlen).
  simpl obind. rewrite class_column. simpl obind.
  unfold take. rewrite (omap_nth_error_where sc (Qltb thresh)). simpl obind.
  unfold hstack_column. simpl ncols. simpl rows.
  rewrite (filter_snd_combine (rows boxes) (Qltb thresh) sc Hlen).
  fold X. rewrite !length_map, Nat.eqb_refl, combine_fst_snd. reflexivity.
Qed.

End Threshold.

(** C3. For a class [j] with [1 <= j <= num_classes - 1] (the scores have
    one column per such class), the array handed to [nms] lists, in anchor
    order, exactly the boxes whose score for the class is strictly greater
    than [thresh = 0.005], each followed by that score; and when no score of
    the class is above the threshold the result for the class is an empty
    array of shape [(0, 5)]. *)
Theorem class_threshold
  (nms : Main.ndarray2 -> Q -> list nat) (nms_thresh : Q)
  (boxes scores : Main.ndarray2) (j : nat) :
  1 <= j <= Main.ncols scores ->
  length (Main.rows boxes) = length (Main.rows scores) ->
  let score := fun r : list Q => nth (j - 1) r 0%Q in
  let above :=
    filter (fun bs => Main.Qltb Main.thresh (score (snd bs)))
           (combine (Main.rows boxes) (Main.rows scores)) in
  let c_dets :=
    Main.mk_ndarray2 (Main.ncols boxes + 1)
      (map (fun bs => fst bs ++ [score (snd bs)]) above) in
  (forall s : Q, Main.Qltb Main.thresh s = true <-> (5 # 1000 < s)%Q) /\
  (above = [] ->
   Main.class_dets nms nms_thresh boxes scores j = Some (Main.np_empty0 5) /\
   Main.shape (Main.np_empty0 5) = (0, 5)) /\
  (above <> [] ->
   exists inds : list nat,
     Main.class_inds scores j = Some inds /\
     Main.class_candidates boxes scores j inds = Some c_dets /\
     Main.class_dets nms nms_thresh boxes scores j
     = Main.take_rows c_dets (nms c_dets nms_thresh)).
Proof.
  intros Hj Hlen score above c_dets.
  destruct (class_inds_above boxes scores j Hj Hlen) as [Hinds Hcount].
  pose proof (class_candidates_above boxes scores j Hj Hlen) as Hcand.
  assert (Habove :
            map (fun p : list Q * Q => fst p ++ [snd p])
              (filter (fun p => Main.Qltb Main.thresh (snd p))
                 (combine (Main.rows boxes) (map score (Main.rows scores))))
            = map (fun bs => fst bs ++ [score (snd bs)]) above).
  { rewrite combine_map_r, filter_map_comm, map_map. reflexivity. }
  assert (Hnum :
            length (filter (fun p => Main.Qltb Main.thresh (snd p))
                      (combine (Main.rows boxes) (map score (Main.rows scores))))
            = length above).
  { rewrite combine_map_r, filter_map_comm, length_map. reflexivity. }
  fold score in Hinds, Hcount, Hcand.
  rewrite Habove in Hcand. rewrite Hnum in Hcount.
  split; [|split].
  - intros s. apply Qltb_lt.
  - intros Hnone. split; [|reflexivity].
    unfold Main.class_dets. rewrite Hinds. simpl obind.
    rewrite Hcount, Hnone. reflexivity.
  - intros Hsome.
    exists (Main.np_where (map (Main.Qltb Main.thresh) (map score (Main.rows scores)))).
    split; [exact Hinds|]. split; [exact Hcand|].
    unfold Main.class_dets. rewrite Hinds. simpl obind.
    rewrite Hcount.
    destruct above as [|a above']; [congruence|].
    simpl Nat.eqb. cbv iota. rewrite Hcand. reflexivity.
Qed.

Lemma class_threshold_witness :
  Main.class_dets nms_keep_all (1 # 2) sample_boxes sample_scores 2
  = Some (Main.mk_ndarray2 5 [[2; 2; 3; 3; 6 # 1000]]%Q)
  /\ Main.class_dets nms_keep_all (1 # 2) sample_boxes sample_scores 1
  = Some (Main.mk_ndarray2 5 [[0; 0; 1; 1; 9 # 10]; [2; 2; 3; 3; 1 # 2]]%Q).
Proof.
  split.
  - pose proof (class_threshold nms_keep_all (1 # 2)%Q sample_boxes sample_scores 2)
      as H.
    cbv zeta in H. destruct H as (_ & _ & H).
    + simpl. lia.
    + reflexivity.
    + destruct H as (inds & _ & _ & ->); [discriminate|].
      vm_compute. reflexivity.
  - pose proof (class_threshold nms_keep_all (1 # 2)%Q sample_boxes sample_scores 1)
      as H.
    cbv zeta in H. destruct H as (_ & _ & H).
    + simpl. lia.
    + reflexivity.
    + destruct H as (inds & _ & _ & ->); [discriminate|].
      vm_compute. reflexivity.
Defined.

(** ** models/detector.py: the constructor *)

Section Constructor.

Import DetectorPy.
Open Scope Z_scope.

Variable lib : library.

(** The layers [multibox] returns, when it returns; the log only grows. *)
Lemma multibox_loop_inr (n : nat) (fea lc cc : Z) :
  forall (ls cs : list Conv2d) (log log' : list event) (L C : list Conv2d),
    multibox_loop lib n fea lc cc ls cs log = (inr (L, C), log') ->
    L = (ls ++ repeat (mk_Conv2d fea lc 3 1) n)%list /\
    C = (cs ++ repeat (mk_Conv2d fea cc 3 1) n)%list /\
    (forall e, In e log -> In e log').
Proof.
  induction n as [|n IH]; intros ls cs log log' L C H.
  - simpl in H. unfold ret in H. injection H as <- <- <-.
    simpl. rewrite (app_nil_r ls), (app_nil_r cs). auto.
  - simpl in H. unfold bind, new_Conv2d, construct, ret in H. simpl in H.
    destruct (lib (NewConv2d fea lc 3 1)) eqn:El; [|discriminate].
    destruct (lib (NewConv2d fea cc 3 1)) eqn:Ec; [|discriminate].
    apply IH in H. destruct H as (-> & -> & Hlog).
    rewrite <- !app_assoc. simpl.
    repeat split; try reflexivity.
    intros e He. apply Hlog. apply in_or_app. left. apply in_or_app. left. exact He.
Qed.

(** A computation that never raises the [ValueError] for the size. *)
Definition not_size_error {A : Type} (m : M A) : Prop :=
  forall (log log' : list event) (e : exn),
    m log = (inl e, log') -> forall s, e <> ValueError_size s.

Lemma not_size_error_bind {A B : Type} (m : M A) (k : A -> M B) :
  not_size_error m -> (forall a, not_size_error (k a)) -> not_size_error (bind m k).
Proof.
  intros Hm Hk log log' e H. unfold bind in H.
  destruct (m log) as [[e0|a] log0] eqn:E.
  - injection H as <- <-. exact (Hm _ _ _ E).
  - exact (Hk a _ _ _ H).
Qed.

Lemma not_size_error_ret {A : Type} (a : A) : not_size_error (ret a).
Proof. intros log log' e H. discriminate. Qed.

Lemma not_size_error_construct (e : event) : not_size_error (construct lib e).
Proof.
  intros log log' e' H s. unfold construct in H.
  destruct (lib e); [discriminate|]. injection H as <- _. discriminate.
Qed.

Lemma not_size_error_multibox_loop (n : nat) (fea lc cc : Z) :
  forall ls cs, not_size_error (multibox_loop lib n fea lc cc ls cs).
Proof.
  induction n as [|n IH]; intros ls cs; simpl.
  - apply not_size_error_ret.
  - unfold new_Conv2d.
    repeat (apply not_size_error_bind; intros;
            auto using not_size_error_ret, not_size_error_construct).
Qed.

Lemma not_size_error_backbone (backbone : string) :
  not_size_error (new_backbone lib backbone).
Proof.
  unfold new_backbone.
  repeat match goal with
         | |- not_size_error (if ?b then _ else _) => destruct b
         | |- not_size_error (bind _ _) => apply not_size_error_bind; intros
         end;
    auto using not_size_error_ret, not_size_error_construct.
  intros log log' e H s. injection H as <- _. discriminate.
Qed.

Lemma not_size_error_neck (neck : string) (lv : Z) (ch : Z * Z) (fea : Z) :
  not_size_error (new_neck lib neck lv ch fea).
Proof.
  unfold new_neck.
  repeat match goal with
         | |- not_size_error (if ?b then _ else _) => destruct b
         end;
    auto using not_size_error_construct.
  intros log log' e H s. injection H as <- _. discriminate.
Qed.

(** The outcome of a construction that returns. *)
Lemma Detector_init_inr (size num_classes : Z) (backbone neck : string)
  (d : Detector) (log : list event) :
  new_Detector lib size num_classes backbone neck = (inr d, log) ->
  size mod 64 = 0 /\
  exists (cls : string) (channels : Z * Z) (fea : Z),
    let lv := if size <? 512 then 4 else 5 in
    d = mk_Detector lv (num_classes - 1) 6 backbone neck
          (repeat (mk_Conv2d fea (6 * 4) 3 1) (Z.to_nat lv))
          (repeat (mk_Conv2d fea (6 * (num_classes - 1)) 3 1) (Z.to_nat lv)) /\
    In (NewNeck cls lv channels fea) log.
Proof.
  unfold new_Detector, Detector_init. intros H.
  destruct (size mod 64 =? 0) eqn:Esize; simpl in H; [|discriminate].
  apply Z.eqb_eq in Esize. split; [exact Esize|].
  unfold bind in H.
  destruct (new_backbone lib backbone []) as [[e|[channels fea]] log1] eqn:Eb;
    [discriminate|].
  simpl in H.
  destruct (new_neck lib neck (if size <? 512 then 4 else 5) channels fea log1)
    as [[e|[]] log2] eqn:En; [discriminate|].
  destruct (multibox lib (if size <? 512 then 4 else 5) 6 (num_classes - 1) fea log2)
    as [[e|[L C]] log3] eqn:Em; [discriminate|].
  unfold ret in H. injection H as <- <-.
  unfold multibox in Em.
  apply multibox_loop_inr in Em. destruct Em as (-> & -> & Hlog).
  assert (Hneck : exists cls,
             In (NewNeck cls (if size <? 512 then 4 else 5) channels fea) log2).
  { unfold new_neck, construct in En.
    repeat match type of En with
           | (if ?b then _ else _) _ = _ => destruct b
           end;
      try discriminate;
      injection En as _ <-; eexists; apply in_or_app; right; left; reflexivity. }
  destruct Hneck as [cls Hneck].
  exists cls, channels, fea. cbv zeta. split; [reflexivity|].
  apply Hlog, Hneck.
Qed.

(** The arguments [Detector.__init__] names: lines 33-52 and 57-65. *)
Definition supported_backbone (backbone : string) : Prop :=
  In backbone ["vgg16"; "repvgg"; "resnet18"; "shufflenet"]%string.

Definition supported_neck (neck : string) : Prop :=
  In neck ["ssd"; "fpn"; "pafpn"]%string.

(** A library whose constructors return whenever torch's do. *)
Definition returns_like_torch : Prop :=
  forall e : event, torch_library e = true -> lib e = true.

(** A library whose [nn.Conv2d] refuses, as torch's does, a negative number
    of output channels. *)
Definition refuses_negative_channels : Prop :=
  forall i o k p : Z, o < 0 -> lib (NewConv2d i o k p) = false.

Lemma multibox_loop_returns (n : nat) (fea lc cc : Z) :
  lib (NewConv2d fea lc 3 1) = true ->
  lib (NewConv2d fea cc 3 1) = true ->
  forall (ls cs : list Conv2d) (log : list event),
    exists log',
      multibox_loop lib n fea lc cc ls cs log
      = (inr ((ls ++ repeat (mk_Conv2d fea lc 3 1) n)%list,
              (cs ++ repeat (mk_Conv2d fea cc 3 1) n)%list), log').
Proof.
  intros Hl Hc. induction n as [|n IH]; intros ls cs log.
  - exists log. simpl. rewrite (app_nil_r ls), (app_nil_r cs). reflexivity.
  - simpl. unfold new_Conv2d, construct, bind, ret. rewrite Hl, Hc.
    destruct (IH (ls ++ [mk_Conv2d fea lc 3 1])%list
                 (cs ++ [mk_Conv2d fea cc 3 1])%list
                 ((log ++ [NewConv2d fea lc 3 1]) ++ [NewConv2d fea cc 3 1])%list)
      as [log' ->].
    exists log'. rewrite <- !app_assoc. reflexivity.
Qed.

(** A supported configuration with at least the background class is built,
    if the constructors of the library return as torch's do. *)
Lemma Detector_init_returns (size num_classes : Z) (backbone neck : string) :
  returns_like_torch ->
  size mod 64 = 0 ->
  1 <= num_classes ->
  supported_backbone backbone ->
  supported_neck neck ->
  exists (d : Detector) (log : list event),
    new_Detector lib size num_classes backbone neck = (inr d, log).
Proof.
  intros Hlib Hsize Hnc Hb Hn.
  unfold new_Detector, Detector_init.
  apply Z.eqb_eq in Hsize. rewrite Hsize.
  change (negb true) with false. unfold bind. cbv beta iota.
  assert (Hbk : exists ch fea log1,
             new_backbone lib backbone [] = (inr (ch, fea), log1) /\ 0 <= fea).
  { unfold supported_backbone in Hb. simpl in Hb.
    destruct Hb as [<-|[<-|[<-|[<-|[]]]]];
      unfold new_backbone, bind, construct, ret; simpl;
      rewrite Hlib by reflexivity; do 3 eexists; (split; [reflexivity|lia]). }
  destruct Hbk as (ch & fea & log1 & -> & Hfea). simpl fst. simpl snd.
  assert (Hnk : exists log2,
             new_neck lib neck (if size <? 512 then 4 else 5) ch fea log1
             = (inr tt, log2)).
  { unfold supported_neck in Hn. simpl in Hn.
    destruct Hn as [<-|[<-|[<-|[]]]];
      unfold new_neck, construct; simpl;
      rewrite Hlib by reflexivity; eexists; reflexivity. }
  destruct Hnk as (log2 & ->).
  unfold multibox.
  destruct (multibox_loop_returns
              (Z.to_nat (if size <? 512 then 4 else 5)) fea (6 * 4)
              (6 * (num_classes - 1))) with (ls := @nil Conv2d) (cs := @nil Conv2d)
                                            (log := log2) as [log3 ->].
  - apply Hlib. unfold torch_library.
    apply andb_true_intro. split; apply Z.leb_le; lia.
  - apply Hlib. unfold torch_library.
    apply andb_true_intro. split; apply Z.leb_le; lia.
  - unfold ret. do 2 eexists. reflexivity.
Qed.

End Constructor.

(** C6. A size that is not a multiple of 64 makes the constructor raise its
    [ValueError] for the size at once, before any constructor of a network
    is called; a size that is a multiple of 64 never raises it. *)
Theorem size_check (lib : DetectorPy.library) (size num_classes : Z)
  (backbone neck : string) :
  ((size mod 64 <> 0)%Z ->
   DetectorPy.new_Detector lib size num_classes backbone neck
   = (inl (DetectorPy.ValueError_size size), []))
  /\
  ((size mod 64 = 0)%Z ->
   forall s : Z,
     fst (DetectorPy.new_Detector lib size num_classes backbone neck)
     <> inl (DetectorPy.ValueError_size s)).
Proof.
  unfold DetectorPy.new_Detector, DetectorPy.Detector_init. split; intros H.
  - apply Z.eqb_neq in H. rewrite H. reflexivity.
  - apply Z.eqb_eq in H. rewrite H.
    change (negb true) with false. cbv beta iota.
    intros s Hs.
    match type of Hs with
    | fst (?m []) = _ => destruct (m []) as [[e|d] log] eqn:E; simpl in Hs
    end; [|discriminate].
    injection Hs as ->. revert E.
    match goal with
    | |- ?m [] = _ -> False =>
        assert (Hm : not_size_error m); [|intros E; exact (Hm _ _ _ E s eq_refl)]
    end.
    unfold DetectorPy.multibox.
    repeat (apply not_size_error_bind; intros);
      auto using not_size_error_ret, not_size_error_backbone, not_size_error_neck,
        not_size_error_multibox_loop.
Qed.

Lemma size_check_witness :
  DetectorPy.new_Detector DetectorPy.torch_library 321 21 "repvgg" "pafpn"
  = (inl (DetectorPy.ValueError_size 321), [])
  /\ fst (DetectorPy.new_Detector DetectorPy.torch_library 320 21 "repvgg" "pafpn")
     <> inl (DetectorPy.ValueError_size 320).
Proof.
  split.
  - apply (proj1 (size_check DetectorPy.torch_library 321 21 "repvgg" "pafpn")).
    vm_compute. discriminate.
  - apply (proj2 (size_check DetectorPy.torch_library 320 21 "repvgg" "pafpn")).
    reflexivity.
Defined.

(** C8. A detector that has been built has 4 pyramid levels when the size
    is below 512 and 5 otherwise (at 512 too): the neck is built for that many
    levels, and the head has that many location layers and that many
    confidence layers. *)
Theorem pyramid_levels (lib : DetectorPy.library) (size num_classes : Z)
  (backbone neck : string) (d : DetectorPy.Detector) (log : list DetectorPy.event) :
  DetectorPy.new_Detector lib size num_classes backbone neck = (inr d, log) ->
  ((size < 512)%Z -> DetectorPy.fpn_level d = 4%Z) /\
  ((512 <= size)%Z -> DetectorPy.fpn_level d = 5%Z) /\
  length (DetectorPy.loc d) = Z.to_nat (DetectorPy.fpn_level d) /\
  length (DetectorPy.conf d) = Z.to_nat (DetectorPy.fpn_level d) /\
  exists (cls : string) (channels : Z * Z) (fea : Z),
    In (DetectorPy.NewNeck cls (DetectorPy.fpn_level d) channels fea) log.
Proof.
  intros H. apply Detector_init_inr in H.
  destruct H as (_ & cls & channels & fea & H). cbv zeta in H.
  destruct H as [-> Hneck]. simpl.
  rewrite !repeat_length.
  repeat split.
  - intros Hlt. apply Z.ltb_lt in Hlt. rewrite Hlt. reflexivity.
  - intros Hge. apply Z.ltb_ge in Hge. rewrite Hge. reflexivity.
  - exists cls, channels, fea. exact Hneck.
Qed.

Lemma pyramid_levels_witness :
  exists (d : DetectorPy.Detector) (log : list DetectorPy.event),
    DetectorPy.new_Detector DetectorPy.torch_library 512 21 "repvgg" "pafpn"
    = (inr d, log) /\
    DetectorPy.fpn_level d = 5%Z /\ length (DetectorPy.loc d) = 5.
Proof.
  destruct (DetectorPy.new_Detector DetectorPy.torch_library 512 21 "repvgg" "pafpn")
    as [[e|d] log] eqn:E.
  - vm_compute in E. discriminate.
  - exists d, log. split; [reflexivity|].
    destruct (pyramid_levels _ _ _ _ _ _ _ E) as (_ & H5 & Hl & _).
    rewrite Hl, H5 by (vm_compute; discriminate). split; reflexivity.
Defined.

(** ** models/detector.py: the flattening of the head outputs *)

Section Storage.

Context {B : Type}.
Variable d : B.

(** Equal blocks laid end to end: block [i], offset [j]. *)
Lemma flat_map_seq_length (f : nat -> list B) (m : nat) :
  forall n s,
    (forall i, s <= i < s + n -> length (f i) = m) ->
    length (flat_map f (seq s n)) = n * m.
Proof.
  induction n as [|n IH]; intros s Hm; simpl; [reflexivity|].
  rewrite length_app, Hm by lia. rewrite IH; [reflexivity|].
  intros i Hi. apply Hm. lia.
Qed.

Lemma flat_map_seq_nth (f : nat -> list B) (m : nat) :
  forall n s i j,
    (forall i, s <= i < s + n -> length (f i) = m) ->
    i < n -> j < m ->
    nth (i * m + j) (flat_map f (seq s n)) d = nth j (f (s + i)) d.
Proof.
  induction n as [|n IH]; intros s i j Hm Hi Hj; [lia|]. simpl.
  destruct i as [|i].
  - simpl. rewrite app_nth1 by (rewrite Hm; lia).
    rewrite Nat.add_0_r. reflexivity.
  - rewrite app_nth2 by (rewrite Hm; lia).
    rewrite Hm by lia.
    replace (S i * m + j - m) with (i * m + j) by lia.
    rewrite IH; try lia.
    + f_equal. f_equal. lia.
    + intros i' Hi'. apply Hm. lia.
Qed.

(** Blocks of any length laid end to end: the block of the [l]-th item
    starts where the blocks of the items before it end. *)
Lemma flat_map_nth_at {T : Type} (g : T -> list B) (dt : T) :
  forall ts l p,
    l < length ts ->
    p < length (g (nth l ts dt)) ->
    nth (length (flat_map g (firstn l ts)) + p) (flat_map g ts) d
    = nth p (g (nth l ts dt)) d.
Proof.
  induction ts as [|t ts IH]; intros l p Hl Hp; simpl in Hl; [lia|].
  destruct l as [|l]; simpl.
  - simpl in Hp. rewrite app_nth1 by exact Hp. reflexivity.
  - simpl in Hp. rewrite length_app.
    rewrite app_nth2 by lia.
    replace (length (g t) + length (flat_map g (firstn l ts)) + p - length (g t))
      with (length (flat_map g (firstn l ts)) + p) by lia.
    apply IH; [lia | exact Hp].
Qed.

(** A window of a storage. *)
Lemma window_length (L k : nat) (l : list B) :
  k + L <= length l -> length (firstn L (skipn k l)) = L.
Proof.
  intros H. rewrite length_firstn, length_skipn. lia.
Qed.

Lemma window_nth (L k p : nat) (l : list B) :
  p < L -> nth p (firstn L (skipn k l)) d = nth (k + p) l d.
Proof.
  intros H. rewrite nth_firstn.
  destruct (p <? L) eqn:E; [|apply Nat.ltb_ge in E; lia].
  apply nth_skipn.
Qed.

End Storage.

Lemma nth_map_seq {B : Type} (f : nat -> B) (n i : nat) (d : B) :
  i < n -> nth i (map f (seq 0 n)) d = f i.
Proof.
  intros H. rewrite (nth_indep _ d (f 0)) by (rewrite length_map, length_seq; exact H).
  rewrite map_nth, seq_nth by exact H. reflexivity.
Qed.

Lemma Forall2_nth_both {X Y : Type} (R : X -> Y -> Prop) (xs : list X) (ys : list Y)
  (dx : X) (dy : Y) :
  Forall2 R xs ys -> forall l, l < length xs -> R (nth l xs dx) (nth l ys dy).
Proof.
  induction 1 as [|x y xs ys Hxy _ IH]; intros l Hl; simpl in Hl; [lia|].
  destruct l as [|l]; simpl; [exact Hxy | apply IH; lia].
Qed.

Section Flatten.

Import DetectorPy.

Context {A : Type}.
Variable dflt : A.
Variable N : nat.
Hypothesis N_pos : 0 < N.

(** The storage of [t.permute(0, 2, 3, 1).contiguous()]. *)
Definition permuted_data (t : @tensor A) (C H W : nat) : list A :=
  flat_map (fun n =>
    flat_map (fun h =>
      flat_map (fun w => map (fun c => get4 dflt t n c h w) (seq 0 C)) (seq 0 W))
      (seq 0 H))
    (seq 0 N).

Lemma permute_shape4 (t : @tensor A) (C H W : nat) :
  shape t = [N; C; H; W] ->
  permute_0231 dflt t = Some (mk_tensor [N; H; W; C] (permuted_data t C H W)).
Proof. intros Hs. unfold permute_0231. rewrite Hs. reflexivity. Qed.

Lemma permuted_row_length (t : @tensor A) (C H W n : nat) :
  length (flat_map (fun h =>
            flat_map (fun w => map (fun c => get4 dflt t n c h w) (seq 0 C)) (seq 0 W))
            (seq 0 H))
  = H * (W * C).
Proof.
  apply flat_map_seq_length. intros h _.
  apply flat_map_seq_length. intros w _.
  rewrite length_map, length_seq. reflexivity.
Qed.

Lemma permuted_length (t : @tensor A) (C H W : nat) :
  length (permuted_data t C H W) = N * (H * (W * C)).
Proof.
  apply flat_map_seq_length. intros n _. apply permuted_row_length.
Qed.

Lemma permuted_nth (t : @tensor A) (C H W n h w c : nat) :
  n < N -> h < H -> w < W -> c < C ->
  nth (n * (H * (W * C)) + (h * (W * C) + (w * C + c))) (permuted_data t C H W) dflt
  = get4 dflt t n c h w.
Proof.
  intros Hn Hh Hw Hc. unfold permuted_data.
  assert (Hwc : w * C + c < W * C).
  { apply Nat.lt_le_trans with (S w * C); [simpl; lia|].
    apply Nat.mul_le_mono_r. lia. }
  assert (Hhwc : h * (W * C) + (w * C + c) < H * (W * C)).
  { apply Nat.lt_le_trans with (S h * (W * C)); [simpl; lia|].
    apply Nat.mul_le_mono_r. lia. }
  rewrite (flat_map_seq_nth dflt _ (H * (W * C)));
    [| intros; apply permuted_row_length | exact Hn | exact Hhwc ].
  rewrite (flat_map_seq_nth dflt _ (W * C));
    [| intros; apply flat_map_seq_length; intros;
       rewrite length_map, length_seq; reflexivity
     | exact Hh | exact Hwc ].
  rewrite (flat_map_seq_nth dflt _ C);
    [| intros; rewrite length_map, length_seq; reflexivity | exact Hw | exact Hc ].
  simpl. exact (nth_map_seq (fun c0 => get4 dflt t n c0 h w) C c dflt Hc).
Qed.

(** [o.view(o.size(0), -1)] of a permuted head output. *)
Lemma view2_permuted (t : @tensor A) (C H W : nat) :
  let p := mk_tensor [N; H; W; C] (permuted_data t C H W) in
  view2 p (size0 p) = Some (mk_tensor [N; H * (W * C)] (permuted_data t C H W)).
Proof.
  cbv zeta. unfold view2, size0, numel. simpl.
  destruct (N =? 0) eqn:E; [apply Nat.eqb_eq in E; lia|].
  rewrite Nat.mul_1_r.
  rewrite (Nat.mul_comm N (H * (W * C))).
  rewrite Nat.Div0.mod_mul, Nat.div_mul by lia. reflexivity.
Qed.

(** The head outputs of the levels, each with the height and width of its
    feature map; every output has [C] channels. *)
Variable C : nat.

Local Abbreviation level := (@tensor A * (nat * nat))%type.

Definition level_ok (th : level) : Prop :=
  shape (fst th) = [N; C; fst (snd th); snd (snd th)].

Definition level_data (th : level) : list A :=
  permuted_data (fst th) C (fst (snd th)) (snd (snd th)).

Definition level_perm (th : level) : @tensor A :=
  mk_tensor [N; fst (snd th); snd (snd th); C] (level_data th).

Definition level_len (hw : nat * nat) : nat := fst hw * (snd hw * C).

Definition level_flat (th : level) : @tensor A :=
  mk_tensor [N; level_len (snd th)] (level_data th).

Definition row_len (dims : list (nat * nat)) : nat := list_sum (map level_len dims).

Definition flat_storage (lv : list level) : list A :=
  flat_map (fun n => flat_map (fun t => row t n) (map level_flat lv)) (seq 0 N).

Lemma row_len_cells (dims : list (nat * nat)) : row_len dims = C * cells dims.
Proof.
  unfold row_len, cells, level_len.
  induction dims as [|hw dims IH]; simpl; [lia|]. rewrite IH. lia.
Qed.

Lemma view2_level (th : level) :
  view2 (level_perm th) (size0 (level_perm th)) = Some (level_flat th).
Proof. exact (view2_permuted (fst th) C (fst (snd th)) (snd (snd th))). Qed.

Lemma view2_levels (lv : list level) :
  omap (fun o => view2 o (size0 o)) (map level_perm lv) = Some (map level_flat lv).
Proof.
  induction lv as [|th lv IH]; simpl; [reflexivity|].
  rewrite view2_level, IH. reflexivity.
Qed.

Lemma flatten_cat_levels (lv : list level) :
  lv <> [] ->
  flatten_cat (map level_perm lv)
  = Some (mk_tensor [N; row_len (map snd lv)] (flat_storage lv)).
Proof.
  intros Hne. unfold flatten_cat. rewrite view2_levels. simpl obind.
  destruct lv as [|th lv]; [congruence|]. clear Hne.
  unfold cat1.
  assert (Hall : forallb (fun t : @tensor A =>
                    (length (shape t) =? 2) && (size0 t =? N))
                   (map level_flat (th :: lv)) = true).
  { apply forallb_forall. intros t Ht. apply in_map_iff in Ht.
    destruct Ht as (x & <- & _). unfold size0. simpl. apply Nat.eqb_refl. }
  cbn [map]. change (size0 (level_flat th)) with N.
  change (level_flat th :: map level_flat lv) with (map level_flat (th :: lv)).
  rewrite Hall. unfold flat_storage, row_len.
  cbn [map]. rewrite !map_map. reflexivity.
Qed.

Lemma level_row_length (th : level) (n : nat) :
  n < N -> length (row (level_flat th) n) = level_len (snd th).
Proof.
  intros Hn. unfold row. simpl.
  apply window_length. unfold level_data. rewrite permuted_length.
  fold (level_len (snd th)).
  apply Nat.le_trans with (S n * level_len (snd th)); [simpl; lia|].
  apply Nat.mul_le_mono_r. lia.
Qed.

Lemma level_row_nth (th : level) (n p : nat) :
  p < level_len (snd th) ->
  nth p (row (level_flat th) n) dflt
  = nth (n * level_len (snd th) + p) (level_data th) dflt.
Proof. intros Hp. unfold row. simpl. apply window_nth. exact Hp. Qed.

Lemma rows_length (lv : list level) (n : nat) :
  n < N ->
  length (flat_map (fun t => row t n) (map level_flat lv)) = row_len (map snd lv).
Proof.
  intros Hn. unfold row_len.
  induction lv as [|th lv IH]; simpl; [reflexivity|].
  rewrite length_app, IH, level_row_length by exact Hn. reflexivity.
Qed.

Variable dlevel : level.

(** The storage of the concatenated tensor: image [n], level [l], offset
    [p] in the level's block. *)
Lemma flat_storage_nth (lv : list level) (l n p : nat) :
  l < length lv -> n < N ->
  p < level_len (snd (nth l lv dlevel)) ->
  nth (n * row_len (map snd lv) + (row_len (map snd (firstn l lv)) + p))
      (flat_storage lv) dflt
  = nth (n * level_len (snd (nth l lv dlevel)) + p)
        (level_data (nth l lv dlevel)) dflt.
Proof.
  intros Hl Hn Hp. unfold flat_storage.
  assert (Hoff : row_len (map snd (firstn l lv)) + p < row_len (map snd lv)).
  { rewrite <- (firstn_skipn l lv) at 2. rewrite map_app.
    unfold row_len. rewrite map_app, list_sum_app.
    assert (Hsk : skipn l lv = nth l lv dlevel :: skipn (S l) lv).
    { clear - Hl. revert l Hl. induction lv as [|x lv IH]; intros l Hl; simpl in Hl; [lia|].
      destruct l as [|l]; [reflexivity|]. simpl. apply IH. lia. }
    rewrite Hsk. unfold list_sum. cbn [map fold_right].
    apply Nat.add_lt_mono_l, Nat.lt_lt_add_r, Hp. }
  rewrite (flat_map_seq_nth dflt _ (row_len (map snd lv)));
    [| intros i Hi; apply rows_length; lia | exact Hn | exact Hoff ].
  simpl.
  rewrite <- (rows_length (firstn l lv) n Hn), <- firstn_map.
  rewrite (flat_map_nth_at dflt (fun t => row t n) (level_flat dlevel)).
  - rewrite map_nth. apply level_row_nth. exact Hp.
  - rewrite length_map. exact Hl.
  - rewrite map_nth, level_row_length by exact Hn. exact Hp.
Qed.

(** The channels of a head output are [a] groups of [k]: one group per
    anchor shape, [k] values per anchor. *)
Variables a k : nat.
Hypothesis C_eq : C = a * k.
Hypothesis k_pos : 0 < k.

Lemma view3_levels (lv : list level) :
  let F := mk_tensor [N; row_len (map snd lv)] (flat_storage lv) in
  view3 F (size0 F) (Z.of_nat k)
  = Some (mk_tensor [N; a * cells (map snd lv); k] (flat_storage lv)).
Proof.
  cbv zeta. unfold view3, size0, numel. simpl.
  destruct (Z.of_nat k <? 0)%Z eqn:E; [apply Z.ltb_lt in E; lia|].
  rewrite Nat2Z.id.
  destruct (N * k =? 0) eqn:E0; [apply Nat.eqb_eq in E0; nia|].
  rewrite row_len_cells, C_eq.
  replace (N * (a * k * cells (map snd lv) * 1))
    with (a * cells (map snd lv) * (N * k))
    by (generalize (cells (map snd lv)); intros; lia).
  rewrite Nat.Div0.mod_mul, Nat.div_mul by nia. reflexivity.
Qed.

Lemma get3_levels (lv : list level) (l n r c s j : nat) :
  l < length lv -> n < N ->
  r < fst (snd (nth l lv dlevel)) -> c < snd (snd (nth l lv dlevel)) ->
  s < a -> j < k ->
  get3 dflt (mk_tensor [N; a * cells (map snd lv); k] (flat_storage lv))
       n (anchor_index (map snd lv) a l r c s) j
  = get4 dflt (fst (nth l lv dlevel)) n (s * k + j) r c.
Proof.
  intros Hl Hn Hr Hc Hs Hj. unfold get3, anchor_index. simpl.
  set (th := nth l lv dlevel) in *.
  assert (Hdims : nth l (map snd lv) (0, 0) = snd th \/ length lv <= l).
  { left. unfold th. rewrite (nth_indep _ (0, 0) (snd dlevel))
      by (rewrite length_map; exact Hl).
    apply map_nth. }
  destruct Hdims as [Hdims|]; [|lia]. rewrite Hdims.
  assert (Hch : s * k + j < C).
  { rewrite C_eq. apply Nat.lt_le_trans with (S s * k); [simpl; lia|].
    apply Nat.mul_le_mono_r. lia. }
  assert (Hwc : c * C + (s * k + j) < snd (snd th) * C).
  { apply Nat.lt_le_trans with (S c * C); [simpl; lia|].
    apply Nat.mul_le_mono_r. lia. }
  assert (Hp : r * (snd (snd th) * C) + (c * C + (s * k + j)) < level_len (snd th)).
  { unfold level_len.
    apply Nat.lt_le_trans with (S r * (snd (snd th) * C)); [simpl; lia|].
    apply Nat.mul_le_mono_r. lia. }
  replace ((n * (a * cells (map snd lv))
            + (a * cells (firstn l (map snd lv)) + (r * snd (snd th) + c) * a + s)) * k + j)
    with (n * row_len (map snd lv)
          + (row_len (map snd (firstn l lv))
             + (r * (snd (snd th) * C) + (c * C + (s * k + j))))).
  - rewrite (flat_storage_nth lv l n _ Hl Hn Hp). fold th.
    unfold level_len, level_data.
    apply permuted_nth; assumption.
  - rewrite !row_len_cells, <- firstn_map, C_eq. generalize (cells (map snd lv)) (cells (firstn l (map snd lv))) (snd (snd th)).
    intros X Y W. ring.
Qed.

End Flatten.

(** ** models/detector.py: [Detector.forward] *)

Section ForwardLayout.

Import DetectorPy.

Context {A : Type}.
Variable dflt : A.
Variable features : @tensor A -> list (@tensor A).
Variable conv_forward : Conv2d -> @tensor A -> option (@tensor A).
Variable N : nat.
Hypothesis N_pos : 0 < N.

(** What is assumed of [nn.Conv2d]: a layer with a 3x3 kernel, padding 1
    and at least one output channel maps a batch of [N] feature maps that
    have its number of input channels, at least one, and at least one row
    and one column to a batch of the same height and width with its number
    of output channels. *)
Definition conv_keeps_size : Prop :=
  forall (l : Conv2d) (t : @tensor A) (C H W : nat),
    kernel_size l = 3%Z -> padding l = 1%Z ->
    shape t = [N; C; H; W] ->
    0 < C -> 0 < H -> 0 < W ->
    in_channels l = Z.of_nat C ->
    (0 < out_channels l)%Z ->
    exists y : @tensor A,
      conv_forward l t = Some y /\
      shape y = [N; Z.to_nat (out_channels l); H; W].

Hypothesis conv_ok : conv_keeps_size.

Variables lc cc : Conv2d.
Variables Cin CL CC : nat.
Hypothesis lc_kernel : kernel_size lc = 3%Z.
Hypothesis lc_padding : padding lc = 1%Z.
Hypothesis lc_in : in_channels lc = Z.of_nat Cin.
Hypothesis lc_out : out_channels lc = Z.of_nat CL.
Hypothesis cc_kernel : kernel_size cc = 3%Z.
Hypothesis cc_padding : padding cc = 1%Z.
Hypothesis cc_in : in_channels cc = Z.of_nat Cin.
Hypothesis cc_out : out_channels cc = Z.of_nat CC.
Hypothesis Cin_pos : 0 < Cin.
Hypothesis CL_pos : 0 < CL.
Hypothesis CC_pos : 0 < CC.

(** The feature maps have [Cin] channels and the sizes [dims]. *)
Definition feature_shapes (fea : list (@tensor A)) (dims : list (nat * nat)) : Prop :=
  Forall2 (fun t hw => shape t = [N; Cin; fst hw; snd hw]) fea dims.

(** Feature maps with at least one row and one column. *)
Definition non_empty_maps (dims : list (nat * nat)) : Prop :=
  Forall (fun hw => 0 < fst hw /\ 0 < snd hw) dims.

(** Lines 95-97, over the levels: the permuted outputs of the two heads. *)
Lemma head_levels (fea : list (@tensor A)) (dims : list (nat * nat)) :
  feature_shapes fea dims ->
  non_empty_maps dims ->
  exists llv clv : list (@tensor A * (nat * nat)),
    map snd llv = dims /\ map snd clv = dims /\
    Forall2 (fun x th => conv_forward lc x = Some (fst th)) fea llv /\
    Forall2 (fun x th => conv_forward cc x = Some (fst th)) fea clv /\
    omap (head_level dflt conv_forward)
         (zip3 fea (repeat lc (length fea)) (repeat cc (length fea)))
    = Some (combine (map (level_perm dflt N CL) llv) (map (level_perm dflt N CC) clv)).
Proof.
  induction 1 as [|x hw fea dims Hx _ IH]; intros Hne.
  - exists [], []. repeat split; constructor.
  - inversion Hne as [|? ? [Hh Hw] Hne']; subst.
    destruct (IH Hne') as (llv & clv & Hl & Hc & Hlf & Hcf & Hom).
    destruct (conv_ok lc x Cin (fst hw) (snd hw) lc_kernel lc_padding Hx
                Cin_pos Hh Hw lc_in)
      as (ly & Hly & Hlys); [rewrite lc_out; lia|].
    destruct (conv_ok cc x Cin (fst hw) (snd hw) cc_kernel cc_padding Hx
                Cin_pos Hh Hw cc_in)
      as (cy & Hcy & Hcys); [rewrite cc_out; lia|].
    rewrite lc_out, Nat2Z.id in Hlys. rewrite cc_out, Nat2Z.id in Hcys.
    exists ((ly, hw) :: llv), ((cy, hw) :: clv).
    simpl. rewrite Hl, Hc. repeat split; try (constructor; assumption).
    unfold zip3 in *. rewrite Hly. simpl obind.
    rewrite (permute_shape4 dflt N ly CL (fst hw) (snd hw) Hlys). simpl obind.
    rewrite Hcy. simpl obind.
    rewrite (permute_shape4 dflt N cy CC (fst hw) (snd hw) Hcys). simpl obind.
    rewrite Hom. reflexivity.
Qed.

Lemma map_fst_combine_eq {X Y : Type} (xs : list X) (ys : list Y) :
  length xs = length ys -> map fst (combine xs ys) = xs.
Proof.
  revert ys. induction xs as [|x xs IH]; intros [|y ys] H; simpl in *;
    try discriminate; [reflexivity|].
  rewrite IH by lia. reflexivity.
Qed.

Lemma map_snd_combine_eq {X Y : Type} (xs : list X) (ys : list Y) :
  length xs = length ys -> map snd (combine xs ys) = ys.
Proof.
  revert ys. induction xs as [|x xs IH]; intros [|y ys] H; simpl in *;
    try discriminate; [reflexivity|].
  rewrite IH by lia. reflexivity.
Qed.

(** The location head gives 4 values per anchor, the confidence head [k];
    there are 6 anchors per cell. *)
Variable k : nat.
Hypothesis k_pos : 0 < k.
Hypothesis CL_eq : CL = 6 * 4.
Hypothesis CC_eq : CC = 6 * k.

Lemma forward_layout (self : Detector) (x : @tensor A) (dims : list (nat * nat)) :
  loc self = repeat lc (length (features x)) ->
  conf self = repeat cc (length (features x)) ->
  num_classes self = Z.of_nat k ->
  feature_shapes (features x) dims ->
  non_empty_maps dims ->
  dims <> [] ->
  exists llv clv : list (@tensor A * (nat * nat)),
    map snd llv = dims /\ map snd clv = dims /\
    Forall2 (fun x th => conv_forward lc x = Some (fst th)) (features x) llv /\
    Forall2 (fun x th => conv_forward cc x = Some (fst th)) (features x) clv /\
    forward dflt features conv_forward self x
    = Some (mk_tensor [N; 6 * cells dims; 4] (flat_storage dflt N CL llv),
            mk_tensor [N; 6 * cells dims; k] (flat_storage dflt N CC clv)).
Proof.
  intros Hloc Hconf Hk Hfea Hmaps Hne.
  destruct (head_levels (features x) dims Hfea Hmaps)
    as (llv & clv & Hl & Hc & Hlf & Hcf & Hom).
  exists llv, clv. repeat split; try assumption.
  assert (Hlen : length llv = length clv).
  { rewrite <- (length_map snd llv), <- (length_map snd clv), Hl, Hc. reflexivity. }
  assert (Hlne : llv <> []) by (intros ->; simpl in Hl; congruence).
  assert (Hcne : clv <> []) by (intros ->; simpl in Hc; congruence).
  unfold forward. rewrite Hloc, Hconf, Hom. simpl obind.
  rewrite map_fst_combine_eq, map_snd_combine_eq by (rewrite !length_map; exact Hlen).
  rewrite (flatten_cat_levels dflt N N_pos CL llv Hlne). simpl obind.
  rewrite (flatten_cat_levels dflt N N_pos CC clv Hcne). simpl obind.
  change 4%Z with (Z.of_nat 4).
  rewrite (view3_levels dflt N N_pos CL 6 4 CL_eq) by lia. simpl obind.
  rewrite Hk.
  rewrite (view3_levels dflt N N_pos CC 6 k CC_eq k_pos). simpl obind.
  rewrite Hl, Hc. reflexivity.
Qed.

End ForwardLayout.

Section BuiltDetector.

Import DetectorPy.

Context {A : Type}.
Variable dflt : A.
Variable features : @tensor A -> list (@tensor A).
Variable conv_forward : Conv2d -> @tensor A -> option (@tensor A).
Variable lib : library.
Variables size num_classes : Z.
Variables backbone neck : string.
Variable d : Detector.
Variable log : list event.
Variables N Cin : nat.
Variable x : @tensor A.
Variable dims : list (nat * nat).

(** A detector that has been built, for at least one class besides the
    background; a batch of [N > 0] images whose feature maps, one per level
    and none of them empty, have the number of channels the head layers
    take. *)
Hypothesis built : new_Detector lib size num_classes backbone neck = (inr d, log).
Hypothesis two_classes : (2 <= num_classes)%Z.
Hypothesis N_pos : 0 < N.
Hypothesis conv_ok : conv_keeps_size conv_forward N.
Hypothesis head_in :
  forall l : Conv2d, In l (loc d ++ conf d) -> in_channels l = Z.of_nat Cin.
Hypothesis Cin_pos : 0 < Cin.
Hypothesis fea_ok : feature_shapes N Cin (features x) dims.
Hypothesis fea_maps : non_empty_maps dims.
Hypothesis fea_levels : length dims = Z.to_nat (fpn_level d).

Lemma built_forward :
  exists (fea : Z) (llv clv : list (@tensor A * (nat * nat))),
    let k := Z.to_nat (num_classes - 1) in
    let lc := mk_Conv2d fea (6 * 4) 3 1 in
    let cc := mk_Conv2d fea (6 * (num_classes - 1)) 3 1 in
    loc d = repeat lc (length dims) /\
    conf d = repeat cc (length dims) /\
    num_anchors d = 6%Z /\
    map snd llv = dims /\ map snd clv = dims /\
    Forall2 (fun x th => conv_forward lc x = Some (fst th)) (features x) llv /\
    Forall2 (fun x th => conv_forward cc x = Some (fst th)) (features x) clv /\
    forward dflt features conv_forward d x
    = Some (mk_tensor [N; 6 * cells dims; 4] (flat_storage dflt N (6 * 4) llv),
            mk_tensor [N; 6 * cells dims; k] (flat_storage dflt N (6 * k) clv)).
Proof.
  destruct (Detector_init_inr _ _ _ _ _ _ _ built) as (_ & cls & channels & fea & Hd).
  cbv zeta in Hd. destruct Hd as [Hd _].
  assert (Hlv : Z.to_nat (fpn_level d) = length dims) by (symmetry; exact fea_levels).
  assert (Hpos : 0 < length dims).
  { rewrite <- Hlv, Hd. simpl. destruct (size <? 512)%Z; simpl; lia. }
  assert (Hflen : length (features x) = length dims)
    by (exact (Forall2_length fea_ok)).
  assert (Hloc : loc d = repeat (mk_Conv2d fea (6 * 4) 3 1) (length dims)).
  { rewrite <- Hlv, Hd. reflexivity. }
  assert (Hconf : conf d = repeat (mk_Conv2d fea (6 * (num_classes - 1)) 3 1) (length dims)).
  { rewrite <- Hlv, Hd. reflexivity. }
  assert (Hin : fea = Z.of_nat Cin).
  { apply (head_in (mk_Conv2d fea (6 * 4) 3 1)).
    apply in_or_app. left. rewrite Hloc.
    destruct (length dims); [lia | left; reflexivity]. }
  assert (Hne : dims <> []) by (intros ->; simpl in Hpos; lia).
  destruct (forward_layout dflt features conv_forward N N_pos conv_ok
              (mk_Conv2d fea (6 * 4) 3 1) (mk_Conv2d fea (6 * (num_classes - 1)) 3 1)
              Cin (6 * 4) (6 * Z.to_nat (num_classes - 1)))
    with (k := Z.to_nat (num_classes - 1)) (self := d) (x := x) (dims := dims)
    as (llv & clv & H1 & H2 & H3 & H4 & H5);
    try reflexivity; try assumption; try lia.
  - cbn [out_channels]. lia.
  - rewrite Hflen. exact Hloc.
  - rewrite Hflen. exact Hconf.
  - rewrite Hd. cbn [DetectorPy.num_classes]. lia.
  - exists fea, llv, clv. cbv zeta. repeat split; try assumption.
    rewrite Hd. reflexivity.
Qed.

End BuiltDetector.

(** ** The order of the anchors *)

Lemma cells_firstn_S (dims : list (nat * nat)) (l : nat) :
  l < length dims ->
  DetectorPy.cells (firstn (S l) dims)
  = DetectorPy.cells (firstn l dims)
    + fst (nth l dims (0, 0)) * snd (nth l dims (0, 0)).
Proof.
  unfold DetectorPy.cells. revert l.
  induction dims as [|hw dims IH]; intros l Hl; simpl in Hl; [lia|].
  destruct l as [|l].
  - simpl. destruct dims; simpl; lia.
  - rewrite firstn_cons. cbn [map list_sum fold_right nth].
    change (fold_right Nat.add 0 (map (fun hw0 : nat * nat => fst hw0 * snd hw0)
                                      (firstn (S l) dims)))
      with (list_sum (map (fun hw0 : nat * nat => fst hw0 * snd hw0) (firstn (S l) dims))).
    rewrite (IH l) by lia. simpl firstn. cbn [map list_sum fold_right].
    unfold list_sum. rewrite Nat.add_assoc. reflexivity.
Qed.

Lemma cells_firstn_le (dims : list (nat * nat)) (l l' : nat) :
  l <= l' -> DetectorPy.cells (firstn l dims) <= DetectorPy.cells (firstn l' dims).
Proof.
  unfold DetectorPy.cells. revert l l'.
  induction dims as [|hw dims IH]; intros l l' Hl.
  - rewrite !firstn_nil. reflexivity.
  - destruct l as [|l]; [simpl; apply Nat.le_0_l|].
    destruct l' as [|l']; [lia|].
    rewrite !firstn_cons. cbn [map]. unfold list_sum. cbn [fold_right].
    apply Nat.add_le_mono_l. apply (IH l l'). lia.
Qed.

(** The anchors of a level come before those of the levels after it. *)
Lemma anchor_index_levels (dims : list (nat * nat)) (a l l' r c s r' c' s' : nat) :
  l < l' -> l < length dims ->
  r < fst (nth l dims (0, 0)) -> c < snd (nth l dims (0, 0)) -> s < a ->
  DetectorPy.anchor_index dims a l r c s < DetectorPy.anchor_index dims a l' r' c' s'.
Proof.
  intros Hll Hl Hr Hc Hs. unfold DetectorPy.anchor_index.
  pose proof (cells_firstn_S dims l Hl) as HS.
  pose proof (cells_firstn_le dims (S l) l' Hll) as Hle.
  revert HS Hle Hr Hc.
  generalize (DetectorPy.cells (firstn l dims)) (DetectorPy.cells (firstn (S l) dims))
    (DetectorPy.cells (firstn l' dims)) (fst (nth l dims (0, 0)))
    (snd (nth l dims (0, 0))) (snd (nth l' dims (0, 0))).
  intros X XS X' H W W' HS Hle Hr Hc.
  assert (Hcell : r * W + c + 1 <= H * W) by nia.
  assert (Hin : (r * W + c) * a + s < H * W * a) by nia.
  assert (HX : a * X + H * W * a <= a * X') by nia.
  lia.
Qed.

(** Within a level the anchors go cell by cell in row-major order, and
    shape by shape within a cell. *)
Lemma anchor_index_cells (dims : list (nat * nat)) (a l r c s r' c' s' : nat) :
  c < snd (nth l dims (0, 0)) -> s < a ->
  r < r' \/ (r = r' /\ c < c') \/ (r = r' /\ c = c' /\ s < s') ->
  DetectorPy.anchor_index dims a l r c s < DetectorPy.anchor_index dims a l r' c' s'.
Proof.
  intros Hc Hs Hlex. unfold DetectorPy.anchor_index.
  revert Hc.
  generalize (DetectorPy.cells (firstn l dims)) (snd (nth l dims (0, 0))).
  intros X W Hc.
  destruct Hlex as [Hr|[[-> Hcc]|(-> & -> & Hss)]].
  - assert (r * W + c + 1 <= r' * W + c') by nia. nia.
  - assert (r' * W + c + 1 <= r' * W + c') by lia. nia.
  - lia.
Qed.

(** C4. A detector that has been built has 6 anchors per cell and, per
    pyramid level, one location layer with [6 * 4] output channels and one
    confidence layer with [6 * (num_classes - 1)] output channels; on a batch
    of [N] images, the feature maps of which have at least one row and one
    column each, its forward pass returns a location tensor of shape
    [(N, A, 4)] and a confidence tensor of shape [(N, A, num_classes - 1)],
    where [A] is 6 times the number of cells of the feature maps. *)
Theorem head_layout {A : Type} (dflt : A)
  (features : @DetectorPy.tensor A -> list (@DetectorPy.tensor A))
  (conv_forward : DetectorPy.Conv2d -> @DetectorPy.tensor A -> option (@DetectorPy.tensor A))
  (lib : DetectorPy.library) (size num_classes : Z) (backbone neck : string)
  (d : DetectorPy.Detector) (log : list DetectorPy.event)
  (N Cin : nat) (x : @DetectorPy.tensor A) (dims : list (nat * nat)) :
  DetectorPy.new_Detector lib size num_classes backbone neck = (inr d, log) ->
  (2 <= num_classes)%Z ->
  0 < N ->
  conv_keeps_size conv_forward N ->
  (forall l, In l (DetectorPy.loc d ++ DetectorPy.conf d) ->
             DetectorPy.in_channels l = Z.of_nat Cin) ->
  0 < Cin ->
  feature_shapes N Cin (features x) dims ->
  non_empty_maps dims ->
  length dims = Z.to_nat (DetectorPy.fpn_level d) ->
  DetectorPy.num_anchors d = 6%Z /\
  length (DetectorPy.loc d) = Z.to_nat (DetectorPy.fpn_level d) /\
  length (DetectorPy.conf d) = Z.to_nat (DetectorPy.fpn_level d) /\
  Forall (fun l => DetectorPy.out_channels l = (DetectorPy.num_anchors d * 4)%Z)
         (DetectorPy.loc d) /\
  Forall (fun c => DetectorPy.out_channels c
                   = (DetectorPy.num_anchors d * (num_classes - 1))%Z)
         (DetectorPy.conf d) /\
  DetectorPy.num_classes d = (num_classes - 1)%Z /\
  exists loc3 conf3 : @DetectorPy.tensor A,
    DetectorPy.forward dflt features conv_forward d x = Some (loc3, conf3) /\
    DetectorPy.shape loc3 = [N; 6 * DetectorPy.cells dims; 4] /\
    DetectorPy.shape conf3
    = [N; 6 * DetectorPy.cells dims; Z.to_nat (num_classes - 1)].
Proof.
  intros Hbuilt Hnc HN Hconv Hin HCin Hfea Hmaps Hlv.
  destruct (built_forward dflt features conv_forward lib size num_classes backbone neck
              d log N Cin x dims Hbuilt Hnc HN Hconv Hin HCin Hfea Hmaps Hlv)
    as (fea & llv & clv & H).
  cbv zeta in H. destruct H as (Hloc & Hconf & Ha & _ & _ & _ & _ & Hfwd).
  destruct (Detector_init_inr _ _ _ _ _ _ _ Hbuilt) as (_ & cls & channels & fea' & Hd).
  cbv zeta in Hd. destruct Hd as [Hd _].
  rewrite Ha, Hloc, Hconf, !repeat_length.
  repeat split; try assumption.
  - apply Forall_forall. intros l Hl. apply repeat_spec in Hl. subst l. reflexivity.
  - apply Forall_forall. intros l Hl. apply repeat_spec in Hl. subst l. reflexivity.
  - rewrite Hd. reflexivity.
  - eexists. eexists. split; [exact Hfwd|]. split; reflexivity.
Qed.

(** C5. The predictions follow the anchor ordering: in the tensors the
    forward pass returns (on feature maps with at least one row and one
    column each), the anchor dimension runs over the levels in the
    order of the feature maps, then over the cells of a level row by row,
    then over the 6 shapes of a cell; the values of the anchor of level [l],
    row [r], column [c] and shape [s] are the channels [s * 4 .. s * 4 + 3]
    (resp. [s * k .. s * k + k - 1], [k = num_classes - 1]) of the
    location (resp. confidence) layer of level [l] at cell [(r, c)].  The
    index of that anchor is below the index of every anchor of a later level
    (whose stride is larger: the coarsest level comes last) and below the
    index of every later cell or shape of its own level. *)
Theorem prediction_order {A : Type} (dflt : A)
  (features : @DetectorPy.tensor A -> list (@DetectorPy.tensor A))
  (conv_forward : DetectorPy.Conv2d -> @DetectorPy.tensor A -> option (@DetectorPy.tensor A))
  (lib : DetectorPy.library) (size num_classes : Z) (backbone neck : string)
  (d : DetectorPy.Detector) (log : list DetectorPy.event)
  (N Cin : nat) (x : @DetectorPy.tensor A) (dims : list (nat * nat)) :
  DetectorPy.new_Detector lib size num_classes backbone neck = (inr d, log) ->
  (2 <= num_classes)%Z ->
  0 < N ->
  conv_keeps_size conv_forward N ->
  (forall l, In l (DetectorPy.loc d ++ DetectorPy.conf d) ->
             DetectorPy.in_channels l = Z.of_nat Cin) ->
  0 < Cin ->
  feature_shapes N Cin (features x) dims ->
  non_empty_maps dims ->
  length dims = Z.to_nat (DetectorPy.fpn_level d) ->
  exists loc3 conf3 : @DetectorPy.tensor A,
    DetectorPy.forward dflt features conv_forward d x = Some (loc3, conf3) /\
    forall (l n r c s : nat) (fx : @DetectorPy.tensor A) (lc cc : DetectorPy.Conv2d)
           (lx cx : @DetectorPy.tensor A),
      nth_error (features x) l = Some fx ->
      nth_error (DetectorPy.loc d) l = Some lc ->
      nth_error (DetectorPy.conf d) l = Some cc ->
      conv_forward lc fx = Some lx ->
      conv_forward cc fx = Some cx ->
      n < N ->
      r < fst (nth l dims (0, 0)) -> c < snd (nth l dims (0, 0)) -> s < 6 ->
      (forall j, j < 4 ->
         DetectorPy.get3 dflt loc3 n (DetectorPy.anchor_index dims 6 l r c s) j
         = DetectorPy.get4 dflt lx n (s * 4 + j) r c) /\
      (forall j, j < Z.to_nat (num_classes - 1) ->
         DetectorPy.get3 dflt conf3 n (DetectorPy.anchor_index dims 6 l r c s) j
         = DetectorPy.get4 dflt cx n (s * Z.to_nat (num_classes - 1) + j) r c) /\
      (forall l' r' c' s',
         l < l' ->
         DetectorPy.anchor_index dims 6 l r c s
         < DetectorPy.anchor_index dims 6 l' r' c' s' /\
         DetectorPy.level_stride l < DetectorPy.level_stride l') /\
      (forall r' c' s',
         r < r' \/ (r = r' /\ c < c') \/ (r = r' /\ c = c' /\ s < s') ->
         DetectorPy.anchor_index dims 6 l r c s
         < DetectorPy.anchor_index dims 6 l r' c' s').
Proof.
  intros Hbuilt Hnc HN Hconv Hin HCin Hfea Hmaps Hlv.
  destruct (built_forward dflt features conv_forward lib size num_classes backbone neck
              d log N Cin x dims Hbuilt Hnc HN Hconv Hin HCin Hfea Hmaps Hlv)
    as (fea & llv & clv & H).
  cbv zeta in H. destruct H as (Hloc & Hconf & _ & Hl & Hc & Hlf & Hcf & Hfwd).
  eexists. eexists. split; [exact Hfwd|].
  intros l n r c s fx lc cc lx cx Hfx Hlc Hcc Hlx Hcx Hn Hr Hcol Hs.
  assert (Hldims : l < length dims).
  { rewrite <- (Forall2_length Hfea). apply nth_error_Some. congruence. }
  cut ((forall j, j < 4 ->
          DetectorPy.get3 dflt
            (DetectorPy.mk_tensor [N; 6 * DetectorPy.cells dims; 4]
               (flat_storage dflt N (6 * 4) llv))
            n (DetectorPy.anchor_index dims 6 l r c s) j
          = DetectorPy.get4 dflt lx n (s * 4 + j) r c) /\
       (forall j, j < Z.to_nat (num_classes - 1) ->
          DetectorPy.get3 dflt
            (DetectorPy.mk_tensor [N; 6 * DetectorPy.cells dims; Z.to_nat (num_classes - 1)]
               (flat_storage dflt N (6 * Z.to_nat (num_classes - 1)) clv))
            n (DetectorPy.anchor_index dims 6 l r c s) j
          = DetectorPy.get4 dflt cx n (s * Z.to_nat (num_classes - 1) + j) r c)).
  { intros [Hg1 Hg2]. split; [exact Hg1|]. split; [exact Hg2|]. split.
    - intros l' r' c' s' Hll. split.
      + apply anchor_index_levels; assumption.
      + unfold DetectorPy.level_stride. apply Nat.pow_lt_mono_r; lia.
    - intros r' c' s' Hlex. apply anchor_index_cells; assumption. }
  set (dlevel := (DetectorPy.mk_tensor (A := A) [] [], (0, 0))).
  assert (Hll : l < length (features x)) by (apply nth_error_Some; congruence).
  assert (Hlc' : lc = DetectorPy.mk_Conv2d fea (6 * 4) 3 1).
  { rewrite Hloc in Hlc. apply nth_error_In, repeat_spec in Hlc. exact Hlc. }
  assert (Hcc' : cc = DetectorPy.mk_Conv2d fea (6 * (num_classes - 1)) 3 1).
  { rewrite Hconf in Hcc. apply nth_error_In, repeat_spec in Hcc. exact Hcc. }
  subst lc cc.
  assert (Hfx' : nth l (features x) (fst dlevel) = fx)
    by (apply nth_error_nth; exact Hfx).
  pose proof (Forall2_nth_both _ _ _ (fst dlevel) dlevel Hlf l Hll) as Hlraw.
  pose proof (Forall2_nth_both _ _ _ (fst dlevel) dlevel Hcf l Hll) as Hcraw.
  cbv beta in Hlraw, Hcraw. rewrite Hfx' in Hlraw, Hcraw.
  rewrite Hlx in Hlraw. rewrite Hcx in Hcraw.
  injection Hlraw as Hlraw. injection Hcraw as Hcraw.
  assert (Hllen : l < length llv) by (rewrite <- (Forall2_length Hlf); exact Hll).
  assert (Hclen : l < length clv) by (rewrite <- (Forall2_length Hcf); exact Hll).
  assert (Hdl : nth l dims (0, 0) = snd (nth l llv dlevel)).
  { rewrite <- Hl. apply (map_nth snd llv dlevel l). }
  assert (Hdc : nth l dims (0, 0) = snd (nth l clv dlevel)).
  { rewrite <- Hc. apply (map_nth snd clv dlevel l). }
  split; intros j Hj.
  - rewrite Hlraw, <- Hl.
    apply (get3_levels dflt N HN (6 * 4) dlevel 6 4); try lia; try assumption.
    + rewrite <- Hdl. exact Hr.
    + rewrite <- Hdl. exact Hcol.
  - rewrite Hcraw, <- Hc.
    apply (get3_levels dflt N HN (6 * Z.to_nat (num_classes - 1)) dlevel 6
             (Z.to_nat (num_classes - 1))); try lia; try assumption.
    + rewrite <- Hdc. exact Hr.
    + rewrite <- Hdc. exact Hcol.
Qed.

Lemma iota_conv_keeps_size (N : nat) : conv_keeps_size iota_conv N.
Proof.
  intros l t C H W _ _ Hs _ _ _ Hin _. unfold iota_conv. rewrite Hs, Hin, Z.eqb_refl.
  eexists. split; reflexivity.
Qed.

Lemma sample_built :
  DetectorPy.new_Detector DetectorPy.torch_library 320 3 "repvgg" "pafpn"
  = (inr sample_detector, snd sample_build).
Proof. vm_compute. reflexivity. Qed.

Lemma sample_head_in (l : DetectorPy.Conv2d) :
  In l (DetectorPy.loc sample_detector ++ DetectorPy.conf sample_detector) ->
  DetectorPy.in_channels l = Z.of_nat 256.
Proof.
  vm_compute. intros H.
  repeat (destruct H as [<-|H]; [reflexivity|]). contradiction.
Qed.

Lemma sample_feature_shapes :
  feature_shapes 1 256 (sample_features sample_image) sample_dims.
Proof. repeat constructor. Qed.

Lemma sample_non_empty_maps : non_empty_maps sample_dims.
Proof. repeat constructor. Qed.

Lemma head_layout_witness :
  exists loc3 conf3 : @DetectorPy.tensor nat,
    DetectorPy.forward 0 sample_features iota_conv sample_detector sample_image
    = Some (loc3, conf3) /\
    DetectorPy.shape loc3 = [1; 42; 4] /\ DetectorPy.shape conf3 = [1; 42; 2].
Proof.
  destruct (head_layout 0 sample_features iota_conv DetectorPy.torch_library
              320 3 "repvgg" "pafpn" sample_detector (snd sample_build)
              1 256 sample_image sample_dims)
    as (_ & _ & _ & _ & _ & _ & loc3 & conf3 & Hfwd & Hl & Hc).
  - exact sample_built.
  - lia.
  - lia.
  - apply iota_conv_keeps_size.
  - exact sample_head_in.
  - lia.
  - exact sample_feature_shapes.
  - exact sample_non_empty_maps.
  - reflexivity.
  - exists loc3, conf3. repeat split; assumption.
Defined.

Lemma prediction_order_witness :
  exists loc3 conf3 : @DetectorPy.tensor nat,
    DetectorPy.forward 0 sample_features iota_conv sample_detector sample_image
    = Some (loc3, conf3) /\
    DetectorPy.get3 0 loc3 0 (DetectorPy.anchor_index sample_dims 6 1 0 0 2) 3 = 11 /\
    DetectorPy.get3 0 conf3 0 (DetectorPy.anchor_index sample_dims 6 0 1 0 2) 1 = 22.
Proof.
  destruct (prediction_order 0 sample_features iota_conv DetectorPy.torch_library
              320 3 "repvgg" "pafpn" sample_detector (snd sample_build)
              1 256 sample_image sample_dims)
    as (loc3 & conf3 & Hfwd & Hget).
  - exact sample_built.
  - lia.
  - lia.
  - apply iota_conv_keeps_size.
  - exact sample_head_in.
  - lia.
  - exact sample_feature_shapes.
  - exact sample_non_empty_maps.
  - reflexivity.
  - exists loc3, conf3. split; [exact Hfwd|]. split.
    + refine (proj1 (Hget 1 0 0 0 2 _ _ _ _ _ eq_refl eq_refl eq_refl eq_refl eq_refl
                       _ _ _ _) 3 _); simpl; lia.
    + refine (proj1 (proj2 (Hget 0 0 1 0 2 _ _ _ _ _ eq_refl eq_refl eq_refl eq_refl
                                eq_refl _ _ _ _)) 1 _); simpl; lia.
Defined.

(** ** models/repvgg_backbone.py: shapes through the conversion *)

Section Broadcast.

Import RepVGG.

Lemma broadcast_rev_same (l : list nat) : broadcast_rev l l = Some l.
Proof.
  induction l as [|x l IH]; simpl; [reflexivity|].
  rewrite IH. simpl. rewrite Nat.eqb_refl. reflexivity.
Qed.

Lemma broadcast_shape_same (sh : list nat) : broadcast_shape sh sh = Some sh.
Proof.
  unfold broadcast_shape. rewrite broadcast_rev_same. simpl.
  rewrite rev_involutive. reflexivity.
Qed.

Lemma broadcast_rev_nil (l : list nat) : broadcast_rev l [] = Some l.
Proof. destruct l; reflexivity. Qed.

Lemma broadcast_shape_scalar (sh : list nat) : broadcast_shape sh [] = Some sh.
Proof.
  unfold broadcast_shape. simpl rev at 2. rewrite broadcast_rev_nil. simpl.
  rewrite rev_involutive. reflexivity.
Qed.

(** An operation on two arrays of one shape, and on an array and a number. *)
Lemma np_binop_same (f : R -> R -> R) (a b : ndarray) :
  shape b = shape a ->
  np_binop f a b
  = Some (mk_nd (shape a)
            (fun idx => f (elt a (operand_index (shape a) idx))
                          (elt b (operand_index (shape a) idx)))).
Proof.
  intros H. unfold np_binop. rewrite H, broadcast_shape_same. reflexivity.
Qed.

Lemma np_binop_scalar (f : R -> R -> R) (a : ndarray) (c : R) :
  np_binop f a (scalar c)
  = Some (mk_nd (shape a) (fun idx => f (elt a (operand_index (shape a) idx)) c)).
Proof.
  unfold np_binop. simpl. rewrite broadcast_shape_scalar. reflexivity.
Qed.

(** Within the bounds, an operand of the shape of the result is read at the
    index of the result. *)
Lemma operand_index_in_bounds (sh idx : list nat) :
  in_bounds sh idx = true -> operand_index sh idx = idx.
Proof.
  unfold operand_index. revert idx.
  induction sh as [|d sh IH]; intros [|i idx] H; simpl in H; try discriminate.
  - reflexivity.
  - apply andb_prop in H. destruct H as [Hi Hrest]. apply Nat.ltb_lt in Hi.
    specialize (IH idx Hrest).
    assert (Hlen : length idx = length sh).
    { clear - Hrest. revert idx Hrest.
      induction sh as [|d' sh IH]; intros [|i' idx] H; simpl in H; try discriminate.
      - reflexivity.
      - apply andb_prop in H. simpl. f_equal. apply IH, H. }
    simpl length. rewrite Hlen, Nat.sub_diag in *. simpl in *.
    rewrite IH. destruct (d =? 1) eqn:E; [|reflexivity].
    apply Nat.eqb_eq in E. f_equal. lia.
Qed.

Lemma in_bounds1 (a o : nat) : o < a -> in_bounds [a] [o] = true.
Proof. intros H. simpl. apply Nat.ltb_lt in H. rewrite H. reflexivity. Qed.

Lemma in_bounds4 (a b c d o p i j : nat) :
  o < a -> p < b -> i < c -> j < d -> in_bounds [a; b; c; d] [o; p; i; j] = true.
Proof.
  intros Ho Hp Hi Hj. simpl.
  apply Nat.ltb_lt in Ho, Hp, Hi, Hj. rewrite Ho, Hp, Hi, Hj. reflexivity.
Qed.

(** The scale of a batch normalisation: [gamma / sqrt(var + eps)]. *)
Definition bn_scale (var gamma : ndarray) (eps : R) (o : nat) : R :=
  (elt gamma [o] / sqrt (elt var [o] + eps))%R.

(** Lines 70-74: the fused kernel is the kernel scaled, output channel by
    output channel; the fused bias is [beta - mean * gamma / std]. *)
Lemma fuse_spec (kernel mean var gamma beta : ndarray) (eps : R) (Co Ci kh kw : nat) :
  shape kernel = [Co; Ci; kh; kw] ->
  shape mean = [Co] -> shape var = [Co] -> shape gamma = [Co] -> shape beta = [Co] ->
  exists k b : ndarray,
    fuse kernel mean var gamma beta eps = Some (k, b) /\
    shape k = [Co; Ci; kh; kw] /\ shape b = [Co] /\
    (forall o c i j, o < Co -> c < Ci -> i < kh -> j < kw ->
       elt k [o; c; i; j] = (elt kernel [o; c; i; j] * bn_scale var gamma eps o)%R) /\
    (forall o, o < Co ->
       elt b [o]
       = (elt beta [o] - elt mean [o] * elt gamma [o] / sqrt (elt var [o] + eps))%R).
Proof.
  intros Hk Hm Hv Hg Hb. unfold fuse, np_add, np_div, np_mul, np_sub.
  rewrite np_binop_scalar. simpl obind.
  rewrite np_binop_same by (simpl; congruence). simpl obind.
  unfold reshape_tile. simpl shape. rewrite Hg, Hk. simpl nth. simpl obind.
  rewrite np_binop_same by (simpl; congruence). simpl obind.
  rewrite np_binop_same by congruence. simpl obind.
  rewrite np_binop_same by (simpl; congruence). simpl obind.
  rewrite np_binop_same by (simpl; congruence). simpl obind.
  do 2 eexists. split; [reflexivity|]. simpl shape.
  split; [exact Hk|]. split; [exact Hb|]. split.
  - intros o c i j Ho Hc Hi Hj. simpl elt.
    rewrite ?Hk, ?Hg, ?Hv.
    rewrite (operand_index_in_bounds [Co; Ci; kh; kw] [o; c; i; j])
      by (apply in_bounds4; assumption).
    simpl nth.
    repeat (rewrite (operand_index_in_bounds [Co] [o])
             by (apply in_bounds1; assumption); simpl nth).
    reflexivity.
  - intros o Ho. simpl elt. rewrite ?Hb, ?Hm, ?Hv, ?Hg.
    repeat (rewrite (operand_index_in_bounds [Co] [o])
             by (apply in_bounds1; assumption)).
    reflexivity.
Qed.

End Broadcast.

Section Conversion.

Import RepVGG.

Lemma index_eqb_4 (o c i j o' c' i' j' : nat) :
  index_eqb [o; c; i; j] [o'; c'; i'; j']
  = (o =? o') && (c =? c') && (i =? i') && (j =? j').
Proof.
  unfold index_eqb.
  destruct (list_eq_dec Nat.eq_dec [o; c; i; j] [o'; c'; i'; j']) as [E|E].
  - injection E as -> -> -> ->. rewrite !Nat.eqb_refl. reflexivity.
  - destruct (o =? o') eqn:Eo, (c =? c') eqn:Ec, (i =? i') eqn:Ei, (j =? j') eqn:Ej;
      try reflexivity.
    apply Nat.eqb_eq in Eo, Ec, Ei, Ej. subst. contradiction.
Qed.

(** Lines 62-64: after the loop the kernel has a 1 at [(i, i, 1, 1)] for
    every channel [i] the loop went through. *)
Lemma identity_loop_spec (n : nat) :
  forall (i0 C : nat) (k : ndarray),
    shape k = [C; C; 3; 3] -> i0 + n <= C ->
    exists k' : ndarray,
      identity_loop n i0 k = Some k' /\ shape k' = [C; C; 3; 3] /\
      forall o c i j,
        elt k' [o; c; i; j]
        = if (i0 <=? o) && (o <? i0 + n) && (c =? o) && (i =? 1) && (j =? 1)
          then 1%R else elt k [o; c; i; j].
Proof.
  induction n as [|n IH]; intros i0 C k Hk Hle.
  - exists k. split; [reflexivity|]. split; [exact Hk|].
    intros o c i j.
    destruct (i0 <=? o) eqn:E1; [|reflexivity].
    destruct (o <? i0 + 0) eqn:E2; [|reflexivity].
    apply Nat.leb_le in E1. apply Nat.ltb_lt in E2. lia.
  - simpl. unfold set_item. rewrite Hk.
    assert (Hb : in_bounds [C; C; 3; 3] [i0; i0; 1; 1] = true)
      by (apply in_bounds4; lia).
    rewrite Hb. simpl obind.
    destruct (IH (S i0) C
                (mk_nd [C; C; 3; 3]
                   (fun j => if index_eqb j [i0; i0; 1; 1] then 1%R else elt k j)))
      as (k' & Hloop & Hshape & Hval); [reflexivity | lia |].
    exists k'. split; [exact Hloop|]. split; [exact Hshape|].
    intros o c i j. rewrite Hval. simpl elt. rewrite index_eqb_4.
    destruct (Nat.eq_dec o i0) as [->|Hne].
    + replace (S i0 <=? i0) with false by (symmetry; apply Nat.leb_gt; lia).
      replace (i0 <=? i0) with true by (symmetry; apply Nat.leb_le; lia).
      replace (i0 <? i0 + S n) with true by (symmetry; apply Nat.ltb_lt; lia).
      rewrite Nat.eqb_refl. cbn [andb].
      destruct ((c =? i0) && (i =? 1) && (j =? 1)); reflexivity.
    + replace (o =? i0) with false by (symmetry; apply Nat.eqb_neq; exact Hne).
      cbn [andb].
      replace (S i0 <=? o) with (i0 <=? o).
      * replace (o <? S i0 + n) with (o <? i0 + S n); [reflexivity|].
        f_equal. lia.
      * destruct (i0 <=? o) eqn:E1; symmetry.
        -- apply Nat.leb_le in E1. apply Nat.leb_le. lia.
        -- apply Nat.leb_gt in E1. apply Nat.leb_gt. lia.
Qed.

Lemma identity_kernel_spec (C : nat) :
  exists k : ndarray,
    identity_kernel C = Some k /\ shape k = [C; C; 3; 3] /\
    forall o c i j,
      o < C ->
      elt k [o; c; i; j] = if (c =? o) && (i =? 1) && (j =? 1) then 1%R else 0%R.
Proof.
  destruct (identity_loop_spec C 0 C (np_zeros [C; C; 3; 3]) eq_refl (le_n C))
    as (k & Hk & Hs & Hv).
  exists k. split; [exact Hk|]. split; [exact Hs|].
  intros o c i j Ho. rewrite Hv. simpl.
  apply Nat.ltb_lt in Ho. rewrite Ho. reflexivity.
Qed.

(** The block [__init__] builds in training form, from its arguments and
    the values of its parameters. *)
Variables cin cout stride groups : nat.
Variable v : block_values.

Definition dense_of : ConvBN :=
  mk_ConvBN
    (mk_Conv2d cin cout 3 stride 1 1 groups
       (mk_nd [cout; cin / groups; 3; 3] (v_dense_weight v)) None)
    (new_BatchNorm2d cout (v_dense_bn v)).

Definition one_of : ConvBN :=
  mk_ConvBN
    (mk_Conv2d cin cout 1 stride 0 1 groups
       (mk_nd [cout; cin / groups; 1; 1] (v_1x1_weight v)) None)
    (new_BatchNorm2d cout (v_1x1_bn v)).

Definition identity_of : option BatchNorm2d :=
  if (cout =? cin) && (stride =? 1)
  then Some (new_BatchNorm2d cin (v_identity v))
  else None.

Lemma new_block_training (dilation : nat) :
  new_RepVGGBlock cin cout 3 stride 1 dilation groups false v
  = if (0 <? groups) && (cin mod groups =? 0) && (cout mod groups =? 0)
    then Some (Training groups cin identity_of dense_of one_of)
    else None.
Proof.
  unfold new_RepVGGBlock, conv_bn, new_Conv2d. simpl.
  destruct ((0 <? groups) && (cin mod groups =? 0) && (cout mod groups =? 0));
    reflexivity.
Qed.

(** The scale and the shift a batch normalisation in eval mode applies. *)
Definition scale_of (b : bn_values) (o : nat) : R :=
  (v_gamma b [o] / sqrt (v_var b [o] + v_eps b))%R.

Definition shift_of (b : bn_values) (o : nat) : R :=
  (v_beta b [o] - v_mean b [o] * v_gamma b [o] / sqrt (v_var b [o] + v_eps b))%R.

(** The entries of the converted kernel and bias. *)
Definition converted_kernel (o c i j : nat) : R :=
  (v_dense_weight v [o; c; i; j] * scale_of (v_dense_bn v) o
   + (if (i =? 1) && (j =? 1)
      then v_1x1_weight v [o; c; 0%nat; 0%nat] * scale_of (v_1x1_bn v) o else 0)
   + match identity_of with
     | None => 0
     | Some _ =>
         (if (c =? o) && (i =? 1) && (j =? 1) then 1 else 0)
         * scale_of (v_identity v) o
     end)%R.

Definition converted_bias (o : nat) : R :=
  (shift_of (v_dense_bn v) o + shift_of (v_1x1_bn v) o
   + match identity_of with
     | None => 0
     | Some _ => shift_of (v_identity v) o
     end)%R.

(** Lines 83-87: without an identity branch, or without groups, the
    conversion returns a kernel of the shape of the dense kernel and a bias
    with one entry per output channel. *)
Lemma convert_spec :
  identity_of = None \/ groups = 1 ->
  exists K B : ndarray,
    repvgg_convert (Training groups cin identity_of dense_of one_of) = Some (K, B) /\
    shape K = [cout; cin / groups; 3; 3] /\ shape B = [cout] /\
    (forall o c i j, o < cout -> c < cin / groups -> i < 3 -> j < 3 ->
       elt K [o; c; i; j] = converted_kernel o c i j) /\
    (forall o, o < cout -> elt B [o] = converted_bias o).
Proof.
  intros Hid. unfold repvgg_convert, _fuse_bn.
  destruct (fuse_spec (conv_weight (conv dense_of)) (running_mean (bn dense_of))
              (running_var (bn dense_of)) (bn_weight (bn dense_of))
              (bn_bias (bn dense_of)) (bn_eps (bn dense_of))
              cout (cin / groups) 3 3)
    as (k3 & b3 & -> & Hk3 & Hb3 & Hk3v & Hb3v); try reflexivity.
  destruct (fuse_spec (conv_weight (conv one_of)) (running_mean (bn one_of))
              (running_var (bn one_of)) (bn_weight (bn one_of))
              (bn_bias (bn one_of)) (bn_eps (bn one_of))
              cout (cin / groups) 1 1)
    as (k1 & b1 & -> & Hk1 & Hb1 & Hk1v & Hb1v); try reflexivity.
  simpl obind. unfold converted_kernel, converted_bias.
  destruct identity_of as [idbn|] eqn:Eid.
  - (* an identity branch: no groups, and as many output as input channels *)
    destruct Hid as [Hid|Hg]; [discriminate|].
    assert (Hdiv : cin / groups = cin) by (rewrite Hg; apply Nat.div_1_r).
    unfold identity_of in Eid.
    destruct ((cout =? cin) && (stride =? 1)) eqn:Ec; [|discriminate].
    injection Eid as <-.
    apply andb_prop in Ec. destruct Ec as [Ec _]. apply Nat.eqb_eq in Ec.
    rewrite Hdiv in *.
    simpl as_branch. cbv iota beta.
    destruct (identity_kernel_spec cin) as (kid & -> & Hkid & Hkidv). simpl obind.
    match goal with
    | |- context [fuse ?a ?b ?c ?d ?e ?f] =>
        destruct (fuse_spec a b c d e f cin cin 3 3)
        as (ki & bi & -> & Hki & Hbi & Hkiv & Hbiv); try reflexivity; try assumption
    end.
    simpl obind. simpl fst. simpl snd.
    unfold _pad_1x1_to_3x3. rewrite Hk1. simpl obind.
    unfold np_add.
    rewrite np_binop_same by (simpl; congruence). simpl obind.
    rewrite np_binop_same by (simpl; congruence). simpl obind.
    rewrite np_binop_same by congruence. simpl obind.
    rewrite np_binop_same by (simpl; congruence). simpl obind.
    do 2 eexists. split; [reflexivity|]. simpl shape.
    split; [exact Hk3|]. split; [exact Hb3|]. split.
    + intros o c i j Ho Hc Hi Hj. cbn [elt]. rewrite Hk3.
      rewrite !(operand_index_in_bounds [cout; cin; 3; 3] [o; c; i; j])
        by (apply in_bounds4; assumption).
      cbn [nth].
      rewrite Hk3v, Hkiv, Hkidv by (try assumption; lia).
      rewrite (Hk1v o c 0 0) by (try assumption; lia).
      unfold bn_scale, scale_of. simpl elt.
      destruct ((i =? 1) && (j =? 1)); reflexivity.
    + intros o Ho. cbn [elt]. rewrite Hb3.
      rewrite !(operand_index_in_bounds [cout] [o]) by (apply in_bounds1; assumption).
      rewrite Hb3v, Hb1v, Hbiv by (try assumption; lia).
      unfold shift_of. simpl elt. reflexivity.
  - (* no identity branch: the number 0 for its kernel and its bias *)
    simpl as_branch. cbv iota beta. simpl obind. simpl fst. simpl snd.
    unfold _pad_1x1_to_3x3. rewrite Hk1. simpl obind.
    unfold np_add.
    rewrite np_binop_same by (simpl; congruence). simpl obind.
    rewrite np_binop_scalar. simpl obind.
    rewrite np_binop_same by congruence. simpl obind.
    rewrite np_binop_scalar. simpl obind.
    do 2 eexists. split; [reflexivity|]. simpl shape.
    split; [exact Hk3|]. split; [exact Hb3|]. split.
    + intros o c i j Ho Hc Hi Hj. cbn [elt]. rewrite Hk3.
      rewrite !(operand_index_in_bounds [cout; cin / groups; 3; 3] [o; c; i; j])
        by (apply in_bounds4; assumption).
      cbn [nth].
      rewrite Hk3v by assumption.
      rewrite (Hk1v o c 0 0) by (try assumption; lia).
      unfold bn_scale, scale_of. simpl elt.
      destruct ((i =? 1) && (j =? 1)); reflexivity.
    + intros o Ho. cbn [elt]. rewrite Hb3.
      rewrite !(operand_index_in_bounds [cout] [o]) by (apply in_bounds1; assumption).
      rewrite Hb3v, Hb1v by assumption.
      unfold shift_of. simpl elt. reflexivity.
Qed.

End Conversion.

(** ** Sums over the channels and over a 3x3 window *)

Section Sums.

Import RepVGG.
Open Scope R_scope.

Lemma sum_upto_ext (n : nat) (f g : nat -> R) :
  (forall c, (c < n)%nat -> f c = g c) -> sum_upto n f = sum_upto n g.
Proof.
  induction n as [|n IH]; intros H; simpl; [reflexivity|].
  rewrite IH by (intros c Hc; apply H; lia).
  rewrite H by lia. reflexivity.
Qed.

Lemma sum_upto_plus (n : nat) (f g : nat -> R) :
  sum_upto n (fun c => f c + g c) = sum_upto n f + sum_upto n g.
Proof.
  induction n as [|n IH]; simpl; [ring|]. rewrite IH. ring.
Qed.

Lemma sum_upto_scal (n : nat) (a : R) (f : nat -> R) :
  sum_upto n (fun c => a * f c) = a * sum_upto n f.
Proof.
  induction n as [|n IH]; simpl; [ring|]. rewrite IH. ring.
Qed.

Lemma sum_upto_zero (n : nat) : sum_upto n (fun _ => 0) = 0.
Proof.
  induction n as [|n IH]; simpl; [reflexivity|]. rewrite IH. ring.
Qed.

(** Only the term of channel [o] is left of a sum against the indicator of
    [o]. *)
Lemma sum_upto_delta (n o : nat) (a : nat -> R) :
  (o < n)%nat ->
  sum_upto n (fun c => (if (c =? o)%nat then 1 else 0) * a c) = a o.
Proof.
  induction n as [|n IH]; intros Ho; [lia|]. simpl.
  destruct (Nat.eq_dec o n) as [->|Hne].
  - rewrite Nat.eqb_refl.
    rewrite (sum_upto_ext n _ (fun _ => 0)).
    + rewrite sum_upto_zero. ring.
    + intros c Hc.
      replace (c =? n)%nat with false by (symmetry; apply Nat.eqb_neq; lia). ring.
  - replace (n =? o)%nat with false by (symmetry; apply Nat.eqb_neq; lia).
    rewrite IH by lia. ring.
Qed.

(** A 3x3 window against a kernel that is zero off the middle. *)
Lemma window_centre (a : R) (P : nat -> nat -> R) :
  sum_upto 3 (fun ki =>
    sum_upto 3 (fun kj =>
      (if (ki =? 1)%nat && (kj =? 1)%nat then a else 0) * P ki kj))
  = a * P 1%nat 1%nat.
Proof. simpl. ring. Qed.

Lemma window_plus3 (A B C P : nat -> nat -> R) :
  sum_upto 3 (fun ki => sum_upto 3 (fun kj => (A ki kj + B ki kj + C ki kj) * P ki kj))
  = sum_upto 3 (fun ki => sum_upto 3 (fun kj => A ki kj * P ki kj))
    + sum_upto 3 (fun ki => sum_upto 3 (fun kj => B ki kj * P ki kj))
    + sum_upto 3 (fun ki => sum_upto 3 (fun kj => C ki kj * P ki kj)).
Proof. simpl. ring. Qed.

Lemma window_scal (t : R) (A P : nat -> nat -> R) :
  sum_upto 3 (fun ki => sum_upto 3 (fun kj => A ki kj * t * P ki kj))
  = t * sum_upto 3 (fun ki => sum_upto 3 (fun kj => A ki kj * P ki kj)).
Proof. simpl. ring. Qed.

(** The window of a 1x1 kernel. *)
Lemma window_1x1 (f : nat -> nat -> R) :
  sum_upto 1 (fun ki => sum_upto 1 (fun kj => f ki kj)) = f 0%nat 0%nat.
Proof. simpl. ring. Qed.

End Sums.

(** ** models/repvgg_backbone.py: the forward pass of a block *)

Section BlockForward.

Import RepVGG.

Lemma conv_forward_batch (m : Conv2d) (x : ndarray) (N C H W : nat) :
  shape x = [N; C; H; W] -> conv_forward m x = conv_batched m x.
Proof. intros Hx. unfold conv_forward. rewrite Hx. reflexivity. Qed.

(** Groups that divide a positive number of channels are at most as many. *)
Lemma groups_le_out (Co g : nat) : 0 < Co -> Co mod g = 0 -> g <= Co.
Proof.
  intros Hc Hm. apply Nat.Div0.div_exact in Hm.
  destruct (Co / g) eqn:E; nia.
Qed.

(** What the convolution computes on a batch it accepts. *)
Lemma conv_batched_value (m : Conv2d) (x : ndarray) (N C H W Co Ig kh kw : nat) :
  shape x = [N; C; H; W] ->
  shape (conv_weight m) = [Co; Ig; kh; kw] ->
  0 < Co ->
  0 < conv_groups m -> 0 < conv_stride m -> 0 < conv_dilation m ->
  C = Ig * conv_groups m ->
  Co mod conv_groups m = 0 ->
  conv_dilation m * (kh - 1) + 1 <= H + 2 * conv_padding m ->
  conv_dilation m * (kw - 1) + 1 <= W + 2 * conv_padding m ->
  match conv_bias m with Some b => shape b = [Co] | None => True end ->
  exists y : ndarray,
    conv_batched m x = Some y /\
    shape y = [N; (if C =? 0 then 0 else Co);
               conv_out_size H kh (conv_stride m) (conv_padding m) (conv_dilation m);
               conv_out_size W kw (conv_stride m) (conv_padding m) (conv_dilation m)] /\
    forall n o i j,
      elt y [n; o; i; j]
      = ((match conv_bias m with Some b => elt b [o] | None => 0 end)
         + sum_upto Ig (fun c =>
             sum_upto kh (fun ki =>
               sum_upto kw (fun kj =>
                 elt (conv_weight m) [o; c; ki; kj]
                 * padded x H W (conv_padding m) n (o / (Co / conv_groups m) * Ig + c)
                          (i * conv_stride m + ki * conv_dilation m)
                          (j * conv_stride m + kj * conv_dilation m)))))%R.
Proof.
  intros Hx Hw HCo_pos Hg Hs Hd HC HCo Hkh Hkw Hb. unfold conv_batched. rewrite Hx, Hw.
  pose proof (groups_le_out Co (conv_groups m) HCo_pos HCo) as Hle.
  apply Nat.ltb_lt in Hg, Hs, Hd. rewrite Hg, Hs, Hd.
  apply Nat.leb_le in Hle. rewrite Hle.
  apply Nat.eqb_eq in HC, HCo. rewrite HC, HCo.
  apply Nat.leb_le in Hkh, Hkw. rewrite Hkh, Hkw.
  assert (Hbias : match conv_bias m with
                  | Some b => if list_eq_dec Nat.eq_dec (shape b) [Co] then true else false
                  | None => true
                  end = true).
  { destruct (conv_bias m) as [b|]; [|reflexivity].
    destruct (list_eq_dec Nat.eq_dec (shape b) [Co]); [reflexivity | contradiction]. }
  rewrite Hbias. cbn [andb].
  eexists. split; [reflexivity|]. split; reflexivity.
Qed.

(** What [nn.Conv2d] computes on a batch it accepts, of images with at
    least one channel. *)
Lemma conv_forward_value (m : Conv2d) (x : ndarray) (N C H W Co Ig kh kw : nat) :
  shape x = [N; C; H; W] ->
  shape (conv_weight m) = [Co; Ig; kh; kw] ->
  0 < C -> 0 < Co ->
  0 < conv_groups m -> 0 < conv_stride m -> 0 < conv_dilation m ->
  C = Ig * conv_groups m ->
  Co mod conv_groups m = 0 ->
  conv_dilation m * (kh - 1) + 1 <= H + 2 * conv_padding m ->
  conv_dilation m * (kw - 1) + 1 <= W + 2 * conv_padding m ->
  match conv_bias m with Some b => shape b = [Co] | None => True end ->
  exists y : ndarray,
    conv_forward m x = Some y /\
    shape y = [N; Co;
               conv_out_size H kh (conv_stride m) (conv_padding m) (conv_dilation m);
               conv_out_size W kw (conv_stride m) (conv_padding m) (conv_dilation m)] /\
    forall n o i j,
      elt y [n; o; i; j]
      = ((match conv_bias m with Some b => elt b [o] | None => 0 end)
         + sum_upto Ig (fun c =>
             sum_upto kh (fun ki =>
               sum_upto kw (fun kj =>
                 elt (conv_weight m) [o; c; ki; kj]
                 * padded x H W (conv_padding m) n (o / (Co / conv_groups m) * Ig + c)
                          (i * conv_stride m + ki * conv_dilation m)
                          (j * conv_stride m + kj * conv_dilation m)))))%R.
Proof.
  intros Hx Hw HC_pos HCo_pos Hg Hs Hd HC HCo Hkh Hkw Hb.
  rewrite (conv_forward_batch m x N C H W Hx).
  destruct (conv_batched_value m x N C H W Co Ig kh kw Hx Hw HCo_pos Hg Hs Hd HC HCo
              Hkh Hkw Hb) as (y & Hy & Hys & Hv).
  exists y. split; [exact Hy|]. split; [|exact Hv].
  rewrite Hys. replace (C =? 0) with false by (symmetry; apply Nat.eqb_neq; lia).
  reflexivity.
Qed.

(** [nn.Conv2d] on one image without the batch axis. *)
Lemma conv_forward_unbatched (m : Conv2d) (x : ndarray) (C H W Co Ig kh kw : nat) :
  shape x = [C; H; W] ->
  shape (conv_weight m) = [Co; Ig; kh; kw] ->
  0 < C -> 0 < Co ->
  0 < conv_groups m -> 0 < conv_stride m -> 0 < conv_dilation m ->
  C = Ig * conv_groups m ->
  Co mod conv_groups m = 0 ->
  conv_dilation m * (kh - 1) + 1 <= H + 2 * conv_padding m ->
  conv_dilation m * (kw - 1) + 1 <= W + 2 * conv_padding m ->
  match conv_bias m with Some b => shape b = [Co] | None => True end ->
  exists y : ndarray,
    conv_forward m x = Some y /\
    shape y = [Co;
               conv_out_size H kh (conv_stride m) (conv_padding m) (conv_dilation m);
               conv_out_size W kw (conv_stride m) (conv_padding m) (conv_dilation m)].
Proof.
  intros Hx Hw HC_pos HCo_pos Hg Hs Hd HC HCo Hkh Hkw Hb.
  assert (Hx1 : shape (unsqueeze x) = [1; C; H; W]) by (simpl; rewrite Hx; reflexivity).
  destruct (conv_batched_value m (unsqueeze x) 1 C H W Co Ig kh kw Hx1 Hw HCo_pos Hg Hs Hd
              HC HCo Hkh Hkw Hb) as (y & Hy & Hys & _).
  exists (squeeze y). unfold conv_forward. rewrite Hx, Hy. split; [reflexivity|].
  simpl. rewrite Hys. replace (C =? 0) with false by (symmetry; apply Nat.eqb_neq; lia).
  reflexivity.
Qed.

(** The two convolutions of a block give outputs of one size. *)
Lemma conv_out_size_1x1 (H s : nat) : conv_out_size H 3 s 1 1 = conv_out_size H 1 s 0 1.
Proof. unfold conv_out_size. f_equal. f_equal. lia. Qed.

Lemma conv_out_size_stride1 (H : nat) : 0 < H -> conv_out_size H 3 1 1 1 = H.
Proof.
  intros HH. unfold conv_out_size. rewrite Nat.div_1_r. lia.
Qed.

(** A place of the output lies over a place of the input. *)
Lemma conv_out_within (H s i : nat) :
  0 < s -> i < conv_out_size H 3 s 1 1 -> 0 < H -> i * s < H.
Proof.
  unfold conv_out_size. intros Hs Hi HH.
  replace (H + 2 * 1 - 1 * (3 - 1) - 1) with (H - 1) in Hi by lia.
  assert (Hle : i <= (H - 1) / s) by lia.
  assert (Hmul : s * ((H - 1) / s) <= H - 1) by (apply Nat.Div0.mul_div_le).
  assert (i * s <= s * ((H - 1) / s)) by nia.
  lia.
Qed.

(** The padded input at the middle of the window of a 3x3 kernel with
    padding 1, and at the only place of the window of a 1x1 kernel without
    padding, is the input itself. *)
Lemma padded_centre (x : ndarray) (H W n c a b : nat) :
  a < H -> b < W ->
  padded x H W 1 n c (a + 1 * 1) (b + 1 * 1) = elt x [n; c; a; b].
Proof.
  intros Ha Hb. unfold padded.
  replace (1 <=? a + 1 * 1) with true by (symmetry; apply Nat.leb_le; lia).
  replace (a + 1 * 1 <? 1 + H) with true by (symmetry; apply Nat.ltb_lt; lia).
  replace (1 <=? b + 1 * 1) with true by (symmetry; apply Nat.leb_le; lia).
  replace (b + 1 * 1 <? 1 + W) with true by (symmetry; apply Nat.ltb_lt; lia).
  cbn [andb].
  replace (a + 1 * 1 - 1) with a by lia. replace (b + 1 * 1 - 1) with b by lia.
  reflexivity.
Qed.

Lemma padded_none (x : ndarray) (H W n c a b : nat) :
  a < H -> b < W ->
  padded x H W 0 n c (a + 0 * 1) (b + 0 * 1) = elt x [n; c; a; b].
Proof.
  intros Ha Hb. unfold padded.
  replace (0 <=? a + 0 * 1) with true by (symmetry; apply Nat.leb_le; lia).
  replace (a + 0 * 1 <? 0 + H) with true by (symmetry; apply Nat.ltb_lt; lia).
  replace (0 <=? b + 0 * 1) with true by (symmetry; apply Nat.leb_le; lia).
  replace (b + 0 * 1 <? 0 + W) with true by (symmetry; apply Nat.ltb_lt; lia).
  cbn [andb].
  replace (a + 0 * 1 - 0) with a by lia. replace (b + 0 * 1 - 0) with b by lia.
  reflexivity.
Qed.

End BlockForward.

Section Equivalence.

Import RepVGG.

Variables cin cout stride groups : nat.
Variable v : block_values.
Variable x : ndarray.
Variables N H W : nat.

Hypothesis groups_pos : 0 < groups.
Hypothesis stride_pos : 0 < stride.
Hypothesis cin_groups : cin mod groups = 0.
Hypothesis cout_groups : cout mod groups = 0.
Hypothesis cin_pos : 0 < cin.
Hypothesis cout_pos : 0 < cout.
Hypothesis x_shape : shape x = [N; cin; H; W].
Hypothesis H_pos : 0 < H.
Hypothesis W_pos : 0 < W.

Let Ig : nat := cin / groups.
Let Ho : nat := conv_out_size H 3 stride 1 1.
Let Wo : nat := conv_out_size W 3 stride 1 1.

Lemma cin_split : cin = Ig * groups.
Proof.
  unfold Ig. rewrite Nat.mul_comm.
  apply Nat.Div0.div_exact. exact cin_groups.
Qed.

(** The input of output channel [o] that the kernel entry of channel [c]
    meets. *)
Definition met_channel (o c : nat) : nat := o / (cout / groups) * Ig + c.

(** What a 3x3 (resp. 1x1) convolution with padding 1 (resp. 0) sums up
    for one place of its output. *)
Definition window3 (w : list nat -> R) (n o i j : nat) : R :=
  sum_upto Ig (fun c =>
    sum_upto 3 (fun ki =>
      sum_upto 3 (fun kj =>
        w [o; c; ki; kj]
        * padded x H W 1 n (met_channel o c) (i * stride + ki * 1) (j * stride + kj * 1))))%R.

Definition window1 (w : list nat -> R) (n o i j : nat) : R :=
  sum_upto Ig (fun c =>
    sum_upto 1 (fun ki =>
      sum_upto 1 (fun kj =>
        w [o; c; ki; kj]
        * padded x H W 0 n (met_channel o c) (i * stride + ki * 1) (j * stride + kj * 1))))%R.

(** A batch normalisation in eval mode, at channel [o]. *)
Definition bn_value (b : bn_values) (o : nat) (a : R) : R :=
  ((a - v_mean b [o]) / sqrt (v_var b [o] + v_eps b) * v_gamma b [o] + v_beta b [o])%R.

(** Line 47 before the ReLU: the sum of the three branches. *)
Definition branches_value (n o i j : nat) : R :=
  (bn_value (v_dense_bn v) o (0 + window3 (v_dense_weight v) n o i j)
   + bn_value (v_1x1_bn v) o (0 + window1 (v_1x1_weight v) n o i j)
   + match identity_of cin cout stride v with
     | None => 0
     | Some _ => bn_value (v_identity v) o (elt x [n; o; i; j])
     end)%R.

Lemma dense_forward :
  exists y : ndarray,
    convbn_forward (dense_of cin cout stride groups v) x = Some y /\
    shape y = [N; cout; Ho; Wo] /\
    forall n o i j,
      elt y [n; o; i; j]
      = bn_value (v_dense_bn v) o (0 + window3 (v_dense_weight v) n o i j).
Proof.
  unfold convbn_forward.
  destruct (conv_forward_value (conv (dense_of cin cout stride groups v)) x
              N cin H W cout Ig 3 3)
    as (y & -> & Hy & Hv); simpl; try lia; try reflexivity; try assumption.
  - exact cin_split.
  - simpl obind. unfold bn_forward. rewrite Hy. simpl num_features.
    rewrite Nat.eqb_refl.
    eexists. split; [reflexivity|]. split; [reflexivity|].
    intros n o i j. cbn [elt nth]. rewrite Hv. reflexivity.
Qed.

Lemma one_forward :
  exists y : ndarray,
    convbn_forward (one_of cin cout stride groups v) x = Some y /\
    shape y = [N; cout; Ho; Wo] /\
    forall n o i j,
      elt y [n; o; i; j]
      = bn_value (v_1x1_bn v) o (0 + window1 (v_1x1_weight v) n o i j).
Proof.
  unfold convbn_forward.
  destruct (conv_forward_value (conv (one_of cin cout stride groups v)) x
              N cin H W cout Ig 1 1)
    as (y & -> & Hy & Hv); simpl; try lia; try reflexivity; try assumption.
  - exact cin_split.
  - simpl obind. unfold bn_forward. rewrite Hy. simpl num_features.
    rewrite Nat.eqb_refl.
    eexists. split; [reflexivity|]. split.
    + simpl. unfold Ho, Wo. rewrite !conv_out_size_1x1. reflexivity.
    + intros n o i j. cbn [elt nth]. rewrite Hv. reflexivity.
Qed.

(** Lines 42-47: the block in training form, before the ReLU. *)
Lemma pre_activation_training :
  exists y : ndarray,
    pre_activation
      (Training groups cin (identity_of cin cout stride v)
         (dense_of cin cout stride groups v) (one_of cin cout stride groups v)) x
    = Some y /\
    shape y = [N; cout; Ho; Wo] /\
    forall n o i j,
      n < N -> o < cout -> i < Ho -> j < Wo ->
      elt y [n; o; i; j] = branches_value n o i j.
Proof.
  destruct dense_forward as (yd & Hd & Hds & Hdv).
  destruct one_forward as (y1 & H1 & H1s & H1v).
  unfold pre_activation, branches_value.
  destruct (identity_of cin cout stride v) as [idbn|] eqn:Eid.
  - unfold identity_of in Eid.
    destruct ((cout =? cin) && (stride =? 1)) eqn:Ec; [|discriminate].
    injection Eid as <-.
    apply andb_prop in Ec. destruct Ec as [Ec Es].
    apply Nat.eqb_eq in Ec, Es.
    assert (HHo : Ho = H).
    { unfold Ho. rewrite Es. apply conv_out_size_stride1, H_pos. }
    assert (HWo : Wo = W).
    { unfold Wo. rewrite Es. apply conv_out_size_stride1, W_pos. }
    unfold identity_out, bn_forward. rewrite x_shape. simpl num_features.
    rewrite Nat.eqb_refl. simpl obind.
    rewrite Hd, H1. simpl obind. unfold np_add.
    rewrite np_binop_same by congruence. simpl obind.
    rewrite np_binop_same by (simpl; rewrite Hds, HHo, HWo, Ec; reflexivity).
    simpl obind.
    eexists. split; [reflexivity|]. split; [exact Hds|].
    intros n o i j Hn Ho' Hi Hj. cbn [elt shape].
    rewrite Hds.
    rewrite !(operand_index_in_bounds [N; cout; Ho; Wo] [n; o; i; j])
      by (apply in_bounds4; assumption).
    cbn [nth]. rewrite Hdv, H1v. reflexivity.
  - unfold identity_out. simpl obind.
    rewrite Hd, H1. simpl obind. unfold np_add.
    rewrite np_binop_same by congruence. simpl obind.
    rewrite np_binop_scalar. simpl obind.
    eexists. split; [reflexivity|]. split; [exact Hds|].
    intros n o i j Hn Ho' Hi Hj. cbn [elt shape].
    rewrite Hds.
    rewrite !(operand_index_in_bounds [N; cout; Ho; Wo] [n; o; i; j])
      by (apply in_bounds4; assumption).
    rewrite Hdv, H1v. reflexivity.
Qed.

(** Lines 39-40 before the ReLU: the block in deploy form (dilation 1),
    with a kernel and a bias of the shapes of its own. *)
Lemma pre_activation_deploy (K B : ndarray) :
  shape K = [cout; Ig; 3; 3] -> shape B = [cout] ->
  exists (dep : RepVGGBlock) (y : ndarray),
    new_RepVGGBlock cin cout 3 stride 1 1 groups true v = Some dep /\
    pre_activation (load_converted dep K B) x = Some y /\
    shape y = [N; cout; Ho; Wo] /\
    forall n o i j,
      elt y [n; o; i; j] = (elt B [o] + window3 (elt K) n o i j)%R.
Proof.
  intros HK HB.
  destruct (conv_forward_value (mk_Conv2d cin cout 3 stride 1 1 groups K (Some B)) x
              N cin H W cout Ig 3 3)
    as (y & Hy & Hys & Hyv); simpl; try lia; try reflexivity; try assumption.
  - exact cin_split.
  - unfold new_RepVGGBlock, new_Conv2d. simpl.
    apply Nat.ltb_lt in groups_pos as Hg. rewrite Hg.
    apply Nat.eqb_eq in cin_groups as Hci. rewrite Hci.
    apply Nat.eqb_eq in cout_groups as Hco. rewrite Hco.
    simpl. eexists. exists y. split; [reflexivity|].
    unfold load_converted, with_weights, pre_activation. simpl.
    split; [exact Hy|]. split; [exact Hys|].
    intros n o i j. rewrite Hyv. reflexivity.
Qed.

Hypothesis plain_or_no_identity : identity_of cin cout stride v = None \/ groups = 1.

(** The window of the converted kernel is the sum of the windows of the
    three branches, each with the scale of its batch normalisation. *)
Lemma window3_converted (w : list nat -> R) (n o i j : nat) :
  (forall c ki kj, c < Ig -> ki < 3 -> kj < 3 ->
     w [o; c; ki; kj] = converted_kernel cin cout stride v o c ki kj) ->
  n < N -> o < cout -> i < Ho -> j < Wo ->
  window3 w n o i j
  = (scale_of (v_dense_bn v) o * window3 (v_dense_weight v) n o i j
     + scale_of (v_1x1_bn v) o * window1 (v_1x1_weight v) n o i j
     + match identity_of cin cout stride v with
       | None => 0
       | Some _ => scale_of (v_identity v) o * elt x [n; o; i; j]
       end)%R.
Proof.
  intros Hw Hn Ho' Hi Hj.
  assert (His : i * stride < H) by (apply (conv_out_within H stride i); assumption).
  assert (Hjs : j * stride < W) by (apply (conv_out_within W stride j); assumption).
  unfold window3 at 1.
  set (P := fun c ki kj =>
              padded x H W 1 n (met_channel o c) (i * stride + ki * 1) (j * stride + kj * 1)).
  set (D := fun c : nat =>
              match identity_of cin cout stride v with
              | None => 0%R
              | Some _ => ((if (c =? o)%nat then 1 else 0) * scale_of (v_identity v) o)%R
              end).
  rewrite (sum_upto_ext Ig _
             (fun c =>
                scale_of (v_dense_bn v) o
                * sum_upto 3 (fun ki => sum_upto 3 (fun kj =>
                                v_dense_weight v [o; c; ki; kj] * P c ki kj))
                + (scale_of (v_1x1_bn v) o * (v_1x1_weight v [o; c; 0%nat; 0%nat] * P c 1%nat 1%nat)
                   + D c * P c 1%nat 1%nat))%R).
  - rewrite sum_upto_plus, sum_upto_scal, sum_upto_plus, sum_upto_scal.
    fold (window3 (v_dense_weight v) n o i j).
    assert (H1 : sum_upto Ig (fun c => (v_1x1_weight v [o; c; 0%nat; 0%nat] * P c 1%nat 1%nat)%R)
                 = window1 (v_1x1_weight v) n o i j).
    { unfold window1. apply sum_upto_ext. intros c Hc.
      rewrite (window_1x1 (fun ki kj =>
                 (v_1x1_weight v [o; c; ki; kj]
                  * padded x H W 0 n (met_channel o c)
                           (i * stride + ki * 1) (j * stride + kj * 1))%R)).
      unfold P. rewrite padded_centre, padded_none by assumption. reflexivity. }
    rewrite H1.
    assert (HD : sum_upto Ig (fun c => (D c * P c 1%nat 1%nat)%R)
                 = match identity_of cin cout stride v with
                   | None => 0%R
                   | Some _ => (scale_of (v_identity v) o * elt x [n; o; i; j])%R
                   end).
    { unfold D. destruct (identity_of cin cout stride v) as [idbn|] eqn:Eid.
      - destruct plain_or_no_identity as [Hno|Hg1]; [discriminate|].
        unfold identity_of in Eid.
        destruct ((cout =? cin) && (stride =? 1)) eqn:Ec; [|discriminate].
        apply andb_prop in Ec. destruct Ec as [Ec Es].
        apply Nat.eqb_eq in Ec, Es.
        assert (HIg : Ig = cin) by (unfold Ig; rewrite Hg1; apply Nat.div_1_r).
        rewrite (sum_upto_ext Ig _
                   (fun c => ((if (c =? o)%nat then 1 else 0)
                              * (scale_of (v_identity v) o * P c 1%nat 1%nat))%R))
          by (intros c Hc; ring).
        rewrite sum_upto_delta by (rewrite HIg, <- Ec; exact Ho').
        unfold P, met_channel.
        rewrite Hg1, Nat.div_1_r, (Nat.div_small o cout Ho'). simpl Nat.add.
        rewrite Es in His, Hjs |- *.
        rewrite (Nat.mul_1_r i) in *. rewrite (Nat.mul_1_r j) in *.
        rewrite padded_centre by assumption. reflexivity.
      - rewrite (sum_upto_ext Ig _ (fun _ => 0%R)) by (intros c Hc; ring).
        apply sum_upto_zero. }
    rewrite HD. unfold window3, P.
    generalize (match identity_of cin cout stride v with
                | Some _ => (scale_of (v_identity v) o * elt x [n; o; i; j])%R
                | None => 0%R
                end).
    intros r. ring.
  - intros c Hc.
    rewrite (sum_upto_ext 3 _
               (fun ki => sum_upto 3 (fun kj =>
                  ((v_dense_weight v [o; c; ki; kj] * scale_of (v_dense_bn v) o
                    + (if (ki =? 1) && (kj =? 1)
                       then v_1x1_weight v [o; c; 0%nat; 0%nat] * scale_of (v_1x1_bn v) o
                       else 0)
                    + (if (ki =? 1) && (kj =? 1) then D c else 0))
                   * P c ki kj)%R))).
    + rewrite (window_plus3
                 (fun ki kj => (v_dense_weight v [o; c; ki; kj]
                                * scale_of (v_dense_bn v) o)%R)
                 (fun ki kj => if (ki =? 1) && (kj =? 1)
                               then (v_1x1_weight v [o; c; 0%nat; 0%nat]
                                     * scale_of (v_1x1_bn v) o)%R
                               else 0%R)
                 (fun ki kj => if (ki =? 1) && (kj =? 1) then D c else 0%R)
                 (P c)).
      rewrite (window_scal (scale_of (v_dense_bn v) o)
                 (fun ki kj => v_dense_weight v [o; c; ki; kj]) (P c)).
      rewrite !window_centre. ring.
    + intros ki Hki. apply sum_upto_ext. intros kj Hkj.
      rewrite (Hw c ki kj Hc Hki Hkj). unfold converted_kernel.
      f_equal. f_equal. unfold D.
      destruct (identity_of cin cout stride v);
        destruct (c =? o), (ki =? 1), (kj =? 1); simpl; ring.
Qed.

(** The deploy-form block that carries the converted kernel and bias
    computes, before the ReLU and so after it, what the block in training
    form computes. *)
Lemma conversion_preserves :
  exists (K B : ndarray) (dep : RepVGGBlock) (y y' : ndarray),
    repvgg_convert
      (Training groups cin (identity_of cin cout stride v)
         (dense_of cin cout stride groups v) (one_of cin cout stride groups v))
    = Some (K, B) /\
    new_RepVGGBlock cin cout 3 stride 1 1 groups true v = Some dep /\
    pre_activation
      (Training groups cin (identity_of cin cout stride v)
         (dense_of cin cout stride groups v) (one_of cin cout stride groups v)) x
    = Some y /\
    pre_activation (load_converted dep K B) x = Some y' /\
    shape y = [N; cout; Ho; Wo] /\ shape y' = [N; cout; Ho; Wo] /\
    forall n o i j,
      n < N -> o < cout -> i < Ho -> j < Wo ->
      elt y' [n; o; i; j] = elt y [n; o; i; j].
Proof.
  destruct (convert_spec cin cout stride groups v plain_or_no_identity)
    as (K & B & Hconv & HK & HB & HKv & HBv).
  destruct pre_activation_training as (y & Hy & Hys & Hyv).
  destruct (pre_activation_deploy K B HK HB) as (dep & y' & Hdep & Hy' & Hys' & Hyv').
  exists K, B, dep, y, y'. repeat split; try assumption.
  intros n o i j Hn Ho' Hi Hj.
  rewrite Hyv', Hyv by assumption.
  rewrite (window3_converted (elt K) n o i j) by (try assumption; intros; apply HKv; assumption).
  rewrite HBv by assumption.
  unfold branches_value, converted_bias, bn_value, shift_of, scale_of.
  destruct (identity_of cin cout stride v); unfold Rdiv; ring.
Qed.

End Equivalence.

(** A block in training form, as [__init__] builds it. *)
Lemma new_block_training_inv (cin cout stride dilation groups : nat)
  (v : RepVGG.block_values) (b : RepVGG.RepVGGBlock) :
  RepVGG.new_RepVGGBlock cin cout 3 stride 1 dilation groups false v = Some b ->
  0 < groups /\ cin mod groups = 0 /\ cout mod groups = 0 /\
  b = RepVGG.Training groups cin (identity_of cin cout stride v)
        (dense_of cin cout stride groups v) (one_of cin cout stride groups v).
Proof.
  rewrite new_block_training. intros H.
  destruct (0 <? groups) eqn:Eg; [|discriminate].
  destruct (cin mod groups =? 0) eqn:Ei; [|discriminate].
  destruct (cout mod groups =? 0) eqn:Eo; [|discriminate].
  injection H as <-.
  apply Nat.ltb_lt in Eg. apply Nat.eqb_eq in Ei, Eo. auto.
Qed.



(** The conversion preserves the block. For a block in training form
    with at least one input and one output channel, without groups or
    without the identity branch, the conversion returns a kernel and a bias,
    and the block in deploy form (3x3 kernel, the same stride and groups,
    padding 1, dilation 1) that carries them computes on every batch of
    non-empty images, at every place of the output, what the three branches
    of the block in training form add up to, before the ReLU and after it.
    (The entries of the tensors are real numbers.) *)
Theorem conversion_equivalent (cin cout stride dilation groups : nat)
  (v : RepVGG.block_values) (b : RepVGG.RepVGGBlock)
  (x : RepVGG.ndarray) (N H W : nat) :
  RepVGG.new_RepVGGBlock cin cout 3 stride 1 dilation groups false v = Some b ->
  groups = 1 \/ ~ (cout = cin /\ stride = 1) ->
  0 < cin -> 0 < cout ->
  0 < stride ->
  RepVGG.shape x = [N; cin; H; W] -> 0 < H -> 0 < W ->
  exists (K B : RepVGG.ndarray) (dep : RepVGG.RepVGGBlock) (y y' : RepVGG.ndarray),
    RepVGG.repvgg_convert b = Some (K, B) /\
    RepVGG.new_RepVGGBlock cin cout 3 stride 1 1 groups true v = Some dep /\
    RepVGG.pre_activation b x = Some y /\
    RepVGG.pre_activation (RepVGG.load_converted dep K B) x = Some y' /\
    RepVGG.forward b x = Some (RepVGG.relu y) /\
    RepVGG.forward (RepVGG.load_converted dep K B) x = Some (RepVGG.relu y') /\
    RepVGG.shape y' = RepVGG.shape y /\
    forall n o i j,
      n < N -> o < cout ->
      i < RepVGG.conv_out_size H 3 stride 1 1 ->
      j < RepVGG.conv_out_size W 3 stride 1 1 ->
      RepVGG.elt y' [n; o; i; j] = RepVGG.elt y [n; o; i; j] /\
      RepVGG.elt (RepVGG.relu y') [n; o; i; j] = RepVGG.elt (RepVGG.relu y) [n; o; i; j].
Proof.
  intros Hb Hplain Hcin Hcout Hs Hx HH HW. apply new_block_training_inv in Hb.
  destruct Hb as (Hg & Hci & Hco & ->).
  assert (Hid : identity_of cin cout stride v = None \/ groups = 1).
  { destruct Hplain as [Hg1|Hno]; [right; exact Hg1|]. left.
    unfold identity_of.
    destruct ((cout =? cin) && (stride =? 1)) eqn:E; [|reflexivity].
    apply andb_prop in E. destruct E as [E1 E2]. apply Nat.eqb_eq in E1, E2.
    exfalso. apply Hno. split; assumption. }
  destruct (conversion_preserves cin cout stride groups v x N H W
              Hg Hs Hci Hco Hcin Hcout Hx HH HW Hid)
    as (K & B & dep & y & y' & HKB & Hdep & Hy & Hy' & Hys & Hys' & Heq).
  exists K, B, dep, y, y'. unfold RepVGG.forward. rewrite Hy, Hy'.
  repeat split; try assumption; try reflexivity.
  - congruence.
  - apply Heq; assumption.
  - simpl. rewrite (Heq n o i j) by assumption. reflexivity.
Qed.

Lemma conversion_equivalent_witness :
  exists (b dep : RepVGG.RepVGGBlock) (K B y y' : RepVGG.ndarray),
    RepVGG.new_RepVGGBlock 4 4 3 1 1 1 1 false unit_values = Some b /\
    RepVGG.repvgg_convert b = Some (K, B) /\
    RepVGG.forward b unit_input = Some (RepVGG.relu y) /\
    RepVGG.forward (RepVGG.load_converted dep K B) unit_input = Some (RepVGG.relu y') /\
    RepVGG.elt (RepVGG.relu y') [0; 2; 3; 4] = RepVGG.elt (RepVGG.relu y) [0; 2; 3; 4].
Proof.
  destruct (RepVGG.new_RepVGGBlock 4 4 3 1 1 1 1 false unit_values) as [b|] eqn:E;
    [|vm_compute in E; discriminate].
  destruct (conversion_equivalent 4 4 1 1 1 unit_values b unit_input 1 5 5 E
              (or_introl eq_refl))
    as (K & B & dep & y & y' & HKB & _ & _ & _ & Hf & Hf' & _ & Heq).
  - lia.
  - lia.
  - lia.
  - reflexivity.
  - lia.
  - lia.
  - exists b, dep, K, B, y, y'. repeat split; try assumption.
    apply Heq; vm_compute; lia.
Defined.

(** C1 on a block with groups and the identity branch: 4 input and 4 output
    channels, stride 1, 2 groups. Its forward pass returns, but the
    conversion does not: the kernel of the identity has the shape
    [(4, 4, 3, 3)] (line 62) and the dense kernel the shape [(4, 2, 3, 3)],
    and their sum (line 87) is refused. *)
Theorem grouped_identity_not_converted :
  exists b : RepVGG.RepVGGBlock,
    RepVGG.new_RepVGGBlock 4 4 3 1 1 1 2 false unit_values = Some b /\
    (exists y : RepVGG.ndarray,
        RepVGG.forward b unit_input = Some y /\ RepVGG.shape y = [1; 4; 5; 5]) /\
    RepVGG.repvgg_convert b = None.
Proof.
  destruct (RepVGG.new_RepVGGBlock 4 4 3 1 1 1 2 false unit_values) as [b|] eqn:E;
    [|vm_compute in E; discriminate].
  exists b. split; [reflexivity|].
  apply new_block_training_inv in E. destruct E as (Hg & Hci & Hco & ->).
  split.
  - destruct (pre_activation_training 4 4 1 2 unit_values unit_input 1 5 5)
      as (y & Hy & Hys & _); try reflexivity; try lia.
    exists (RepVGG.relu y). unfold RepVGG.forward. rewrite Hy.
    split; [reflexivity | exact Hys].
  - vm_compute. reflexivity.
Qed.

(** ** models/detector.py: the order of the checks of the constructor *)

Section ConstructorOrder.

Import DetectorPy.
Open Scope Z_scope.

Variable lib : library.

Lemma unsupported_backbone_raises (backbone : string) (log : list event) :
  ~ supported_backbone backbone ->
  new_backbone lib backbone log = (inl (ValueError_backbone backbone), log).
Proof.
  intros Hb. unfold new_backbone.
  repeat match goal with
         | |- context [String.eqb backbone ?s] =>
             destruct (String.eqb_spec backbone s) as [E|_];
             [exfalso; apply Hb; rewrite E; unfold supported_backbone; simpl; tauto|]
         end.
  reflexivity.
Qed.

Lemma unsupported_neck_raises (neck : string) (lv : Z) (ch : Z * Z) (fea : Z)
  (log : list event) :
  ~ supported_neck neck ->
  new_neck lib neck lv ch fea log = (inl (ValueError_neck neck), log).
Proof.
  intros Hn. unfold new_neck.
  repeat match goal with
         | |- context [String.eqb neck ?s] =>
             destruct (String.eqb_spec neck s) as [E|_];
             [exfalso; apply Hn; rewrite E; unfold supported_neck; simpl; tauto|]
         end.
  reflexivity.
Qed.

(** The class of a supported backbone, with the channels of its two
    feature maps and the channels of the pyramid (lines 33-52). *)
Lemma supported_backbone_built (backbone : string) (log : list event) :
  supported_backbone backbone ->
  exists (cls : string) (channels : Z * Z) (fea : Z),
    0 < fea /\
    new_backbone lib backbone log
    = (if lib (NewBackbone cls) then inr (channels, fea)
       else inl (RaisedBy (NewBackbone cls)),
       (log ++ [NewBackbone cls])%list).
Proof.
  unfold supported_backbone. simpl.
  intros [<-|[<-|[<-|[<-|[]]]]];
    unfold new_backbone, bind, construct, ret; simpl;
    match goal with
    | |- context [inr (?ch, ?f)] =>
        match goal with
        | |- context [lib (NewBackbone ?c)] =>
            exists c, ch, f; destruct (lib (NewBackbone c))
        end
    end;
    (split; [lia | reflexivity]).
Qed.

Lemma supported_neck_built (neck : string) (lv : Z) (ch : Z * Z) (fea : Z)
  (log : list event) :
  supported_neck neck ->
  exists cls : string,
    new_neck lib neck lv ch fea log
    = (if lib (NewNeck cls lv ch fea) then inr tt
       else inl (RaisedBy (NewNeck cls lv ch fea)),
       (log ++ [NewNeck cls lv ch fea])%list).
Proof.
  unfold supported_neck. simpl.
  intros [<-|[<-|[<-|[]]]]; unfold new_neck, construct; simpl;
    eexists; reflexivity.
Qed.

(** The constructor calls of [multibox], in order. *)
Definition head_events (fea lc cc : Z) (n : nat) : list event :=
  flat_map (fun _ => [NewConv2d fea lc 3 1; NewConv2d fea cc 3 1]) (seq 0 n).

Lemma head_events_S (fea lc cc : Z) (n : nat) :
  head_events fea lc cc (S n)
  = (NewConv2d fea lc 3 1 :: NewConv2d fea cc 3 1 :: head_events fea lc cc n)%list.
Proof.
  unfold head_events. simpl. f_equal. f_equal.
  rewrite <- seq_shift. rewrite flat_map_concat_map, map_map.
  rewrite <- flat_map_concat_map. reflexivity.
Qed.

Lemma multibox_loop_log (n : nat) (fea lc cc : Z) :
  lib (NewConv2d fea lc 3 1) = true ->
  lib (NewConv2d fea cc 3 1) = true ->
  forall (ls cs : list Conv2d) (log : list event),
    multibox_loop lib n fea lc cc ls cs log
    = (inr ((ls ++ repeat (mk_Conv2d fea lc 3 1) n)%list,
            (cs ++ repeat (mk_Conv2d fea cc 3 1) n)%list),
       (log ++ head_events fea lc cc n)%list).
Proof.
  intros Hl Hc. induction n as [|n IH]; intros ls cs log.
  - simpl. unfold head_events. simpl.
    rewrite (app_nil_r ls), (app_nil_r cs), (app_nil_r log). reflexivity.
  - rewrite head_events_S.
    simpl. unfold new_Conv2d, construct, bind, ret. rewrite Hl, Hc.
    rewrite IH. rewrite <- !app_assoc. reflexivity.
Qed.

(** A head layer that the library refuses stops [multibox]. *)
Lemma multibox_loop_refused (n : nat) (fea lc cc : Z) :
  lib (NewConv2d fea lc 3 1) = false \/ lib (NewConv2d fea cc 3 1) = false ->
  forall (ls cs : list Conv2d) (log : list event),
    exists (e : exn) (log' : list event),
      multibox_loop lib (S n) fea lc cc ls cs log = (inl e, log').
Proof.
  intros H ls cs log. simpl. unfold new_Conv2d, construct, bind, ret.
  destruct (lib (NewConv2d fea lc 3 1)) eqn:El.
  - destruct H as [H|H]; [discriminate|]. rewrite H. eauto.
  - eauto.
Qed.

End ConstructorOrder.

(** The checks of [Detector.__init__] come in the order size, backbone,
    neck: for a size that is a multiple of 64, an unsupported backbone is
    refused before any network is built, whatever the neck; an unsupported
    neck is refused only once the backbone has been built. *)
Theorem constructor_checks_order (lib : DetectorPy.library) (size num_classes : Z)
  (backbone neck : string) :
  (size mod 64 = 0)%Z ->
  (~ supported_backbone backbone ->
   DetectorPy.new_Detector lib size num_classes backbone neck
   = (inl (DetectorPy.ValueError_backbone backbone), []))
  /\
  (supported_backbone backbone -> ~ supported_neck neck ->
   exists cls : string,
     DetectorPy.new_Detector lib size num_classes backbone neck
     = (if lib (DetectorPy.NewBackbone cls)
        then inl (DetectorPy.ValueError_neck neck)
        else inl (DetectorPy.RaisedBy (DetectorPy.NewBackbone cls)),
        [DetectorPy.NewBackbone cls])).
Proof.
  intros Hsize. apply Z.eqb_eq in Hsize.
  unfold DetectorPy.new_Detector, DetectorPy.Detector_init.
  rewrite Hsize. change (negb true) with false. cbv beta iota.
  split.
  - intros Hb. unfold DetectorPy.bind at 1.
    rewrite (unsupported_backbone_raises lib backbone [] Hb). reflexivity.
  - intros Hb Hn.
    destruct (supported_backbone_built lib backbone [] Hb)
      as (cls & channels & fea & _ & Hbk).
    exists cls. unfold DetectorPy.bind at 1. rewrite Hbk.
    destruct (lib (DetectorPy.NewBackbone cls)); [|reflexivity].
    unfold DetectorPy.bind at 1. cbn [fst snd].
    rewrite (unsupported_neck_raises lib neck _ _ _ _ Hn). reflexivity.
Qed.

Lemma constructor_checks_order_witness :
  DetectorPy.new_Detector DetectorPy.torch_library 320 21 "mobilenet" "nofpn"
  = (inl (DetectorPy.ValueError_backbone "mobilenet"), [])
  /\
  exists cls : string,
    DetectorPy.new_Detector DetectorPy.torch_library 320 21 "vgg16" "nofpn"
    = (inl (DetectorPy.ValueError_neck "nofpn"), [DetectorPy.NewBackbone cls]).
Proof.
  split.
  - apply (proj1 (constructor_checks_order DetectorPy.torch_library 320 21
                    "mobilenet" "nofpn" eq_refl)).
    unfold supported_backbone. simpl.
    intros [H|[H|[H|[H|[]]]]]; discriminate.
  - destruct (proj2 (constructor_checks_order DetectorPy.torch_library 320 21
                       "vgg16" "nofpn" eq_refl)) as [cls H].
    + left. reflexivity.
    + unfold supported_neck. simpl. intros [H|[H|[H|[]]]]; discriminate.
    + exists cls. exact H.
Defined.

(** C7. With [num_classes = 0] the construction always aborts with an error
    and never returns a detector, whatever the other arguments, when
    [nn.Conv2d] refuses a negative number of output channels, as torch's
    does.  The constructor has no check of its own for the class count: for a
    size that is a multiple of 64 and a supported backbone and neck, the
    error is the one [nn.Conv2d] raises when it is asked for
    [6 * (0 - 1) = -6] output channels, for the confidence layer of the first
    level, once the backbone, the neck and the location layer of that level
    have been built; no other layer is built. *)
Theorem zero_classes_fatal (lib : DetectorPy.library) (size : Z)
  (backbone neck : string) :
  refuses_negative_channels lib ->
  (exists (e : DetectorPy.exn) (log : list DetectorPy.event),
      DetectorPy.new_Detector lib size 0 backbone neck = (inl e, log))
  /\
  (returns_like_torch lib ->
   (size mod 64 = 0)%Z ->
   supported_backbone backbone ->
   supported_neck neck ->
   exists (bcls ncls : string) (channels : Z * Z) (fea : Z),
     DetectorPy.new_Detector lib size 0 backbone neck
     = (inl (DetectorPy.RaisedBy (DetectorPy.NewConv2d fea (-6) 3 1)),
        [DetectorPy.NewBackbone bcls;
         DetectorPy.NewNeck ncls (if size <? 512 then 4 else 5)%Z channels fea;
         DetectorPy.NewConv2d fea 24 3 1;
         DetectorPy.NewConv2d fea (-6) 3 1])).
Proof.
  intros Hneg.
  assert (Hn4 : exists n, Z.to_nat (if (size <? 512)%Z then 4 else 5) = S n)
    by (destruct (size <? 512)%Z; eexists; reflexivity).
  destruct Hn4 as [n Hn4].
  split.
  - destruct (DetectorPy.new_Detector lib size 0 backbone neck) as [[e|d] log] eqn:E;
      [eauto|].
    exfalso. revert E.
    unfold DetectorPy.new_Detector, DetectorPy.Detector_init.
    destruct (size mod 64 =? 0)%Z; [|discriminate].
    change (negb true) with false. cbv beta iota.
    unfold DetectorPy.bind at 1.
    destruct (in_dec string_dec backbone ["vgg16"; "repvgg"; "resnet18"; "shufflenet"]%string)
      as [Hb|Hb];
      [|rewrite (unsupported_backbone_raises _ backbone [] Hb); discriminate].
    destruct (supported_backbone_built lib backbone [] Hb)
      as (bcls & channels & fea & Hfea & ->).
    destruct (lib (DetectorPy.NewBackbone bcls)); [|discriminate].
    cbn [fst snd app].
    unfold DetectorPy.bind at 1.
    destruct (in_dec string_dec neck ["ssd"; "fpn"; "pafpn"]%string) as [Hn|Hn];
      [|rewrite (unsupported_neck_raises _ neck _ _ _ _ Hn); discriminate].
    destruct (supported_neck_built lib neck
                (if (size <? 512)%Z then 4%Z else 5%Z) channels fea
                [DetectorPy.NewBackbone bcls] Hn) as (ncls & ->).
    destruct (lib (DetectorPy.NewNeck ncls _ channels fea)); [|discriminate].
    unfold DetectorPy.bind at 1. unfold DetectorPy.multibox. rewrite Hn4.
    destruct (multibox_loop_refused lib n fea (6 * 4) (6 * (0 - 1))) with
      (ls := @nil DetectorPy.Conv2d) (cs := @nil DetectorPy.Conv2d)
      (log := ([DetectorPy.NewBackbone bcls]
               ++ [DetectorPy.NewNeck ncls (if (size <? 512)%Z then 4%Z else 5%Z)
                     channels fea])%list) as (e & log' & ->).
    + right. apply Hneg. lia.
    + discriminate.
  - intros Hlib Hsize Hb Hn.
    apply Z.eqb_eq in Hsize.
    destruct (supported_backbone_built lib backbone [] Hb)
      as (bcls & channels & fea & Hfea & Hbk).
    destruct (supported_neck_built lib neck
                (if (size <? 512)%Z then 4%Z else 5%Z) channels fea
                [DetectorPy.NewBackbone bcls] Hn) as (ncls & Hnk).
    exists bcls, ncls, channels, fea.
    unfold DetectorPy.new_Detector, DetectorPy.Detector_init.
    rewrite Hsize. change (negb true) with false. cbv beta iota.
    unfold DetectorPy.bind at 1. rewrite Hbk.
    rewrite (Hlib (DetectorPy.NewBackbone bcls) eq_refl).
    cbn [fst snd app].
    unfold DetectorPy.bind at 1. rewrite Hnk.
    rewrite (Hlib (DetectorPy.NewNeck ncls _ channels fea) eq_refl).
    unfold DetectorPy.bind at 1. unfold DetectorPy.multibox. rewrite Hn4.
    change (6 * 4)%Z with 24%Z. change (6 * (0 - 1))%Z with (-6)%Z.
    cbn [DetectorPy.multibox_loop].
    unfold DetectorPy.new_Conv2d, DetectorPy.construct, DetectorPy.bind, DetectorPy.ret.
    rewrite (Hlib (DetectorPy.NewConv2d fea 24 3 1)).
    + rewrite (Hneg fea (-6)%Z 3%Z 1%Z) by lia. reflexivity.
    + unfold DetectorPy.torch_library.
      apply andb_true_intro. split; apply Z.leb_le; lia.
Qed.

Lemma zero_classes_fatal_witness :
  refuses_negative_channels DetectorPy.torch_library /\
  DetectorPy.new_Detector DetectorPy.torch_library 320 0 "repvgg" "pafpn"
  = (inl (DetectorPy.RaisedBy (DetectorPy.NewConv2d 256 (-6) 3 1)),
     [DetectorPy.NewBackbone "REPVGGBackbone";
      DetectorPy.NewNeck "PAFPNNeck" 4 (384, 1408)%Z 256;
      DetectorPy.NewConv2d 256 24 3 1;
      DetectorPy.NewConv2d 256 (-6) 3 1]).
Proof.
  assert (Hneg : refuses_negative_channels DetectorPy.torch_library).
  { intros i o k p Ho. unfold DetectorPy.torch_library.
    apply andb_false_intro2. apply Z.leb_gt. exact Ho. }
  split; [exact Hneg|].
  destruct (zero_classes_fatal DetectorPy.torch_library 320 "repvgg" "pafpn" Hneg)
    as [_ Hat].
  destruct Hat as (bcls & ncls & channels & fea & Hat).
  - intros e He. exact He.
  - reflexivity.
  - right. left. reflexivity.
  - right. right. left. reflexivity.
  - rewrite Hat. vm_compute in Hat. injection Hat as <- <- <- <-. reflexivity.
Defined.

(** With torch's constructors, [Detector(size, num_classes, backbone, neck)]
    returns exactly when the size is a multiple of 64, the backbone and the
    neck are among the supported ones and [num_classes] is at least 1; it
    then has built the backbone, the neck for the level count and the
    channels of that backbone, and, level after level, a location layer with
    24 and a confidence layer with [6 * (num_classes - 1)] output channels,
    all of them reading the channel count of the pyramid. *)
Theorem constructor_returns_iff (size num_classes : Z) (backbone neck : string) :
  ((exists d log,
       DetectorPy.new_Detector DetectorPy.torch_library size num_classes backbone neck
       = (inr d, log))
   <-> ((size mod 64 = 0)%Z /\ supported_backbone backbone /\ supported_neck neck /\
        (1 <= num_classes)%Z))
  /\
  (forall d log,
      DetectorPy.new_Detector DetectorPy.torch_library size num_classes backbone neck
      = (inr d, log) ->
      exists (bcls ncls : string) (channels : Z * Z) (fea : Z),
        let lv := (if size <? 512 then 4 else 5)%Z in
        log = DetectorPy.NewBackbone bcls
              :: DetectorPy.NewNeck ncls lv channels fea
              :: head_events fea 24 (6 * (num_classes - 1)) (Z.to_nat lv) /\
        Forall (fun l => DetectorPy.in_channels l = fea)
               (DetectorPy.loc d ++ DetectorPy.conf d)).
Proof.
  assert (Hmain :
            forall d log,
              DetectorPy.new_Detector DetectorPy.torch_library size num_classes
                backbone neck = (inr d, log) ->
              ((size mod 64 = 0)%Z /\ supported_backbone backbone /\
               supported_neck neck /\ (1 <= num_classes)%Z) /\
              exists (bcls ncls : string) (channels : Z * Z) (fea : Z),
                let lv := (if size <? 512 then 4 else 5)%Z in
                log = DetectorPy.NewBackbone bcls
                      :: DetectorPy.NewNeck ncls lv channels fea
                      :: head_events fea 24 (6 * (num_classes - 1)) (Z.to_nat lv) /\
                Forall (fun l => DetectorPy.in_channels l = fea)
                       (DetectorPy.loc d ++ DetectorPy.conf d)).
  { intros d log H.
    destruct (Detector_init_inr _ _ _ _ _ _ _ H) as [Hsize _].
    revert H. unfold DetectorPy.new_Detector, DetectorPy.Detector_init.
    apply Z.eqb_eq in Hsize as Hsize'. rewrite Hsize'.
    change (negb true) with false. cbv beta iota.
    unfold DetectorPy.bind at 1.
    destruct (in_dec string_dec backbone ["vgg16"; "repvgg"; "resnet18"; "shufflenet"]%string)
      as [Hb|Hb];
      [|rewrite (unsupported_backbone_raises _ backbone [] Hb); discriminate].
    destruct (supported_backbone_built DetectorPy.torch_library backbone [] Hb)
      as (bcls & channels & fea & Hfea & ->).
    cbn [DetectorPy.torch_library]. cbn [fst snd app].
    unfold DetectorPy.bind at 1.
    destruct (in_dec string_dec neck ["ssd"; "fpn"; "pafpn"]%string) as [Hn|Hn];
      [|rewrite (unsupported_neck_raises _ neck _ _ _ _ Hn); discriminate].
    destruct (supported_neck_built DetectorPy.torch_library neck
                (if (size <? 512)%Z then 4%Z else 5%Z) channels fea
                [DetectorPy.NewBackbone bcls] Hn) as (ncls & ->).
    cbn [DetectorPy.torch_library app].
    unfold DetectorPy.bind at 1. unfold DetectorPy.multibox.
    change (6 * 4)%Z with 24%Z.
    destruct (Z_lt_le_dec num_classes 1) as [Hlt|Hge].
    - assert (Hn4 : exists n, Z.to_nat (if (size <? 512)%Z then 4 else 5) = S n)
        by (destruct (size <? 512)%Z; eexists; reflexivity).
      destruct Hn4 as [n ->].
      destruct (multibox_loop_refused DetectorPy.torch_library n fea 24
                  (6 * (num_classes - 1))) with
        (ls := @nil DetectorPy.Conv2d) (cs := @nil DetectorPy.Conv2d)
        (log := [DetectorPy.NewBackbone bcls;
                 DetectorPy.NewNeck ncls (if (size <? 512)%Z then 4%Z else 5%Z)
                   channels fea]) as (e & log' & ->).
      + right. unfold DetectorPy.torch_library.
        apply andb_false_intro2. apply Z.leb_gt. lia.
      + discriminate.
    - rewrite multibox_loop_log.
      + unfold DetectorPy.ret. cbn [fst snd app].
        intros Heq. injection Heq as <- <-.
        split; [repeat split; assumption|].
        exists bcls, ncls, channels, fea. cbv zeta. split; [reflexivity|].
        cbn [DetectorPy.loc DetectorPy.conf].
        apply Forall_app. split; apply Forall_forall; intros l Hl;
          apply repeat_spec in Hl; subst l; reflexivity.
      + unfold DetectorPy.torch_library.
        apply andb_true_intro. split; apply Z.leb_le; lia.
      + unfold DetectorPy.torch_library.
        apply andb_true_intro. split; apply Z.leb_le; lia. }
  split.
  - split.
    + intros (d & log & H). exact (proj1 (Hmain d log H)).
    + intros (Hsize & Hb & Hn & Hnc).
      apply (Detector_init_returns DetectorPy.torch_library); try assumption.
      intros e He. exact He.
  - intros d log H. exact (proj2 (Hmain d log H)).
Qed.

(** ** models/detector.py: what [Detector.forward] needs to return *)

Section ForwardReturns.

Import DetectorPy.

Context {A : Type}.
Variable dflt : A.
Variable features : @tensor A -> list (@tensor A).
Variable conv_forward : Conv2d -> @tensor A -> option (@tensor A).

Lemma omap_cons_inv {X Y : Type} (f : X -> option Y) (l : list X) (y : Y) (ys : list Y) :
  omap f l = Some (y :: ys) ->
  exists x l', l = x :: l' /\ f x = Some y /\ omap f l' = Some ys.
Proof.
  destruct l as [|x l']; simpl; [discriminate|].
  destruct (f x) as [y0|] eqn:E; simpl; [|discriminate].
  destruct (omap f l') as [ys0|] eqn:E2; simpl; [|discriminate].
  intros H. injection H as -> ->. exists x, l'. auto.
Qed.

Lemma omap_nil_inv {X Y : Type} (f : X -> option Y) (l : list X) :
  omap f l = Some [] -> l = [].
Proof.
  destruct l as [|x l']; simpl; [reflexivity|].
  destruct (f x); simpl; [|discriminate].
  destruct (omap f l'); simpl; discriminate.
Qed.

(** [flatten_cat] returns a 2-D tensor with a first dimension that is not
    0, and only for at least one tensor. *)
Lemma flatten_cat_some (os : list (@tensor A)) (t : @tensor A) :
  flatten_cat os = Some t ->
  os <> [] /\ exists N L, 0 < N /\ shape t = [N; L].
Proof.
  unfold flatten_cat. intros H.
  destruct (omap (fun o => view2 o (size0 o)) os) as [flat|] eqn:E; simpl in H;
    [|discriminate].
  destruct flat as [|t0 flat']; [discriminate|].
  split; [intros ->; discriminate|].
  apply omap_cons_inv in E. destruct E as (o & os' & -> & Hv & _).
  unfold cat1 in H.
  destruct (forallb _ (t0 :: flat')); [|discriminate].
  injection H as <-.
  unfold view2 in Hv.
  destruct (size0 o =? 0) eqn:E0; [discriminate|].
  destruct (numel o mod size0 o =? 0); [|discriminate].
  injection Hv as <-. apply Nat.eqb_neq in E0.
  exists (size0 o), (list_sum (map (fun t => nth 1 (shape t) 0)
                                 (mk_tensor [size0 o; numel o / size0 o] (data o) :: flat'))).
  split; [lia | reflexivity].
Qed.

Lemma view3_some (t t3 : @tensor A) (n : nat) (k : Z) :
  view3 t n k = Some t3 ->
  (0 < k)%Z /\ 0 < n /\ exists a, shape t3 = [n; a; Z.to_nat k].
Proof.
  unfold view3. destruct (k <? 0)%Z eqn:Ek; [discriminate|].
  destruct (n * Z.to_nat k =? 0) eqn:E0; [discriminate|].
  destruct (numel t mod (n * Z.to_nat k) =? 0); [|discriminate].
  intros H. injection H as <-.
  apply Z.ltb_ge in Ek. apply Nat.eqb_neq in E0.
  repeat split; try lia. eexists. reflexivity.
Qed.

Lemma zip3_nil_inv {X Y Z' : Type} (xs : list X) (ys : list Y) (zs : list Z') :
  zip3 xs ys zs <> [] -> xs <> [] /\ ys <> [] /\ zs <> [].
Proof.
  unfold zip3. destruct xs, ys, zs; simpl; intros H; repeat split; congruence.
Qed.

Lemma forward_some (self : Detector) (x l c : @tensor A) :
  forward dflt features conv_forward self x = Some (l, c) ->
  features x <> [] /\ loc self <> [] /\ conf self <> [] /\
  (0 < num_classes self)%Z /\
  exists N N' a a' : nat,
    0 < N /\ 0 < N' /\
    shape l = [N; a; 4] /\ shape c = [N'; a'; Z.to_nat (num_classes self)].
Proof.
  unfold forward. intros H.
  destruct (omap (head_level dflt conv_forward)
              (zip3 (features x) (loc self) (conf self))) as [outs|] eqn:Eo;
    simpl in H; [|discriminate].
  destruct (flatten_cat (map fst outs)) as [lo|] eqn:El; simpl in H; [|discriminate].
  destruct (flatten_cat (map snd outs)) as [co|] eqn:Ec; simpl in H; [|discriminate].
  destruct (view3 lo (size0 lo) 4) as [l3|] eqn:Evl; simpl in H; [|discriminate].
  destruct (view3 co (size0 co) (num_classes self)) as [c3|] eqn:Evc; simpl in H;
    [|discriminate].
  injection H as <- <-.
  apply flatten_cat_some in El. destruct El as [Hne _].
  assert (Hz : zip3 (features x) (loc self) (conf self) <> []).
  { intros E. rewrite E in Eo. simpl in Eo. injection Eo as <-. apply Hne. reflexivity. }
  apply zip3_nil_inv in Hz. destruct Hz as (Hf & Hl & Hc).
  apply view3_some in Evl. destruct Evl as (_ & HN & a & Hl3).
  apply view3_some in Evc. destruct Evc as (Hk & HN' & a' & Hc3).
  repeat split; try assumption.
  exists (size0 lo), (size0 co), a, a'. auto.
Qed.

Lemma zip3_firstn {X Y Z' : Type} (xs : list X) (ys : list Y) (zs : list Z') :
  let m := Nat.min (length xs) (Nat.min (length ys) (length zs)) in
  zip3 (firstn m xs) (firstn m ys) (firstn m zs) = zip3 xs ys zs.
Proof.
  intros m. unfold zip3.
  rewrite <- !combine_firstn. apply firstn_all2.
  rewrite !length_combine. unfold m. lia.
Qed.

End ForwardReturns.

(** Whatever the backbone, the neck and the convolutions compute: when
    [Detector.forward] returns, there was at least one feature map and one
    layer in each head, the batch is not empty, [self.num_classes] is
    positive, and the two tensors are 3-D with last dimensions 4 and
    [self.num_classes]; in every other case it raises. *)
Theorem forward_returns_only_if {A : Type} (dflt : A)
  (features : @DetectorPy.tensor A -> list (@DetectorPy.tensor A))
  (conv_forward : DetectorPy.Conv2d -> @DetectorPy.tensor A -> option (@DetectorPy.tensor A))
  (self : DetectorPy.Detector) (x l c : @DetectorPy.tensor A) :
  DetectorPy.forward dflt features conv_forward self x = Some (l, c) ->
  features x <> [] /\ DetectorPy.loc self <> [] /\ DetectorPy.conf self <> [] /\
  (0 < DetectorPy.num_classes self)%Z /\
  exists N N' a a' : nat,
    0 < N /\ 0 < N' /\
    DetectorPy.shape l = [N; a; 4] /\
    DetectorPy.shape c = [N'; a'; Z.to_nat (DetectorPy.num_classes self)].
Proof. apply forward_some. Qed.

Lemma forward_returns_only_if_witness :
  exists l c : @DetectorPy.tensor nat,
    DetectorPy.forward 0 sample_features iota_conv sample_detector sample_image
    = Some (l, c) /\
    DetectorPy.shape l = [1; 42; 4] /\ DetectorPy.shape c = [1; 42; 2].
Proof.
  destruct (DetectorPy.forward 0 sample_features iota_conv sample_detector sample_image)
    as [[l c]|] eqn:E; [|vm_compute in E; discriminate].
  exists l, c. split; [reflexivity|].
  destruct (forward_returns_only_if 0 sample_features iota_conv sample_detector
              sample_image l c E) as (_ & _ & _ & _ & N & N' & a & a' & _ & _ & Hl & Hc).
  vm_compute in E. injection E as <- <-. split; reflexivity.
Defined.

(** A data set with the background class only: [Detector(size, 1, ...)] is
    built (under torch the confidence layers have 0 output channels), but its
    forward pass raises on every input, [view(N, -1, 0)] being refused; so
    does the forward pass of a detector built for [num_classes <= 0] by a
    library that let it be built. *)
Theorem background_only_cannot_run {A : Type} (dflt : A)
  (features : @DetectorPy.tensor A -> list (@DetectorPy.tensor A))
  (conv_forward : DetectorPy.Conv2d -> @DetectorPy.tensor A -> option (@DetectorPy.tensor A))
  (lib : DetectorPy.library) (size num_classes : Z) (backbone neck : string)
  (d : DetectorPy.Detector) (log : list DetectorPy.event) (x : @DetectorPy.tensor A) :
  DetectorPy.new_Detector lib size num_classes backbone neck = (inr d, log) ->
  (num_classes <= 1)%Z ->
  DetectorPy.forward dflt features conv_forward d x = None.
Proof.
  intros Hd Hnc.
  destruct (DetectorPy.forward dflt features conv_forward d x) as [[l c]|] eqn:E;
    [|reflexivity].
  exfalso. apply forward_some in E. destruct E as (_ & _ & _ & Hk & _).
  destruct (Detector_init_inr _ _ _ _ _ _ _ Hd) as (_ & cls & ch & fea & H).
  cbv zeta in H. destruct H as [-> _]. cbn [DetectorPy.num_classes] in Hk. lia.
Qed.

Lemma background_only_cannot_run_witness :
  exists (d : DetectorPy.Detector) (log : list DetectorPy.event),
    DetectorPy.new_Detector DetectorPy.torch_library 320 1 "repvgg" "pafpn" = (inr d, log) /\
    DetectorPy.forward 0 sample_features iota_conv d sample_image = None.
Proof.
  destruct (DetectorPy.new_Detector DetectorPy.torch_library 320 1 "repvgg" "pafpn")
    as [[e|d] log] eqn:E; [vm_compute in E; discriminate|].
  exists d, log. split; [reflexivity|].
  apply (background_only_cannot_run 0 sample_features iota_conv DetectorPy.torch_library
           320 1 "repvgg" "pafpn" d log sample_image E).
  lia.
Defined.

(** [zip(fea, self.loc, self.conf)] stops at the shortest of the three:
    the forward pass uses the first [m] feature maps and the first [m]
    layers of each head, [m] being the smallest of the three lengths, and
    ignores the others without an error. *)
Theorem forward_uses_common_levels {A : Type} (dflt : A)
  (features : @DetectorPy.tensor A -> list (@DetectorPy.tensor A))
  (conv_forward : DetectorPy.Conv2d -> @DetectorPy.tensor A -> option (@DetectorPy.tensor A))
  (self : DetectorPy.Detector) (x : @DetectorPy.tensor A) :
  let m := Nat.min (length (features x))
             (Nat.min (length (DetectorPy.loc self)) (length (DetectorPy.conf self))) in
  DetectorPy.forward dflt features conv_forward self x
  = DetectorPy.forward dflt (fun _ => firstn m (features x)) conv_forward
      (DetectorPy.mk_Detector (DetectorPy.fpn_level self) (DetectorPy.num_classes self)
         (DetectorPy.num_anchors self) (DetectorPy.backbone self) (DetectorPy.neck self)
         (firstn m (DetectorPy.loc self)) (firstn m (DetectorPy.conf self))) x.
Proof.
  intros m. unfold DetectorPy.forward.
  cbn [DetectorPy.loc DetectorPy.conf DetectorPy.num_classes].
  unfold m. rewrite zip3_firstn. reflexivity.
Qed.

(** ** main.py, lines 209-226: the post-processing as a whole *)

Section PostProcessing.

Import Main.

Lemma take_rows_valid (a : ndarray2) (inds : list nat) :
  Forall (fun i => i < length (rows a)) inds ->
  exists rs : list (list Q),
    take_rows a inds = Some (mk_ndarray2 (ncols a) rs) /\
    forall r, In r rs -> In r (rows a).
Proof.
  intros H. unfold take_rows.
  assert (Hrs : exists rs, omap (fun i => nth_error (rows a) i) inds = Some rs /\
                           forall r, In r rs -> In r (rows a)).
  { induction H as [|i inds Hi _ IH].
    - exists []. split; [reflexivity | intros r []].
    - destruct IH as (rs & Hrs & Hin).
      destruct (nth_error (rows a) i) as [r0|] eqn:E;
        [|apply nth_error_None in E; lia].
      exists (r0 :: rs). simpl. rewrite E, Hrs. split; [reflexivity|].
      intros r [<-|Hr]; [eapply nth_error_In; exact E | apply Hin, Hr]. }
  destruct Hrs as (rs & -> & Hin). exists rs. split; [reflexivity | exact Hin].
Qed.

Lemma in_combine_map {X Y Z' : Type} (f : Y -> Z') (l : list X) (l' : list Y)
  (b : X) (s : Z') :
  In (b, s) (combine l (map f l')) ->
  exists (i : nat) (y : Y),
    nth_error l i = Some b /\ nth_error l' i = Some y /\ s = f y.
Proof.
  revert l'. induction l as [|x l IH]; intros [|y l']; simpl; try contradiction.
  intros [H|H].
  - injection H as -> <-. exists 0, y. auto.
  - destruct (IH l' H) as (i & y' & H1 & H2 & H3). exists (S i), y'. auto.
Qed.

Lemma omap_Forall2 {X Y : Type} (f : X -> option Y) (P : X -> Y -> Prop) (l : list X) :
  (forall x, In x l -> exists y, f x = Some y /\ P x y) ->
  exists ys, omap f l = Some ys /\ Forall2 P l ys.
Proof.
  induction l as [|x l IH]; intros H.
  - exists []. split; [reflexivity | constructor].
  - destruct (H x (or_introl eq_refl)) as (y & Hy & HP).
    destruct IH as (ys & Hys & HF); [intros x' Hx'; apply H; right; exact Hx'|].
    exists (y :: ys). simpl. rewrite Hy, Hys. split; [reflexivity|].
    constructor; assumption.
Qed.

Variable nms : ndarray2 -> Q -> list nat.
Variable nms_thresh : Q.
Variables boxes scores : ndarray2.

Hypothesis nms_rows :
  forall (a : ndarray2) (t : Q), Forall (fun i => i < length (rows a)) (nms a t).
Hypothesis same_anchors : length (rows boxes) = length (rows scores).
Hypothesis four_coordinates : ncols boxes = 4.

(** A detection of class [j]: the box of an anchor, followed by the score
    of that anchor for the class, which is above the threshold. *)
Definition detection_of (j : nat) (r : list Q) : Prop :=
  exists (i : nat) (b srow : list Q),
    nth_error (rows boxes) i = Some b /\
    nth_error (rows scores) i = Some srow /\
    r = b ++ [nth (j - 1) srow 0%Q] /\
    (thresh < nth (j - 1) srow 0%Q)%Q.

Definition detections_of (j : nat) (a : ndarray2) : Prop :=
  ncols a = 5 /\ forall r, In r (rows a) -> detection_of j r.

Lemma class_dets_returns (j : nat) :
  1 <= j <= ncols scores ->
  exists a : ndarray2,
    class_dets nms nms_thresh boxes scores j = Some a /\ detections_of j a.
Proof.
  intros Hj.
  destruct (class_inds_above boxes scores j Hj same_anchors) as [Hinds Hcount].
  pose proof (class_candidates_above boxes scores j Hj same_anchors) as Hcand.
  unfold class_dets. rewrite Hinds. simpl obind.
  match goal with
  | |- context [length ?l =? 0] => destruct (length l =? 0)
  end.
  - exists (np_empty0 5). split; [reflexivity|].
    split; [reflexivity | intros r []].
  - rewrite Hcand. simpl obind.
    match goal with
    | |- context [take_rows ?c (nms ?c ?t)] =>
        destruct (take_rows_valid c (nms c t) (nms_rows c t)) as (rs & -> & Hin)
    end.
    eexists. split; [reflexivity|]. split.
    + cbn [ncols]. rewrite four_coordinates. reflexivity.
    + cbn [rows]. intros r Hr. apply Hin in Hr. cbn [rows] in Hr.
      apply in_map_iff in Hr. destruct Hr as ([b s] & <- & Hp).
      apply filter_In in Hp. destruct Hp as [Hp Hs]. cbn [fst snd] in *.
      apply in_combine_map in Hp. destruct Hp as (i & srow & Hb & Hsr & ->).
      exists i, b, srow. repeat split; try assumption.
      apply Qltb_lt. exact Hs.
Qed.

Variable num_classes : nat.
Hypothesis some_class : 2 <= num_classes.
Hypothesis class_columns : num_classes - 1 <= ncols scores.

Lemma image_dets_returns :
  exists dets : list ndarray2,
    image_dets nms nms_thresh num_classes boxes scores = Some dets /\
    Forall2 detections_of (seq 1 (num_classes - 1)) dets.
Proof.
  unfold image_dets. apply omap_Forall2.
  intros j Hj. apply in_seq in Hj. apply class_dets_returns. lia.
Qed.

Lemma rows_at_least_detections (t : Q) (js : list nat) (dets : list ndarray2) :
  Forall2 detections_of js dets ->
  Forall2 detections_of js (map (rows_at_least t) dets).
Proof.
  induction 1 as [|j a js dets [Hc Hr] _ IH]; simpl; constructor; [|exact IH].
  split; [exact Hc|]. cbn [rows rows_at_least]. intros r Hin.
  apply filter_In in Hin. apply Hr, Hin.
Qed.

Lemma image_post_returns :
  exists out : list ndarray2,
    image_post nms nms_thresh num_classes boxes scores = Some out /\
    Forall2 detections_of (seq 1 (num_classes - 1)) out.
Proof.
  destruct image_dets_returns as (dets & Hd & HF).
  unfold image_post. rewrite Hd. simpl obind.
  assert (Hne : dets <> []).
  { intros ->. inversion HF as [E|]. 
    destruct (num_classes - 1) eqn:En; [lia | discriminate]. }
  assert (Hcols : Forall (fun a => 0 < ncols a) dets).
  { clear -HF. induction HF as [|j a js dets [Hc _] _ IH]; constructor; [lia | exact IH]. }
  destruct (Z_le_gt_dec (Z.of_nat (total_dets dets)) max_per_image) as [Hle|Hgt].
  - exists dets. split; [|exact HF].
    apply cap_with_under; try assumption. reflexivity.
  - destruct (cap_with_over max_per_image dets) as (lo & t & hi & _ & _ & _ & Hcap);
      try assumption; try reflexivity; [lia|].
    exists (map (rows_at_least t) dets). split; [exact Hcap|].
    apply rows_at_least_detections, HF.
Qed.

End PostProcessing.

(** With an [nms] that returns row numbers of the array it is given, boxes
    of 4 coordinates, one row of scores per box and one column of scores per
    class besides the background (at least one), the post-processing of an
    image raises nothing; it ends with one array per such class, of 5
    columns, each row of which is the box of an anchor followed by the score
    of that anchor for the class, a score above [thresh = 0.005]. *)
Theorem postprocessing_returns
  (nms : Main.ndarray2 -> Q -> list nat) (nms_thresh : Q)
  (boxes scores : Main.ndarray2) (num_classes : nat) :
  (forall a t, Forall (fun i => i < length (Main.rows a)) (nms a t)) ->
  length (Main.rows boxes) = length (Main.rows scores) ->
  Main.ncols boxes = 4 ->
  2 <= num_classes ->
  num_classes - 1 <= Main.ncols scores ->
  exists out : list Main.ndarray2,
    Main.image_post nms nms_thresh num_classes boxes scores = Some out /\
    length out = num_classes - 1 /\
    forall (j : nat) (a : Main.ndarray2),
      1 <= j -> nth_error out (j - 1) = Some a ->
      Main.ncols a = 5 /\
      forall r : list Q,
        In r (Main.rows a) ->
        exists (i : nat) (b srow : list Q),
          nth_error (Main.rows boxes) i = Some b /\
          nth_error (Main.rows scores) i = Some srow /\
          r = b ++ [nth (j - 1) srow 0%Q] /\
          (5 # 1000 < nth (j - 1) srow 0%Q)%Q.
Proof.
  intros Hnms Hsame Hfour Hnc Hcols.
  destruct (image_post_returns nms nms_thresh boxes scores Hnms Hsame Hfour
              num_classes Hnc Hcols) as (out & Hout & HF).
  exists out. split; [exact Hout|].
  pose proof (Forall2_length HF) as Hlen. rewrite length_seq in Hlen.
  split; [symmetry; exact Hlen|].
  intros j a Hj Ha.
  assert (Hlt : j - 1 < num_classes - 1).
  { rewrite Hlen. apply nth_error_Some. congruence. }
  assert (Hj' : nth_error (seq 1 (num_classes - 1)) (j - 1) = Some j).
  { rewrite nth_error_nth' with (d := 0) by (rewrite length_seq; exact Hlt).
    rewrite seq_nth by exact Hlt. f_equal. lia. }
  assert (Hd : detections_of boxes scores j a).
  { clear -HF Hj' Ha. revert HF Hj' Ha. generalize (j - 1) as k.
    generalize (seq 1 (num_classes - 1)) as js.
    intros js k HF. revert k.
    induction HF as [|j0 a0 js out H0 _ IH]; intros [|k] Hj' Ha; simpl in *;
      try discriminate.
    - injection Hj' as ->. injection Ha as ->. exact H0.
    - eapply IH; eassumption. }
  destruct Hd as [Hc Hr]. split; [exact Hc|].
  intros r Hin. exact (Hr r Hin).
Qed.

Lemma postprocessing_returns_witness :
  exists out : list Main.ndarray2,
    Main.image_post nms_keep_all (1 # 2) 3 sample_boxes sample_scores = Some out /\
    length out = 2.
Proof.
  destruct (postprocessing_returns nms_keep_all (1 # 2) sample_boxes sample_scores 3)
    as (out & Hout & Hlen & _).
  - intros a t. unfold nms_keep_all. apply Forall_forall.
    intros i Hi. apply in_seq in Hi. lia.
  - reflexivity.
  - reflexivity.
  - lia.
  - simpl. lia.
  - exists out. split; [exact Hout | exact Hlen].
Defined.

(** The cap leaves an image with at most [max_per_image = 300] detections
    as it is; and for a data set with the background class only (no array at
    all), [np.hstack] of the empty list raises. *)
Theorem cap_small_image :
  Main.image_cap [] = None /\
  forall dets : list Main.ndarray2,
    dets <> [] ->
    Forall (fun a => 0 < Main.ncols a) dets ->
    Main.total_dets dets <= 300 ->
    Main.image_cap dets = Some dets.
Proof.
  split; [reflexivity|].
  intros dets Hne Hcols Hle.
  apply cap_with_under; try assumption; [reflexivity|].
  change Main.max_per_image with 300%Z. lia.
Qed.

(** ** models/repvgg_backbone.py: the conversion of a block with groups *)

Section GroupedConversion.

Import RepVGG.

Variables cin stride groups : nat.
Variable v : block_values.

Hypothesis cin_pos : 0 < cin.
Hypothesis grouped : 2 <= groups.
Hypothesis cin_groups : cin mod groups = 0.

Lemma grouped_channels : 0 < cin / groups < cin.
Proof.
  assert (H : cin = groups * (cin / groups)).
  { apply Nat.Div0.div_exact. exact cin_groups. }
  split.
  - destruct (cin / groups); [lia | lia].
  - nia.
Qed.

(** Line 87 with the identity branch and groups: the kernel of the
    identity has [in_channels] entries along its second axis, the two others
    [in_channels / groups]. *)
Lemma convert_grouped_identity (idbn : BatchNorm2d) :
  idbn = new_BatchNorm2d cin (v_identity v) ->
  (cin / groups <> 1 ->
   repvgg_convert (Training groups cin (Some idbn) (dense_of cin cin stride groups v)
                     (one_of cin cin stride groups v)) = None)
  /\
  (cin / groups = 1 ->
   exists K B : ndarray,
     repvgg_convert (Training groups cin (Some idbn) (dense_of cin cin stride groups v)
                       (one_of cin cin stride groups v)) = Some (K, B) /\
     shape K = [cin; cin; 3; 3] /\ shape B = [cin]).
Proof.
  intros ->. pose proof grouped_channels as Hch.
  unfold repvgg_convert, _fuse_bn.
  destruct (fuse_spec (conv_weight (conv (dense_of cin cin stride groups v)))
              (running_mean (bn (dense_of cin cin stride groups v)))
              (running_var (bn (dense_of cin cin stride groups v)))
              (bn_weight (bn (dense_of cin cin stride groups v)))
              (bn_bias (bn (dense_of cin cin stride groups v)))
              (bn_eps (bn (dense_of cin cin stride groups v)))
              cin (cin / groups) 3 3)
    as (k3 & b3 & -> & Hk3 & Hb3 & _); try reflexivity.
  destruct (fuse_spec (conv_weight (conv (one_of cin cin stride groups v)))
              (running_mean (bn (one_of cin cin stride groups v)))
              (running_var (bn (one_of cin cin stride groups v)))
              (bn_weight (bn (one_of cin cin stride groups v)))
              (bn_bias (bn (one_of cin cin stride groups v)))
              (bn_eps (bn (one_of cin cin stride groups v)))
              cin (cin / groups) 1 1)
    as (k1 & b1 & -> & Hk1 & Hb1 & _); try reflexivity.
  simpl obind. simpl as_branch. cbv iota beta.
  destruct (identity_kernel_spec cin) as (kid & -> & Hkid & _). simpl obind.
  match goal with
  | |- context [fuse ?a ?b ?c ?d ?e ?f] =>
      destruct (fuse_spec a b c d e f cin cin 3 3)
      as (ki & bi & -> & Hki & Hbi & _); try reflexivity; try assumption
  end.
  simpl obind. simpl fst. simpl snd.
  unfold _pad_1x1_to_3x3. rewrite Hk1. simpl obind.
  unfold np_add.
  rewrite np_binop_same by (simpl; congruence). simpl obind.
  split; intros Hone;
    unfold np_binop at 1; cbn [shape]; rewrite Hk3, Hki;
    unfold broadcast_shape; cbn [rev app broadcast_rev obind];
    rewrite !Nat.eqb_refl; cbn [obind];
    (replace (cin / groups =? cin) with false by (symmetry; apply Nat.eqb_neq; lia));
    (replace (cin =? 1) with false by (symmetry; apply Nat.eqb_neq; lia)).
  - apply Nat.eqb_neq in Hone. rewrite Hone. reflexivity.
  - apply Nat.eqb_eq in Hone. rewrite Hone. cbn [obind rev app].
    rewrite np_binop_same by congruence. simpl obind.
    rewrite np_binop_same by (simpl; congruence). simpl obind.
    do 2 eexists. split; [reflexivity|]. split; [reflexivity | exact Hb3].
Qed.

End GroupedConversion.


(** The conversion of a block gives a kernel that fits the block in deploy
    form, of shape [(out_channels, in_channels / groups, 3, 3)], exactly when
    the block has no groups or no identity branch: with both, the identity
    kernel of line 62, which ignores the groups, is added to it. *)
Theorem conversion_fits_iff (cin cout stride dilation groups : nat)
  (v : RepVGG.block_values) (b : RepVGG.RepVGGBlock) :
  RepVGG.new_RepVGGBlock cin cout 3 stride 1 dilation groups false v = Some b ->
  0 < cin ->
  ((exists K B : RepVGG.ndarray,
       RepVGG.repvgg_convert b = Some (K, B) /\
       RepVGG.shape K = [cout; cin / groups; 3; 3] /\ RepVGG.shape B = [cout])
   <-> (groups = 1 \/ ~ (cout = cin /\ stride = 1))).
Proof.
  intros Hb Hcin. apply new_block_training_inv in Hb.
  destruct Hb as (Hg & Hci & Hco & ->).
  split.
  - intros (K & B & HKB & HK & _).
    destruct (Nat.eq_dec groups 1) as [Hg1|Hg1]; [left; exact Hg1|].
    right. intros [-> ->].
    assert (Hgr : 2 <= groups) by lia.
    pose proof (grouped_channels cin groups Hcin Hgr Hci) as Hch.
    unfold identity_of in HKB. rewrite !Nat.eqb_refl in HKB. cbn [andb] in HKB.
    destruct (convert_grouped_identity cin 1 groups v Hcin Hgr Hci _ eq_refl)
      as [Hnone Hsome].
    destruct (Nat.eq_dec (cin / groups) 1) as [E|E].
    + destruct (Hsome E) as (K' & B' & HKB' & HK' & _).
      rewrite HKB in HKB'. injection HKB' as <- <-.
      rewrite HK in HK'. injection HK' as HK'. lia.
    + rewrite (Hnone E) in HKB. discriminate.
  - intros Hplain.
    assert (Hid : identity_of cin cout stride v = None \/ groups = 1).
    { destruct Hplain as [Hg1|Hno]; [right; exact Hg1|]. left.
      unfold identity_of.
      destruct ((cout =? cin) && (stride =? 1)) eqn:E; [|reflexivity].
      apply andb_prop in E. destruct E as [E1 E2]. apply Nat.eqb_eq in E1, E2.
      exfalso. apply Hno. split; assumption. }
    destruct (convert_spec cin cout stride groups v Hid) as (K & B & HKB & HK & HB & _).
    exists K, B. auto.
Qed.

Lemma conversion_fits_iff_witness :
  exists b : RepVGG.RepVGGBlock,
    RepVGG.new_RepVGGBlock 4 4 3 1 1 1 2 false unit_values = Some b /\
    ~ exists K B : RepVGG.ndarray,
        RepVGG.repvgg_convert b = Some (K, B) /\
        RepVGG.shape K = [4; 4 / 2; 3; 3] /\ RepVGG.shape B = [4].
Proof.
  destruct (RepVGG.new_RepVGGBlock 4 4 3 1 1 1 2 false unit_values) as [b|] eqn:E;
    [|vm_compute in E; discriminate].
  exists b. split; [reflexivity|].
  intros H.
  apply (conversion_fits_iff 4 4 1 1 2 unit_values b E) in H; [|lia].
  destruct H as [H|H]; [discriminate | apply H; split; reflexivity].
Defined.

(** ** models/repvgg_backbone.py: on which inputs a block returns *)

Section BlockReturns.

Import RepVGG.

(** What a batch that the convolution accepts is like. *)
Lemma conv_batched_some (m : Conv2d) (x y : ndarray) :
  conv_batched m x = Some y ->
  exists N C H W Co Ig kh kw : nat,
    shape x = [N; C; H; W] /\ shape (conv_weight m) = [Co; Ig; kh; kw] /\
    0 < conv_groups m /\ 0 < conv_stride m /\ 0 < conv_dilation m /\
    C = Ig * conv_groups m /\ Co mod conv_groups m = 0 /\
    conv_dilation m * (kh - 1) + 1 <= H + 2 * conv_padding m /\
    conv_dilation m * (kw - 1) + 1 <= W + 2 * conv_padding m /\
    shape y = [N; (if C =? 0 then 0 else Co);
               conv_out_size H kh (conv_stride m) (conv_padding m) (conv_dilation m);
               conv_out_size W kw (conv_stride m) (conv_padding m) (conv_dilation m)] /\
    0 < Co /\
    match conv_bias m with Some b => shape b = [Co] | None => True end.
Proof.
  unfold conv_batched.
  destruct (shape x) as [|N [|C [|H [|W [|]]]]]; try discriminate.
  destruct (shape (conv_weight m)) as [|Co [|Ig [|kh [|kw [|]]]]]; try discriminate.
  destruct (0 <? conv_groups m) eqn:Eg; [|discriminate].
  destruct (0 <? conv_stride m) eqn:Es; [|discriminate].
  destruct (0 <? conv_dilation m) eqn:Ed; [|discriminate].
  destruct (conv_groups m <=? Co) eqn:Ele; [|discriminate].
  destruct (C =? Ig * conv_groups m) eqn:EC; [|discriminate].
  destruct (Co mod conv_groups m =? 0) eqn:ECo; [|discriminate].
  destruct (conv_dilation m * (kh - 1) + 1 <=? H + 2 * conv_padding m) eqn:Eh;
    [|discriminate].
  destruct (conv_dilation m * (kw - 1) + 1 <=? W + 2 * conv_padding m) eqn:Ew;
    [|discriminate].
  cbn [andb].
  destruct (match conv_bias m with
            | Some b => if list_eq_dec Nat.eq_dec (shape b) [Co] then true else false
            | None => true
            end) eqn:Eb; [|discriminate].
  intros Hy. injection Hy as <-.
  apply Nat.ltb_lt in Eg, Es, Ed. apply Nat.eqb_eq in EC, ECo.
  apply Nat.leb_le in Eh, Ew, Ele.
  exists N, C, H, W, Co, Ig, kh, kw. repeat split; try assumption; try lia.
  destruct (conv_bias m) as [bias|]; [|exact I].
  destruct (list_eq_dec Nat.eq_dec (shape bias) [Co]) as [E|E]; [exact E | discriminate].
Qed.

(** An input that [nn.Conv2d] accepts is a batch, or one image without the
    batch axis. *)
Lemma conv_forward_some (m : Conv2d) (x y : ndarray) :
  conv_forward m x = Some y ->
  (exists N C H W, shape x = [N; C; H; W] /\ conv_batched m x = Some y) \/
  (exists C H W y4,
      shape x = [C; H; W] /\ conv_batched m (unsqueeze x) = Some y4 /\ y = squeeze y4).
Proof.
  unfold conv_forward. intros Hy.
  destruct (shape x) as [|a [|b [|c [|d l]]]] eqn:Ex.
  4:{ right. destruct (conv_batched m (unsqueeze x)) as [y4|]; [|discriminate].
      injection Hy as <-. exists a, b, c, y4. auto. }
  all: left; pose proof (conv_batched_some m x y Hy) as Hs;
    destruct Hs as (N & C & H & W & _ & _ & _ & _ & Hx & _);
    rewrite Ex in Hx; try discriminate.
  exists N, C, H, W. rewrite Hx. auto.
Qed.

Lemma bn_forward_some (m : BatchNorm2d) (x y : ndarray) :
  bn_forward m x = Some y ->
  exists N C H W, shape x = [N; C; H; W] /\ C = num_features m /\ shape y = [N; C; H; W].
Proof.
  unfold bn_forward.
  destruct (shape x) as [|N [|C [|H [|W [|]]]]]; try discriminate.
  destruct (C =? num_features m) eqn:E; [|discriminate].
  intros Hy. injection Hy as <-. apply Nat.eqb_eq in E.
  exists N, C, H, W. auto.
Qed.

(** A block in deploy form, as [__init__] builds it. *)
Lemma new_block_deploy_inv (cin cout stride dilation groups : nat)
  (v : block_values) (b : RepVGGBlock) :
  new_RepVGGBlock cin cout 3 stride 1 dilation groups true v = Some b ->
  0 < groups /\ cin mod groups = 0 /\ cout mod groups = 0 /\
  b = Deploy groups cin
        (mk_Conv2d cin cout 3 stride 1 dilation groups
           (mk_nd [cout; cin / groups; 3; 3] (v_reparam_weight v))
           (Some (mk_nd [cout] (v_reparam_bias v)))).
Proof.
  unfold new_RepVGGBlock, new_Conv2d. simpl.
  destruct (0 <? groups) eqn:Eg; [|discriminate].
  destruct (cin mod groups =? 0) eqn:Ei; [|discriminate].
  destruct (cout mod groups =? 0) eqn:Eo; [|discriminate].
  simpl. intros H. injection H as <-.
  apply Nat.ltb_lt in Eg. apply Nat.eqb_eq in Ei, Eo. auto.
Qed.

Lemma relu_nonneg (y : ndarray) (idx : list nat) : (0 <= elt (relu y) idx)%R.
Proof. simpl. apply Rmax_l. Qed.

Variables cin cout stride dilation groups : nat.
Variable v : block_values.
Variable x : ndarray.

Hypothesis stride_pos : 0 < stride.
Hypothesis dilation_pos : 0 < dilation.

(** The block in training form returns on the batches of non-empty images
    with [in_channels] channels, when it has an input and an output channel,
    and on them only. *)
Lemma training_forward_iff (b : RepVGGBlock) :
  new_RepVGGBlock cin cout 3 stride 1 dilation groups false v = Some b ->
  (forall y, forward b x = Some y ->
     0 < cin /\ 0 < cout /\
     exists N H W,
       shape x = [N; cin; H; W] /\ 0 < H /\ 0 < W /\
       shape y = [N; cout; conv_out_size H 3 stride 1 1; conv_out_size W 3 stride 1 1])
  /\
  (0 < cin -> 0 < cout ->
   forall N H W, shape x = [N; cin; H; W] -> 0 < H -> 0 < W ->
     exists y, forward b x = Some y /\
       shape y = [N; cout; conv_out_size H 3 stride 1 1; conv_out_size W 3 stride 1 1]).
Proof.
  clear dilation_pos.
  intros Hb. apply new_block_training_inv in Hb.
  destruct Hb as (Hg & Hci & Hco & ->).
  assert (Hret : 0 < cin -> 0 < cout ->
     forall N H W, shape x = [N; cin; H; W] -> 0 < H -> 0 < W ->
     exists y, forward (Training groups cin (identity_of cin cout stride v)
                          (dense_of cin cout stride groups v)
                          (one_of cin cout stride groups v)) x = Some y /\
       shape y = [N; cout; conv_out_size H 3 stride 1 1; conv_out_size W 3 stride 1 1]).
  { intros Hcin Hcout N H W Hx HH HW.
    destruct (pre_activation_training cin cout stride groups v x N H W
                Hg stride_pos Hci Hco Hcin Hcout Hx HH HW) as (y & Hy & Hys & _).
    exists (relu y). unfold forward. rewrite Hy. split; [reflexivity | exact Hys]. }
  split; [|exact Hret].
  intros y Hy.
  assert (Hx : 0 < cin /\ 0 < cout /\
               exists N H W, shape x = [N; cin; H; W] /\ 0 < H /\ 0 < W).
  { unfold forward, pre_activation in Hy.
    destruct (identity_out (identity_of cin cout stride v) x); simpl in Hy;
      [|discriminate].
    destruct (convbn_forward (dense_of cin cout stride groups v) x) as [yd|] eqn:Ed;
      [|discriminate].
    unfold convbn_forward in Ed.
    destruct (conv_forward (conv (dense_of cin cout stride groups v)) x) as [yc|] eqn:Ec;
      [|discriminate].
    cbn [obind] in Ed. apply bn_forward_some in Ed.
    destruct Ed as (N' & C' & H' & W' & Hyc & HC' & _).
    cbn [bn dense_of num_features new_BatchNorm2d] in HC'.
    apply conv_forward_some in Ec.
    destruct Ec as [(N & C & H & W & Hx & Ec)|(C & H & W & y4 & Hx & Ec & ->)];
      apply conv_batched_some in Ec;
      destruct Ec as (N0 & C0 & H0 & W0 & Co & Ig & kh & kw & Hx0 & Hw & _ & _ & _ & HC & _
                      & Hh & Hwd & Hys & HCo & _).
    - rewrite Hx in Hx0. injection Hx0 as <- <- <- <-.
      cbn [conv dense_of conv_weight shape] in Hw. injection Hw as <- <- <- <-.
      cbn [conv dense_of conv_groups conv_dilation conv_padding] in HC, Hh, Hwd.
      rewrite Hyc in Hys. injection Hys as _ HC0 _ _.
      assert (HCpos : 0 < C).
      { destruct C; [|lia]. simpl in HC0. lia. }
      assert (HCeq : C = cin).
      { rewrite HC. rewrite Nat.mul_comm. symmetry.
        apply Nat.Div0.div_exact. exact Hci. }
      split; [lia|]. split; [exact HCo|].
      exists N, H, W. split; [rewrite Hx, HCeq; reflexivity | lia].
    - exfalso. cbn [squeeze shape] in Hyc. rewrite Hys in Hyc. discriminate. }
  destruct Hx as (Hcin & Hcout & N & H & W & Hx & HH & HW).
  split; [exact Hcin|]. split; [exact Hcout|].
  exists N, H, W. repeat split; try assumption.
  destruct (Hret Hcin Hcout N H W Hx HH HW) as (y' & Hy' & Hys). congruence.
Qed.

(** The block in deploy form with an input channel returns, when it has
    an output channel, on the batches of images with [in_channels] channels
    that the dilated kernel fits in and on one such image without the batch
    axis, and on them only. *)
Lemma deploy_forward_iff (b : RepVGGBlock) :
  new_RepVGGBlock cin cout 3 stride 1 dilation groups true v = Some b ->
  0 < cin ->
  (forall y, forward b x = Some y ->
     0 < cout /\
     exists H W,
       2 * dilation - 1 <= H /\ 2 * dilation - 1 <= W /\
       ((exists N,
            shape x = [N; cin; H; W] /\
            shape y = [N; cout; conv_out_size H 3 stride 1 dilation;
                       conv_out_size W 3 stride 1 dilation]) \/
        (shape x = [cin; H; W] /\
         shape y = [cout; conv_out_size H 3 stride 1 dilation;
                    conv_out_size W 3 stride 1 dilation])))
  /\
  (0 < cout ->
   forall N H W, shape x = [N; cin; H; W] ->
     2 * dilation - 1 <= H -> 2 * dilation - 1 <= W ->
     exists y, forward b x = Some y /\
       shape y = [N; cout; conv_out_size H 3 stride 1 dilation;
                  conv_out_size W 3 stride 1 dilation])
  /\
  (0 < cout ->
   forall H W, shape x = [cin; H; W] ->
     2 * dilation - 1 <= H -> 2 * dilation - 1 <= W ->
     exists y, forward b x = Some y /\
       shape y = [cout; conv_out_size H 3 stride 1 dilation;
                  conv_out_size W 3 stride 1 dilation]).
Proof.
  intros Hb Hcin. apply new_block_deploy_inv in Hb.
  destruct Hb as (Hg & Hci & Hco & ->).
  assert (Hsplit : cin = cin / groups * groups).
  { rewrite Nat.mul_comm. apply Nat.Div0.div_exact. exact Hci. }
  split; [|split].
  - intros y Hy. unfold forward, pre_activation in Hy.
    match type of Hy with
    | context [conv_forward ?m x] => destruct (conv_forward m x) as [yc|] eqn:Ec
    end; [|discriminate].
    simpl in Hy. injection Hy as <-.
    apply conv_forward_some in Ec.
    destruct Ec as [(N & C & H & W & Hx & Ec)|(C & H & W & y4 & Hx & Ec & ->)];
      apply conv_batched_some in Ec;
      destruct Ec as (N0 & C0 & H0 & W0 & Co & Ig & kh & kw & Hx0 & Hw & _ & _ & _ & HC & _
                      & Hh & Hwd & Hys & HCo & _);
      cbn [conv_weight shape] in Hw; injection Hw as <- <- <- <-;
      cbn [conv_groups conv_dilation conv_padding conv_stride] in HC, Hh, Hwd, Hys;
      rewrite <- Hsplit in HC; subst C0;
      replace (cin =? 0) with false in Hys by (symmetry; apply Nat.eqb_neq; lia).
    + rewrite Hx in Hx0. injection Hx0 as <- <- <- <-.
      split; [exact HCo|]. exists H, W.
      split; [lia|]. split; [lia|]. left. exists N. split; [exact Hx | exact Hys].
    + cbn [unsqueeze shape] in Hx0. rewrite Hx in Hx0. injection Hx0 as <- <- <- <-.
      split; [exact HCo|]. exists H, W.
      split; [lia|]. split; [lia|]. right. split; [exact Hx|].
      cbn [relu squeeze shape]. rewrite Hys. reflexivity.
  - intros Hcout N H W Hx HH HW.
    match goal with
    | |- context [Deploy _ _ ?m] =>
        destruct (conv_forward_value m x N cin H W cout (cin / groups) 3 3)
        as (y & Hy & Hys & _)
    end; simpl; try lia; try reflexivity; try assumption.
    exists (relu y). unfold forward, pre_activation. rewrite Hy.
    split; [reflexivity | exact Hys].
  - intros Hcout H W Hx HH HW.
    match goal with
    | |- context [Deploy _ _ ?m] =>
        destruct (conv_forward_unbatched m x cin H W cout (cin / groups) 3 3)
        as (y & Hy & Hys)
    end; simpl; try lia; try reflexivity; try assumption.
    exists (relu y). unfold forward, pre_activation. rewrite Hy.
    split; [reflexivity | exact Hys].
Qed.

End BlockReturns.

(** [RepVGGBlock.forward], for a block with at least one input channel
    and a positive stride and dilation, its batch normalisations in eval
    mode.  The block returns exactly when it
    has at least one output channel and its input is a batch of images with
    [in_channels] channels and at least [2 * d - 1] rows and columns, where
    [d] is 1 in training form (the images are not empty) and the dilation in
    deploy form, whatever its groups and with or without the identity
    branch; in deploy form it also returns on one such image without the
    batch axis, which the batch normalisations of the training form refuse.
    The output has [out_channels] channels, the size of the output of the
    3x3 convolution with dilation [d], and no negative entry. *)
Theorem block_forward_returns_iff (cin cout stride dilation groups : nat) (deploy : bool)
  (v : RepVGG.block_values) (b : RepVGG.RepVGGBlock) (x : RepVGG.ndarray) :
  RepVGG.new_RepVGGBlock cin cout 3 stride 1 dilation groups deploy v = Some b ->
  0 < stride -> 0 < dilation -> 0 < cin ->
  let d := if deploy then dilation else 1 in
  ((exists y, RepVGG.forward b x = Some y)
   <-> (0 < cout /\
        exists H W,
          2 * d - 1 <= H /\ 2 * d - 1 <= W /\
          ((exists N, RepVGG.shape x = [N; cin; H; W]) \/
           (deploy = true /\ RepVGG.shape x = [cin; H; W]))))
  /\
  (forall y, RepVGG.forward b x = Some y ->
     (exists H W,
         (exists N,
             RepVGG.shape x = [N; cin; H; W] /\
             RepVGG.shape y = [N; cout; RepVGG.conv_out_size H 3 stride 1 d;
                               RepVGG.conv_out_size W 3 stride 1 d]) \/
         (deploy = true /\
          RepVGG.shape x = [cin; H; W] /\
          RepVGG.shape y = [cout; RepVGG.conv_out_size H 3 stride 1 d;
                            RepVGG.conv_out_size W 3 stride 1 d])) /\
     forall idx, (0 <= RepVGG.elt y idx)%R).
Proof.
  intros Hb Hs Hd Hcin d.
  assert (Hnn : forall y, RepVGG.forward b x = Some y ->
                          forall idx, (0 <= RepVGG.elt y idx)%R).
  { intros y Hy idx. unfold RepVGG.forward in Hy.
    destruct (RepVGG.pre_activation b x); simpl in Hy; [|discriminate].
    injection Hy as <-. apply relu_nonneg. }
  destruct deploy; unfold d.
  - destruct (deploy_forward_iff cin cout stride dilation groups v x Hs Hd b Hb Hcin)
      as (Honly & Hret & Hret3).
    split; [split|].
    + intros (y & Hy).
      destruct (Honly y Hy) as (Hcout & H & W & HH & HW & Hcase).
      split; [exact Hcout|]. exists H, W. split; [exact HH|]. split; [exact HW|].
      destruct Hcase as [(N & Hx & _)|(Hx & _)]; [left; exists N; exact Hx | right; auto].
    + intros (Hcout & H & W & HH & HW & [(N & Hx)|(_ & Hx)]).
      * destruct (Hret Hcout N H W Hx HH HW) as (y & Hy & _). exists y. exact Hy.
      * destruct (Hret3 Hcout H W Hx HH HW) as (y & Hy & _). exists y. exact Hy.
    + intros y Hy. split; [|apply Hnn, Hy].
      destruct (Honly y Hy) as (_ & H & W & _ & _ & Hcase).
      exists H, W. destruct Hcase as [(N & Hx & Hys)|(Hx & Hys)];
        [left; exists N; auto | right; auto].
  - destruct (training_forward_iff cin cout stride dilation groups v x Hs b Hb)
      as [Honly Hret].
    split; [split|].
    + intros (y & Hy).
      destruct (Honly y Hy) as (_ & Hcout & N & H & W & Hx & HH & HW & _).
      split; [exact Hcout|]. exists H, W. split; [lia|]. split; [lia|].
      left. exists N. exact Hx.
    + intros (Hcout & H & W & HH & HW & [(N & Hx)|(Hdep & _)]); [|discriminate].
      destruct (Hret Hcin Hcout N H W Hx) as (y & Hy & _); [lia | lia |].
      exists y. exact Hy.
    + intros y Hy. split; [|apply Hnn, Hy].
      destruct (Honly y Hy) as (_ & _ & N & H & W & Hx & _ & _ & Hys).
      exists H, W. left. exists N. auto.
Qed.

Lemma block_forward_returns_iff_witness :
  exists (b : RepVGG.RepVGGBlock) (y : RepVGG.ndarray),
    RepVGG.new_RepVGGBlock 4 4 3 1 1 1 2 false unit_values = Some b /\
    RepVGG.forward b unit_input = Some y.
Proof.
  destruct (RepVGG.new_RepVGGBlock 4 4 3 1 1 1 2 false unit_values) as [b|] eqn:E;
    [|vm_compute in E; discriminate].
  destruct (block_forward_returns_iff 4 4 1 1 2 false unit_values b unit_input E)
    as [[_ Hret] _]; [lia | lia | lia |].
  destruct Hret as [y Hy].
  - split; [lia|]. exists 5, 5. split; [simpl; lia|]. split; [simpl; lia|].
    left. exists 1. reflexivity.
  - exists b, y. split; [reflexivity | exact Hy].
Defined.




(** A depthwise block with the identity branch ([groups = in_channels =
    out_channels = C >= 2], stride 1): here line 87 broadcasts, and the
    conversion returns, without an error, a kernel of shape [(C, C, 3, 3)]
    where the deploy form holds one of shape [(C, 1, 3, 3)]; the block in
    deploy form that is given this kernel (lines 157-160 check no shape)
    raises on every batch of [C] channels, on which the block in training
    form returns. *)
Theorem depthwise_conversion_misfits (C dilation : nat) (v v' : RepVGG.block_values) :
  2 <= C ->
  exists (b dep : RepVGG.RepVGGBlock) (K B : RepVGG.ndarray),
    RepVGG.new_RepVGGBlock C C 3 1 1 dilation C false v = Some b /\
    RepVGG.new_RepVGGBlock C C 3 1 1 1 C true v' = Some dep /\
    RepVGG.repvgg_convert b = Some (K, B) /\
    RepVGG.shape K = [C; C; 3; 3] /\
    forall (x : RepVGG.ndarray) (N H W : nat),
      RepVGG.shape x = [N; C; H; W] ->
      RepVGG.forward (RepVGG.load_converted dep K B) x = None /\
      (0 < H -> 0 < W -> exists y, RepVGG.forward b x = Some y).
Proof.
  intros HC.
  assert (Hmod : C mod C = 0) by (apply Nat.Div0.mod_same).
  assert (Hdiv : C / C = 1) by (apply Nat.div_same; lia).
  destruct (RepVGG.new_RepVGGBlock C C 3 1 1 dilation C false v) as [b|] eqn:Eb.
  2:{ rewrite new_block_training in Eb.
      replace (0 <? C) with true in Eb by (symmetry; apply Nat.ltb_lt; lia).
      rewrite Hmod in Eb. discriminate. }
  destruct (RepVGG.new_RepVGGBlock C C 3 1 1 1 C true v') as [dep|] eqn:Ed.
  2:{ unfold RepVGG.new_RepVGGBlock, RepVGG.new_Conv2d in Ed. simpl in Ed.
      replace (0 <? C) with true in Ed by (symmetry; apply Nat.ltb_lt; lia).
      rewrite Hmod in Ed. discriminate. }
  pose proof Eb as Eb'. apply new_block_training_inv in Eb'.
  destruct Eb' as (Hg & _ & _ & Hbeq).
  pose proof Ed as Ed'. apply new_block_deploy_inv in Ed'.
  destruct Ed' as (_ & _ & _ & Hdeq).
  destruct (convert_grouped_identity C 1 C v) with
    (idbn := RepVGG.new_BatchNorm2d C (RepVGG.v_identity v)) as [_ Hsome];
    try lia; try assumption; try reflexivity.
  destruct (Hsome Hdiv) as (K & B & HKB & HK & HB).
  assert (Hid : identity_of C C 1 v
                = Some (RepVGG.new_BatchNorm2d C (RepVGG.v_identity v))).
  { unfold identity_of. rewrite !Nat.eqb_refl. reflexivity. }
  exists b, dep, K, B.
  split; [reflexivity|]. split; [reflexivity|].
  split; [rewrite Hbeq, Hid; exact HKB|]. split; [exact HK|].
  intros x N H W Hx. split.
  - rewrite Hdeq. unfold RepVGG.load_converted, RepVGG.with_weights.
    unfold RepVGG.forward, RepVGG.pre_activation.
    rewrite (conv_forward_batch _ x N C H W Hx). unfold RepVGG.conv_batched.
    cbn [RepVGG.conv_weight RepVGG.conv_groups RepVGG.conv_stride RepVGG.conv_padding
           RepVGG.conv_dilation RepVGG.conv_bias RepVGG.conv_in RepVGG.conv_out
           RepVGG.conv_kernel].
    rewrite Hx, HK.
    replace (C =? C * C) with false by (symmetry; apply Nat.eqb_neq; nia).
    rewrite !andb_false_r. reflexivity.
  - intros HH HW.
    destruct (training_forward_iff C C 1 dilation C v x Nat.lt_0_1 b Eb) as [_ Hret].
    destruct (Hret ltac:(lia) ltac:(lia) N H W Hx HH HW) as (y & Hy & _).
    exists y. exact Hy.
Qed.

Lemma depthwise_conversion_misfits_witness :
  exists (b : RepVGG.RepVGGBlock) (K B : RepVGG.ndarray),
    RepVGG.new_RepVGGBlock 4 4 3 1 1 1 4 false unit_values = Some b /\
    RepVGG.repvgg_convert b = Some (K, B) /\
    RepVGG.shape K = [4; 4; 3; 3].
Proof.
  destruct (depthwise_conversion_misfits 4 1 unit_values unit_values)
    as (b & dep & K & B & Hb & _ & HKB & HK & _); [lia|].
  exists b, K, B. auto.
Defined.

(** ** models/repvgg_backbone.py: the two steps of the conversion *)

Section ConversionSteps.

Import RepVGG.
Open Scope R_scope.

Lemma sum3_scal (n k l : nat) (t : nat -> R) (o : nat) (a P : nat -> nat -> nat -> R) :
  sum_upto n (fun c => sum_upto k (fun ki => sum_upto l (fun kj =>
    a c ki kj * t o * P c ki kj)))
  = t o * sum_upto n (fun c => sum_upto k (fun ki => sum_upto l (fun kj =>
      a c ki kj * P c ki kj))).
Proof.
  rewrite <- sum_upto_scal. apply sum_upto_ext. intros c _.
  rewrite <- sum_upto_scal. apply sum_upto_ext. intros ki _.
  rewrite <- sum_upto_scal. apply sum_upto_ext. intros kj _.
  ring.
Qed.

Lemma new_Conv2d_inv (cin cout k stride padding dilation groups : nat)
  (w : list nat -> R) (b : option (list nat -> R)) (m : Conv2d) :
  new_Conv2d cin cout k stride padding dilation groups w b = Some m ->
  (0 < groups)%nat /\ cin mod groups = 0%nat /\ cout mod groups = 0%nat /\
  m = mk_Conv2d cin cout k stride padding dilation groups
        (mk_nd [cout; (cin / groups)%nat; k; k] w) (option_map (mk_nd [cout]) b).
Proof.
  unfold new_Conv2d.
  destruct (0 <? groups)%nat eqn:Eg; [|discriminate].
  destruct (cin mod groups =? 0)%nat eqn:Ei; [|discriminate].
  destruct (cout mod groups =? 0)%nat eqn:Eo; [|discriminate].
  simpl. intros H. injection H as <-.
  apply Nat.ltb_lt in Eg. apply Nat.eqb_eq in Ei, Eo. auto.
Qed.

End ConversionSteps.

(** [_fuse_bn] on a branch that [conv_bn] built (lines 5-10 and 50-74),
    whatever the kernel size, stride, padding and groups: the convolution
    that carries the fused kernel as its weight and the fused bias as its
    bias computes, on every input the branch accepts, what the convolution
    followed by its batch normalisation in eval mode computes.  (The entries
    are real numbers.) *)
Theorem conv_bn_fusion (cin cout k stride padding groups self_in_channels : nat)
  (w : list nat -> R) (bnv : RepVGG.bn_values) (m : RepVGG.ConvBN)
  (x y : RepVGG.ndarray) :
  RepVGG.conv_bn cin cout k stride padding groups w bnv = Some m ->
  RepVGG.convbn_forward m x = Some y ->
  exists K B y' : RepVGG.ndarray,
    RepVGG._fuse_bn self_in_channels (RepVGG.SeqBranch m) = Some (K, B) /\
    RepVGG.shape K = [cout; cin / groups; k; k] /\ RepVGG.shape B = [cout] /\
    RepVGG.conv_forward (RepVGG.with_weights (RepVGG.conv m) K B) x = Some y' /\
    RepVGG.shape y' = RepVGG.shape y /\
    forall n o i j : nat,
      o < cout -> RepVGG.elt y' [n; o; i; j] = RepVGG.elt y [n; o; i; j].
Proof.
  intros Hm Hy. unfold RepVGG.conv_bn in Hm.
  destruct (RepVGG.new_Conv2d cin cout k stride padding 1 groups w None) as [c|] eqn:Ec;
    [|discriminate].
  simpl in Hm. injection Hm as <-.
  apply new_Conv2d_inv in Ec. destruct Ec as (Hg & Hci & Hco & ->).
  unfold RepVGG.convbn_forward in Hy. cbn [RepVGG.conv RepVGG.bn] in Hy.
  match type of Hy with
  | context [RepVGG.conv_forward ?c0 x] =>
      destruct (RepVGG.conv_forward c0 x) as [yc|] eqn:Eyc; [|discriminate];
      set (c := c0) in *
  end.
  simpl in Hy.
  destruct (bn_forward_some _ _ _ Hy) as (N' & C' & H' & W' & Hyc & HC' & _).
  cbn [RepVGG.num_features RepVGG.new_BatchNorm2d] in HC'.
  destruct (conv_forward_some c x yc Eyc)
    as [(N & C & H & W & Hx & Eb)|(C & H & W & y4 & Hx & Eb & ->)].
  2:{ exfalso. apply conv_batched_some in Eb.
      destruct Eb as (N0 & C0 & H0 & W0 & Co & Ig & kh & kw & _ & _ & _ & _ & _ & _ & _
                      & _ & _ & Hys & _).
      cbn [RepVGG.squeeze RepVGG.shape] in Hyc. rewrite Hys in Hyc. discriminate. }
  destruct (conv_batched_some c x yc Eb)
    as (N0 & C0 & H0 & W0 & Co & Ig & kh & kw & Hx0 & Hw & _ & Hs & _ & HC & _ & Hh & Hwd
        & Hys & HCo & _).
  rewrite Hx in Hx0. injection Hx0 as <- <- <- <-.
  simpl in Hw. injection Hw as <- <- <- <-.
  cbn [RepVGG.conv_groups RepVGG.conv_stride RepVGG.conv_padding RepVGG.conv_dilation c]
    in HC, Hs, Hh, Hwd, Hys.
  assert (HCpos : 0 < C).
  { rewrite Hyc in Hys. injection Hys as _ HC0 _ _.
    destruct C; [simpl in HC0; lia | lia]. }
  replace (C =? 0) with false in Hys by (symmetry; apply Nat.eqb_neq; lia).
  clear N' C' H' W' Hyc HC'.
  destruct (conv_forward_value c x N C H W cout (cin / groups) k k)
    as (yc' & Hyc' & _ & Hycv); try assumption; try reflexivity; try (simpl; lia).
  rewrite Eyc in Hyc'. injection Hyc' as <-.
  unfold RepVGG.bn_forward in Hy. rewrite Hys in Hy.
  cbn [RepVGG.num_features RepVGG.new_BatchNorm2d] in Hy.
  rewrite Nat.eqb_refl in Hy. injection Hy as <-.
  unfold RepVGG._fuse_bn. cbn [RepVGG.conv RepVGG.bn].
  destruct (fuse_spec (RepVGG.conv_weight c)
              (RepVGG.running_mean (RepVGG.new_BatchNorm2d cout bnv))
              (RepVGG.running_var (RepVGG.new_BatchNorm2d cout bnv))
              (RepVGG.bn_weight (RepVGG.new_BatchNorm2d cout bnv))
              (RepVGG.bn_bias (RepVGG.new_BatchNorm2d cout bnv))
              (RepVGG.bn_eps (RepVGG.new_BatchNorm2d cout bnv))
              cout (cin / groups) k k)
    as (K & B & HKB & HK & HB & HKv & HBv); try reflexivity.
  destruct (conv_forward_value (RepVGG.with_weights c K B) x N C H W cout (cin / groups) k k)
    as (y' & Hy' & Hys' & Hyv'); try assumption; try reflexivity; try (simpl; lia).
  exists K, B, y'.
  split; [exact HKB|]. split; [exact HK|]. split; [exact HB|].
  split; [exact Hy'|]. split; [exact Hys'|].
  intros n o i j Ho. rewrite Hyv'. cbn [RepVGG.elt nth]. rewrite Hycv.
  cbn [RepVGG.with_weights RepVGG.conv_bias RepVGG.conv_weight RepVGG.conv_padding
         RepVGG.conv_groups RepVGG.conv_stride RepVGG.conv_dilation c].
  rewrite HBv by exact Ho.
  rewrite (sum_upto_ext (cin / groups) _
             (fun c0 => RepVGG.sum_upto k (fun ki => RepVGG.sum_upto k (fun kj =>
                (w [o; c0; ki; kj] * bn_scale (RepVGG.running_var (RepVGG.new_BatchNorm2d cout bnv))
                                       (RepVGG.bn_weight (RepVGG.new_BatchNorm2d cout bnv))
                                       (RepVGG.bn_eps (RepVGG.new_BatchNorm2d cout bnv)) o
                 * RepVGG.padded x H W padding n (o / (cout / groups) * (cin / groups) + c0)
                     (i * stride + ki * 1) (j * stride + kj * 1))%R)))).
  - rewrite (sum3_scal (cin / groups) k k
               (bn_scale (RepVGG.running_var (RepVGG.new_BatchNorm2d cout bnv))
                  (RepVGG.bn_weight (RepVGG.new_BatchNorm2d cout bnv))
                  (RepVGG.bn_eps (RepVGG.new_BatchNorm2d cout bnv))) o
               (fun c0 ki kj => w [o; c0; ki; kj])
               (fun c0 ki kj =>
                  RepVGG.padded x H W padding n (o / (cout / groups) * (cin / groups) + c0)
                    (i * stride + ki * 1) (j * stride + kj * 1))).
    unfold bn_scale. cbn [RepVGG.elt RepVGG.new_BatchNorm2d RepVGG.running_mean
                            RepVGG.running_var RepVGG.bn_weight RepVGG.bn_bias
                            RepVGG.bn_eps].
    cbn [option_map]. unfold Rdiv. ring.
  - intros c0 Hc0. apply sum_upto_ext. intros ki Hki. apply sum_upto_ext. intros kj Hkj.
    rewrite HKv by assumption. reflexivity.
Qed.

Lemma conv_bn_fusion_witness :
  exists (m : RepVGG.ConvBN) (K B y y' : RepVGG.ndarray),
    RepVGG.conv_bn 4 8 3 2 1 2 (fun _ => 1%R) unit_bn = Some m /\
    RepVGG.convbn_forward m unit_input = Some y /\
    RepVGG._fuse_bn 4 (RepVGG.SeqBranch m) = Some (K, B) /\
    RepVGG.conv_forward (RepVGG.with_weights (RepVGG.conv m) K B) unit_input = Some y' /\
    RepVGG.elt y' [0; 5; 1; 2] = RepVGG.elt y [0; 5; 1; 2].
Proof.
  destruct (RepVGG.conv_bn 4 8 3 2 1 2 (fun _ => 1%R) unit_bn) as [m|] eqn:Em;
    [|vm_compute in Em; discriminate].
  destruct (RepVGG.convbn_forward m unit_input) as [y|] eqn:Ey.
  2:{ unfold RepVGG.conv_bn in Em. simpl in Em. injection Em as <-.
      unfold RepVGG.convbn_forward, RepVGG.conv_forward in Ey. simpl in Ey.
      discriminate. }
  destruct (conv_bn_fusion 4 8 3 2 1 2 4 (fun _ => 1%R) unit_bn m unit_input y Em Ey)
    as (K & B & y' & HKB & _ & _ & Hy' & _ & Hv).
  exists m, K, B, y, y'. repeat split; try assumption.
  apply Hv. lia.
Defined.

(** [_pad_1x1_to_3x3] (lines 76-81): the 3x3 convolution with padding 1
    whose kernel is the padded 1x1 kernel computes, at every place of its
    output, what the 1x1 convolution without padding computes, for every
    stride and every number of groups (and at least one input and one
    output channel). *)
Theorem padded_1x1_same_conv (cin cout stride groups : nat) (w : list nat -> R)
  (m1 : RepVGG.Conv2d) (x : RepVGG.ndarray) (N H W : nat) :
  RepVGG.new_Conv2d cin cout 1 stride 0 1 groups w None = Some m1 ->
  0 < cin -> 0 < cout ->
  0 < stride ->
  RepVGG.shape x = [N; cin; H; W] -> 0 < H -> 0 < W ->
  exists (K : RepVGG.ndarray) (m3 : RepVGG.Conv2d) (y1 y3 : RepVGG.ndarray),
    RepVGG._pad_1x1_to_3x3 (RepVGG.conv_weight m1) = Some K /\
    RepVGG.shape K = [cout; cin / groups; 3; 3] /\
    RepVGG.new_Conv2d cin cout 3 stride 1 1 groups (RepVGG.elt K) None = Some m3 /\
    RepVGG.conv_forward m1 x = Some y1 /\
    RepVGG.conv_forward m3 x = Some y3 /\
    RepVGG.shape y3 = RepVGG.shape y1 /\
    forall n o i j : nat,
      i < RepVGG.conv_out_size H 3 stride 1 1 ->
      j < RepVGG.conv_out_size W 3 stride 1 1 ->
      RepVGG.elt y3 [n; o; i; j] = RepVGG.elt y1 [n; o; i; j].
Proof.
  intros Hm Hcin Hcout Hs Hx HH HW.
  apply new_Conv2d_inv in Hm. destruct Hm as (Hg & Hci & Hco & ->).
  assert (Hsplit : cin = cin / groups * groups).
  { rewrite Nat.mul_comm. apply Nat.Div0.div_exact. exact Hci. }
  cbn [RepVGG.conv_weight option_map].
  unfold RepVGG._pad_1x1_to_3x3. cbn [RepVGG.shape].
  eexists. 
  exists (RepVGG.mk_Conv2d cin cout 3 stride 1 1 groups
            (RepVGG.mk_nd [cout; cin / groups; 3; 3]
               (fun idx =>
                  if (nth 2 idx 0 =? 1) && (nth 3 idx 0 =? 1)
                  then w [nth 0 idx 0; nth 1 idx 0; 0; 0] else 0%R)) None).
  match goal with
  | |- context [RepVGG.conv_forward ?m x = Some _ /\ RepVGG.conv_forward ?m' x = Some _ /\ _] =>
      destruct (conv_forward_value m x N cin H W cout (cin / groups) 1 1)
        as (y1 & Hy1 & Hys1 & Hyv1); try assumption; try reflexivity; try (simpl; lia);
      destruct (conv_forward_value m' x N cin H W cout (cin / groups) 3 3)
        as (y3 & Hy3 & Hys3 & Hyv3); try assumption; try reflexivity; try (simpl; lia)
  end.
  exists y1, y3.
  split; [reflexivity|]. split; [reflexivity|].
  split.
  { unfold RepVGG.new_Conv2d. cbn [RepVGG.elt].
    apply Nat.ltb_lt in Hg. rewrite Hg.
    apply Nat.eqb_eq in Hci, Hco. rewrite Hci, Hco. reflexivity. }
  split; [exact Hy1|]. split; [exact Hy3|].
  split.
  { rewrite Hys1, Hys3. cbn [RepVGG.conv_stride RepVGG.conv_padding RepVGG.conv_dilation].
    rewrite !conv_out_size_1x1. reflexivity. }
  intros n o i j Hi Hj. rewrite Hyv1, Hyv3.
  cbn [RepVGG.conv_bias RepVGG.conv_weight RepVGG.conv_padding RepVGG.conv_groups
         RepVGG.conv_stride RepVGG.conv_dilation RepVGG.elt nth].
  f_equal. apply sum_upto_ext. intros c Hc.
  assert (Hih : i * stride < H) by (apply conv_out_within; assumption).
  assert (Hjw : j * stride < W) by (apply conv_out_within; assumption).
  rewrite (window_centre (w [o; c; 0; 0])
             (fun ki kj => RepVGG.padded x H W 1 n (o / (cout / groups) * (cin / groups) + c)
                             (i * stride + ki * 1) (j * stride + kj * 1))).
  rewrite (window_1x1
             (fun ki kj => (w [o; c; ki; kj]
                            * RepVGG.padded x H W 0 n (o / (cout / groups) * (cin / groups) + c)
                                (i * stride + ki * 1) (j * stride + kj * 1))%R)).
  rewrite padded_centre, padded_none by assumption. reflexivity.
Qed.

Lemma padded_1x1_same_conv_witness :
  exists (m1 m3 : RepVGG.Conv2d) (K y1 y3 : RepVGG.ndarray),
    RepVGG.new_Conv2d 4 8 1 2 0 1 2 (fun _ => 1%R) None = Some m1 /\
    RepVGG._pad_1x1_to_3x3 (RepVGG.conv_weight m1) = Some K /\
    RepVGG.conv_forward m1 unit_input = Some y1 /\
    RepVGG.conv_forward m3 unit_input = Some y3 /\
    RepVGG.elt y3 [0; 5; 1; 2] = RepVGG.elt y1 [0; 5; 1; 2].
Proof.
  destruct (RepVGG.new_Conv2d 4 8 1 2 0 1 2 (fun _ => 1%R) None) as [m1|] eqn:Em;
    [|vm_compute in Em; discriminate].
  destruct (padded_1x1_same_conv 4 8 2 2 (fun _ => 1%R) m1 unit_input 1 5 5 Em)
    as (K & m3 & y1 & y3 & HK & _ & _ & Hy1 & Hy3 & _ & Hv); try lia; try reflexivity.
  exists m1, m3, K, y1, y3. repeat split; try assumption.
  apply Hv; vm_compute; lia.
Defined.

(** ** models/repvgg_backbone.py: the backbone *)

Section Backbone.

Import RepVGG.

(** The rows (or columns) left by a 3x3 convolution with padding 1 and
    stride 2: half of them, rounded up. *)
Definition halve (H : nat) : nat := (H - 1) / 2 + 1.

Definition downs (strides : list nat) (H : nat) : nat :=
  fold_left (fun h s => conv_out_size h 3 s 1 1) strides H.

Lemma conv_out_size_pos (H k s p d : nat) : 0 < conv_out_size H k s p d.
Proof. unfold conv_out_size. lia. Qed.

Lemma conv_out_size_halve (H : nat) : conv_out_size H 3 2 1 1 = halve H.
Proof. unfold conv_out_size, halve. f_equal. f_equal. lia. Qed.

Lemma downs_ones (n H : nat) : 0 < H -> downs (repeat 1 n) H = H.
Proof.
  induction n as [|n IH]; intros HH; [reflexivity|].
  simpl. rewrite conv_out_size_stride1 by exact HH. apply IH, HH.
Qed.

Lemma downs_stage (n H : nat) : downs (2 :: repeat 1 n) H = halve H.
Proof.
  change (downs (2 :: repeat 1 n) H) with (downs (repeat 1 n) (conv_out_size H 3 2 1 1)).
  rewrite downs_ones by apply conv_out_size_pos. apply conv_out_size_halve.
Qed.


(** A block with dilation 1 and at least one input and one output
    channel, in either form, on a batch of non-empty images. *)
Lemma block_forward_shape (cin cout stride groups : nat) (deploy : bool)
  (v : block_values) (b : RepVGGBlock) (x : ndarray) (N H W : nat) :
  new_RepVGGBlock cin cout 3 stride 1 1 groups deploy v = Some b ->
  0 < cin -> 0 < cout ->
  0 < stride ->
  shape x = [N; cin; H; W] -> 0 < H -> 0 < W ->
  exists y, forward b x = Some y /\
            shape y = [N; cout; conv_out_size H 3 stride 1 1;
                       conv_out_size W 3 stride 1 1].
Proof.
  intros Hb Hcin Hcout Hs Hx HH HW. destruct deploy.
  - destruct (deploy_forward_iff cin cout stride 1 groups v x Hs Nat.lt_0_1 b Hb Hcin)
      as (_ & Hret & _).
    apply (Hret Hcout N H W Hx); lia.
  - destruct (training_forward_iff cin cout stride 1 groups v x Hs b Hb) as [_ Hret].
    apply (Hret Hcin Hcout N H W Hx); assumption.
Qed.

(** The same block in deploy form, on one non-empty image without the batch
    axis. *)
Lemma block_forward_unbatched (cin cout stride groups : nat)
  (v : block_values) (b : RepVGGBlock) (x : ndarray) (H W : nat) :
  new_RepVGGBlock cin cout 3 stride 1 1 groups true v = Some b ->
  0 < cin -> 0 < cout ->
  0 < stride ->
  shape x = [cin; H; W] -> 0 < H -> 0 < W ->
  exists y, forward b x = Some y /\
            shape y = [cout; conv_out_size H 3 stride 1 1;
                       conv_out_size W 3 stride 1 1].
Proof.
  intros Hb Hcin Hcout Hs Hx HH HW.
  destruct (deploy_forward_iff cin cout stride 1 groups v x Hs Nat.lt_0_1 b Hb Hcin)
    as (_ & _ & Hret).
  apply (Hret Hcout H W Hx); lia.
Qed.

(** A block with dilation 1 and at least one input channel that returns:
    it has an output channel, and its input is a batch of non-empty images
    or, for a block in deploy form, one such image. *)
Lemma block_forward_inv (cin cout stride groups : nat) (deploy : bool)
  (v : block_values) (b : RepVGGBlock) (x y : ndarray) :
  new_RepVGGBlock cin cout 3 stride 1 1 groups deploy v = Some b ->
  0 < cin -> 0 < stride ->
  forward b x = Some y ->
  0 < cout /\
  exists H W,
    0 < H /\ 0 < W /\
    ((exists N, shape x = [N; cin; H; W]) \/ (deploy = true /\ shape x = [cin; H; W])).
Proof.
  intros Hb Hcin Hs Hy. destruct deploy.
  - destruct (deploy_forward_iff cin cout stride 1 groups v x Hs Nat.lt_0_1 b Hb Hcin)
      as (Honly & _).
    destruct (Honly y Hy) as (Hcout & H & W & HH & HW & Hcase).
    split; [exact Hcout|]. exists H, W. split; [lia|]. split; [lia|].
    destruct Hcase as [(N & Hx & _)|(Hx & _)]; [left; exists N; exact Hx | right; auto].
  - destruct (training_forward_iff cin cout stride 1 groups v x Hs b Hb) as [Honly _].
    destruct (Honly y Hy) as (_ & Hcout & N & H & W & Hx & HH & HW & _).
    split; [exact Hcout|]. exists H, W. split; [exact HH|]. split; [exact HW|].
    left. exists N. exact Hx.
Qed.

(** The arguments a block was built with, read off the block. *)
Lemma block_conv_args (cin cout stride groups : nat) (deploy : bool)
  (v : block_values) (b : RepVGGBlock) :
  new_RepVGGBlock cin cout 3 stride 1 1 groups deploy v = Some b ->
  conv_in (block_conv b) = cin /\ conv_out (block_conv b) = cout /\
  conv_stride (block_conv b) = stride /\ conv_groups (block_conv b) = groups /\
  has_identity b = negb deploy && ((cout =? cin) && (stride =? 1)).
Proof.
  intros Hb. destruct deploy.
  - apply new_block_deploy_inv in Hb. destruct Hb as (_ & _ & _ & ->).
    simpl. auto.
  - apply new_block_training_inv in Hb. destruct Hb as (_ & _ & _ & ->).
    simpl. unfold identity_of.
    destruct ((cout =? cin) && (stride =? 1)); auto.
Qed.

Variable self : backbone_self.

Lemma as_count_some (z : Z) (n : nat) :
  as_count z = Some n -> (0 <= z)%Z /\ n = Z.to_nat z.
Proof.
  unfold as_count. destruct (z <? 0)%Z eqn:E; [discriminate|].
  intros H. injection H as <-. apply Z.ltb_ge in E. auto.
Qed.

Lemma new_block_inv (idx in_planes planes : Z) (stride : nat) (groups : Z)
  (b : RepVGGBlock) :
  new_block self idx in_planes planes stride groups = Some b ->
  (0 <= in_planes)%Z /\ (0 <= planes)%Z /\ (0 <= groups)%Z /\
  new_RepVGGBlock (Z.to_nat in_planes) (Z.to_nat planes) 3 stride 1 1 (Z.to_nat groups)
    (self_deploy self) (self_values self idx) = Some b.
Proof.
  unfold new_block. intros H.
  destruct (as_count in_planes) as [i|] eqn:Ei; [|discriminate].
  destruct (as_count planes) as [o|] eqn:Eo; [|discriminate].
  destruct (as_count groups) as [g|] eqn:Eg; [|discriminate].
  simpl in H.
  apply as_count_some in Ei, Eo, Eg.
  destruct Ei as [Hi ->], Eo as [Ho ->], Eg as [Hg ->]. auto.
Qed.

Lemma new_block_plain (idx in_planes planes : Z) (stride : nat) :
  (0 <= in_planes)%Z -> (0 <= planes)%Z ->
  exists b, new_block self idx in_planes planes stride 1 = Some b.
Proof.
  intros Hi Ho. unfold new_block, as_count.
  apply Z.ltb_ge in Hi, Ho. rewrite Hi, Ho.
  change (1 <? 0)%Z with false. change (Z.to_nat 1) with 1. cbn [obind].
  unfold new_RepVGGBlock, conv_bn, new_Conv2d.
  change (negb (3 =? 3)) with false. change (negb (1 =? 1)) with false.
  change (0 <? 1) with true. rewrite !Nat.mod_1_r. cbn [Nat.eqb andb obind].
  destruct (self_deploy self); cbn [obind]; eexists; reflexivity.
Qed.

(** The blocks of a stage, as the loop of [_make_stage] builds them: the
    first from [inp] channels, the others from [planes], each with the
    groups of its index. *)
Fixpoint stage_built (planes : Z) (strides : list nat) (inp idx : Z)
  (bs : list RepVGGBlock) : Prop :=
  match strides, bs with
  | [], [] => True
  | s :: strides', b :: bs' =>
      new_block self idx inp planes s (cur_groups self idx) = Some b /\
      stage_built planes strides' planes (idx + 1)%Z bs'
  | _, _ => False
  end.

Lemma make_stage_loop_spec (planes : Z) (strides : list nat) :
  forall (inp idx : Z) (acc blocks : list RepVGGBlock) (st : Z * Z),
    make_stage_loop self planes strides (inp, idx) acc = Some (blocks, st) ->
    exists new : list RepVGGBlock,
      blocks = acc ++ new /\
      stage_built planes strides inp idx new /\
      st = (match strides with [] => inp | _ => planes end,
            (idx + Z.of_nat (length strides))%Z).
Proof.
  induction strides as [|s strides IH]; intros inp idx acc blocks st H.
  - simpl in H. injection H as <- <-. exists [].
    rewrite app_nil_r, Z.add_0_r. repeat split.
  - simpl in H.
    destruct (new_block self idx inp planes s (cur_groups self idx)) as [b|] eqn:Eb;
      [|discriminate].
    simpl in H. apply IH in H. destruct H as (new & -> & Hnew & ->).
    exists (b :: new). rewrite <- app_assoc. split; [reflexivity|].
    split; [split; assumption|].
    f_equal; [destruct strides; reflexivity|].
    simpl length. lia.
Qed.

Lemma make_stage_loop_plain (planes : Z) (strides : list nat) :
  (0 <= planes)%Z ->
  (forall i, cur_groups self i = 1%Z) ->
  forall (inp idx : Z) (acc : list RepVGGBlock),
    (0 <= inp)%Z ->
    exists r, make_stage_loop self planes strides (inp, idx) acc = Some r.
Proof.
  intros Hp Hg. induction strides as [|s strides IH]; intros inp idx acc Hi.
  - eexists. reflexivity.
  - simpl. rewrite Hg.
    destruct (new_block_plain idx inp planes s Hi Hp) as [b ->]. simpl.
    apply IH, Hp.
Qed.

Lemma stage_built_length (planes : Z) (strides : list nat) :
  forall inp idx bs, stage_built planes strides inp idx bs -> length bs = length strides.
Proof.
  induction strides as [|s strides IH]; intros inp idx [|b bs] H; simpl in H;
    try contradiction; [reflexivity|].
  simpl. f_equal. eapply IH. exact (proj2 H).
Qed.

(** The first block of a stage needs a number of channels that is not
    negative. *)
Lemma stage_built_planes (planes : Z) (s : nat) (strides : list nat) (inp idx : Z)
  (bs : list RepVGGBlock) :
  stage_built planes (s :: strides) inp idx bs -> (0 <= inp)%Z /\ (0 <= planes)%Z.
Proof.
  destruct bs as [|b bs]; simpl; [contradiction|].
  intros [Hb _]. apply new_block_inv in Hb. tauto.
Qed.

(** The arguments of the blocks of a stage. *)
Definition block_args (b : RepVGGBlock) : nat * nat * nat :=
  (conv_in (block_conv b), conv_out (block_conv b), conv_stride (block_conv b)).

Lemma stage_built_ones (planes : Z) (n : nat) :
  forall idx bs,
    stage_built planes (repeat 1 n) planes idx bs ->
    map block_args bs = repeat (Z.to_nat planes, Z.to_nat planes, 1) n /\
    map has_identity bs = repeat (negb (self_deploy self)) n.
Proof.
  induction n as [|n IH]; intros idx [|b bs] H; simpl in H; try contradiction.
  - split; reflexivity.
  - destruct H as [Hb Hrest]. apply new_block_inv in Hb.
    destruct Hb as (_ & _ & _ & Hb). apply block_conv_args in Hb.
    destruct Hb as (Hin & Hout & Hs & _ & Hid).
    destruct (IH _ _ Hrest) as [IHa IHi].
    simpl. unfold block_args at 1. rewrite Hin, Hout, Hs, IHa, Hid, IHi.
    rewrite !Nat.eqb_refl, andb_true_r. split; reflexivity.
Qed.

Lemma stage_built_groups (planes : Z) (strides : list nat) :
  forall inp idx bs i b,
    stage_built planes strides inp idx bs ->
    nth_error bs i = Some b ->
    Z.of_nat (conv_groups (block_conv b)) = cur_groups self (idx + Z.of_nat i)%Z.
Proof.
  induction strides as [|s strides IH]; intros inp idx [|b0 bs] i b H Hn; simpl in H;
    try contradiction; [destruct i; discriminate|].
  destruct H as [Hb Hrest]. destruct i as [|i]; simpl in Hn.
  - injection Hn as <-. apply new_block_inv in Hb.
    destruct Hb as (_ & _ & Hg & Hb). apply block_conv_args in Hb.
    destruct Hb as (_ & _ & _ & -> & _).
    rewrite Z.add_0_r. lia.
  - rewrite (IH _ _ _ _ _ Hrest Hn). f_equal. lia.
Qed.

(** The forward pass through the blocks of a stage with at least one
    channel. *)
Lemma stage_forward (planes : Z) (strides : list nat) :
  Forall (fun s => 0 < s) strides ->
  (0 < planes)%Z ->
  forall (inp idx : Z) (bs : list RepVGGBlock) (x : ndarray) (N H W : nat),
    (0 < inp)%Z ->
    stage_built planes strides inp idx bs ->
    shape x = [N; Z.to_nat inp; H; W] -> 0 < H -> 0 < W ->
    exists y,
      sequential bs x = Some y /\
      shape y = [N; Z.to_nat (match strides with [] => inp | _ => planes end);
                 downs strides H; downs strides W].
Proof.
  intros Hstr Hp.
  induction Hstr as [|s strides Hs _ IH]; intros inp idx [|b bs] x N H W Hi Hb Hx HH HW;
    simpl in Hb; try contradiction.
  - exists x. split; [reflexivity | exact Hx].
  - destruct Hb as [Hb Hrest]. apply new_block_inv in Hb.
    destruct Hb as (_ & _ & _ & Hb).
    destruct (block_forward_shape _ _ _ _ _ _ _ x N H W Hb ltac:(lia) ltac:(lia)
                Hs Hx HH HW) as (y & Hy & Hys).
    destruct (IH planes (idx + 1)%Z bs y N _ _ Hp Hrest Hys
                (conv_out_size_pos _ _ _ _ _) (conv_out_size_pos _ _ _ _ _))
      as (z & Hz & Hzs).
    exists z. simpl. rewrite Hy. simpl. split; [exact Hz|].
    rewrite Hzs. destruct strides; reflexivity.
Qed.

(** The same through a stage in deploy form, for one image without the
    batch axis. *)
Lemma stage_forward_unbatched (planes : Z) (strides : list nat) :
  self_deploy self = true ->
  Forall (fun s => 0 < s) strides ->
  (0 < planes)%Z ->
  forall (inp idx : Z) (bs : list RepVGGBlock) (x : ndarray) (H W : nat),
    (0 < inp)%Z ->
    stage_built planes strides inp idx bs ->
    shape x = [Z.to_nat inp; H; W] -> 0 < H -> 0 < W ->
    exists y,
      sequential bs x = Some y /\
      shape y = [Z.to_nat (match strides with [] => inp | _ => planes end);
                 downs strides H; downs strides W].
Proof.
  intros Hdep Hstr Hp.
  induction Hstr as [|s strides Hs _ IH]; intros inp idx [|b bs] x H W Hi Hb Hx HH HW;
    simpl in Hb; try contradiction.
  - exists x. split; [reflexivity | exact Hx].
  - destruct Hb as [Hb Hrest]. apply new_block_inv in Hb.
    destruct Hb as (_ & _ & _ & Hb). rewrite Hdep in Hb.
    destruct (block_forward_unbatched _ _ _ _ _ _ x H W Hb ltac:(lia) ltac:(lia)
                Hs Hx HH HW) as (y & Hy & Hys).
    destruct (IH planes (idx + 1)%Z bs y _ _ Hp Hrest Hys
                (conv_out_size_pos _ _ _ _ _) (conv_out_size_pos _ _ _ _ _))
      as (z & Hz & Hzs).
    exists z. simpl. rewrite Hy. simpl. split; [exact Hz|].
    rewrite Hzs. destruct strides; reflexivity.
Qed.

(** A stage that returns has at least one channel. *)
Lemma stage_returns_planes (planes : Z) (s : nat) (strides : list nat) (inp idx : Z)
  (bs : list RepVGGBlock) (x y : ndarray) :
  0 < s -> (0 < inp)%Z ->
  stage_built planes (s :: strides) inp idx bs ->
  sequential bs x = Some y ->
  (0 < planes)%Z.
Proof.
  intros Hs Hi Hb Hy. destruct bs as [|b bs]; simpl in Hb; [contradiction|].
  destruct Hb as [Hb _]. apply new_block_inv in Hb.
  destruct Hb as (_ & _ & _ & Hb).
  simpl in Hy. destruct (forward b x) as [y1|] eqn:E1; [|discriminate].
  destruct (block_forward_inv _ _ _ _ _ _ _ x y1 Hb ltac:(lia) Hs E1) as [Hout _].
  lia.
Qed.

(** What a backbone that has been built is made of. *)
Definition stage_len (n : Z) : nat := S (Z.to_nat (n - 1)).

Lemma backbone_inv (num_blocks : list Z) (width_multiplier : list Q)
  (bb : REPVGGBackbone) :
  new_REPVGGBackbone num_blocks width_multiplier self = Some bb ->
  exists (w0 w1 w2 w3 : Q) (n0 n1 n2 n3 : Z),
    width_multiplier = [w0; w1; w2; w3] /\
    firstn 4 num_blocks = [n0; n1; n2; n3] /\
    self_override_groups_map self 0%Z = None /\
    let in_planes := Z.min 64 (scaled 64 w0) in
    let l1 := stage_len n0 in
    let l2 := stage_len n1 in
    let l3 := stage_len n2 in
    let l4 := stage_len n3 in
    new_block self 0 3 in_planes 1 1 = Some (stage0 bb) /\
    stage_built (scaled 64 w0) (2 :: repeat 1 (Z.to_nat (n0 - 1))) in_planes 1
      (stage1 bb) /\
    stage_built (scaled 128 w1) (2 :: repeat 1 (Z.to_nat (n1 - 1))) (scaled 64 w0)
      (1 + Z.of_nat l1) (stage2 bb) /\
    stage_built (scaled 256 w2) (2 :: repeat 1 (Z.to_nat (n2 - 1))) (scaled 128 w1)
      (1 + Z.of_nat l1 + Z.of_nat l2) (stage3 bb) /\
    stage_built (scaled 512 w3) (2 :: repeat 1 (Z.to_nat (n3 - 1))) (scaled 256 w2)
      (1 + Z.of_nat l1 + Z.of_nat l2 + Z.of_nat l3) (stage4 bb) /\
    cur_layer_idx bb
    = (1 + Z.of_nat l1 + Z.of_nat l2 + Z.of_nat l3 + Z.of_nat l4)%Z.
Proof.
  unfold new_REPVGGBackbone. intros H.
  destruct (length width_multiplier =? 4) eqn:El; [|discriminate].
  apply Nat.eqb_eq in El. simpl in H.
  destruct width_multiplier as [|w0 [|w1 [|w2 [|w3 [|]]]]]; try discriminate.
  destruct (self_override_groups_map self 0%Z) eqn:Emap; [discriminate|].
  simpl in H.
  destruct (new_block self 0 3 (Z.min 64 (scaled 64 w0)) 1 1) as [s0|] eqn:E0;
    [|discriminate].
  simpl in H.
  destruct num_blocks as [|n0 [|n1 [|n2 [|n3 rest]]]]; simpl in H;
    repeat match type of H with
           | obind (_make_stage ?a ?b ?c ?d ?e) _ = _ =>
               destruct (_make_stage a b c d e) as [[? [? ?]]|] eqn:?; simpl in H
           end; try discriminate.
  injection H as <-.
  unfold _make_stage in *.
  repeat match goal with
         | E : make_stage_loop _ _ _ (_, _) [] = Some _ |- _ =>
             apply make_stage_loop_spec in E;
             destruct E as (? & ? & ? & E); cbn [app] in *; subst;
             injection E as ? ?; subst
         end.
  exists w0, w1, w2, w3, n0, n1, n2, n3.
  cbn [stage0 stage1 stage2 stage3 stage4 cur_layer_idx].
  unfold stage_len. cbn [length] in *. rewrite !repeat_length in *.
  repeat split; try assumption;
    match goal with
    | H : stage_built ?p ?s ?i ?idx ?bs |- stage_built ?p ?s ?i ?idx' ?bs =>
        replace idx' with idx by lia; exact H
    | |- _ => lia
    end.
Qed.

End Backbone.


Section BackboneShape.

Import RepVGG.

Variable self : backbone_self.

(** A stage made of [max 1 n] blocks: its first block takes [inp] channels
    to [planes] channels with stride 2 and has no identity branch; the others
    keep [planes] channels with stride 1, and have the identity branch in
    training form. *)
Definition stage_shape (inp planes n : Z) (bs : list RepVGGBlock) : Prop :=
  length bs = Z.to_nat (Z.max 1 n) /\
  map block_args bs
  = (Z.to_nat inp, Z.to_nat planes, 2)
      :: repeat (Z.to_nat planes, Z.to_nat planes, 1) (Z.to_nat (n - 1)) /\
  map has_identity bs
  = false :: repeat (negb (self_deploy self)) (Z.to_nat (n - 1)).

Lemma stage_built_shape (inp planes n idx : Z) (bs : list RepVGGBlock) :
  stage_built self planes (2 :: repeat 1 (Z.to_nat (n - 1))) inp idx bs ->
  stage_shape inp planes n bs.
Proof.
  intros H. pose proof (stage_built_length self _ _ _ _ _ H) as Hlen.
  destruct bs as [|b bs]; simpl in H; [contradiction|].
  destruct H as [Hb Hrest]. apply new_block_inv in Hb.
  destruct Hb as (_ & _ & _ & Hb). apply block_conv_args in Hb.
  destruct Hb as (Hin & Hout & Hs & _ & Hid).
  destruct (stage_built_ones self _ _ _ _ Hrest) as [Ha Hi].
  unfold stage_shape. split; [|split].
  - rewrite Hlen. simpl. rewrite repeat_length. lia.
  - simpl. unfold block_args at 1. rewrite Hin, Hout, Hs, Ha. reflexivity.
  - simpl. rewrite Hid, Hi.
    change (2 =? 1) with false. rewrite andb_false_r, andb_false_r. reflexivity.
Qed.

(** The groups of the blocks of a list, the first of which has the index
    [idx]. *)
Definition groups_from (idx : Z) (bs : list RepVGGBlock) : Prop :=
  forall (i : nat) (b : RepVGGBlock),
    nth_error bs i = Some b ->
    Z.of_nat (conv_groups (block_conv b)) = cur_groups self (idx + Z.of_nat i)%Z.

Lemma groups_from_app (idx : Z) (a b : list RepVGGBlock) :
  groups_from idx a -> groups_from (idx + Z.of_nat (length a))%Z b ->
  groups_from idx (a ++ b).
Proof.
  intros Ha Hb i blk Hn.
  destruct (Nat.lt_ge_cases i (length a)) as [Hlt|Hge].
  - rewrite nth_error_app1 in Hn by exact Hlt. apply Ha, Hn.
  - rewrite nth_error_app2 in Hn by exact Hge.
    rewrite (Hb _ _ Hn). f_equal. lia.
Qed.

End BackboneShape.

(** A backbone that has been built: its first block takes the 3 channels
    of the image to [min(64, int(64 * w0))] channels with stride 1; stage [k]
    has [max(1, num_blocks[k])] blocks (one block even for a count of 0 or
    less), the first with stride 2 from the channels of the stage before to
    [int(64 * 2^k * w_k)] channels, the others with stride 1 on that many
    channels, so that every block takes the channels the block before it
    returns; in training form exactly the blocks that are not the first of
    their stage have the identity branch; block [i] (counted from the first
    block, which is block 0) has the groups the map gives for [i], or 1. *)
Theorem backbone_structure (num_blocks : list Z) (width_multiplier : list Q)
  (self : RepVGG.backbone_self) (bb : RepVGG.REPVGGBackbone) :
  RepVGG.new_REPVGGBackbone num_blocks width_multiplier self = Some bb ->
  exists (w0 w1 w2 w3 : Q) (n0 n1 n2 n3 : Z),
    width_multiplier = [w0; w1; w2; w3] /\
    firstn 4 num_blocks = [n0; n1; n2; n3] /\
    let p0 := RepVGG.scaled 64 w0 in
    let p1 := RepVGG.scaled 128 w1 in
    let p2 := RepVGG.scaled 256 w2 in
    let p3 := RepVGG.scaled 512 w3 in
    block_args (RepVGG.stage0 bb) = (3, Z.to_nat (Z.min 64 p0), 1) /\
    RepVGG.conv_groups (RepVGG.block_conv (RepVGG.stage0 bb)) = 1 /\
    stage_shape self (Z.min 64 p0) p0 n0 (RepVGG.stage1 bb) /\
    stage_shape self p0 p1 n1 (RepVGG.stage2 bb) /\
    stage_shape self p1 p2 n2 (RepVGG.stage3 bb) /\
    stage_shape self p2 p3 n3 (RepVGG.stage4 bb) /\
    RepVGG.cur_layer_idx bb
    = (1 + Z.max 1 n0 + Z.max 1 n1 + Z.max 1 n2 + Z.max 1 n3)%Z /\
    groups_from self 1
      (RepVGG.stage1 bb ++ RepVGG.stage2 bb ++ RepVGG.stage3 bb ++ RepVGG.stage4 bb).
Proof.
  intros H. apply backbone_inv in H.
  destruct H as (w0 & w1 & w2 & w3 & n0 & n1 & n2 & n3 & Hw & Hn & _ & H).
  cbv zeta in H. destruct H as (H0 & H1 & H2 & H3 & H4 & Hidx).
  exists w0, w1, w2, w3, n0, n1, n2, n3. cbv zeta.
  split; [exact Hw|]. split; [exact Hn|].
  apply new_block_inv in H0. destruct H0 as (_ & _ & _ & H0).
  apply block_conv_args in H0. destruct H0 as (Hin & Hout & Hs & Hg & _).
  split; [unfold block_args; rewrite Hin, Hout, Hs; reflexivity|].
  split; [rewrite Hg; reflexivity|].
  split; [eapply stage_built_shape; exact H1|].
  split; [eapply stage_built_shape; exact H2|].
  split; [eapply stage_built_shape; exact H3|].
  split; [eapply stage_built_shape; exact H4|].
  split; [rewrite Hidx; unfold stage_len; lia|].
  pose proof (stage_built_length _ _ _ _ _ _ H1) as L1.
  pose proof (stage_built_length _ _ _ _ _ _ H2) as L2.
  pose proof (stage_built_length _ _ _ _ _ _ H3) as L3.
  cbn [length] in L1, L2, L3. rewrite repeat_length in L1, L2, L3.
  unfold stage_len in *.
  apply groups_from_app;
    [intros i b Hb; eapply stage_built_groups; eassumption|].
  apply groups_from_app;
    [rewrite L1; intros i b Hb; eapply stage_built_groups; eassumption|].
  apply groups_from_app.
  - rewrite L1, L2. intros i b Hb.
    rewrite (stage_built_groups _ _ _ _ _ _ _ _ H3 Hb). f_equal; lia.
  - rewrite L1, L2, L3. intros i b Hb.
    rewrite (stage_built_groups _ _ _ _ _ _ _ _ H4 Hb). f_equal; lia.
Qed.

Lemma backbone_structure_witness :
  exists bb : RepVGG.REPVGGBackbone,
    RepVGG.new_REPVGGBackbone [0; 2; 1; 1]%Z RepVGG.default_width_multiplier
      (RepVGG.mk_backbone_self false RepVGG.no_override (fun _ => unit_values)) = Some bb /\
    length (RepVGG.stage1 bb) = 1 /\ length (RepVGG.stage2 bb) = 2 /\
    RepVGG.cur_layer_idx bb = 6%Z.
Proof.
  destruct (RepVGG.new_REPVGGBackbone [0; 2; 1; 1]%Z RepVGG.default_width_multiplier
              (RepVGG.mk_backbone_self false RepVGG.no_override (fun _ => unit_values)))
    as [bb|] eqn:E; [|vm_compute in E; discriminate].
  exists bb. split; [reflexivity|].
  destruct (backbone_structure _ _ _ _ E)
    as (w0 & w1 & w2 & w3 & n0 & n1 & n2 & n3 & Hw & Hn & H).
  cbv zeta in H. destruct H as (_ & _ & (L1 & _) & (L2 & _) & _ & _ & Hidx & _).
  simpl in Hn. injection Hn as <- <- <- <-.
  rewrite L1, L2, Hidx. repeat split.
Defined.

(** Every stage has at least one channel: [int(64 * 2^k * w_k) > 0] for
    the four width multipliers (the first block then has
    [min(64, int(64 * w_0)) > 0] channels). *)
Definition stage_channels_positive (width_multiplier : list Q) : Prop :=
  (0 < RepVGG.scaled 64 (nth 0 width_multiplier 0%Q))%Z /\
  (0 < RepVGG.scaled 128 (nth 1 width_multiplier 0%Q))%Z /\
  (0 < RepVGG.scaled 256 (nth 2 width_multiplier 0%Q))%Z /\
  (0 < RepVGG.scaled 512 (nth 3 width_multiplier 0%Q))%Z.

(** The forward pass of a backbone that has been built with at least one
    channel per stage, on a batch of non-empty images with 3 channels. *)
Lemma backbone_forward_returns (num_blocks : list Z) (width_multiplier : list Q)
  (self : RepVGG.backbone_self) (bb : RepVGG.REPVGGBackbone) (x : RepVGG.ndarray)
  (N H W : nat) :
  RepVGG.new_REPVGGBackbone num_blocks width_multiplier self = Some bb ->
  stage_channels_positive width_multiplier ->
  RepVGG.shape x = [N; 3; H; W] -> 0 < H -> 0 < W ->
  exists out1 out2 : RepVGG.ndarray,
    RepVGG.backbone_forward bb x = Some (out1, out2) /\
    RepVGG.shape out1
    = [N; Z.to_nat (RepVGG.scaled 256 (nth 2 width_multiplier 0%Q));
       halve (halve (halve H)); halve (halve (halve W))] /\
    RepVGG.shape out2
    = [N; Z.to_nat (RepVGG.scaled 512 (nth 3 width_multiplier 0%Q));
       halve (halve (halve (halve H))); halve (halve (halve (halve W)))].
Proof.
  intros Hbb Hpos Hx HH HW. apply backbone_inv in Hbb.
  destruct Hbb as (w0 & w1 & w2 & w3 & n0 & n1 & n2 & n3 & -> & _ & _ & Hbb).
  cbv zeta in Hbb. destruct Hbb as (H0 & H1 & H2 & H3 & H4 & _).
  destruct Hpos as (P0 & P1 & P2 & P3). cbn [nth] in P0, P1, P2, P3.
  apply new_block_inv in H0. destruct H0 as (_ & _ & _ & H0).
  change (Z.to_nat 3) with 3 in H0. change (Z.to_nat 1) with 1 in H0.
  assert (Hstr : forall n, Forall (fun s => 0 < s) (2 :: repeat 1 n)).
  { intros n. constructor; [lia|]. apply Forall_forall. intros s Hs.
    apply repeat_spec in Hs. lia. }
  destruct (block_forward_shape _ _ _ _ _ _ _ x N H W H0 ltac:(lia) ltac:(lia)
              Nat.lt_0_1 Hx HH HW)
    as (x0 & Hx0 & Hs0).
  rewrite !conv_out_size_stride1 in Hs0 by assumption.
  assert (Pin : (0 < Z.min 64 (RepVGG.scaled 64 w0))%Z) by lia.
  destruct (stage_forward self _ _ (Hstr _) P0 _ _ _ x0 N H W Pin H1 Hs0 HH HW)
    as (x1 & Hx1 & Hs1).
  rewrite !downs_stage in Hs1.
  assert (Hhalve : forall L, 0 < halve L) by (intros L; unfold halve; lia).
  destruct (stage_forward self _ _ (Hstr _) P1 _ _ _ x1 N _ _ P0 H2 Hs1
              (Hhalve _) (Hhalve _))
    as (x2 & Hx2 & Hs2).
  rewrite !downs_stage in Hs2.
  destruct (stage_forward self _ _ (Hstr _) P2 _ _ _ x2 N _ _ P1 H3 Hs2
              (Hhalve _) (Hhalve _))
    as (o1 & Ho1 & Hso1).
  rewrite !downs_stage in Hso1.
  destruct (stage_forward self _ _ (Hstr _) P3 _ _ _ o1 N _ _ P2 H4 Hso1
              (Hhalve _) (Hhalve _))
    as (o2 & Ho2 & Hso2).
  rewrite !downs_stage in Hso2.
  exists o1, o2. unfold RepVGG.backbone_forward.
  rewrite Hx0. cbn [obind]. rewrite Hx1. cbn [obind]. rewrite Hx2. cbn [obind].
  rewrite Ho1. cbn [obind]. rewrite Ho2. cbn [obind].
  split; [reflexivity|]. split; assumption.
Qed.

(** The same for a backbone in deploy form, on one image without the batch
    axis. *)
Lemma backbone_forward_unbatched (num_blocks : list Z) (width_multiplier : list Q)
  (self : RepVGG.backbone_self) (bb : RepVGG.REPVGGBackbone) (x : RepVGG.ndarray)
  (H W : nat) :
  RepVGG.new_REPVGGBackbone num_blocks width_multiplier self = Some bb ->
  RepVGG.self_deploy self = true ->
  stage_channels_positive width_multiplier ->
  RepVGG.shape x = [3; H; W] -> 0 < H -> 0 < W ->
  exists out1 out2 : RepVGG.ndarray,
    RepVGG.backbone_forward bb x = Some (out1, out2) /\
    RepVGG.shape out1
    = [Z.to_nat (RepVGG.scaled 256 (nth 2 width_multiplier 0%Q));
       halve (halve (halve H)); halve (halve (halve W))] /\
    RepVGG.shape out2
    = [Z.to_nat (RepVGG.scaled 512 (nth 3 width_multiplier 0%Q));
       halve (halve (halve (halve H))); halve (halve (halve (halve W)))].
Proof.
  intros Hbb Hdep Hpos Hx HH HW. apply backbone_inv in Hbb.
  destruct Hbb as (w0 & w1 & w2 & w3 & n0 & n1 & n2 & n3 & -> & _ & _ & Hbb).
  cbv zeta in Hbb. destruct Hbb as (H0 & H1 & H2 & H3 & H4 & _).
  destruct Hpos as (P0 & P1 & P2 & P3). cbn [nth] in P0, P1, P2, P3.
  apply new_block_inv in H0. destruct H0 as (_ & _ & _ & H0).
  change (Z.to_nat 3) with 3 in H0. change (Z.to_nat 1) with 1 in H0.
  rewrite Hdep in H0.
  assert (Hstr : forall n, Forall (fun s => 0 < s) (2 :: repeat 1 n)).
  { intros n. constructor; [lia|]. apply Forall_forall. intros s Hs.
    apply repeat_spec in Hs. lia. }
  destruct (block_forward_unbatched _ _ _ _ _ _ x H W H0 ltac:(lia) ltac:(lia)
              Nat.lt_0_1 Hx HH HW)
    as (x0 & Hx0 & Hs0).
  rewrite !conv_out_size_stride1 in Hs0 by assumption.
  assert (Pin : (0 < Z.min 64 (RepVGG.scaled 64 w0))%Z) by lia.
  destruct (stage_forward_unbatched self _ _ Hdep (Hstr _) P0 _ _ _ x0 H W Pin
              H1 Hs0 HH HW)
    as (x1 & Hx1 & Hs1).
  rewrite !downs_stage in Hs1.
  assert (Hhalve : forall L, 0 < halve L) by (intros L; unfold halve; lia).
  destruct (stage_forward_unbatched self _ _ Hdep (Hstr _) P1 _ _ _ x1 _ _ P0 H2 Hs1
              (Hhalve _) (Hhalve _))
    as (x2 & Hx2 & Hs2).
  rewrite !downs_stage in Hs2.
  destruct (stage_forward_unbatched self _ _ Hdep (Hstr _) P2 _ _ _ x2 _ _ P1 H3 Hs2
              (Hhalve _) (Hhalve _))
    as (o1 & Ho1 & Hso1).
  rewrite !downs_stage in Hso1.
  destruct (stage_forward_unbatched self _ _ Hdep (Hstr _) P3 _ _ _ o1 _ _ P2 H4 Hso1
              (Hhalve _) (Hhalve _))
    as (o2 & Ho2 & Hso2).
  rewrite !downs_stage in Hso2.
  exists o1, o2. unfold RepVGG.backbone_forward.
  rewrite Hx0. cbn [obind]. rewrite Hx1. cbn [obind]. rewrite Hx2. cbn [obind].
  rewrite Ho1. cbn [obind]. rewrite Ho2. cbn [obind].
  split; [reflexivity|]. split; assumption.
Qed.

(** A backbone that returns: every stage has a channel, and the input is a
    batch of non-empty images with 3 channels or, in deploy form, one such
    image. *)
Lemma backbone_returns_inv (num_blocks : list Z) (width_multiplier : list Q)
  (self : RepVGG.backbone_self) (bb : RepVGG.REPVGGBackbone) (x : RepVGG.ndarray)
  (outs : RepVGG.ndarray * RepVGG.ndarray) :
  RepVGG.new_REPVGGBackbone num_blocks width_multiplier self = Some bb ->
  RepVGG.backbone_forward bb x = Some outs ->
  stage_channels_positive width_multiplier /\
  exists H W,
    0 < H /\ 0 < W /\
    ((exists N, RepVGG.shape x = [N; 3; H; W]) \/
     (RepVGG.self_deploy self = true /\ RepVGG.shape x = [3; H; W])).
Proof.
  intros Hbb Houts. unfold RepVGG.backbone_forward in Houts.
  destruct (RepVGG.forward (RepVGG.stage0 bb) x) as [x0|] eqn:E0; [|discriminate].
  cbn [obind] in Houts.
  destruct (RepVGG.sequential (RepVGG.stage1 bb) x0) as [x1|] eqn:E1; [|discriminate].
  cbn [obind] in Houts.
  destruct (RepVGG.sequential (RepVGG.stage2 bb) x1) as [x2|] eqn:E2; [|discriminate].
  cbn [obind] in Houts.
  destruct (RepVGG.sequential (RepVGG.stage3 bb) x2) as [o1|] eqn:E3; [|discriminate].
  cbn [obind] in Houts.
  destruct (RepVGG.sequential (RepVGG.stage4 bb) o1) as [o2|] eqn:E4; [|discriminate].
  apply backbone_inv in Hbb.
  destruct Hbb as (w0 & w1 & w2 & w3 & n0 & n1 & n2 & n3 & -> & _ & _ & Hbb).
  cbv zeta in Hbb. destruct Hbb as (H0 & H1 & H2 & H3 & H4 & _).
  apply new_block_inv in H0. destruct H0 as (_ & _ & _ & H0).
  change (Z.to_nat 3) with 3 in H0. change (Z.to_nat 1) with 1 in H0.
  destruct (block_forward_inv _ _ _ _ _ _ _ x x0 H0 ltac:(lia) Nat.lt_0_1 E0)
    as (Hin & H & W & HH & HW & Hcase).
  assert (P0 : (0 < RepVGG.scaled 64 w0)%Z) by lia.
  pose proof (stage_returns_planes self _ _ _ _ _ _ x1 x2 Nat.lt_0_2 P0 H2 E2) as P1.
  pose proof (stage_returns_planes self _ _ _ _ _ _ x2 o1 Nat.lt_0_2 P1 H3 E3) as P2.
  pose proof (stage_returns_planes self _ _ _ _ _ _ o1 o2 Nat.lt_0_2 P2 H4 E4) as P3.
  split; [unfold stage_channels_positive; cbn [nth]; auto|].
  exists H, W. auto.
Qed.

(** Without overridden groups, channel counts that are not negative are
    enough for the backbone to be built. *)
Lemma backbone_plain_built (num_blocks : list Z) (width_multiplier : list Q)
  (self : RepVGG.backbone_self) :
  (forall i, RepVGG.self_override_groups_map self i = None) ->
  length width_multiplier = 4 -> 4 <= length num_blocks ->
  (0 <= RepVGG.scaled 64 (nth 0 width_multiplier 0%Q))%Z ->
  (0 <= RepVGG.scaled 128 (nth 1 width_multiplier 0%Q))%Z ->
  (0 <= RepVGG.scaled 256 (nth 2 width_multiplier 0%Q))%Z ->
  (0 <= RepVGG.scaled 512 (nth 3 width_multiplier 0%Q))%Z ->
  exists bb, RepVGG.new_REPVGGBackbone num_blocks width_multiplier self = Some bb.
Proof.
  intros Hmap Hlw Hln Hp0 Hp1 Hp2 Hp3.
  assert (Hg : forall i, RepVGG.cur_groups self i = 1%Z).
  { intros i. unfold RepVGG.cur_groups. rewrite Hmap. reflexivity. }
  destruct width_multiplier as [|w0 [|w1 [|w2 [|w3 [|]]]]]; try discriminate.
  destruct num_blocks as [|n0 [|n1 [|n2 [|n3 rest]]]]; simpl in Hln; try lia.
  cbn [nth] in Hp0, Hp1, Hp2, Hp3.
  unfold RepVGG.new_REPVGGBackbone. cbn [length Nat.eqb negb nth_error obind].
  rewrite Hmap.
  destruct (new_block_plain self 0 3 (Z.min 64 (RepVGG.scaled 64 w0)) 1)
    as [s0 ->]; [lia | lia |]. cbn [obind].
  unfold RepVGG._make_stage.
  do 4 (match goal with
        | |- context [RepVGG.make_stage_loop self ?p ?s (?i0, ?k0) []] =>
            let E := fresh "E" in
            destruct (make_stage_loop_plain self p s) with
              (inp := i0) (idx := k0) (acc := @nil RepVGG.RepVGGBlock)
              as [[? ?] E]; [assumption | exact Hg | lia |];
            rewrite E; cbn [obind snd];
            apply make_stage_loop_spec in E; destruct E as (_ & _ & _ & ->);
            cbv iota
        end).
  eexists. reflexivity.
Qed.

(** [REPVGGBackbone.forward], for a backbone that has been built, in
    training or in deploy form and whatever its weights (the batch
    normalisations in eval mode): it returns exactly
    when every stage has at least one channel and the input is a batch of
    non-empty images with 3 channels or, in deploy form only, one such image
    without the batch axis; [out1] then has [int(256 * w2)] channels and an
    eighth of the rows and columns (each of the three halvings rounded up),
    [out2] has [int(512 * w3)] channels and a sixteenth of them. *)
Theorem backbone_forward_shapes (num_blocks : list Z) (width_multiplier : list Q)
  (self : RepVGG.backbone_self) (bb : RepVGG.REPVGGBackbone) (x : RepVGG.ndarray) :
  RepVGG.new_REPVGGBackbone num_blocks width_multiplier self = Some bb ->
  ((exists outs, RepVGG.backbone_forward bb x = Some outs)
   <-> (stage_channels_positive width_multiplier /\
        exists H W,
          0 < H /\ 0 < W /\
          ((exists N, RepVGG.shape x = [N; 3; H; W]) \/
           (RepVGG.self_deploy self = true /\ RepVGG.shape x = [3; H; W]))))
  /\
  (forall out1 out2 : RepVGG.ndarray,
     RepVGG.backbone_forward bb x = Some (out1, out2) ->
     let c1 := Z.to_nat (RepVGG.scaled 256 (nth 2 width_multiplier 0%Q)) in
     let c2 := Z.to_nat (RepVGG.scaled 512 (nth 3 width_multiplier 0%Q)) in
     (forall N H W, RepVGG.shape x = [N; 3; H; W] ->
        RepVGG.shape out1 = [N; c1; halve (halve (halve H)); halve (halve (halve W))] /\
        RepVGG.shape out2
        = [N; c2; halve (halve (halve (halve H))); halve (halve (halve (halve W)))]) /\
     (forall H W, RepVGG.shape x = [3; H; W] ->
        RepVGG.shape out1 = [c1; halve (halve (halve H)); halve (halve (halve W))] /\
        RepVGG.shape out2
        = [c2; halve (halve (halve (halve H))); halve (halve (halve (halve W)))])).
Proof.
  intros Hbb. split; [split|].
  - intros [outs Houts]. exact (backbone_returns_inv _ _ _ _ _ _ Hbb Houts).
  - intros (Hpos & H & W & HH & HW & [(N & Hx)|(Hdep & Hx)]).
    + destruct (backbone_forward_returns _ _ _ _ x N H W Hbb Hpos Hx HH HW)
        as (o1 & o2 & Ho & _).
      eexists. exact Ho.
    + destruct (backbone_forward_unbatched _ _ _ _ x H W Hbb Hdep Hpos Hx HH HW)
        as (o1 & o2 & Ho & _).
      eexists. exact Ho.
  - intros out1 out2 Houts c1 c2.
    destruct (backbone_returns_inv _ _ _ _ _ _ Hbb Houts)
      as (Hpos & H & W & HH & HW & Hcase).
    split.
    + intros N0 H0 W0 Hx0.
      destruct Hcase as [(N & Hx)|(Hdep & Hx)]; rewrite Hx0 in Hx; [|discriminate].
      injection Hx as -> -> ->.
      destruct (backbone_forward_returns _ _ _ _ x N H W Hbb Hpos Hx0 HH HW)
        as (o1 & o2 & Ho & H1 & H2).
      rewrite Houts in Ho. injection Ho as <- <-. split; assumption.
    + intros H0 W0 Hx0.
      destruct Hcase as [(N & Hx)|(Hdep & Hx)]; rewrite Hx0 in Hx; [discriminate|].
      injection Hx as -> ->.
      destruct (backbone_forward_unbatched _ _ _ _ x H W Hbb Hdep Hpos Hx0 HH HW)
        as (o1 & o2 & Ho & H1 & H2).
      rewrite Houts in Ho. injection Ho as <- <-. split; assumption.
Qed.

Lemma small_channels_positive : stage_channels_positive small_width_multiplier.
Proof. repeat split. Qed.

Lemma backbone_forward_shapes_witness :
  exists (bb : RepVGG.REPVGGBackbone) (out1 out2 : RepVGG.ndarray),
    RepVGG.new_REPVGGBackbone small_num_blocks small_width_multiplier
      (RepVGG.mk_backbone_self false RepVGG.no_override (fun _ => unit_values)) = Some bb /\
    RepVGG.backbone_forward bb
      small_image = Some (out1, out2) /\
    RepVGG.shape out1 = [1; 4; 1; 1] /\ RepVGG.shape out2 = [1; 4; 1; 1].
Proof.
  destruct (RepVGG.new_REPVGGBackbone small_num_blocks small_width_multiplier
              (RepVGG.mk_backbone_self false RepVGG.no_override (fun _ => unit_values)))
    as [bb|] eqn:E; [|vm_compute in E; discriminate].
  destruct (backbone_forward_shapes _ _ _ bb small_image E)
    as [[_ Hret] Hshape].
  destruct Hret as [[o1 o2] Ho].
  - split; [exact small_channels_positive|]. exists 5, 5.
    split; [lia|]. split; [lia|]. left. exists 1. reflexivity.
  - destruct (Hshape o1 o2 Ho) as [H4 _].
    destruct (H4 1 5 5 eq_refl) as [H1 H2].
    exists bb, o1, o2. repeat split; assumption.
Defined.

(** What the arguments of a backbone that has been built are like. *)
Lemma backbone_built_only_if (num_blocks : list Z) (width_multiplier : list Q)
  (self : RepVGG.backbone_self) (bb : RepVGG.REPVGGBackbone) :
  RepVGG.new_REPVGGBackbone num_blocks width_multiplier self = Some bb ->
  length width_multiplier = 4 /\ 4 <= length num_blocks /\
  (0 <= RepVGG.scaled 64 (nth 0 width_multiplier 0%Q))%Z /\
  (0 <= RepVGG.scaled 128 (nth 1 width_multiplier 0%Q))%Z /\
  (0 <= RepVGG.scaled 256 (nth 2 width_multiplier 0%Q))%Z /\
  (0 <= RepVGG.scaled 512 (nth 3 width_multiplier 0%Q))%Z.
Proof.
  intros Hbb. apply backbone_inv in Hbb.
  destruct Hbb as (w0 & w1 & w2 & w3 & n0 & n1 & n2 & n3 & -> & Hn & _ & Hbb).
  cbv zeta in Hbb. destruct Hbb as (_ & H1 & H2 & H3 & H4 & _).
  apply stage_built_planes in H1, H2, H3, H4.
  split; [reflexivity|]. split.
  - assert (Hl : length (firstn 4 num_blocks) = 4) by (rewrite Hn; reflexivity).
    rewrite length_firstn in Hl. lia.
  - cbn [nth]. tauto.
Qed.

(** Without overridden groups, [REPVGGBackbone(num_blocks,
    width_multiplier)] is built exactly when there are 4 width multipliers,
    at least 4 block counts (the others are ignored) and no stage gets a
    negative number of channels; every block count is accepted. *)
Theorem backbone_built_iff (num_blocks : list Z) (width_multiplier : list Q)
  (self : RepVGG.backbone_self) :
  (forall i, RepVGG.self_override_groups_map self i = None) ->
  ((exists bb, RepVGG.new_REPVGGBackbone num_blocks width_multiplier self = Some bb)
   <-> (length width_multiplier = 4 /\ 4 <= length num_blocks /\
        (0 <= RepVGG.scaled 64 (nth 0 width_multiplier 0%Q))%Z /\
        (0 <= RepVGG.scaled 128 (nth 1 width_multiplier 0%Q))%Z /\
        (0 <= RepVGG.scaled 256 (nth 2 width_multiplier 0%Q))%Z /\
        (0 <= RepVGG.scaled 512 (nth 3 width_multiplier 0%Q))%Z)).
Proof.
  intros Hmap. split.
  - intros [bb Hbb]. exact (backbone_built_only_if _ _ _ _ Hbb).
  - intros (Hlw & Hln & Hp0 & Hp1 & Hp2 & Hp3).
    apply backbone_plain_built; assumption.
Qed.

Lemma backbone_built_iff_witness :
  ~ exists bb,
      RepVGG.new_REPVGGBackbone RepVGG.default_num_blocks [3 # 2; 3 # 2; 3 # 2]%Q
        (RepVGG.mk_backbone_self false RepVGG.no_override (fun _ => unit_values))
      = Some bb.
Proof.
  intros H.
  apply (backbone_built_iff RepVGG.default_num_blocks [3 # 2; 3 # 2; 3 # 2]%Q
           (RepVGG.mk_backbone_self false RepVGG.no_override (fun _ => unit_values)))
    in H.
  - destruct H as [H _]. discriminate.
  - reflexivity.
Defined.


(** ** models/repvgg_backbone.py: the pretrained weights *)

Section Pretrained.

Import RepVGG.

(** The values of a block after a load: the values copied, with the [eps]
    its batch normalisations were built with. *)
Definition keep_eps (old new : bn_values) : bn_values :=
  mk_bn_values (v_mean new) (v_var new) (v_gamma new) (v_beta new) (v_eps old).

Definition loaded_values (old new : block_values) : block_values :=
  mk_block_values (v_reparam_weight new) (v_reparam_bias new)
    (keep_eps (v_identity old) (v_identity new))
    (v_dense_weight new) (keep_eps (v_dense_bn old) (v_dense_bn new))
    (v_1x1_weight new) (keep_eps (v_1x1_bn old) (v_1x1_bn new)).

Variable self : backbone_self.
Variable vals : Z -> block_values.

Definition loaded_self : backbone_self :=
  mk_backbone_self (self_deploy self) (self_override_groups_map self)
    (fun i => loaded_values (self_values self i) (vals i)).

(** A block after a load is the block its constructor builds from the
    values loaded. *)
Lemma load_block_rebuilt (cin cout stride groups : nat) (deploy : bool)
  (v v' : block_values) (b : RepVGGBlock) :
  new_RepVGGBlock cin cout 3 stride 1 1 groups deploy v = Some b ->
  new_RepVGGBlock cin cout 3 stride 1 1 groups deploy (loaded_values v v')
  = Some (load_block_values v' b).
Proof.
  destruct deploy; intros Hb.
  - apply new_block_deploy_inv in Hb. destruct Hb as (Hg & Hci & Hco & ->).
    unfold new_RepVGGBlock, new_Conv2d. simpl.
    apply Nat.ltb_lt in Hg. apply Nat.eqb_eq in Hci, Hco. rewrite Hg, Hci, Hco.
    reflexivity.
  - apply new_block_training_inv in Hb. destruct Hb as (Hg & Hci & Hco & ->).
    rewrite new_block_training.
    apply Nat.ltb_lt in Hg. apply Nat.eqb_eq in Hci, Hco. rewrite Hg, Hci, Hco.
    cbn [andb]. f_equal. unfold load_block_values, identity_of.
    destruct ((cout =? cin) && (stride =? 1)); reflexivity.
Qed.

Lemma new_block_loaded (idx inp planes : Z) (stride : nat) (groups : Z) (b : RepVGGBlock) :
  new_block self idx inp planes stride groups = Some b ->
  new_block loaded_self idx inp planes stride groups
  = Some (load_block_values (vals idx) b).
Proof.
  unfold new_block.
  destruct (as_count inp) as [i|]; [|discriminate].
  destruct (as_count planes) as [o|]; [|discriminate].
  destruct (as_count groups) as [g|]; [|discriminate].
  cbn [obind loaded_self self_deploy self_values]. apply load_block_rebuilt.
Qed.

Lemma make_stage_loop_loaded (planes : Z) (strides : list nat) :
  forall (inp idx : Z) (acc blocks : list RepVGGBlock) (st : Z * Z),
    make_stage_loop self planes strides (inp, idx) acc = Some (blocks, st) ->
    exists new : list RepVGGBlock,
      blocks = acc ++ new /\
      length new = length strides /\
      snd st = (idx + Z.of_nat (length strides))%Z /\
      forall acc' : list RepVGGBlock,
        make_stage_loop loaded_self planes strides (inp, idx) acc'
        = Some (acc' ++ load_blocks vals idx new, st).
Proof.
  induction strides as [|s strides IH]; intros inp idx acc blocks st H.
  - simpl in H. injection H as <- <-. exists [].
    rewrite app_nil_r. cbn [snd length]. rewrite Z.add_0_r.
    repeat split. intros acc'. simpl. rewrite app_nil_r. reflexivity.
  - cbn [make_stage_loop fst snd] in H.
    destruct (new_block self idx inp planes s (cur_groups self idx)) as [b|] eqn:Eb;
      [|discriminate].
    cbn [obind] in H. apply IH in H. destruct H as (new & -> & Hlen & Hst & Hload).
    exists (b :: new). rewrite <- app_assoc. split; [reflexivity|].
    split; [simpl; rewrite Hlen; reflexivity|].
    split; [rewrite Hst; simpl length; lia|].
    intros acc'. cbn [make_stage_loop fst snd load_blocks].
    change (cur_groups loaded_self idx) with (cur_groups self idx).
    rewrite (new_block_loaded _ _ _ _ _ _ Eb). cbn [obind].
    rewrite Hload. rewrite <- app_assoc. reflexivity.
Qed.

(** A backbone after a load is the backbone lines 92-108 build from the
    values loaded. *)
Lemma backbone_loaded (num_blocks : list Z) (width_multiplier : list Q)
  (bb : REPVGGBackbone) :
  new_REPVGGBackbone num_blocks width_multiplier self = Some bb ->
  new_REPVGGBackbone num_blocks width_multiplier loaded_self
  = Some (load_values vals bb).
Proof.
  unfold new_REPVGGBackbone. intros H.
  destruct (negb (length width_multiplier =? 4)); [discriminate|].
  change (self_override_groups_map loaded_self 0%Z)
    with (self_override_groups_map self 0%Z).
  destruct (self_override_groups_map self 0%Z); [discriminate|].
  destruct (nth_error width_multiplier 0) as [w0|]; [|discriminate].
  cbn [obind] in *.
  destruct (new_block self 0 3 (Z.min 64 (scaled 64 w0)) 1 1) as [s0|] eqn:E0;
    [|discriminate].
  rewrite (new_block_loaded _ _ _ _ _ _ E0).
  cbn [obind] in *.
  destruct (nth_error num_blocks 0) as [n0|]; [|discriminate].
  cbn [obind] in *. unfold _make_stage in *.
  match type of H with
  | obind (make_stage_loop self ?p ?s (?i, ?k) []) _ = _ =>
      destruct (make_stage_loop self p s (i, k) []) as [[b1 st1]|] eqn:E1; [|discriminate]
  end.
  destruct (make_stage_loop_loaded _ _ _ _ _ _ _ E1) as (new1 & -> & L1 & S1 & ->).
  cbn [obind snd fst app] in *.
  destruct (nth_error width_multiplier 1) as [w1|]; [|discriminate].
  cbn [obind] in *.
  destruct (nth_error num_blocks 1) as [n1|]; [|discriminate].
  cbn [obind] in *. destruct st1 as [p1 k1]. cbn [snd] in S1.
  match type of H with
  | obind (make_stage_loop self ?p ?s (?i, ?k) []) _ = _ =>
      destruct (make_stage_loop self p s (i, k) []) as [[b2 st2]|] eqn:E2; [|discriminate]
  end.
  destruct (make_stage_loop_loaded _ _ _ _ _ _ _ E2) as (new2 & -> & L2 & S2 & ->).
  cbn [obind snd fst app] in *.
  destruct (nth_error width_multiplier 2) as [w2|]; [|discriminate].
  cbn [obind] in *.
  destruct (nth_error num_blocks 2) as [n2|]; [|discriminate].
  cbn [obind] in *. destruct st2 as [p2 k2]. cbn [snd] in S2.
  match type of H with
  | obind (make_stage_loop self ?p ?s (?i, ?k) []) _ = _ =>
      destruct (make_stage_loop self p s (i, k) []) as [[b3 st3]|] eqn:E3; [|discriminate]
  end.
  destruct (make_stage_loop_loaded _ _ _ _ _ _ _ E3) as (new3 & -> & L3 & S3 & ->).
  cbn [obind snd fst app] in *.
  destruct (nth_error width_multiplier 3) as [w3|]; [|discriminate].
  cbn [obind] in *.
  destruct (nth_error num_blocks 3) as [n3|]; [|discriminate].
  cbn [obind] in *. destruct st3 as [p3 k3]. cbn [snd] in S3.
  match type of H with
  | obind (make_stage_loop self ?p ?s (?i, ?k) []) _ = _ =>
      destruct (make_stage_loop self p s (i, k) []) as [[b4 st4]|] eqn:E4; [|discriminate]
  end.
  destruct (make_stage_loop_loaded _ _ _ _ _ _ _ E4) as (new4 & -> & L4 & S4 & ->).
  cbn [obind snd fst app] in *.
  injection H as <-. unfold load_values.
  cbn [stage0 stage1 stage2 stage3 stage4 cur_layer_idx].
  rewrite <- L1 in S1. rewrite <- L2 in S2. rewrite <- L3 in S3.
  rewrite <- S1, <- S2, <- S3. reflexivity.
Qed.

End Pretrained.

(** A backbone that [__init__] returns has the blocks that lines 92-108
    build, for some values of the parameters. *)
Lemma init_built (t : RepVGG.torch) (num_blocks : list Z) (width_multiplier : list Q)
  (self : RepVGG.backbone_self) (pretrained : bool) (bb : RepVGG.REPVGGBackbone) :
  RepVGG.REPVGGBackbone_init t num_blocks width_multiplier self pretrained = Some bb ->
  exists values : Z -> RepVGG.block_values,
    RepVGG.new_REPVGGBackbone num_blocks width_multiplier
      (RepVGG.mk_backbone_self (RepVGG.self_deploy self)
         (RepVGG.self_override_groups_map self) values) = Some bb.
Proof.
  unfold RepVGG.REPVGGBackbone_init. intros H.
  destruct (RepVGG.new_REPVGGBackbone num_blocks width_multiplier self) as [bb0|] eqn:E;
    [|discriminate].
  cbn [obind] in H. destruct pretrained.
  - destruct (RepVGG.load_pre_trained_weights t bb0) as [vals|]; [|discriminate].
    cbn [obind] in H. injection H as <-.
    eexists. exact (backbone_loaded self vals _ _ _ E).
  - injection H as <-. exists (RepVGG.self_values self).
    destruct self. exact E.
Qed.




(** ** models/repvgg_backbone.py: the conversion of a backbone *)

Section Agreement.

Import RepVGG.

(** Two arrays of one shape with the same entries within the bounds. *)
Definition agree (a b : ndarray) : Prop :=
  shape a = shape b /\
  forall idx, in_bounds (shape a) idx = true -> elt a idx = elt b idx.

Lemma agree_refl (a : ndarray) : agree a a.
Proof. split; auto. Qed.

Lemma in_bounds4_inv (a b c d : nat) (idx : list nat) :
  in_bounds [a; b; c; d] idx = true ->
  exists n o i j, idx = [n; o; i; j] /\ n < a /\ o < b /\ i < c /\ j < d.
Proof.
  destruct idx as [|n [|o [|i [|j [|]]]]]; simpl; try discriminate;
    rewrite ?andb_false_r; try discriminate.
  intros H.
  repeat (apply andb_prop in H; destruct H as [? H]).
  exists n, o, i, j.
  repeat match goal with
         | H : (_ <? _) = true |- _ => apply Nat.ltb_lt in H
         end.
  auto.
Qed.

Lemma padded_agree (x x' : ndarray) (N C H W p n c a b : nat) :
  agree x x' -> shape x = [N; C; H; W] -> n < N -> c < C ->
  padded x H W p n c a b = padded x' H W p n c a b.
Proof.
  intros [_ Hv] Hx Hn Hc. unfold padded.
  destruct ((p <=? a) && (a <? p + H) && (p <=? b) && (b <? p + W)) eqn:E;
    [|reflexivity].
  repeat (apply andb_prop in E; destruct E as [E ?]).
  apply Nat.leb_le in E.
  repeat match goal with
         | H : (_ <? _) = true |- _ => apply Nat.ltb_lt in H
         | H : (_ <=? _) = true |- _ => apply Nat.leb_le in H
         end.
  apply Hv. rewrite Hx. apply in_bounds4; lia.
Qed.

(** The input channel a kernel entry meets is a channel of the input. *)
Lemma met_channel_bound (Co Ig g o c : nat) :
  0 < g -> Co mod g = 0 -> o < Co -> c < Ig ->
  o / (Co / g) * Ig + c < Ig * g.
Proof.
  intros Hg Hm Ho Hc.
  assert (E : Co = g * (Co / g)) by (apply Nat.Div0.div_exact; exact Hm).
  assert (Hq : 0 < Co / g) by (destruct (Co / g); lia).
  assert (Hlt : o / (Co / g) < g).
  { apply Nat.Div0.div_lt_upper_bound. lia. }
  nia.
Qed.

(** [nn.Conv2d] reads a batch within the bounds only. *)
Lemma conv_forward_agree (m : Conv2d) (x x' y : ndarray) (N C H W : nat) :
  shape x = [N; C; H; W] ->
  conv_forward m x = Some y -> agree x x' ->
  exists y', conv_forward m x' = Some y' /\ agree y y'.
Proof.
  intros Hx Hy Hag.
  assert (Hx' : shape x' = [N; C; H; W]) by (rewrite <- (proj1 Hag); exact Hx).
  rewrite (conv_forward_batch m x N C H W Hx) in Hy.
  rewrite (conv_forward_batch m x' N C H W Hx').
  destruct (conv_batched_some m x y Hy)
    as (N0 & C0 & H0 & W0 & Co & Ig & kh & kw & Hx0 & Hw & Hg & Hs & Hd & HC & HCo & Hh
        & Hwd & Hys & HCo_pos & Hb).
  rewrite Hx in Hx0. injection Hx0 as <- <- <- <-.
  destruct (conv_batched_value m x N C H W Co Ig kh kw Hx Hw HCo_pos Hg Hs Hd HC HCo
              Hh Hwd Hb)
    as (y0 & Hy0 & _ & Hv).
  rewrite Hy in Hy0. injection Hy0 as <-.
  destruct (conv_batched_value m x' N C H W Co Ig kh kw Hx' Hw HCo_pos Hg Hs Hd HC HCo
              Hh Hwd Hb)
    as (y' & Hy' & Hys' & Hv').
  exists y'. split; [exact Hy'|].
  split; [congruence|].
  intros idx Hidx. rewrite Hys in Hidx.
  apply in_bounds4_inv in Hidx.
  destruct Hidx as (n & o & i & j & -> & Hn & Ho & _ & _).
  assert (HoCo : o < Co) by (destruct (C =? 0); lia).
  rewrite Hv, Hv'. f_equal.
  apply sum_upto_ext. intros c Hc.
  apply sum_upto_ext. intros ki _.
  apply sum_upto_ext. intros kj _.
  f_equal. apply (padded_agree x x' N C H W); try assumption.
  rewrite HC. apply met_channel_bound; assumption.
Qed.

(** A block without groups, with at least one input and one output
    channel, and the block in deploy form that is given its converted kernel
    and bias: on inputs that agree, outputs that agree. *)
Lemma converted_block_agrees (cin cout stride : nat) (v v' : block_values)
  (x x' : ndarray) (N H W : nat) :
  0 < cin -> 0 < cout ->
  0 < stride ->
  shape x = [N; cin; H; W] -> 0 < H -> 0 < W ->
  agree x x' ->
  exists (K B y y' : ndarray),
    repvgg_convert (Training 1 cin (identity_of cin cout stride v)
                      (dense_of cin cout stride 1 v) (one_of cin cout stride 1 v))
    = Some (K, B) /\
    forward (Training 1 cin (identity_of cin cout stride v)
               (dense_of cin cout stride 1 v) (one_of cin cout stride 1 v)) x = Some y /\
    forward (load_converted
               (Deploy 1 cin
                  (mk_Conv2d cin cout 3 stride 1 1 1
                     (mk_nd [cout; cin / 1; 3; 3] (v_reparam_weight v'))
                     (Some (mk_nd [cout] (v_reparam_bias v'))))) K B) x' = Some y' /\
    agree y y' /\
    shape y = [N; cout; conv_out_size H 3 stride 1 1; conv_out_size W 3 stride 1 1].
Proof.
  intros Hcin Hcout Hs Hx HH HW Hag.
  destruct (conversion_preserves cin cout stride 1 v x N H W Nat.lt_0_1 Hs
              (Nat.mod_1_r cin) (Nat.mod_1_r cout) Hcin Hcout Hx HH HW
              (or_intror eq_refl))
    as (K & B & dep & y0 & y1 & HKB & Hdep & Hy0 & Hy1 & Hys0 & Hys1 & Heq).
  apply new_block_deploy_inv in Hdep. destruct Hdep as (_ & _ & _ & ->).
  unfold load_converted, with_weights in *.
  cbn [conv_in conv_out conv_kernel conv_stride conv_padding conv_dilation
         conv_groups] in *.
  unfold pre_activation in Hy1.
  destruct (conv_forward_agree _ x x' y1 N cin H W Hx Hy1 Hag) as (y1' & Hy1' & Hag1).
  exists K, B, (relu y0), (relu y1').
  split; [exact HKB|].
  split; [unfold forward; rewrite Hy0; reflexivity|].
  split; [unfold forward, pre_activation; rewrite Hy1'; reflexivity|].
  split; [|exact Hys0].
  split.
  - simpl. rewrite Hys0, <- (proj1 Hag1), Hys1. reflexivity.
  - intros idx Hidx. cbn [relu shape elt] in *. f_equal.
    rewrite <- (proj2 Hag1) by (rewrite Hys1, <- Hys0; exact Hidx).
    rewrite Hys0 in Hidx. apply in_bounds4_inv in Hidx.
    destruct Hidx as (n & o & i & j & -> & Hn & Ho & Hi & Hj).
    symmetry. apply Heq; assumption.
Qed.

End Agreement.


Section ModelConversion.

Import RepVGG.

Variable groups_map : Z -> option Z.
Hypothesis no_groups : forall i, groups_map i = None.
Variables values values' : Z -> block_values.

Let self : backbone_self := mk_backbone_self false groups_map values.
Let self' : backbone_self := mk_backbone_self true groups_map values'.

Lemma training_block_form (idx inp planes : Z) (s : nat) (b : RepVGGBlock) :
  new_block self idx inp planes s (cur_groups self idx) = Some b ->
  b = Training 1 (Z.to_nat inp)
        (identity_of (Z.to_nat inp) (Z.to_nat planes) s (values idx))
        (dense_of (Z.to_nat inp) (Z.to_nat planes) s 1 (values idx))
        (one_of (Z.to_nat inp) (Z.to_nat planes) s 1 (values idx)).
Proof.
  unfold cur_groups. cbn [self self_override_groups_map]. rewrite no_groups.
  intros H. apply new_block_inv in H. destruct H as (_ & _ & _ & H).
  cbn [self self_deploy self_values] in H. change (Z.to_nat 1) with 1 in H.
  apply new_block_training_inv in H. tauto.
Qed.

Lemma deploy_block_form (idx inp planes : Z) (s : nat) (d : RepVGGBlock) :
  new_block self' idx inp planes s (cur_groups self' idx) = Some d ->
  d = Deploy 1 (Z.to_nat inp)
        (mk_Conv2d (Z.to_nat inp) (Z.to_nat planes) 3 s 1 1 1
           (mk_nd [Z.to_nat planes; Z.to_nat inp / 1; 3; 3] (v_reparam_weight (values' idx)))
           (Some (mk_nd [Z.to_nat planes] (v_reparam_bias (values' idx))))).
Proof.
  unfold cur_groups. cbn [self' self_override_groups_map]. rewrite no_groups.
  intros H. apply new_block_inv in H. destruct H as (_ & _ & _ & H).
  cbn [self' self_deploy self_values] in H. change (Z.to_nat 1) with 1 in H.
  apply new_block_deploy_inv in H. tauto.
Qed.

(** The blocks of the deploy model after lines 158-160. *)
Definition loaded (ds : list RepVGGBlock) (kbs : list (ndarray * ndarray))
  : list RepVGGBlock :=
  map (fun dk => load_converted (fst dk) (fst (snd dk)) (snd (snd dk))) (combine ds kbs).

Definition is_deploy (b : RepVGGBlock) : Prop :=
  match b with
  | Deploy _ _ _ => True
  | Training _ _ _ _ _ => False
  end.

(** A stage of the model in training form and the stage of the deploy
    model built with the same arguments. *)
Lemma stage_converted (planes : Z) (strides : list nat) :
  Forall (fun s => 0 < s) strides ->
  forall (inp idx : Z) (bs ds : list RepVGGBlock),
    stage_built self planes strides inp idx bs ->
    stage_built self' planes strides inp idx ds ->
    exists kbs : list (ndarray * ndarray),
      omap repvgg_convert bs = Some kbs /\
      length kbs = length ds /\
      Forall is_deploy ds /\
      forall (x x' : ndarray) (N H W : nat),
        (0 < inp)%Z -> (0 < planes)%Z ->
        shape x = [N; Z.to_nat inp; H; W] -> 0 < H -> 0 < W -> agree x x' ->
        exists y y',
          sequential bs x = Some y /\
          sequential (loaded ds kbs) x' = Some y' /\
          agree y y' /\
          shape y = [N; Z.to_nat (match strides with [] => inp | _ => planes end);
                     downs strides H; downs strides W].
Proof.
  induction 1 as [|s strides Hs _ IH]; intros inp idx [|b bs] [|d ds] Hb Hd;
    simpl in Hb, Hd; try contradiction.
  - exists []. split; [reflexivity|]. split; [reflexivity|]. split; [constructor|].
    intros x x' N H W _ _ Hx HH HW Hag. exists x, x'. auto.
  - destruct Hb as [Hb Hbs]. destruct Hd as [Hd Hds].
    apply training_block_form in Hb. apply deploy_block_form in Hd. subst b d.
    destruct (IH planes (idx + 1)%Z bs ds Hbs Hds) as (kbs & Hk & Hlen & Hdep & Hfwd).
    destruct (convert_spec (Z.to_nat inp) (Z.to_nat planes) s 1 (values idx)
                (or_intror eq_refl)) as (K & B & HKB & _).
    exists ((K, B) :: kbs).
    split; [cbn [omap]; rewrite HKB; cbn [obind]; rewrite Hk; reflexivity|].
    split; [simpl; rewrite Hlen; reflexivity|].
    split; [constructor; [exact I | exact Hdep]|].
    intros x x' N H W Hi Hp Hx HH HW Hag.
    destruct (converted_block_agrees (Z.to_nat inp) (Z.to_nat planes) s
                (values idx) (values' idx) x x' N H W ltac:(lia) ltac:(lia)
                Hs Hx HH HW Hag)
      as (K0 & B0 & y & y' & HKB0 & Hy & Hy' & Hag1 & Hys).
    rewrite HKB in HKB0. injection HKB0 as <- <-.
    destruct (Hfwd y y' N _ _ Hp Hp Hys (conv_out_size_pos _ _ _ _ _)
                (conv_out_size_pos _ _ _ _ _) Hag1) as (z & z' & Hz & Hz' & Hag2 & Hzs).
    exists z, z'.
    split; [cbn [sequential]; rewrite Hy; exact Hz|].
    split.
    { unfold loaded. cbn [combine map fst snd sequential].
      rewrite Hy'. exact Hz'. }
    split; [exact Hag2|].
    rewrite Hzs. destruct strides; reflexivity.
Qed.

(** *** The dict of the converted weights *)

Definition tagged {X : Type} (k s : nat) (l : list X) : list ((nat * nat) * X) :=
  combine (map (pair k) (seq s (length l))) l.

Lemma tagged_cons {X : Type} (k s : nat) (a : X) (l : list X) :
  tagged k s (a :: l) = ((k, s), a) :: tagged k (S s) l.
Proof. reflexivity. Qed.

Lemma tagged_fst {X : Type} (k s : nat) (l : list X) (e : (nat * nat) * X) :
  In e (tagged k s l) -> fst (fst e) = k.
Proof.
  revert s. induction l as [|a l IH]; intros s; [intros []|].
  rewrite tagged_cons. intros [<-|H]; [reflexivity | exact (IH _ H)].
Qed.

Lemma omap_app {X Y : Type} (f : X -> option Y) (a b : list X) (ya yb : list Y) :
  omap f a = Some ya -> omap f b = Some yb -> omap f (a ++ b) = Some (ya ++ yb).
Proof.
  revert ya. induction a as [|x a IH]; intros ya Ha Hb.
  - injection Ha as <-. exact Hb.
  - simpl in Ha. destruct (f x) as [y|] eqn:E; [|discriminate].
    destruct (omap f a) as [ys|]; [|discriminate].
    simpl in Ha. injection Ha as <-.
    simpl. rewrite E. simpl. rewrite (IH ys eq_refl Hb). reflexivity.
Qed.

Lemma omap_convert_tagged (k : nat) (bs : list RepVGGBlock) :
  forall (kbs : list (ndarray * ndarray)) (s : nat),
    omap repvgg_convert bs = Some kbs ->
    omap (fun nb => kb <- repvgg_convert (snd nb) ;; Some (fst nb, kb)) (tagged k s bs)
    = Some (tagged k s kbs).
Proof.
  induction bs as [|b bs IH]; intros kbs s H.
  - injection H as <-. reflexivity.
  - simpl in H. destruct (repvgg_convert b) as [kb|] eqn:E; [|discriminate].
    destruct (omap repvgg_convert bs) as [kbs'|]; [|discriminate].
    simpl in H. injection H as <-.
    rewrite !tagged_cons. cbn [omap snd fst]. rewrite E. cbn [obind].
    rewrite (IH kbs' (S s) eq_refl). reflexivity.
Qed.

Lemma lookup_tagged (k : nat) (rest : list ((nat * nat) * (ndarray * ndarray))) :
  forall (kbs : list (ndarray * ndarray)) (s i : nat) (kb : ndarray * ndarray),
    nth_error kbs i = Some kb ->
    lookup (k, s + i) (tagged k s kbs ++ rest) = Some kb.
Proof.
  induction kbs as [|kb0 kbs IH]; intros s i kb H; [destruct i; discriminate|].
  rewrite tagged_cons. cbn [app lookup]. unfold name_eqb. cbn [fst snd].
  rewrite Nat.eqb_refl. cbn [andb].
  destruct i as [|i]; simpl in H.
  - injection H as <-. rewrite Nat.add_0_r, Nat.eqb_refl. reflexivity.
  - replace (s + S i =? s) with false by (symmetry; apply Nat.eqb_neq; lia).
    replace (s + S i) with (S s + i) by lia. apply IH, H.
Qed.

Lemma lookup_other (k i : nat) (pre rest : list ((nat * nat) * (ndarray * ndarray))) :
  (forall e, In e pre -> fst (fst e) <> k) ->
  lookup (k, i) (pre ++ rest) = lookup (k, i) rest.
Proof.
  induction pre as [|[n kb] pre IH]; intros H; [reflexivity|].
  cbn [app lookup]. unfold name_eqb. cbn [fst snd].
  assert (Hn : fst n <> k) by (apply (H (n, kb)); left; reflexivity).
  replace (k =? fst n) with false by (symmetry; apply Nat.eqb_neq; congruence).
  cbn [andb]. apply IH. intros e He. apply H. right. exact He.
Qed.

Lemma load_tagged (k : nat) (cw : list ((nat * nat) * (ndarray * ndarray))) :
  forall (ds : list RepVGGBlock) (kbs : list (ndarray * ndarray)) (s : nat),
    length kbs = length ds ->
    Forall is_deploy ds ->
    (forall i kb, nth_error kbs i = Some kb -> lookup (k, s + i) cw = Some kb) ->
    omap (load_block cw) (tagged k s ds) = Some (loaded ds kbs).
Proof.
  induction ds as [|d ds IH]; intros [|kb kbs] s Hlen Hdep Hlook; try discriminate.
  - reflexivity.
  - inversion Hdep as [|? ? Hd Hds]; subst.
    rewrite tagged_cons. cbn [omap]. unfold load_block at 1. cbn [fst snd].
    destruct d as [g c m|]; [|contradiction].
    pose proof (Hlook 0 kb eq_refl) as H0. rewrite Nat.add_0_r in H0.
    rewrite H0. cbn [obind].
    rewrite (IH kbs (S s)).
    + reflexivity.
    + simpl in Hlen. lia.
    + exact Hds.
    + intros i kb' Hi. replace (S s + i) with (s + S i) by lia.
      apply Hlook. exact Hi.
Qed.

End ModelConversion.


Section ModelConversionWhole.

Import RepVGG.

Lemma lookup_stage (k : nat) (cw pre post : list ((nat * nat) * (ndarray * ndarray)))
  (kbs : list (ndarray * ndarray)) :
  cw = pre ++ tagged k 0 kbs ++ post ->
  (forall e, In e pre -> fst (fst e) <> k) ->
  forall i kb, nth_error kbs i = Some kb -> lookup (k, 0 + i) cw = Some kb.
Proof.
  intros -> Hpre i kb Hi.
  rewrite lookup_other by exact Hpre.
  apply lookup_tagged, Hi.
Qed.

Lemma stage_strides (n : nat) : Forall (fun s => 0 < s) (2 :: repeat 1 n).
Proof.
  constructor; [lia|]. apply Forall_forall. intros s Hs.
  apply repeat_spec in Hs. lia.
Qed.

End ModelConversionWhole.

(** The conversion of the blocks that lines 92-108 build, without
    overridden groups, into the blocks built in deploy form from the same
    arguments. *)
Lemma converted_backbone_core (num_blocks : list Z) (width_multiplier : list Q)
  (groups_map : Z -> option Z) (values values' : Z -> RepVGG.block_values)
  (model : RepVGG.REPVGGBackbone) :
  (forall i, groups_map i = None) ->
  RepVGG.new_REPVGGBackbone num_blocks width_multiplier
    (RepVGG.mk_backbone_self false groups_map values) = Some model ->
  exists deploy_model : RepVGG.REPVGGBackbone,
    RepVGG.repvgg_model_convert model
      (fun deploy =>
         RepVGG.new_REPVGGBackbone num_blocks width_multiplier
           (RepVGG.mk_backbone_self deploy groups_map values'))
    = Some deploy_model /\
    forall (x : RepVGG.ndarray) (N H W : nat),
      stage_channels_positive width_multiplier ->
      RepVGG.shape x = [N; 3; H; W] -> 0 < H -> 0 < W ->
      exists out1 out2 out1' out2' : RepVGG.ndarray,
        RepVGG.backbone_forward model x = Some (out1, out2) /\
        RepVGG.backbone_forward deploy_model x = Some (out1', out2') /\
        agree out1 out1' /\ agree out2 out2'.
Proof.
  intros Hmap Hmodel.
  set (self := RepVGG.mk_backbone_self false groups_map values) in *.
  set (self' := RepVGG.mk_backbone_self true groups_map values').
  destruct (backbone_built_only_if _ _ _ _ Hmodel)
    as (Hlw & Hln & Hp0 & Hp1 & Hp2 & Hp3).
  destruct (backbone_plain_built num_blocks width_multiplier self' Hmap
              Hlw Hln Hp0 Hp1 Hp2 Hp3) as [dm Hdm].
  pose proof (backbone_inv self _ _ _ Hmodel) as Hm.
  destruct Hm as (w0 & w1 & w2 & w3 & n0 & n1 & n2 & n3 & Hw & Hn & _ & Hm).
  cbv zeta in Hm. destruct Hm as (S0 & S1 & S2 & S3 & S4 & _).
  pose proof (backbone_inv self' _ _ _ Hdm) as Hd.
  destruct Hd as (w0' & w1' & w2' & w3' & n0' & n1' & n2' & n3' & Hw' & Hn' & _ & Hd).
  cbv zeta in Hd. destruct Hd as (D0 & D1 & D2 & D3 & D4 & _).
  rewrite Hw in Hw'. injection Hw' as <- <- <- <-.
  rewrite Hn in Hn'. injection Hn' as <- <- <- <-.
  (* the first block *)
  apply new_block_inv in S0. destruct S0 as (_ & Hin & _ & S0).
  apply new_block_inv in D0. destruct D0 as (_ & _ & _ & D0).
  change (Z.to_nat 3) with 3 in S0, D0. change (Z.to_nat 1) with 1 in S0, D0.
  cbn [self self' RepVGG.self_deploy RepVGG.self_values] in S0, D0.
  apply new_block_training_inv in S0. destruct S0 as (_ & _ & _ & S0).
  apply new_block_deploy_inv in D0. destruct D0 as (_ & _ & _ & D0).
  set (p := Z.to_nat (Z.min 64 (RepVGG.scaled 64 w0))) in *.
  destruct (convert_spec 3 p 1 1 (values 0%Z) (or_intror eq_refl))
    as (K0 & B0 & HKB0 & _).
  (* the stages *)
  destruct (stage_converted groups_map Hmap values values' _ _ (stage_strides _)
              _ _ _ _ S1 D1) as (k1 & Hk1 & Hl1 & Hd1 & F1).
  destruct (stage_converted groups_map Hmap values values' _ _ (stage_strides _)
              _ _ _ _ S2 D2) as (k2 & Hk2 & Hl2 & Hd2 & F2).
  destruct (stage_converted groups_map Hmap values values' _ _ (stage_strides _)
              _ _ _ _ S3 D3) as (k3 & Hk3 & Hl3 & Hd3 & F3).
  destruct (stage_converted groups_map Hmap values values' _ _ (stage_strides _)
              _ _ _ _ S4 D4) as (k4 & Hk4 & Hl4 & Hd4 & F4).
  set (cw := ((0, 0), (K0, B0))
             :: tagged 1 0 k1 ++ tagged 2 0 k2 ++ tagged 3 0 k3 ++ tagged 4 0 k4).
  assert (Hcw : RepVGG.convert_all model = Some cw).
  { unfold RepVGG.convert_all, RepVGG.named_blocks. cbn [omap snd fst].
    rewrite S0, HKB0. cbn [obind].
    change (RepVGG.indexed 1 (RepVGG.stage1 model))
      with (tagged 1 0 (RepVGG.stage1 model)).
    change (RepVGG.indexed 2 (RepVGG.stage2 model))
      with (tagged 2 0 (RepVGG.stage2 model)).
    change (RepVGG.indexed 3 (RepVGG.stage3 model))
      with (tagged 3 0 (RepVGG.stage3 model)).
    change (RepVGG.indexed 4 (RepVGG.stage4 model))
      with (tagged 4 0 (RepVGG.stage4 model)).
    rewrite (omap_app _ _ _ (tagged 1 0 k1) (tagged 2 0 k2 ++ tagged 3 0 k3 ++ tagged 4 0 k4)).
    - reflexivity.
    - apply omap_convert_tagged, Hk1.
    - apply omap_app; [apply omap_convert_tagged, Hk2|].
      apply omap_app; apply omap_convert_tagged; assumption. }
  assert (L1 : forall i kb, nth_error k1 i = Some kb ->
                            RepVGG.lookup (1, 0 + i) cw = Some kb).
  { apply (lookup_stage 1 cw [((0, 0), (K0, B0))]
             (tagged 2 0 k2 ++ tagged 3 0 k3 ++ tagged 4 0 k4)); [reflexivity|].
    intros e [<-|[]]. discriminate. }
  assert (L2 : forall i kb, nth_error k2 i = Some kb ->
                            RepVGG.lookup (2, 0 + i) cw = Some kb).
  { apply (lookup_stage 2 cw (((0, 0), (K0, B0)) :: tagged 1 0 k1)
             (tagged 3 0 k3 ++ tagged 4 0 k4)); [reflexivity|].
    intros e [<-|He]; [discriminate|].
    apply tagged_fst in He. rewrite He. discriminate. }
  assert (L3 : forall i kb, nth_error k3 i = Some kb ->
                            RepVGG.lookup (3, 0 + i) cw = Some kb).
  { apply (lookup_stage 3 cw (((0, 0), (K0, B0)) :: tagged 1 0 k1 ++ tagged 2 0 k2)
             (tagged 4 0 k4)).
    - unfold cw. cbn [app]. rewrite <- app_assoc. reflexivity.
    - intros e [<-|He]; [discriminate|].
      apply in_app_or in He. destruct He as [He|He];
        apply tagged_fst in He; rewrite He; discriminate. }
  assert (L4 : forall i kb, nth_error k4 i = Some kb ->
                            RepVGG.lookup (4, 0 + i) cw = Some kb).
  { apply (lookup_stage 4 cw
             (((0, 0), (K0, B0)) :: tagged 1 0 k1 ++ tagged 2 0 k2 ++ tagged 3 0 k3) []).
    - unfold cw. cbn [app]. rewrite app_nil_r, <- !app_assoc. reflexivity.
    - intros e [<-|He]; [discriminate|].
      apply in_app_or in He. destruct He as [He|He];
        [apply tagged_fst in He; rewrite He; discriminate|].
      apply in_app_or in He. destruct He as [He|He];
        apply tagged_fst in He; rewrite He; discriminate. }
  eexists. split.
  - unfold RepVGG.repvgg_model_convert. rewrite Hcw. cbn [obind].
    fold self'. rewrite Hdm. cbn [obind].
    unfold RepVGG.load_block at 1. cbn [fst snd]. rewrite D0.
    change (RepVGG.lookup (0, 0) cw) with (Some (K0, B0)). cbn [obind fst snd].
    change (RepVGG.indexed 1 (RepVGG.stage1 dm)) with (tagged 1 0 (RepVGG.stage1 dm)).
    change (RepVGG.indexed 2 (RepVGG.stage2 dm)) with (tagged 2 0 (RepVGG.stage2 dm)).
    change (RepVGG.indexed 3 (RepVGG.stage3 dm)) with (tagged 3 0 (RepVGG.stage3 dm)).
    change (RepVGG.indexed 4 (RepVGG.stage4 dm)) with (tagged 4 0 (RepVGG.stage4 dm)).
    rewrite (load_tagged 1 cw _ k1 0 Hl1 Hd1 L1). cbn [obind].
    rewrite (load_tagged 2 cw _ k2 0 Hl2 Hd2 L2). cbn [obind].
    rewrite (load_tagged 3 cw _ k3 0 Hl3 Hd3 L3). cbn [obind].
    rewrite (load_tagged 4 cw _ k4 0 Hl4 Hd4 L4). cbn [obind].
    reflexivity.
  - intros x N H W (P0 & P1 & P2 & P3) Hx HH HW.
    rewrite Hw in P0, P1, P2, P3. cbn [nth] in P0, P1, P2, P3.
    assert (Pin : (0 < Z.min 64 (RepVGG.scaled 64 w0))%Z) by lia.
    assert (Hp : 0 < p) by (unfold p; lia).
    destruct (converted_block_agrees 3 p 1 (values 0%Z) (values' 0%Z) x x N H W
                ltac:(lia) Hp Nat.lt_0_1 Hx HH HW (agree_refl x))
      as (K & B & y0 & y0' & HKB & Hy0 & Hy0' & Hag0 & Hys0).
    rewrite HKB0 in HKB. injection HKB as <- <-.
    rewrite !conv_out_size_stride1 in Hys0 by assumption.
    assert (Hpos : forall n L, 0 < downs (2 :: repeat 1 n) L).
    { intros n L. rewrite downs_stage. unfold halve. lia. }
    destruct (F1 y0 y0' N H W Pin P0 Hys0 HH HW Hag0)
      as (y1 & y1' & Hy1 & Hy1' & Hag1 & Hys1).
    destruct (F2 y1 y1' N _ _ P0 P1 Hys1 (Hpos _ _) (Hpos _ _) Hag1)
      as (y2 & y2' & Hy2 & Hy2' & Hag2 & Hys2).
    destruct (F3 y2 y2' N _ _ P1 P2 Hys2 (Hpos _ _) (Hpos _ _) Hag2)
      as (o1 & o1' & Ho1 & Ho1' & Hag3 & Hys3).
    destruct (F4 o1 o1' N _ _ P2 P3 Hys3 (Hpos _ _) (Hpos _ _) Hag3)
      as (o2 & o2' & Ho2 & Ho2' & Hag4 & _).
    exists o1, o2, o1', o2'.
    unfold RepVGG.backbone_forward.
    cbn [RepVGG.stage0 RepVGG.stage1 RepVGG.stage2 RepVGG.stage3 RepVGG.stage4].
    rewrite S0, Hy0. cbn [obind]. rewrite Hy1. cbn [obind]. rewrite Hy2. cbn [obind].
    rewrite Ho1. cbn [obind]. rewrite Ho2. cbn [obind].
    rewrite Hy0'. cbn [obind]. rewrite Hy1'. cbn [obind]. rewrite Hy2'. cbn [obind].
    rewrite Ho1'. cbn [obind]. rewrite Ho2'. cbn [obind].
    repeat split; try reflexivity; try apply Hag3; try apply Hag4.
Qed.

(** [repvgg_model_convert] on a backbone in training form without
    overridden groups, built with or without pretrained weights, with a
    [build_func] that builds the backbone from the same arguments without
    pretrained weights: it returns the backbone in deploy form, each block
    of which carries the converted kernel and bias of the block of the same
    name; when every stage has at least one channel, the two backbones
    return, on every batch of non-empty images with 3 channels, feature maps
    of the same shapes with the same entries.  (The entries are real
    numbers.) *)
Theorem converted_backbone_agrees (t : RepVGG.torch) (num_blocks : list Z)
  (width_multiplier : list Q) (groups_map : Z -> option Z)
  (values values' : Z -> RepVGG.block_values) (pretrained : bool)
  (model : RepVGG.REPVGGBackbone) :
  (forall i, groups_map i = None) ->
  RepVGG.REPVGGBackbone_init t num_blocks width_multiplier
    (RepVGG.mk_backbone_self false groups_map values) pretrained = Some model ->
  exists deploy_model : RepVGG.REPVGGBackbone,
    RepVGG.repvgg_model_convert model
      (fun deploy =>
         RepVGG.REPVGGBackbone_init t num_blocks width_multiplier
           (RepVGG.mk_backbone_self deploy groups_map values') false)
    = Some deploy_model /\
    forall (x : RepVGG.ndarray) (N H W : nat),
      stage_channels_positive width_multiplier ->
      RepVGG.shape x = [N; 3; H; W] -> 0 < H -> 0 < W ->
      exists out1 out2 out1' out2' : RepVGG.ndarray,
        RepVGG.backbone_forward model x = Some (out1, out2) /\
        RepVGG.backbone_forward deploy_model x = Some (out1', out2') /\
        agree out1 out1' /\ agree out2 out2'.
Proof.
  intros Hmap Hmodel. apply init_built in Hmodel. destruct Hmodel as [values0 Hmodel].
  cbn [RepVGG.self_deploy RepVGG.self_override_groups_map] in Hmodel.
  destruct (converted_backbone_core num_blocks width_multiplier groups_map values0 values'
              model Hmap Hmodel) as (dm & Hdm & Hfwd).
  exists dm. split; [|exact Hfwd].
  rewrite <- Hdm. unfold RepVGG.repvgg_model_convert, RepVGG.REPVGGBackbone_init.
  destruct (RepVGG.convert_all model); [|reflexivity]. cbn [obind].
  destruct (RepVGG.new_REPVGGBackbone num_blocks width_multiplier
              (RepVGG.mk_backbone_self true groups_map values')); reflexivity.
Qed.

Lemma converted_backbone_agrees_witness :
  exists (model deploy_model : RepVGG.REPVGGBackbone)
         (out1 out2 out1' out2' : RepVGG.ndarray),
    RepVGG.REPVGGBackbone_init no_pretrained_file small_num_blocks
      small_width_multiplier
      (RepVGG.mk_backbone_self false RepVGG.no_override (fun _ => unit_values)) false
    = Some model /\
    RepVGG.repvgg_model_convert model
      (fun deploy =>
         RepVGG.REPVGGBackbone_init no_pretrained_file small_num_blocks
           small_width_multiplier
           (RepVGG.mk_backbone_self deploy RepVGG.no_override (fun _ => unit_values))
           false)
    = Some deploy_model /\
    RepVGG.backbone_forward model small_image
    = Some (out1, out2) /\
    RepVGG.backbone_forward deploy_model small_image
    = Some (out1', out2') /\
    RepVGG.elt out2' [0; 3; 0; 0] = RepVGG.elt out2 [0; 3; 0; 0].
Proof.
  destruct (RepVGG.REPVGGBackbone_init no_pretrained_file small_num_blocks
              small_width_multiplier
              (RepVGG.mk_backbone_self false RepVGG.no_override (fun _ => unit_values))
              false)
    as [model|] eqn:E; [|vm_compute in E; discriminate].
  destruct (converted_backbone_agrees no_pretrained_file _ _ RepVGG.no_override
              (fun _ => unit_values) (fun _ => unit_values) false model
              (fun _ => eq_refl) E) as (dm & Hdm & Hfwd).
  destruct (Hfwd small_image 1 5 5 small_channels_positive)
    as (o1 & o2 & o1' & o2' & Ho & Ho' & _ & [Hs Hv]); try reflexivity; try lia.
  exists model, dm, o1, o2, o1', o2'.
  split; [reflexivity|]. split; [exact Hdm|]. split; [exact Ho|]. split; [exact Ho'|].
  symmetry. apply Hv.
  apply init_built in E. destruct E as [values0 E].
  destruct (backbone_forward_returns _ _ _ model small_image
              1 5 5 E small_channels_positive) as (a1 & a2 & Ha & _ & Ha2);
    try reflexivity; try lia.
  rewrite Ho in Ha. injection Ha as <- <-. rewrite Ha2. reflexivity.
Defined.


(** [repvgg_model_convert] raises on a backbone that is in deploy form
    already, its blocks having no branch to fuse (AttributeError), and with
    a [build_func] that returns a backbone in training form, whose
    parameters have names that are no keys of the converted weights
    (KeyError). *)
Theorem model_convert_needs_forms (num_blocks : list Z) (width_multiplier : list Q)
  (self : RepVGG.backbone_self) (model : RepVGG.REPVGGBackbone)
  (build_func : bool -> option RepVGG.REPVGGBackbone) :
  RepVGG.new_REPVGGBackbone num_blocks width_multiplier self = Some model ->
  (RepVGG.self_deploy self = true ->
   RepVGG.repvgg_model_convert model build_func = None)
  /\
  (forall (num_blocks' : list Z) (width_multiplier' : list Q)
          (self' : RepVGG.backbone_self),
      RepVGG.self_deploy self' = false ->
      build_func true = RepVGG.new_REPVGGBackbone num_blocks' width_multiplier' self' ->
      RepVGG.repvgg_model_convert model build_func = None).
Proof.
  intros Hmodel. split.
  - intros Hdep. apply backbone_inv in Hmodel.
    destruct Hmodel as (w0 & w1 & w2 & w3 & n0 & n1 & n2 & n3 & _ & _ & _ & Hm).
    cbv zeta in Hm. destruct Hm as (S0 & _).
    apply new_block_inv in S0. destruct S0 as (_ & _ & _ & S0).
    rewrite Hdep in S0. apply new_block_deploy_inv in S0.
    destruct S0 as (_ & _ & _ & S0).
    unfold RepVGG.repvgg_model_convert, RepVGG.convert_all, RepVGG.named_blocks.
    cbn [omap snd]. rewrite S0. reflexivity.
  - intros nb' wm' self' Hdep Hbf.
    unfold RepVGG.repvgg_model_convert.
    destruct (RepVGG.convert_all model) as [cw|]; [|reflexivity].
    cbn [obind]. rewrite Hbf.
    destruct (RepVGG.new_REPVGGBackbone nb' wm' self') as [dm|] eqn:Edm; [|reflexivity].
    cbn [obind].
    apply backbone_inv in Edm.
    destruct Edm as (w0 & w1 & w2 & w3 & n0 & n1 & n2 & n3 & _ & _ & _ & Hm).
    cbv zeta in Hm. destruct Hm as (S0 & _).
    apply new_block_inv in S0. destruct S0 as (_ & _ & _ & S0).
    rewrite Hdep in S0. apply new_block_training_inv in S0.
    destruct S0 as (_ & _ & _ & S0).
    unfold RepVGG.load_block at 1. cbn [snd]. rewrite S0. reflexivity.
Qed.

Lemma model_convert_needs_forms_witness :
  exists model : RepVGG.REPVGGBackbone,
    RepVGG.new_REPVGGBackbone small_num_blocks small_width_multiplier
      (RepVGG.mk_backbone_self true RepVGG.no_override (fun _ => unit_values))
    = Some model /\
    RepVGG.repvgg_model_convert model (fun _ => Some model) = None.
Proof.
  destruct (RepVGG.new_REPVGGBackbone small_num_blocks small_width_multiplier
              (RepVGG.mk_backbone_self true RepVGG.no_override (fun _ => unit_values)))
    as [model|] eqn:E; [|vm_compute in E; discriminate].
  exists model. split; [reflexivity|].
  apply (proj1 (model_convert_needs_forms _ _ _ model (fun _ => Some model) E)).
  reflexivity.
Defined.


Section GroupedBackbone.

Import RepVGG.

Variable self : backbone_self.

Lemma stage_built_In (planes : Z) (strides : list nat) :
  forall (inp idx : Z) (bs : list RepVGGBlock) (b : RepVGGBlock),
    stage_built self planes strides inp idx bs ->
    In b bs ->
    exists (idx' inp' : Z) (s : nat),
      new_block self idx' inp' planes s (cur_groups self idx') = Some b.
Proof.
  induction strides as [|s strides IH]; intros inp idx [|b0 bs] b H Hin; simpl in H;
    try contradiction.
  destruct H as [Hb Hrest]. destruct Hin as [<-|Hin].
  - exists idx, inp, s. exact Hb.
  - exact (IH _ _ _ _ Hrest Hin).
Qed.

Lemma omap_none {X Y : Type} (f : X -> option Y) (l : list X) (x : X) :
  In x l -> f x = None -> omap f l = None.
Proof.
  induction l as [|a l IH]; intros Hin Hx; [destruct Hin|].
  simpl. destruct Hin as [->|Hin].
  - rewrite Hx. reflexivity.
  - destruct (f a); [|reflexivity]. simpl. rewrite (IH Hin Hx). reflexivity.
Qed.

Lemma In_tagged {X : Type} (k : nat) (l : list X) (x : X) :
  In x l -> forall s, exists i, In ((k, i), x) (tagged k s l).
Proof.
  induction l as [|a l IH]; intros Hin s; [destruct Hin|].
  rewrite tagged_cons. destruct Hin as [->|Hin].
  - exists s. left. reflexivity.
  - destruct (IH Hin (S s)) as [i Hi]. exists i. right. exact Hi.
Qed.

(** A block of a stage with the identity branch and groups is not
    converted, unless every group has one channel. *)
Lemma grouped_block_not_converted (idx inp planes : Z) (s : nat) (b : RepVGGBlock) :
  self_deploy self = false ->
  new_block self idx inp planes s (cur_groups self idx) = Some b ->
  has_identity b = true ->
  2 <= conv_groups (block_conv b) ->
  0 < conv_in (block_conv b) ->
  conv_in (block_conv b) / conv_groups (block_conv b) <> 1 ->
  repvgg_convert b = None.
Proof.
  intros Hdep Hb Hid Hg Hin Hone.
  apply new_block_inv in Hb. destruct Hb as (_ & _ & _ & Hb).
  rewrite Hdep in Hb. apply new_block_training_inv in Hb.
  destruct Hb as (_ & Hci & _ & ->).
  cbn [block_conv conv dense_of conv_groups conv_in has_identity] in *.
  unfold identity_of in *.
  destruct ((Z.to_nat planes =? Z.to_nat inp) && (s =? 1)) eqn:E; [|discriminate].
  apply andb_prop in E. destruct E as [E1 E2]. apply Nat.eqb_eq in E1, E2.
  rewrite E1, E2.
  apply (proj1 (convert_grouped_identity _ 1 _ _ Hin Hg Hci _ eq_refl)).
  exact Hone.
Qed.

End GroupedBackbone.

(** [repvgg_model_convert] raises on a backbone in training form one of
    whose stage blocks has the identity branch and overridden groups (2 or
    more, with more than one channel per group): line 87 cannot add the
    identity kernel of line 62, of [in_channels] input channels, to the
    kernels of the two convolutions, of [in_channels / groups] input
    channels. *)
Theorem grouped_backbone_not_converted (num_blocks : list Z) (width_multiplier : list Q)
  (self : RepVGG.backbone_self) (model : RepVGG.REPVGGBackbone)
  (build_func : bool -> option RepVGG.REPVGGBackbone) (b : RepVGG.RepVGGBlock) :
  RepVGG.new_REPVGGBackbone num_blocks width_multiplier self = Some model ->
  RepVGG.self_deploy self = false ->
  In b (RepVGG.stage1 model ++ RepVGG.stage2 model
        ++ RepVGG.stage3 model ++ RepVGG.stage4 model) ->
  RepVGG.has_identity b = true ->
  2 <= RepVGG.conv_groups (RepVGG.block_conv b) ->
  0 < RepVGG.conv_in (RepVGG.block_conv b) ->
  RepVGG.conv_in (RepVGG.block_conv b) / RepVGG.conv_groups (RepVGG.block_conv b) <> 1 ->
  RepVGG.repvgg_model_convert model build_func = None.
Proof.
  intros Hmodel Hdep Hin Hid Hg Hci Hone.
  apply backbone_inv in Hmodel.
  destruct Hmodel as (w0 & w1 & w2 & w3 & n0 & n1 & n2 & n3 & _ & _ & _ & Hm).
  cbv zeta in Hm. destruct Hm as (_ & S1 & S2 & S3 & S4 & _).
  assert (Hnone : RepVGG.repvgg_convert b = None).
  { assert (Hb : exists idx inp planes s,
               RepVGG.new_block self idx inp planes s (RepVGG.cur_groups self idx)
               = Some b).
    { repeat (apply in_app_or in Hin; destruct Hin as [Hin|Hin]);
        [destruct (stage_built_In self _ _ _ _ _ _ S1 Hin) as (i & p & s & H)
        |destruct (stage_built_In self _ _ _ _ _ _ S2 Hin) as (i & p & s & H)
        |destruct (stage_built_In self _ _ _ _ _ _ S3 Hin) as (i & p & s & H)
        |destruct (stage_built_In self _ _ _ _ _ _ S4 Hin) as (i & p & s & H)];
        eauto. }
    destruct Hb as (idx & inp & planes & s & Hb).
    exact (grouped_block_not_converted self idx inp planes s b Hdep Hb Hid Hg Hci Hone). }
  assert (Hnamed : exists name, In (name, b) (RepVGG.named_blocks model)).
  { unfold RepVGG.named_blocks.
    change (RepVGG.indexed 1 (RepVGG.stage1 model))
      with (tagged 1 0 (RepVGG.stage1 model)).
    change (RepVGG.indexed 2 (RepVGG.stage2 model))
      with (tagged 2 0 (RepVGG.stage2 model)).
    change (RepVGG.indexed 3 (RepVGG.stage3 model))
      with (tagged 3 0 (RepVGG.stage3 model)).
    change (RepVGG.indexed 4 (RepVGG.stage4 model))
      with (tagged 4 0 (RepVGG.stage4 model)).
    repeat (apply in_app_or in Hin; destruct Hin as [Hin|Hin]).
    - destruct (In_tagged 1 _ _ Hin 0) as [i Hi]. exists (1, i).
      right. apply in_or_app. left. exact Hi.
    - destruct (In_tagged 2 _ _ Hin 0) as [i Hi]. exists (2, i).
      right. apply in_or_app. right. apply in_or_app. left. exact Hi.
    - destruct (In_tagged 3 _ _ Hin 0) as [i Hi]. exists (3, i).
      right. apply in_or_app. right. apply in_or_app. right.
      apply in_or_app. left. exact Hi.
    - destruct (In_tagged 4 _ _ Hin 0) as [i Hi]. exists (4, i).
      right. apply in_or_app. right. apply in_or_app. right.
      apply in_or_app. right. exact Hi. }
  destruct Hnamed as [name Hnamed].
  unfold RepVGG.repvgg_model_convert, RepVGG.convert_all.
  match goal with
  | |- obind (omap ?f ?l) _ = None =>
      assert (Hall : omap f l = None)
        by (apply omap_none with (x := (name, b));
            [exact Hnamed | cbn [snd]; rewrite Hnone; reflexivity])
  end.
  rewrite Hall. reflexivity.
Qed.

Lemma grouped_backbone_not_converted_witness :
  exists model : RepVGG.REPVGGBackbone,
    RepVGG.new_REPVGGBackbone [2; 1; 1; 1]%Z small_width_multiplier
      (RepVGG.mk_backbone_self false groups_of_block_2 (fun _ => unit_values))
    = Some model /\
    RepVGG.repvgg_model_convert model (fun _ => Some model) = None.
Proof.
  destruct (RepVGG.new_REPVGGBackbone [2; 1; 1; 1]%Z small_width_multiplier
              (RepVGG.mk_backbone_self false groups_of_block_2 (fun _ => unit_values)))
    as [model|] eqn:E; [|vm_compute in E; discriminate].
  exists model. split; [reflexivity|].
  apply (grouped_backbone_not_converted _ _ _ model (fun _ => Some model)
           (nth 1 (RepVGG.stage1 model) (RepVGG.stage0 model)) E);
    try reflexivity;
    cbv in E; injection E as <-; cbn [RepVGG.stage1 RepVGG.stage0 nth app
      RepVGG.has_identity RepVGG.block_conv RepVGG.conv RepVGG.conv_groups
      RepVGG.conv_in].
  - right. left. reflexivity.
  - reflexivity.
  - lia.
  - lia.
  - discriminate.
Defined.

(** ** main.py, lines 57-64: the learning rate *)

Section LearningRate.

Import Main.
Open Scope R_scope.

Variable args_lr : R.
Variables warm_iter max_iter : Z.

Lemma lr_floor_pos : 0 < lr_floor.
Proof. unfold lr_floor. lra. Qed.

(** Where the schedule raises: in the warm-up with [warm_iter = 0], after
    it with [max_iter = warm_iter]. *)
Lemma schedule_none (iteration : Z) :
  schedule args_lr iteration warm_iter max_iter = None
  <-> ((iteration <= warm_iter)%Z /\ warm_iter = 0%Z)
      \/ ((warm_iter < iteration)%Z /\ max_iter = warm_iter).
Proof.
  unfold schedule.
  destruct (iteration <=? warm_iter)%Z eqn:E1.
  - apply Z.leb_le in E1.
    destruct (warm_iter =? 0)%Z eqn:E2.
    + apply Z.eqb_eq in E2. split; [intros _; left; auto | reflexivity].
    + apply Z.eqb_neq in E2. split; [discriminate|]. intros [[_ H]|[H _]]; [congruence|lia].
  - apply Z.leb_gt in E1.
    destruct (max_iter - warm_iter =? 0)%Z eqn:E2.
    + apply Z.eqb_eq in E2. split; [intros _; right; split; lia | reflexivity].
    + apply Z.eqb_neq in E2. split; [discriminate|]. intros [[H _]|[_ H]]; lia.
Qed.

Hypothesis warm_up : (0 < warm_iter < max_iter)%Z.
Hypothesis lr_above_floor : lr_floor <= args_lr.

Lemma schedule_warm (iteration : Z) :
  (iteration <= warm_iter)%Z ->
  schedule args_lr iteration warm_iter max_iter
  = Some (lr_floor + (args_lr - lr_floor) * IZR iteration / IZR warm_iter).
Proof.
  intros H. unfold schedule. apply Z.leb_le in H. rewrite H.
  replace (warm_iter =? 0)%Z with false by (symmetry; apply Z.eqb_neq; lia).
  reflexivity.
Qed.

Lemma schedule_cos (iteration : Z) :
  (warm_iter < iteration)%Z ->
  schedule args_lr iteration warm_iter max_iter
  = Some (lr_floor
          + (args_lr - lr_floor) * (5 / 10)
            * (1 + cos (IZR (iteration - warm_iter) * PI / IZR (max_iter - warm_iter)))).
Proof.
  intros H. unfold schedule. apply Z.leb_gt in H. rewrite H.
  replace (max_iter - warm_iter =? 0)%Z with false by (symmetry; apply Z.eqb_neq; lia).
  reflexivity.
Qed.

Lemma warm_pos : 0 < IZR warm_iter.
Proof. apply (IZR_lt 0). lia. Qed.

Lemma span_pos : 0 < IZR (max_iter - warm_iter).
Proof. apply (IZR_lt 0). lia. Qed.

(** The angle of the cosine runs from 0 to [PI], growing with the
    iteration. *)
Lemma angle_range (iteration : Z) :
  (warm_iter <= iteration <= max_iter)%Z ->
  0 <= IZR (iteration - warm_iter) * PI / IZR (max_iter - warm_iter) <= PI.
Proof.
  intros H. pose proof span_pos as Hs. pose proof PI_RGT_0 as Hpi.
  assert (H0 : 0 <= IZR (iteration - warm_iter)) by (apply (IZR_le 0); lia).
  assert (H1 : IZR (iteration - warm_iter) <= IZR (max_iter - warm_iter))
    by (apply IZR_le; lia).
  split.
  - apply Rmult_le_pos; [|left; apply Rinv_0_lt_compat, Hs].
    apply Rmult_le_pos; lra.
  - apply Rmult_le_reg_r with (IZR (max_iter - warm_iter)); [exact Hs|].
    unfold Rdiv. rewrite Rmult_assoc, Rinv_l by lra. nra.
Qed.

Lemma angle_mono (i j : Z) :
  (i <= j)%Z ->
  IZR (i - warm_iter) * PI / IZR (max_iter - warm_iter)
  <= IZR (j - warm_iter) * PI / IZR (max_iter - warm_iter).
Proof.
  intros H. pose proof span_pos as Hs. pose proof PI_RGT_0 as Hpi.
  assert (H1 : IZR (i - warm_iter) <= IZR (j - warm_iter)) by (apply IZR_le; lia).
  unfold Rdiv. apply Rmult_le_compat_r; [left; apply Rinv_0_lt_compat, Hs|].
  nra.
Qed.

Lemma schedule_bounds (iteration : Z) :
  (0 <= iteration <= max_iter)%Z ->
  exists lr, schedule args_lr iteration warm_iter max_iter = Some lr /\
             lr_floor <= lr <= args_lr.
Proof.
  intros H. destruct (Z_le_gt_dec iteration warm_iter) as [Hw|Hw].
  - rewrite schedule_warm by exact Hw. eexists. split; [reflexivity|].
    pose proof warm_pos as Hp.
    assert (H0 : 0 <= IZR iteration) by (apply (IZR_le 0); lia).
    assert (H1 : IZR iteration <= IZR warm_iter) by (apply IZR_le; lia).
    assert (Hq : 0 <= IZR iteration / IZR warm_iter <= 1).
    { split.
      - apply Rmult_le_pos; [exact H0 | left; apply Rinv_0_lt_compat, Hp].
      - apply Rmult_le_reg_r with (IZR warm_iter); [exact Hp|].
        unfold Rdiv. rewrite Rmult_assoc, Rinv_l by lra. lra. }
    unfold Rdiv in *. rewrite Rmult_assoc.
    set (q := IZR iteration * / IZR warm_iter) in *. nra.
  - rewrite schedule_cos by lia. eexists. split; [reflexivity|].
    pose proof (COS_bound (IZR (iteration - warm_iter) * PI / IZR (max_iter - warm_iter)))
      as Hc.
    set (c := cos _) in *. nra.
Qed.

Lemma schedule_rises (i j : Z) (lri lrj : R) :
  (0 <= i <= j)%Z -> (j <= warm_iter)%Z ->
  schedule args_lr i warm_iter max_iter = Some lri ->
  schedule args_lr j warm_iter max_iter = Some lrj ->
  lri <= lrj.
Proof.
  intros Hij Hj Hi Hjj.
  rewrite schedule_warm in Hi by lia. rewrite schedule_warm in Hjj by lia.
  injection Hi as <-. injection Hjj as <-.
  pose proof warm_pos as Hp.
  assert (H1 : IZR i <= IZR j) by (apply IZR_le; lia).
  assert (Hq : IZR i / IZR warm_iter <= IZR j / IZR warm_iter).
  { unfold Rdiv. apply Rmult_le_compat_r; [left; apply Rinv_0_lt_compat, Hp | exact H1]. }
  unfold Rdiv in *. rewrite !Rmult_assoc.
  set (qi := IZR i * / IZR warm_iter) in *.
  set (qj := IZR j * / IZR warm_iter) in *. nra.
Qed.

Lemma schedule_falls (i j : Z) (lri lrj : R) :
  (warm_iter <= i <= j)%Z -> (j <= max_iter)%Z ->
  schedule args_lr i warm_iter max_iter = Some lri ->
  schedule args_lr j warm_iter max_iter = Some lrj ->
  lrj <= lri.
Proof.
  intros Hij Hj Hi Hjj.
  destruct (Z.eq_dec i warm_iter) as [->|Hne].
  - rewrite schedule_warm in Hi by lia. injection Hi as <-.
    destruct (schedule_bounds j) as (lr & Hlr & Hb); [lia|].
    rewrite Hlr in Hjj. injection Hjj as <-.
    pose proof warm_pos as Hp.
    replace (lr_floor + (args_lr - lr_floor) * IZR warm_iter / IZR warm_iter)
      with args_lr by (field; lra).
    lra.
  - rewrite schedule_cos in Hi by lia. rewrite schedule_cos in Hjj by lia.
    injection Hi as <-. injection Hjj as <-.
    assert (Hc : cos (IZR (j - warm_iter) * PI / IZR (max_iter - warm_iter))
                 <= cos (IZR (i - warm_iter) * PI / IZR (max_iter - warm_iter))).
    { apply cos_decr_1.
      - apply angle_range. lia.
      - apply angle_range. lia.
      - apply angle_range. lia.
      - apply angle_range. lia.
      - apply angle_mono. lia. }
    set (ci := cos (IZR (i - warm_iter) * PI / IZR (max_iter - warm_iter))) in *.
    set (cj := cos (IZR (j - warm_iter) * PI / IZR (max_iter - warm_iter))) in *.
    nra.
Qed.

Lemma schedule_ends :
  schedule args_lr 0 warm_iter max_iter = Some lr_floor /\
  schedule args_lr warm_iter warm_iter max_iter = Some args_lr /\
  schedule args_lr max_iter warm_iter max_iter = Some lr_floor.
Proof.
  pose proof warm_pos as Hp. pose proof span_pos as Hs.
  split; [|split].
  - rewrite schedule_warm by lia. f_equal. unfold Rdiv. ring.
  - rewrite schedule_warm by lia. f_equal. field. lra.
  - rewrite schedule_cos by lia. f_equal.
    replace (IZR (max_iter - warm_iter) * PI / IZR (max_iter - warm_iter)) with PI
      by (field; lra).
    rewrite cos_PI. ring.
Qed.

End LearningRate.

(** The learning rate of [adjust_learning_rate], for [0 < warm_iter <
    max_iter] and [args.lr >= 1e-6] (floats taken as real numbers): it is
    [1e-6] at iteration 0, rises with the iteration to [args.lr] at
    [warm_iter], then falls with the iteration, back to [1e-6] at
    [max_iter]; at every iteration from 0 to [max_iter] the function returns
    a rate between [1e-6] and [args.lr]. *)
Theorem learning_rate_schedule (args_lr : R) (warm_iter max_iter : Z) :
  (0 < warm_iter < max_iter)%Z ->
  (Main.lr_floor <= args_lr)%R ->
  Main.schedule args_lr 0 warm_iter max_iter = Some Main.lr_floor /\
  Main.schedule args_lr warm_iter warm_iter max_iter = Some args_lr /\
  Main.schedule args_lr max_iter warm_iter max_iter = Some Main.lr_floor /\
  (forall iteration : Z,
      (0 <= iteration <= max_iter)%Z ->
      exists lr : R,
        Main.schedule args_lr iteration warm_iter max_iter = Some lr /\
        (Main.lr_floor <= lr <= args_lr)%R) /\
  (forall (i j : Z) (lri lrj : R),
      (0 <= i <= j)%Z -> (j <= warm_iter)%Z ->
      Main.schedule args_lr i warm_iter max_iter = Some lri ->
      Main.schedule args_lr j warm_iter max_iter = Some lrj ->
      (lri <= lrj)%R) /\
  (forall (i j : Z) (lri lrj : R),
      (warm_iter <= i <= j)%Z -> (j <= max_iter)%Z ->
      Main.schedule args_lr i warm_iter max_iter = Some lri ->
      Main.schedule args_lr j warm_iter max_iter = Some lrj ->
      (lrj <= lri)%R).
Proof.
  intros Hw Hlr.
  destruct (schedule_ends args_lr warm_iter max_iter Hw) as (H0 & H1 & H2).
  split; [exact H0|]. split; [exact H1|]. split; [exact H2|].
  split; [intros it Hit; apply schedule_bounds; assumption|].
  split.
  - intros i j lri lrj. apply schedule_rises; assumption.
  - intros i j lri lrj. apply schedule_falls; assumption.
Qed.

Lemma learning_rate_schedule_witness :
  Main.schedule (1 / 100) 0 500 1000 = Some Main.lr_floor /\
  Main.schedule (1 / 100) 500 500 1000 = Some (1 / 100)%R.
Proof.
  destruct (learning_rate_schedule (1 / 100) 500 1000) as (H0 & H1 & _).
  - lia.
  - unfold Main.lr_floor. lra.
  - split; assumption.
Defined.

(** In the training loop ([0 <= iteration < max_iter]),
    [adjust_learning_rate] raises (ZeroDivisionError) exactly at iteration 0
    with [--warm_iter 0]; otherwise it returns the rate of the schedule,
    after writing it as the ['lr'] of every parameter group and changing
    nothing else in the groups. *)
Theorem adjust_learning_rate_returns (args_lr : R) (groups : list Main.param_group)
  (epoch iteration warm_iter max_iter : Z) :
  (0 <= iteration < max_iter)%Z ->
  (Main.adjust_learning_rate args_lr groups epoch iteration warm_iter max_iter = None
   <-> (warm_iter = 0%Z /\ iteration = 0%Z))
  /\
  (forall (groups' : list Main.param_group) (lr : R),
      Main.adjust_learning_rate args_lr groups epoch iteration warm_iter max_iter
      = Some (groups', lr) ->
      Main.schedule args_lr iteration warm_iter max_iter = Some lr /\
      map Main.group_lr groups' = repeat (Some lr) (length groups) /\
      map Main.group_params groups' = map Main.group_params groups /\
      map Main.group_weight_decay groups' = map Main.group_weight_decay groups).
Proof.
  intros Hit. unfold Main.adjust_learning_rate. split.
  - destruct (Main.schedule args_lr iteration warm_iter max_iter) as [lr|] eqn:E.
    + simpl. split; [discriminate|]. intros [Hw Hi].
      assert (Hn : Main.schedule args_lr iteration warm_iter max_iter = None).
      { apply schedule_none. left. lia. }
      congruence.
    + simpl. split; [|reflexivity]. intros _.
      apply schedule_none in E. lia.
  - intros groups' lr H.
    destruct (Main.schedule args_lr iteration warm_iter max_iter) as [lr0|];
      simpl in H; [|discriminate].
    injection H as <- <-. split; [reflexivity|].
    rewrite !map_map. cbn [Main.set_lr Main.group_lr Main.group_params
                             Main.group_weight_decay].
    split; [|split; reflexivity].
    induction groups as [|g groups IH]; simpl; [reflexivity|]. f_equal. exact IH.
Qed.

Lemma adjust_learning_rate_returns_witness :
  Main.adjust_learning_rate (1 / 100) [] 1 0 0 1000 = None.
Proof.
  apply (proj1 (adjust_learning_rate_returns (1 / 100) [] 1 0 0 1000
                  ltac:(lia))).
  split; reflexivity.
Defined.

(** ** main.py, lines 67-76: the parameter groups *)

Section TencentTrick.

Import Main.

(** The parameters that get no weight decay: those with one axis (the
    weights and biases of the normalisations, the biases of the
    convolutions) and those whose name ends in [.bias]. *)
Definition undecayed (np : string * parameter) : bool :=
  (length (p_shape (snd np)) =? 1) || endswith (fst np) ".bias".

Definition trainable (np : string * parameter) : bool := requires_grad (snd np).

Lemma tencent_loop_spec (named : list (string * parameter)) :
  forall decay no_decay,
    tencent_loop named decay no_decay
    = (decay ++ map snd (filter (fun np => trainable np && negb (undecayed np)) named),
       no_decay ++ map snd (filter (fun np => trainable np && undecayed np) named)).
Proof.
  induction named as [|[name param] named IH]; intros decay no_decay.
  - simpl. rewrite !app_nil_r. reflexivity.
  - cbn [tencent_loop filter].
    change (trainable (name, param)) with (requires_grad param).
    change (undecayed (name, param))
      with ((length (p_shape param) =? 1) || endswith name ".bias").
    destruct (requires_grad param); cbn [negb andb].
    + destruct ((length (p_shape param) =? 1) || endswith name ".bias");
        cbn [negb map snd]; rewrite IH, <- app_assoc; reflexivity.
    + apply IH.
Qed.

Lemma filter_split_perm {X : Type} (p q : X -> bool) (l : list X) :
  Permutation (filter (fun x => p x && q x) l ++ filter (fun x => p x && negb (q x)) l)
              (filter p l).
Proof.
  induction l as [|x l IH]; simpl; [constructor|].
  destruct (p x), (q x); simpl.
  - constructor. exact IH.
  - apply Permutation_sym, Permutation_cons_app, Permutation_sym, IH.
  - exact IH.
  - exact IH.
Qed.

End TencentTrick.

(** [tencent_trick] returns two parameter groups: the first, with
    ['weight_decay'] 0.0, holds the trainable parameters that have one axis
    or a name ending in [.bias]; the second, with no ['weight_decay'] of its
    own, the other trainable parameters; both in the order of
    [named_parameters()].  Every trainable parameter is in exactly one of
    the two, and no frozen parameter is in either. *)
Theorem tencent_trick_partition (named : list (string * Main.parameter)) :
  let no_decay := map snd (filter (fun np => trainable np && undecayed np) named) in
  let decay := map snd (filter (fun np => trainable np && negb (undecayed np)) named) in
  Main.tencent_trick named
  = [Main.mk_param_group no_decay None (Some 0%R); Main.mk_param_group decay None None] /\
  Permutation (no_decay ++ decay) (map snd (filter trainable named)) /\
  Forall (fun p => Main.requires_grad p = true) (no_decay ++ decay).
Proof.
  intros no_decay decay. split; [|split].
  - unfold Main.tencent_trick. rewrite tencent_loop_spec. reflexivity.
  - unfold no_decay, decay. rewrite <- map_app. apply Permutation_map.
    apply filter_split_perm.
  - apply Forall_app. split; apply Forall_forall; intros p Hp;
      apply in_map_iff in Hp; destruct Hp as (np & <- & Hnp);
      apply filter_In in Hnp; destruct Hnp as [_ Hnp];
      apply andb_prop in Hnp; exact (proj1 Hnp).
Qed.


(** ** main.py, lines 79-100 and 144-178: the epochs of the training loop *)

Section TrainingLoop.

Import Main.

Variable args_lr : R.
Variables epoch_size warm_iter max_iter : Z.
Variable batches : nat.

Hypothesis epoch_size_pos : (0 < epoch_size)%Z.
Hypothesis warm_iter_set : warm_iter <> 0%Z.
Hypothesis enough_batches : (epoch_size <= Z.of_nat batches)%Z.

(** The state after [i] iterations: the optimizer has kept its parameter
    groups, the epoch counts the iterators made so far, and the iterator has
    given as many batches as iterations were done in the epoch. *)
Definition after_iterations (i : nat) (st : loop_state) : Prop :=
  param_groups st <> [] /\
  length (lrs st) = i /\
  (i = 0 -> epoch st = 0%Z /\ batch_iterator st = None) /\
  (0 < i ->
   epoch st = ((Z.of_nat i - 1) / epoch_size + 1)%Z /\
   exists b : nat,
     batch_iterator st = Some b /\
     Z.of_nat b = (Z.of_nat batches - ((Z.of_nat i - 1) mod epoch_size + 1))%Z).

Lemma schedule_in_loop (i : nat) :
  (Z.of_nat i < max_iter)%Z ->
  exists lr, schedule args_lr (Z.of_nat i) warm_iter max_iter = Some lr.
Proof.
  intros Hi.
  destruct (schedule args_lr (Z.of_nat i) warm_iter max_iter) as [lr|] eqn:E;
    [eexists; reflexivity|].
  apply schedule_none in E. lia.
Qed.

Lemma div_step_new (i : Z) :
  (0 < i)%Z -> (i mod epoch_size = 0)%Z ->
  ((i - 1) / epoch_size + 1 = i / epoch_size)%Z.
Proof.
  intros Hi Hm.
  pose proof (Z.div_mod i epoch_size ltac:(lia)) as E1.
  pose proof (Z.div_mod (i - 1) epoch_size ltac:(lia)) as E2.
  pose proof (Z.mod_pos_bound (i - 1) epoch_size epoch_size_pos) as B2.
  rewrite Hm in E1.
  set (q1 := (i / epoch_size)%Z) in *. set (q2 := ((i - 1) / epoch_size)%Z) in *.
  set (r2 := ((i - 1) mod epoch_size)%Z) in *.
  assert (H : (epoch_size * (q1 - q2) = r2 + 1)%Z) by lia.
  assert (Hlo : (0 < q1 - q2)%Z) by nia.
  assert (Hhi : (q1 - q2 < 2)%Z) by nia.
  lia.
Qed.

Lemma div_step_same (i : Z) :
  (0 <= i)%Z -> (i mod epoch_size <> 0)%Z ->
  ((i - 1) / epoch_size = i / epoch_size)%Z /\
  ((i - 1) mod epoch_size + 1 = i mod epoch_size)%Z.
Proof.
  intros Hi Hm.
  pose proof (Z.div_mod i epoch_size ltac:(lia)) as E1.
  pose proof (Z.mod_pos_bound i epoch_size epoch_size_pos) as B1.
  assert (Hq : ((i - 1) / epoch_size = i / epoch_size)%Z).
  { symmetry. apply Z.div_unique with (r := (i mod epoch_size - 1)%Z); lia. }
  split; [exact Hq|].
  pose proof (Z.div_mod (i - 1) epoch_size ltac:(lia)) as E2.
  rewrite Hq in E2. lia.
Qed.

Lemma iteration_step_runs (i : nat) (st : loop_state) :
  after_iterations i st ->
  (Z.of_nat i < max_iter)%Z ->
  exists st',
    iteration_step args_lr epoch_size warm_iter max_iter batches st (Z.of_nat i)
    = inr st' /\
    after_iterations (S i) st'.
Proof.
  intros (Hgr & Hlen & H0 & Hpos) Hi.
  unfold iteration_step.
  replace (epoch_size =? 0)%Z with false by (symmetry; apply Z.eqb_neq; lia).
  unfold adjust_learning_rate.
  destruct (schedule_in_loop i Hi) as [lr Hlr].
  assert (Hprint : forall it, printed_lr it (map (set_lr lr) (param_groups st)) = inr tt).
  { intros it. unfold printed_lr.
    destruct (param_groups st) as [|g gs]; [contradiction|].
    destruct (it mod 100 =? 0)%Z; reflexivity. }
  assert (Hkept : map (set_lr lr) (param_groups st) <> []).
  { destruct (param_groups st); [contradiction | discriminate]. }
  destruct (Z.of_nat i mod epoch_size =? 0)%Z eqn:Em.
  - apply Z.eqb_eq in Em. cbn [param_groups epoch batch_iterator lrs].
    rewrite Hlr. cbn [obind].
    destruct batches as [|rest] eqn:Eb; [lia|].
    rewrite Hprint.
    eexists. split; [reflexivity|].
    unfold after_iterations. cbn [lrs epoch batch_iterator param_groups].
    split; [exact Hkept|].
    split; [rewrite length_app; simpl; lia|].
    split; [discriminate|]. intros _.
    replace (Z.of_nat (S i) - 1)%Z with (Z.of_nat i) by lia.
    split.
    + destruct i as [|i'].
      * destruct (H0 eq_refl) as [-> _]. reflexivity.
      * destruct (Hpos ltac:(lia)) as [-> _].
        rewrite div_step_new by (try lia; exact Em). reflexivity.
    + exists rest. split; [reflexivity|]. rewrite Em. lia.
  - apply Z.eqb_neq in Em. rewrite Hlr. cbn [obind].
    assert (Hi0 : 0 < i).
    { destruct i; [exfalso; apply Em; reflexivity | lia]. }
    destruct (Hpos Hi0) as (Hep & b & Hb & Hbv).
    destruct (div_step_same (Z.of_nat i) ltac:(lia) Em) as [Hq Hr].
    pose proof (Z.mod_pos_bound (Z.of_nat i) epoch_size epoch_size_pos) as Hbound.
    rewrite Hb.
    destruct b as [|rest]; [lia|].
    rewrite Hprint.
    eexists. split; [reflexivity|].
    unfold after_iterations. cbn [lrs epoch batch_iterator param_groups].
    split; [exact Hkept|].
    split; [rewrite length_app; simpl; lia|].
    split; [discriminate|]. intros _.
    replace (Z.of_nat (S i) - 1)%Z with (Z.of_nat i) by lia.
    split; [rewrite Hep, Hq; reflexivity|].
    exists rest. split; [reflexivity|]. lia.
Qed.

Lemma iterations_run (n : nat) :
  forall (i : nat) (st : loop_state),
    after_iterations i st ->
    (Z.of_nat (i + n) <= max_iter)%Z ->
    exists st',
      iterations args_lr epoch_size warm_iter max_iter batches
        (map Z.of_nat (seq i n)) st = inr st' /\
      after_iterations (i + n) st'.
Proof.
  induction n as [|n IH]; intros i st Hst Hle.
  - exists st. rewrite Nat.add_0_r. split; [reflexivity | exact Hst].
  - cbn [seq map iterations].
    destruct (iteration_step_runs i st Hst ltac:(lia)) as (st1 & -> & Hst1).
    destruct (IH (S i) st1 Hst1 ltac:(lia)) as (st' & Hrun & Hst').
    exists st'. split; [exact Hrun|].
    replace (i + S n) with (S i + n) by lia. exact Hst'.
Qed.

End TrainingLoop.

(** The epochs of the training loop, for the data set VOC or COCO, a
    positive batch size and [--warm_iter] other than 0, with a [DataLoader]
    that yields at least [epoch_size] batches per epoch and an optimizer
    that has a parameter group (the one of line 130 has the two groups of
    [tencent_trick]): [load_dataset] gives [epoch_size = len(dataset) //
    batch_size] and [max_iter = 250 * epoch_size] (140 for COCO); the loop
    then runs [max_iter] iterations without a division by zero, without
    exhausting an iterator and without an error in the line it prints every
    100 iterations, and ends with [epoch = 250] (resp. 140). With fewer
    images than a batch, [epoch_size] and [max_iter] are 0 and the loop does
    no iteration at all. *)
Theorem training_loop_epochs (args_lr : R) (dataset : string)
  (len_VOC len_COCO batch_size warm_iter : Z) (batches : nat)
  (groups : list Main.param_group) :
  dataset = "VOC"%string \/ dataset = "COCO"%string ->
  (0 < batch_size)%Z -> (0 <= len_VOC)%Z -> (0 <= len_COCO)%Z ->
  warm_iter <> 0%Z ->
  groups <> [] ->
  let len := if (dataset =? "VOC")%string then len_VOC else len_COCO in
  let epochs := if (dataset =? "VOC")%string then 250%Z else 140%Z in
  Main.load_dataset dataset len_VOC len_COCO batch_size
  = inr ((len / batch_size)%Z, (epochs * (len / batch_size))%Z) /\
  ((len < batch_size)%Z ->
   Main.training_loop args_lr (len / batch_size) warm_iter
     (epochs * (len / batch_size)) batches groups
   = inr (Main.mk_loop_state 0 None groups [])) /\
  ((batch_size <= len)%Z -> (len / batch_size <= Z.of_nat batches)%Z ->
   exists st : Main.loop_state,
     Main.training_loop args_lr (len / batch_size) warm_iter
       (epochs * (len / batch_size)) batches groups = inr st /\
     Main.epoch st = epochs /\
     length (Main.lrs st) = Z.to_nat (epochs * (len / batch_size))).
Proof.
  intros Hd Hb Hv Hc Hw Hgroups len epochs.
  assert (Hlen : (0 <= len)%Z) by (unfold len; destruct (dataset =? "VOC")%string; lia).
  assert (Hep : (0 < epochs)%Z) by (unfold epochs; destruct (dataset =? "VOC")%string; lia).
  split; [|split].
  - unfold Main.load_dataset, len, epochs.
    replace (batch_size =? 0)%Z with false by (symmetry; apply Z.eqb_neq; lia).
    destruct Hd as [-> | ->]; reflexivity.
  - intros Hsmall. rewrite Z.div_small by lia. rewrite Z.mul_0_r. reflexivity.
  - intros Hbig Hbatches.
    assert (HE : (0 < len / batch_size)%Z) by (apply Z.div_str_pos; lia).
    set (E := (len / batch_size)%Z) in *.
    destruct (iterations_run args_lr E warm_iter (epochs * E) batches HE Hw Hbatches
                (Z.to_nat (epochs * E)) 0 (Main.mk_loop_state 0 None groups []))
      as (st & Hrun & Hst).
    + unfold after_iterations. cbn. split; [exact Hgroups|].
      split; [reflexivity|]. split; [auto | lia].
    + lia.
    + exists st. split; [exact Hrun|].
      destruct Hst as (_ & Hl & _ & Hpos). cbn [Nat.add] in *.
      split; [|exact Hl].
      destruct Hpos as [-> _]; [lia|].
      rewrite Z2Nat.id by lia.
      assert (Hq : ((epochs * E - 1) / E = epochs - 1)%Z).
      { symmetry. apply Z.div_unique with (r := (E - 1)%Z); lia. }
      rewrite Hq. lia.
Qed.

Lemma training_loop_epochs_witness :
  exists st : Main.loop_state,
    Main.training_loop (1 / 100) (7 / 2) 500 (250 * (7 / 2)) 4
      (Main.tencent_trick sample_parameters) = inr st /\
    Main.epoch st = 250%Z.
Proof.
  destruct (training_loop_epochs (1 / 100) "VOC" 7 0 2 500 4
              (Main.tencent_trick sample_parameters))
    as (_ & _ & Hrun); try lia; [left; reflexivity | discriminate |].
  destruct Hrun as (st & Hst & He & _);
    [vm_compute; discriminate | vm_compute; discriminate |].
  exists st. split; [exact Hst | exact He].
Defined.


(** With [--warm_iter 0] the training loop raises ZeroDivisionError in its
    first iteration, in [adjust_learning_rate], before a batch is drawn,
    whenever there is an iteration to run. *)
Theorem zero_warm_iter_stops_training (args_lr : R) (epoch_size max_iter : Z)
  (batches : nat) (groups : list Main.param_group) :
  (0 < epoch_size)%Z -> (0 < max_iter)%Z ->
  Main.training_loop args_lr epoch_size 0 max_iter batches groups
  = inl Main.ZeroDivisionError.
Proof.
  intros HE HM. unfold Main.training_loop.
  destruct (Z.to_nat max_iter) as [|n] eqn:En; [lia|].
  cbn [seq map Main.iterations]. unfold Main.iteration_step.
  replace (epoch_size =? 0)%Z with false by (symmetry; apply Z.eqb_neq; lia).
  change (Z.of_nat 0) with 0%Z. rewrite Z.mod_0_l by lia.
  cbn [Z.eqb Main.param_groups Main.epoch Main.batch_iterator Main.lrs].
  unfold Main.adjust_learning_rate, Main.schedule. cbn [Z.leb Z.compare Z.eqb obind].
  reflexivity.
Qed.

Lemma zero_warm_iter_stops_training_witness :
  Main.training_loop (1 / 100) 3 0 750 4 [] = inl Main.ZeroDivisionError.
Proof. apply zero_warm_iter_stops_training; lia. Defined.
